(* ===== verification/_CoqProject ===== *)
-Q . S2P
Prelude.v
Crypto.v
GoJson.v
GoDecimal.v
GoTime.v
Domain.v
Schema.v
Redis.v
Runtime.v
Ports.v
Fixtures.v
InventoryRepo.v
RedisRepo.v
InventoryService.v
CheckoutRepos.v
CatalogRepos.v
AccountRepos.v
Rows.v
PaymentGateways.v
OrderService.v
OrderCreate.v
OrderConfirm.v
Sales.v
OrderRaces.v
Http.v
Webhook.v
Checkout.v
GoFloat.v
NotificationService.v
AuthService.v
AuthTokens.v
AdmissionService.v
Requests.v
Walk.v
Config.v
Worker.v
PurchaseHandlers.v
PurchaseReplies.v
CatalogHandlers.v
CatalogReplies.v
AuthHandlers.v
Router.v
Boundary.v
Wire.v
SalesSafety.v
Journey.v
Outbox.v
Platform.v
Processes.v
