(* ===== verification/Prelude.v ===== *)
(** * ticketing-backend: a verification development

    The repository is the backend of a ticket shop for sports clubs, written in
    Go: an API process ([src/cmd/api]) and a worker process ([src/cmd/worker])
    over a Postgres database and a Redis server. Fans queue in a waiting room,
    hold a unit for a few minutes, turn holds into an order and pay it; the
    payment provider reports captures through a signed webhook; the worker takes
    expired holds back, admits fans and sends the mails of an outbox.
    Administrators of a club set up venues, events and prices and publish
    inventory.

    ** How the program is modelled

    A Go function becomes a function [World -> result A * World] ([Runtime]): the
    world holds the database, the Redis state and the open transaction, and every
    call to the outside (a statement, a Redis command, an HTTP request, the
    clock, the UUID generator) is one numbered interaction whose outcome an
    arbitrary environment [Env] decides: delivered, not sent, or effective with
    its reply lost; and what the other sessions committed just before it. Go's
    [(value, error)] is the sum [result], its wrapped errors the tree [GoError]
    with [errors_Is]. A panic is a failure of a handler ([Router.Recovery]).
    Theorems that say "in any environment" hold for every interleaving with
    other API replicas and workers and every pattern of network failures; those
    that describe a whole run exactly assume [Quiet] (everything delivered, nobody
    else writes).

    Transactions run at Postgres' default isolation level, read committed: each
    statement of a transaction sees what others have committed by then, up to its
    first writing statement; what the transaction does from there on takes effect
    at its commit.

    Go's [int64] is [Z] with its wrap-around ([wrap64]) wherever the source adds
    amounts; times are whole microseconds, the resolution of Postgres (a process
    whose clock reads finer, or a request that sends finer fractions, sees them
    only in the reply of that very request); UUIDs are opaque. Fuel occurs in one place,
    the JSON decoder ([GoJson.value]): [fuel_for], twice the length of the text,
    is shown to be enough for every input.

    ** The files

    - [Prelude], [Crypto], [GoJson], [GoDecimal], [GoTime], [GoFloat]: shared
      lemmas and tactics, and the parts of Go's standard library the program
      depends on, as executable definitions: SHA-256, HMAC, hex and base64,
      encoding/json with its struct decoding, decimal integers, RFC 3339 times
      read and printed, HTTP times, float64 formatting.
    - [Domain], [Schema]: [src/internal/domain]; the tables of [src/migrations]
      and the SQL constructs (insert with constraints, guarded update, ordering
      and paging).
    - [Redis], [Runtime], [Ports], [Fixtures]: the Redis server as a class with
      its documented laws and a concrete instance; the execution model with
      rely-guarantee rules ([upholds], [moved_by]); the Go interfaces as classes
      with the contracts the services rely on; a concrete database for the
      witnesses.
    - [InventoryRepo], [CheckoutRepos], [CatalogRepos], [AccountRepos]:
      [src/internal/repository/postgres], every statement with its WHERE clause,
      constraints and triggers; [Rows]: how values pass through the columns,
      those that may be NULL or hold JSON included.
      [RedisRepo]: [src/internal/repository/redis].
    - [InventoryService], [OrderService] (with [OrderCreate], [OrderConfirm],
      [OrderRaces]), [AuthService] (with [AuthTokens]), [AdmissionService],
      [NotificationService]: [src/internal/service]. [PaymentGateways]:
      [src/internal/platform/payment]; the mail transports of
      [src/internal/platform/email] are in [NotificationService].
    - [Http], [Requests], [Webhook] (with [Checkout]), [PurchaseHandlers] (with
      [PurchaseReplies]), [CatalogHandlers] (with [CatalogReplies]),
      [AuthHandlers], [Router]: [src/internal/pkg/response],
      [src/internal/handler] and the wiring of [src/cmd/api]. A handler is a
      definition with its Go method's name and the suffix [_handler]. [Walk]
      has the lemmas that follow the text of any handler. [Boundary]: what a
      buyer's request can write. [Wire]: the bytes of the replies and the log
      line of a request.
    - [Sales], [SalesSafety]: the books of the shop, an invariant over orders,
      items, units, payments and notifications, with the steps that keep it; and
      the walk through every route of the API and every tick of the worker that
      shows they take no other steps. [Journey]: concrete purchases through the
      router, from the queue to the mail. [Outbox]: the notification loop.
    - [Platform]: code that no process reaches.
    - [Config], [Worker], [Processes]: [src/internal/config], the loops of
      [src/cmd/worker], and the start-up, shutdown and exit codes of the three
      commands with the clients they open.

    Operations keep the names of the source; a repository method [M] has its
    statement as [m_stmt] or [insert_...]. Where a method fills in its argument
    in place, the definition returns the struct as it leaves it.

    ** What is proved

    - The shop as a whole: whatever requests are sent to any number of API
      replicas and however the workers tick, under any failures, every order costs
      the sum of its items, every payment is for the whole total of an order, an
      order that is paid has a payment and a confirmation, its units are sold and
      in no other paid order, nothing is sold that was not ordered, every unit
      satisfies its constraint and the audit log accounts for it, no account
      disappears and every notification is for an existing one
      ([SalesSafety.books_stay_in_order]). It is a rely-guarantee statement: the
      steps a process takes ([Sales.sales_step]) are the steps it tolerates from
      the others.
    - Inventory: no seat is sold twice in any history of statements; holds and
      releases balance; the audit log explains the table; the CHECK constraint
      cannot be violated; counts are exact. [HoldSeat] is at most one
      compare-and-swap whatever Redis does, decides as documented when Redis
      works, and only the holder can release or convert. The sweep never takes a
      live hold, and the worker's loops, however they interleave, empty the
      backlog.
    - Orders: [CreateOrder] prices exactly the units held under the tokens it is
      given, is retried without duplication and leaves no trace when it fails;
      [ConfirmPayment] is all-or-nothing in any environment, and undisturbed it
      fulfils the order or asks the provider, once, for the refund. The signed webhook is the only way to it, and a checkout that
      keeps its holds completes. One concurrent run is shown to refund a paid
      order.
    - Redis: mutual exclusion of the lock over any history of [Acquire] and
      [Release] calls, the bound of the rate limiter over any history of [Allow]
      calls and under interference, FIFO order of the waiting room, and the admission policy on top of it.
    - Accounts: refresh tokens are single-use under any interleaving, a login is
      sound and its refusals indistinguishable, and no administrator appears
      without the bootstrap secret.
    - The HTTP surface: the replies of the hold and order endpoints are the truth
      in any environment; a cart survives the wire and every body is read in
      bounded recursion; publishing creates exactly what it announces; the public
      listing shows a club's events on sale; the router's guards implement the
      access policy; an administrator's request stays within the club of the
      token, and a buyer's within the club and the account of the buyer
      ([Boundary.purchase_boundary]). The bytes of every reply are read back as
      what the handler meant.
    - Storage: what an INSERT writes into the columns of a table is read back as
      the struct that the model's table holds, NULLs, JSON objects, addresses and
      coordinates included; units, payments and tokens in every later state too.
    - Mails: the notification loop, interleaved with the others, settles every
      pending row: the confirmation of each paid order is rendered, addressed to
      the buyer and marked sent exactly when the transport accepts it; the amount
      it shows is exact. Processes: loaded settings are within their bounds; whatever
      fails, a process that returns has closed what it opened, in the opposite
      order, and after a shutdown without an error no request was handled without
      its connections; exit codes say what happened.

    ** Parameters

    Code outside the repository is a class, with the documented laws as classes
    of their own: google/uuid ([UuidPkg]), bcrypt, golang-jwt and crypto/rand
    ([AuthService]), net/smtp ([NotificationService]), Postgres' inet and
    NUMERIC casts and text collation, go-playground/validator ([Requests]), env and godotenv
    ([Config]), pgxpool, go-redis' client, zap, golang-migrate and net/http as
    the processes use them ([Processes]), pgx's scanning of columns ([Rows]),
    kafka-go ([Platform]), the time zone of the process
    ([GoTime]), go-chi's matching, RealIP and cors ([Router]), the texts of
    errors ([ErrorText]). Every law has a concrete instance that the witnesses
    use.

    ** Not modelled

    Log messages other than the access log ([Wire.Logging]); HTTP response
    headers other than the request id; the texts of the replies of third-party
    handlers, a parameter of [Wire]; request time-outs and cancelled contexts
    other than as failed interactions; arithmetic on the coordinates of a seat,
    which are carried as opaque floats and rounded by a parameter; values of JSON
    columns other than texts in the
    branding of a club. The event bus and the
    object store of [src/internal/platform] and the entity of memberships are in
    [Platform], but nothing of the program is connected to them. Reserved-seat
    publishing does not exist in the program. *)
From stdpp Require Export base tactics numbers option list strings sorting gmap.
From Stdlib Require Import Ascii DecimalString DecimalN DecimalZ.

#[global] Set Default Goal Selector "!".

Declare Scope go_scope.
Delimit Scope go_scope with go.

(** ** Scalars of the Go program *)

(** [uuid.UUID] is an opaque 128-bit identifier; the model never looks
    inside one, so it is a natural number with [uuid.Nil] as zero. *)
Abbreviation UUID := N (only parsing).
Definition uuid_Nil : UUID := 0%N.

(** Instants ([time.Time]) and durations ([time.Duration]), both in
    microseconds, the resolution of a Postgres [timestamptz]. *)
Abbreviation Time := Z (only parsing).
Abbreviation Duration := Z (only parsing).

Definition Microsecond : Duration := 1%Z.
Definition Second : Duration := 1000000%Z.
Definition Minute : Duration := (60 * Second)%Z.
Definition Hour : Duration := (60 * Minute)%Z.

(** The zero [time.Time], January 1 of year 1. *)
Definition time_Zero : Time := (-62135596800 * Second)%Z.

(** [t.Before(u)] and [t.Add(d)]. *)
Definition Before (t u : Time) : bool := (t <? u)%Z.
Definition TimeAdd (t : Time) (d : Duration) : Time := (t + d)%Z.

(** Two's-complement wrap-around of Go's [int64]. *)
Definition int64_min : Z := (- 2 ^ 63)%Z.
Definition int64_max : Z := (2 ^ 63 - 1)%Z.
Definition wrap64 (z : Z) : Z := ((z + 2 ^ 63) mod 2 ^ 64 - 2 ^ 63)%Z.
Definition in_int64 (z : Z) : Prop := (int64_min <= z <= int64_max)%Z.

#[global] Instance in_int64_dec z : Decision (in_int64 z).
Proof. unfold in_int64. apply _. Defined.

(** ** github.com/google/uuid

    The package is not part of the repository: it is a parameter, with the
    documented behaviour the program relies on. [Parse] inverts [String],
    and the textual form contains no colon (it is made of hexadecimal
    digits and dashes), which is what makes the Redis key formats of the
    repository unambiguous. *)
Class UuidPkg := {
  uuid_String : UUID -> string;
  uuid_Parse : string -> option UUID
}.

Fixpoint has_char (c : Ascii.ascii) (s : string) : bool :=
  match s with
  | EmptyString => false
  | String a s' => Ascii.eqb a c || has_char c s'
  end.

(** [strings.ToLower] on ASCII text. *)
Definition lower_char (c : Ascii.ascii) : Ascii.ascii :=
  let n := Ascii.N_of_ascii c in
  if (65 <=? n)%N && (n <=? 90)%N then Ascii.ascii_of_N (n + 32) else c.
Fixpoint lower (s : string) : string :=
  match s with EmptyString => EmptyString | String c s' => String (lower_char c) (lower s') end.

Class UuidLaws (U : UuidPkg) : Prop := {
  uuid_Parse_String : forall u, uuid_Parse (uuid_String u) = Some u;
  uuid_String_no_colon : forall u, has_char ":"%char (uuid_String u) = false
}.

(** A concrete instance, used by the witnesses: decimal digits. *)
Definition dec_String (u : UUID) : string := NilZero.string_of_uint (N.to_uint u).
Definition dec_Parse (s : string) : option UUID :=
  option_map N.of_uint (NilZero.uint_of_string s).
#[global] Instance dec_uuid : UuidPkg := {| uuid_String := dec_String; uuid_Parse := dec_Parse |}.

(** ** Strings *)

(** [strings.Split(s, sep)] for a one-character separator: at least one part. *)
Fixpoint strings_Split (sep : Ascii.ascii) (s : string) : list string :=
  match s with
  | EmptyString => [EmptyString]
  | String c s' =>
      if Ascii.eqb c sep then EmptyString :: strings_Split sep s'
      else match strings_Split sep s' with
           | [] => [String c EmptyString]
           | p :: ps => String c p :: ps
           end
  end.

(** [strings.SplitN(s, sep, 2)] when the separator occurs. *)
Fixpoint strings_Cut (sep : Ascii.ascii) (s : string) : option (string * string) :=
  match s with
  | EmptyString => None
  | String c s' =>
      if Ascii.eqb c sep then Some (EmptyString, s')
      else match strings_Cut sep s' with Some (a, b) => Some (String c a, b) | None => None end
  end.

(** [strings.Join(parts, sep)]. *)
Fixpoint strings_Join (sep : Ascii.ascii) (l : list string) : string :=
  match l with
  | [] => EmptyString
  | [p] => p
  | p :: ps => p +:+ String sep (strings_Join sep ps)
  end.

(** [strconv.FormatInt(z, 10)]. *)
Definition FormatInt (z : Z) : string := NilZero.string_of_int (Z.to_int z).

Lemma forallb_Permutation {A} (f : A -> bool) (l l' : list A) : l ≡ₚ l' -> forallb f l = forallb f l'.
Proof. induction 1; simpl; [done|by f_equal| |congruence]. by rewrite !andb_assoc, (andb_comm (f _)). Qed.

(** ** Hint databases and tactics *)

Create HintDb ticketing discriminated.

(** Case analysis on the scrutinee of a [match] or [if], keeping the equation. *)
Ltac case_on t := let E := fresh "E" in destruct t eqn:E.

Ltac break_match_goal :=
  match goal with
  | |- context [match ?t with _ => _ end] =>
      lazymatch t with context [match _ with _ => _ end] => fail | _ => case_on t end
  end.

Ltac break_match_hyp :=
  match goal with
  | H : context [match ?t with _ => _ end] |- _ =>
      lazymatch t with context [match _ with _ => _ end] => fail | _ => case_on t end
  end.

(** Explore every branch of an executable definition in the hypotheses. *)
Ltac run_hyps := repeat (simplify_eq/=; try break_match_hyp); simplify_eq/=.
Ltac run_goal := repeat (simplify_eq/=; try break_match_goal); simplify_eq/=.
Ltac invc H := inversion H; clear H; simplify_eq/=.

(** ** Generic lemmas *)

Lemma wrap64_id z : in_int64 z -> wrap64 z = z.
Proof.
  unfold in_int64, int64_min, int64_max, wrap64. intros H.
  rewrite Z.mod_small; lia.
Qed.

Lemma wrap64_in_int64 z : in_int64 (wrap64 z).
Proof.
  unfold in_int64, int64_min, int64_max, wrap64.
  pose proof (Z.mod_pos_bound (z + 2 ^ 63) (2 ^ 64) ltac:(lia)). lia.
Qed.

Lemma wrap64_add_l a b : wrap64 (wrap64 a + b) = wrap64 (a + b).
Proof.
  unfold wrap64.
  replace ((a + 2 ^ 63) mod 2 ^ 64 - 2 ^ 63 + b + 2 ^ 63)%Z
    with ((a + 2 ^ 63) mod 2 ^ 64 + b)%Z by lia.
  rewrite Zplus_mod_idemp_l. do 2 f_equal. lia.
Qed.

Lemma uuid_String_inj `{U : UuidPkg, !UuidLaws U} u v : uuid_String u = uuid_String v -> u = v.
Proof.
  intros E. apply (f_equal uuid_Parse) in E.
  rewrite !uuid_Parse_String in E. by simplify_eq.
Qed.

Lemma has_char_app c s1 s2 : has_char c (s1 +:+ s2) = has_char c s1 || has_char c s2.
Proof.
  induction s1 as [|a s1 IH]; [done|]. simpl. rewrite IH. by rewrite orb_assoc.
Qed.

(** A separator that does not occur in the left parts makes concatenation injective. *)
Lemma sep_app_inj c a b x y :
  has_char c a = false -> has_char c b = false ->
  a +:+ String c x = b +:+ String c y -> a = b /\ x = y.
Proof.
  revert b. induction a as [|ca a IH]; intros [|cb b] Ha Hb E; simpl in *; simplify_eq/=.
  - done.
  - by rewrite Ascii.eqb_refl in Hb.
  - by rewrite Ascii.eqb_refl in Ha.
  - apply orb_false_iff in Ha as [_ Ha]. apply orb_false_iff in Hb as [_ Hb].
    by destruct (IH b Ha Hb) as [-> ->].
Qed.

Lemma strings_Split_nonempty sep s : strings_Split sep s <> [].
Proof. destruct s as [|c s]; simpl; [done|]. destruct (Ascii.eqb c sep); [done|]. by destruct (strings_Split sep s). Qed.

Lemma strings_Split_plain sep p : has_char sep p = false -> strings_Split sep p = [p].
Proof.
  induction p as [|c p IH]; intros Hp; [done|]. simpl in *. apply orb_false_iff in Hp as [Hc Hp].
  by rewrite Hc, IH.
Qed.

Lemma strings_Split_app sep p s :
  has_char sep p = false -> strings_Split sep (p +:+ String sep s) = p :: strings_Split sep s.
Proof.
  induction p as [|c p IH]; intros Hp; simpl in *; [by rewrite Ascii.eqb_refl|].
  apply orb_false_iff in Hp as [Hc Hp]. by rewrite Hc, IH.
Qed.

Lemma strings_Split_Join sep l :
  l <> [] -> Forall (fun p => has_char sep p = false) l -> strings_Split sep (strings_Join sep l) = l.
Proof.
  intros Hl Hall. induction Hall as [|p l Hp Hall IH]; [done|]. destruct l as [|q l].
  - by apply strings_Split_plain.
  - cbn [strings_Join]. rewrite strings_Split_app by done. f_equal. by apply IH.
Qed.

Lemma strings_Cut_app sep k v : has_char sep k = false -> strings_Cut sep (k +:+ String sep v) = Some (k, v).
Proof.
  induction k as [|c k IH]; intros Hk; simpl in *; [by rewrite Ascii.eqb_refl|].
  apply orb_false_iff in Hk as [Hc Hk]. by rewrite Hc, IH.
Qed.

Lemma strings_Cut_inv sep s k v : strings_Cut sep s = Some (k, v) -> s = k +:+ String sep v /\ has_char sep k = false.
Proof.
  revert k v. induction s as [|c s IH]; intros k v; simpl; [done|]. destruct (Ascii.eqb c sep) eqn:Hc.
  - intros [= <- <-]. by apply Ascii.eqb_eq in Hc as ->.
  - destruct (strings_Cut sep s) as [[a b]|]; [|done]. intros [= <- <-]. destruct (IH a b eq_refl) as [-> Ha].
    split; [done|]. simpl. by rewrite Hc, Ha.
Qed.

Lemma string_app_cons c (a b : string) : String c a +:+ b = String c (a +:+ b).
Proof. done. Qed.
Lemma string_app_assoc (a b c : string) : (a +:+ b) +:+ c = a +:+ b +:+ c.
Proof. induction a as [|x a IH]; [done|]. by rewrite !string_app_cons, IH. Qed.
Lemma string_app_nil (a : string) : a +:+ EmptyString = a.
Proof. induction a as [|x a IH]; [done|]. by rewrite string_app_cons, IH. Qed.

Lemma string_app_inj_l (p a b : string) : p +:+ a = p +:+ b -> a = b.
Proof. induction p; intros; simplify_eq/=; auto. Qed.

Lemma has_char_digits d : has_char ":"%char (NilZero.string_of_uint d) = false.
Proof.
  assert (H : forall e, has_char ":"%char (NilEmpty.string_of_uint e) = false)
    by (induction e; simpl; auto).
  destruct d; try (by simpl; rewrite ?H); done.
Qed.

#[global] Instance dec_uuid_laws : UuidLaws dec_uuid.
Proof.
  split; intros u; simpl.
  - unfold dec_Parse, dec_String.
    rewrite NilZero.usu; [by simpl; rewrite Unsigned.of_to|].
    destruct u; [done|]. apply DecimalPos.Unsigned.to_uint_nonnil.
  - apply has_char_digits.
Qed.

Lemma filter_none {A} (P : A -> Prop) `{!forall x, Decision (P x)} (l : list A) :
  (forall x, x ∈ l -> ~ P x) -> filter P l = [].
Proof.
  induction l as [|x l IH]; intros Hl; [done|]. rewrite filter_cons.
  rewrite decide_False by (apply Hl; apply elem_of_cons; by left).
  apply IH. intros y Hy. apply Hl, elem_of_cons. by right.
Qed.

#[export] Hint Resolve wrap64_in_int64 : ticketing.
