(* ===== verification/Crypto.v ===== *)
(** * The parts of Go's crypto packages the program uses

    [crypto/sha256], [crypto/hmac] and [encoding/hex], executable: bytes are
    numbers below 256, words are numbers below 2^32. *)
From S2P Require Import Prelude.

Definition w32 (z : Z) : Z := (z mod 2 ^ 32)%Z.
Definition rotr (n : Z) (x : Z) : Z := Z.lor (Z.shiftr x n) (w32 (Z.shiftl x (32 - n))).

(** ** SHA-256 (FIPS 180-4) *)

Definition sha256_K : list Z := [
  1116352408; 1899447441; 3049323471; 3921009573; 961987163; 1508970993; 2453635748; 2870763221;
  3624381080; 310598401; 607225278; 1426881987; 1925078388; 2162078206; 2614888103; 3248222580;
  3835390401; 4022224774; 264347078; 604807628; 770255983; 1249150122; 1555081692; 1996064986;
  2554220882; 2821834349; 2952996808; 3210313671; 3336571891; 3584528711; 113926993; 338241895;
  666307205; 773529912; 1294757372; 1396182291; 1695183700; 1986661051; 2177026350; 2456956037;
  2730485921; 2820302411; 3259730800; 3345764771; 3516065817; 3600352804; 4094571909; 275423344;
  430227734; 506948616; 659060556; 883997877; 958139571; 1322822218; 1537002063; 1747873779;
  1955562222; 2024104815; 2227730452; 2361852424; 2428436474; 2756734187; 3204031479; 3329325298]%Z.

Definition sha256_H : list Z :=
  [1779033703; 3144134277; 1013904242; 2773480762; 1359893119; 2600822924; 528734635; 1541459225]%Z.

Definition small_sigma0 (x : Z) : Z := Z.lxor (rotr 7 x) (Z.lxor (rotr 18 x) (Z.shiftr x 3)).
Definition small_sigma1 (x : Z) : Z := Z.lxor (rotr 17 x) (Z.lxor (rotr 19 x) (Z.shiftr x 10)).
Definition big_sigma0 (x : Z) : Z := Z.lxor (rotr 2 x) (Z.lxor (rotr 13 x) (rotr 22 x)).
Definition big_sigma1 (x : Z) : Z := Z.lxor (rotr 6 x) (Z.lxor (rotr 11 x) (rotr 25 x)).
Definition ch (x y z : Z) : Z := Z.lxor (Z.land x y) (Z.land (Z.lxor x (2 ^ 32 - 1)) z).
Definition maj (x y z : Z) : Z := Z.lxor (Z.land x y) (Z.lxor (Z.land x z) (Z.land y z)).

(** Big-endian words. *)
Definition be_bytes (n : nat) (z : Z) : list Z :=
  reverse ((fun i => (z / 256 ^ Z.of_nat i) mod 256)%Z <$> seq 0 n).
Definition be_word (bs : list Z) : Z := foldl (fun acc b => acc * 256 + b)%Z 0%Z bs.

Fixpoint chunks {A} (n fuel : nat) (l : list A) : list (list A) :=
  match fuel with
  | O => []
  | S k => match l with [] => [] | _ => take n l :: chunks n k (drop n l) end
  end.

(** Padding: 0x80, zeros to 56 mod 64, the length in bits. *)
Definition sha256_pad (msg : list Z) : list Z :=
  let n := Z.of_nat (length msg) in
  msg ++ [128%Z] ++ repeat 0%Z (Z.to_nat ((55 - n) mod 64)) ++ be_bytes 8 (8 * n).

(** The message schedule: 16 words of the block, extended to 64. *)
Fixpoint schedule (fuel : nat) (ws : list Z) : list Z :=
  match fuel with
  | O => ws
  | S k =>
      let at_ i := default 0%Z (ws !! (length ws - i)%nat) in
      schedule k (ws ++ [w32 (small_sigma1 (at_ 2%nat) + at_ 7%nat + small_sigma0 (at_ 15%nat) + at_ 16%nat)%Z])
  end.

Definition sha256_round (st : list Z) (kw : Z * Z) : list Z :=
  match st with
  | [a; b; c; d; e; f; g; h] =>
      let t1 := w32 (h + big_sigma1 e + ch e f g + kw.1 + kw.2)%Z in
      let t2 := w32 (big_sigma0 a + maj a b c)%Z in
      [w32 (t1 + t2)%Z; a; b; c; w32 (d + t1)%Z; e; f; g]
  | _ => st
  end.

Definition sha256_block (st : list Z) (block : list Z) : list Z :=
  let ws := schedule 48 (be_word <$> chunks 4 16 block) in
  zip_with (fun x y => w32 (x + y)%Z) st (foldl sha256_round st (zip sha256_K ws)).

Definition sha256 (msg : list Z) : list Z :=
  let p := sha256_pad msg in
  foldl (fun acc w => acc ++ be_bytes 4 w) [] (foldl sha256_block sha256_H (chunks 64 (length p) p)).

(** ** HMAC (RFC 2104) with SHA-256, block size 64 *)

Definition hmac_key (key : list Z) : list Z :=
  let k := if (64 <? length key)%nat then sha256 key else key in k ++ repeat 0%Z (64 - length k).
Definition hmac_sha256 (key msg : list Z) : list Z :=
  let k := hmac_key key in
  sha256 ((Z.lxor 92 <$> k) ++ sha256 ((Z.lxor 54 <$> k) ++ msg)).

(** ** Strings and hexadecimal *)

Fixpoint bytes_of (s : string) : list Z :=
  match s with EmptyString => [] | String c s' => Z.of_N (Ascii.N_of_ascii c) :: bytes_of s' end.

Definition chr (n : N) : string := String (Ascii.ascii_of_N n) EmptyString.
Definition hex_digit (n : Z) : Ascii.ascii := Ascii.ascii_of_N (Z.to_N (if (n <? 10)%Z then 48 + n else 87 + n)).
Fixpoint hex_EncodeToString (bs : list Z) : string :=
  match bs with
  | [] => EmptyString
  | b :: bs' => String (hex_digit (b / 16)) (String (hex_digit (b mod 16)) (hex_EncodeToString bs'))
  end.

Definition hex_val (c : Ascii.ascii) : option Z :=
  let n := Z.of_N (Ascii.N_of_ascii c) in
  if (48 <=? n)%Z && (n <=? 57)%Z then Some (n - 48)%Z
  else if (97 <=? n)%Z && (n <=? 102)%Z then Some (n - 87)%Z
  else if (65 <=? n)%Z && (n <=? 70)%Z then Some (n - 55)%Z else None.
Fixpoint hex_DecodeString (s : string) : option (list Z) :=
  match s with
  | EmptyString => Some []
  | String _ EmptyString => None
  | String a (String b s') =>
      match hex_val a, hex_val b, hex_DecodeString s' with
      | Some x, Some y, Some r => Some ((16 * x + y)%Z :: r)
      | _, _, _ => None
      end
  end.

Definition is_byte (b : Z) : Prop := (0 <= b < 256)%Z.

(** ** Facts *)

(** The published test vectors. *)
(** [base64.RawURLEncoding.EncodeToString]: no padding. *)
Definition base64url_char (n : Z) : Ascii.ascii :=
  Ascii.ascii_of_N (Z.to_N (
    if (n <? 26)%Z then 65 + n else if (n <? 52)%Z then 71 + n else if (n <? 62)%Z then n - 4
    else if (n =? 62)%Z then 45 else 95)).
Fixpoint base64url (bs : list Z) : string :=
  match bs with
  | a :: b :: c :: rest =>
      let n := (a * 65536 + b * 256 + c)%Z in
      String (base64url_char (n / 262144)) (String (base64url_char (n / 4096 mod 64))
        (String (base64url_char (n / 64 mod 64)) (String (base64url_char (n mod 64)) (base64url rest))))
  | [a; b] =>
      let n := (a * 1024 + b * 4)%Z in
      String (base64url_char (n / 4096)) (String (base64url_char (n / 64 mod 64)) (String (base64url_char (n mod 64)) EmptyString))
  | [a] => String (base64url_char (a / 4)) (String (base64url_char (a mod 4 * 16)) EmptyString)
  | [] => EmptyString
  end.

(** RFC 4648, section 10, and the two characters of the URL alphabet. *)
Example base64url_vectors :
  base64url (bytes_of "fooba") = "Zm9vYmE" /\ base64url (bytes_of "foobar") = "Zm9vYmFy" /\
  base64url (bytes_of "foob") = "Zm9vYg" /\ base64url [251; 255]%Z = "-_8".
Proof. vm_compute. done. Qed.

Example sha256_abc : hex_EncodeToString (sha256 (bytes_of "abc"))
  = "ba7816bf8f01cfea414140de5dae2223b00361a396177a9cb410ff61f20015ad".
Proof. vm_compute. reflexivity. Qed.
Example sha256_448 : hex_EncodeToString (sha256 (bytes_of "abcdbcdecdefdefgefghfghighijhijkijkljklmklmnlmnomnopnopq"))
  = "248d6a61d20638b8e5c026930c3e6039a33ce45964ff2167f6ecedd419db06c1".
Proof. vm_compute. reflexivity. Qed.
Example hmac_jefe : hex_EncodeToString (hmac_sha256 (bytes_of "Jefe") (bytes_of "what do ya want for nothing?"))
  = "5bdcc146bf60754e6a042426089575c75a003f089d2739839dec58b964ec3843".
Proof. vm_compute. reflexivity. Qed.

Lemma be_bytes_length n z : length (be_bytes n z) = n.
Proof. unfold be_bytes. by rewrite length_reverse, length_fmap, length_seq. Qed.

Lemma be_bytes_byte n z : Forall is_byte (be_bytes n z).
Proof.
  unfold be_bytes. apply Forall_reverse, Forall_fmap, Forall_true. intros i. simpl. unfold is_byte.
  pose proof (Z.mod_pos_bound (z / 256 ^ Z.of_nat i) 256 ltac:(lia)). lia.
Qed.

Lemma hex_val_digit n : (0 <= n < 16)%Z -> hex_val (hex_digit n) = Some n.
Proof.
  intros Hn. assert (Hc : n ∈ seqZ 0 16) by (apply elem_of_seqZ; lia). revert Hc.
  vm_compute seqZ. rewrite !elem_of_cons, elem_of_nil.
  intros Hc. repeat (destruct Hc as [->|Hc]; [by vm_compute|]). done.
Qed.

(** Decoding inverts encoding. *)
Lemma hex_roundtrip bs : Forall is_byte bs -> hex_DecodeString (hex_EncodeToString bs) = Some bs.
Proof.
  induction 1 as [|b bs Hb _ IH]; [done|]. cbn [hex_EncodeToString hex_DecodeString]. unfold is_byte in Hb.
  rewrite !hex_val_digit, IH by (split; [apply Z.div_pos||apply Z.mod_pos_bound|apply Z.div_lt_upper_bound||apply Z.mod_pos_bound]; lia).
  do 2 f_equal. symmetry. apply Z.div_mod. lia.
Qed.

Lemma hex_length bs : String.length (hex_EncodeToString bs) = (2 * length bs)%nat.
Proof. induction bs as [|b bs IH]; [done|]. simpl. rewrite IH. lia. Qed.
