(* ===== verification/GoJson.v ===== *)
(** * [encoding/json], as far as the program uses it

    The scanner and decoder of Go's standard library on byte strings: values,
    string literals with their escapes and the repair of invalid UTF-8, the
    nesting limit, [json.Unmarshal] and the [Decode] of a [json.Decoder], and
    the printer of [json.Marshal]. Struct targets are decoded by lists of
    fields, matched by name up to case. *)
From Stdlib Require Import Ascii.
From S2P Require Import Prelude Crypto.

(** A JSON document; a number stays the literal it was written as. *)
Inductive JVal :=
| VNull
| VBool (b : bool)
| VNum (literal : string)
| VStr (s : string)
| VArr (l : list JVal)
| VObj (fields : list (string * JVal)).

Definition dquote : Ascii.ascii := Ascii.ascii_of_N 34.
Definition backslash : Ascii.ascii := Ascii.ascii_of_N 92.
Definition code (c : Ascii.ascii) : N := Ascii.N_of_ascii c.
Definition between (lo hi : N) (c : Ascii.ascii) : bool := (lo <=? code c)%N && (code c <=? hi)%N.

(** ** UTF-8 ([unicode/utf8]) *)

Definition continuation : Ascii.ascii -> bool := between 128 191.
Definition two_bytes (a b : Ascii.ascii) : bool := between 194 223 a && continuation b.
Definition three_bytes (a b c : Ascii.ascii) : bool :=
  continuation c &&
  (if (code a =? 224)%N then between 160 191 b
   else if (code a =? 237)%N then between 128 159 b
   else between 225 239 a && continuation b).
Definition four_bytes (a b c d : Ascii.ascii) : bool :=
  continuation c && continuation d &&
  (if (code a =? 240)%N then between 144 191 b
   else if (code a =? 244)%N then between 128 143 b
   else between 241 243 a && continuation b).

(** [utf8.EncodeRune] for a valid rune. *)
Definition utf8_encode (r : N) : string :=
  if (r <? 128)%N then chr r
  else if (r <? 2048)%N then chr (192 + r / 64) +:+ chr (128 + r mod 64)
  else if (r <? 65536)%N then chr (224 + r / 4096) +:+ chr (128 + r / 64 mod 64) +:+ chr (128 + r mod 64)
  else chr (240 + r / 262144) +:+ chr (128 + r / 4096 mod 64) +:+ chr (128 + r / 64 mod 64) +:+ chr (128 + r mod 64).
Definition replacement : string := utf8_encode 65533.

(** Every byte that does not belong to a valid rune becomes U+FFFD. *)
Fixpoint to_valid_utf8 (s : string) : string :=
  match s with
  | EmptyString => EmptyString
  | String a s1 =>
      if (code a <? 128)%N then String a (to_valid_utf8 s1)
      else
        let bad := replacement +:+ to_valid_utf8 s1 in
        match s1 with
        | EmptyString => bad
        | String b s2 =>
            if two_bytes a b then String a (String b (to_valid_utf8 s2))
            else match s2 with
                 | EmptyString => bad
                 | String c s3 =>
                     if three_bytes a b c then String a (String b (String c (to_valid_utf8 s3)))
                     else match s3 with
                          | EmptyString => bad
                          | String d s4 =>
                              if four_bytes a b c d then String a (String b (String c (String d (to_valid_utf8 s4))))
                              else bad
                          end
                 end
        end
  end.

(** ** String literals *)

Definition simple_escape (c : Ascii.ascii) : option Ascii.ascii :=
  let n := code c in
  if (n =? 34)%N || (n =? 92)%N || (n =? 47)%N then Some c
  else if (n =? 98)%N then Some (Ascii.ascii_of_N 8)
  else if (n =? 102)%N then Some (Ascii.ascii_of_N 12)
  else if (n =? 110)%N then Some (Ascii.ascii_of_N 10)
  else if (n =? 114)%N then Some (Ascii.ascii_of_N 13)
  else if (n =? 116)%N then Some (Ascii.ascii_of_N 9)
  else None.

Definition hex_N (c : Ascii.ascii) : option N :=
  if between 48 57 c then Some (code c - 48)%N
  else if between 97 102 c then Some (code c - 87)%N
  else if between 65 70 c then Some (code c - 55)%N
  else None.

Definition is_surrogate (r : N) : bool := (55296 <=? r)%N && (r <? 57344)%N.
(** [utf16.DecodeRune] of two surrogates. *)
Definition surrogate_pair (r1 r2 : N) : option N :=
  if (55296 <=? r1)%N && (r1 <? 56320)%N && (56320 <=? r2)%N && (r2 <? 57344)%N
  then Some ((r1 - 55296) * 1024 + (r2 - 56320) + 65536)%N else None.

(** A [\uXXXX] escape, after a pending surrogate [hi] or not: the text it
    emits and the surrogate it leaves pending. *)
Definition unicode_escape (hi : option N) (r : N) : string * option N :=
  match hi with
  | Some h =>
      match surrogate_pair h r with
      | Some rune => (utf8_encode rune, None)
      | None => if is_surrogate r then (replacement, Some r) else (replacement +:+ utf8_encode r, None)
      end
  | None => if is_surrogate r then (EmptyString, Some r) else (utf8_encode r, None)
  end.
Definition flush (hi : option N) : string := match hi with Some _ => replacement | None => EmptyString end.

Inductive mode := Lit | Esc | Hex (k : nat) (acc : N).

(** After the opening quote: the contents, not yet repaired, and the rest. *)
Fixpoint scan_string (m : mode) (hi : option N) (s : string) : option (string * string) :=
  match s with
  | EmptyString => None
  | String c s' =>
      match m with
      | Lit =>
          if Ascii.eqb c dquote then Some (flush hi, s')
          else if Ascii.eqb c backslash then scan_string Esc hi s'
          else if (code c <? 32)%N then None
          else prod_map (fun out => flush hi +:+ String c out) id <$> scan_string Lit None s'
      | Esc =>
          if (code c =? 117)%N then scan_string (Hex 3 0) hi s'
          else match simple_escape c with
               | Some x => prod_map (fun out => flush hi +:+ String x out) id <$> scan_string Lit None s'
               | None => None
               end
      | Hex k acc =>
          match hex_N c with
          | None => None
          | Some d =>
              let r := (acc * 16 + d)%N in
              match k with
              | S k' => scan_string (Hex k' r) hi s'
              | O => let '(out, hi') := unicode_escape hi r in
                     prod_map (fun out' => out +:+ out') id <$> scan_string Lit hi' s'
              end
          end
      end
  end.

Definition string_literal (s : string) : option (string * string) :=
  prod_map to_valid_utf8 id <$> scan_string Lit None s.

(** ** Numbers and white space *)

Fixpoint skip_ws (s : string) : string :=
  match s with
  | String c s' =>
      if (code c =? 32)%N || (code c =? 9)%N || (code c =? 10)%N || (code c =? 13)%N then skip_ws s' else s
  | EmptyString => s
  end.

Definition is_digit : Ascii.ascii -> bool := between 48 57.
Fixpoint take_digits (s : string) : string * string :=
  match s with
  | String c s' => if is_digit c then let '(ds, r) := take_digits s' in (String c ds, r) else (EmptyString, s)
  | EmptyString => (EmptyString, s)
  end.

(** At least one digit. *)
Definition digits1 (s : string) : option (string * string) :=
  match take_digits s with (EmptyString, _) => None | p => Some p end.
(** [0] or a digit sequence that does not start with [0]. *)
Definition integer_part (s : string) : option (string * string) :=
  match s with
  | String c s' => if (code c =? 48)%N then Some (String c EmptyString, s') else digits1 s
  | EmptyString => None
  end.
Definition fraction_part (s : string) : option (string * string) :=
  match s with
  | String c s' => if (code c =? 46)%N then prod_map (String c) id <$> digits1 s' else Some (EmptyString, s)
  | EmptyString => Some (EmptyString, s)
  end.
Definition sign (s : string) : string * string :=
  match s with
  | String c s' => if (code c =? 43)%N || (code c =? 45)%N then (String c EmptyString, s') else (EmptyString, s)
  | EmptyString => (EmptyString, s)
  end.
Definition exponent_part (s : string) : option (string * string) :=
  match s with
  | String c s' =>
      if (code c =? 101)%N || (code c =? 69)%N
      then let '(sg, s1) := sign s' in prod_map (fun ds => String c (sg +:+ ds)) id <$> digits1 s1
      else Some (EmptyString, s)
  | EmptyString => Some (EmptyString, s)
  end.
Definition minus (s : string) : string * string :=
  match s with
  | String c s' => if (code c =? 45)%N then (String c EmptyString, s') else (EmptyString, s)
  | EmptyString => (EmptyString, s)
  end.
Definition number (s : string) : option (string * string) :=
  let '(sg, s0) := minus s in
  match integer_part s0 with
  | None => None
  | Some (i, s1) =>
      match fraction_part s1 with
      | None => None
      | Some (f, s2) =>
          match exponent_part s2 with
          | None => None
          | Some (e, s3) => Some (sg +:+ i +:+ f +:+ e, s3)
          end
      end
  end.

(** ** Values *)

(** [maxNestingDepth] of the scanner. *)
Definition max_depth : N := 10000.

Inductive outcome (A : Type) := Done (a : A) (rest : string) | Bad | OutOfFuel.
Arguments Done {A} a rest.
Arguments Bad {A}.
Arguments OutOfFuel {A}.

Definition of_scan {A} (f : string -> A) (x : option (string * string)) : outcome A :=
  match x with Some (t, r) => Done (f t) r | None => Bad end.
Definition keyword {A} (w : string) (a : A) (s : string) : outcome A :=
  if String.prefix w s then Done a (String.substring (String.length w) (String.length s - String.length w) s) else Bad.
Definition then_do {A B} (o : outcome A) (k : A -> string -> outcome B) : outcome B :=
  match o with Done a r => k a r | Bad => Bad | OutOfFuel => OutOfFuel end.

(** [depth] containers are open already; [elements] and [members] read what
    follows a bracket that is not closed at once. *)
Fixpoint value (fuel : nat) (depth : N) (s : string) : outcome JVal :=
  match fuel with
  | O => OutOfFuel
  | S f =>
      match skip_ws s with
      | EmptyString => Bad
      | String c s' as s0 =>
          let n := code c in
          if (n =? 123)%N then
            if (max_depth <=? depth)%N then Bad
            else match skip_ws s' with
                 | String d r => if (code d =? 125)%N then Done (VObj []) r
                                 else then_do (members f (depth + 1) s') (fun l r => Done (VObj l) r)
                 | EmptyString => Bad
                 end
          else if (n =? 91)%N then
            if (max_depth <=? depth)%N then Bad
            else match skip_ws s' with
                 | String d r => if (code d =? 93)%N then Done (VArr []) r
                                 else then_do (elements f (depth + 1) s') (fun l r => Done (VArr l) r)
                 | EmptyString => Bad
                 end
          else if (n =? 34)%N then of_scan VStr (string_literal s')
          else if (n =? 116)%N then keyword "true" (VBool true) s0
          else if (n =? 102)%N then keyword "false" (VBool false) s0
          else if (n =? 110)%N then keyword "null" VNull s0
          else of_scan VNum (number s0)
      end
  end
with elements (fuel : nat) (depth : N) (s : string) : outcome (list JVal) :=
  match fuel with
  | O => OutOfFuel
  | S f =>
      then_do (value f depth s) (fun v r =>
        match skip_ws r with
        | String c r' =>
            if (code c =? 44)%N then then_do (elements f depth r') (fun l r2 => Done (v :: l) r2)
            else if (code c =? 93)%N then Done [v] r'
            else Bad
        | EmptyString => Bad
        end)
  end
with members (fuel : nat) (depth : N) (s : string) : outcome (list (string * JVal)) :=
  match fuel with
  | O => OutOfFuel
  | S f =>
      match skip_ws s with
      | String q s1 =>
          if (code q =? 34)%N then
            match string_literal s1 with
            | None => Bad
            | Some (k, s2) =>
                match skip_ws s2 with
                | String c s3 =>
                    if (code c =? 58)%N then
                      then_do (value f depth s3) (fun v r =>
                        match skip_ws r with
                        | String e r' =>
                            if (code e =? 44)%N then then_do (members f depth r') (fun l r2 => Done ((k, v) :: l) r2)
                            else if (code e =? 125)%N then Done [(k, v)] r'
                            else Bad
                        | EmptyString => Bad
                        end)
                    else Bad
                | EmptyString => Bad
                end
            end
          else Bad
      | EmptyString => Bad
      end
  end.

Definition fuel_for (s : string) : nat := 2 * String.length s + 2.

(** [json.NewDecoder(r).Decode(v)]: the first value; what follows it is not read. *)
Definition Decode (s : string) : option JVal :=
  match value (fuel_for s) 0 s with Done v _ => Some v | _ => None end.

(** [json.Unmarshal]: nothing but white space may follow. *)
Definition Unmarshal (s : string) : option JVal :=
  match value (fuel_for s) 0 s with
  | Done v r => match skip_ws r with EmptyString => Some v | _ => None end
  | _ => None
  end.

(** ** Decoding into Go values

    [None] is any decoding error: the program only looks at whether there was
    one, and Go goes on to the end of the value before it reports a type
    mismatch. *)

(** The key a field name is matched by: ASCII letters in upper case, and the
    two letters outside ASCII that fold to one (long s, Kelvin sign). *)
Definition upper_char (c : Ascii.ascii) : Ascii.ascii :=
  if between 97 122 c then Ascii.ascii_of_N (code c - 32) else c.
Fixpoint fold_name (s : string) : string :=
  match s with
  | String a (String b (String c s3 as s2) as s1) =>
      if (code a =? 197)%N && (code b =? 191)%N then String "S"%char (fold_name s2)
      else if (code a =? 226)%N && (code b =? 132)%N && (code c =? 170)%N then String "K"%char (fold_name s3)
      else String (upper_char a) (fold_name s1)
  | String a (String b EmptyString as s1) =>
      if (code a =? 197)%N && (code b =? 191)%N then "S" else String (upper_char a) (fold_name s1)
  | String a EmptyString => String (upper_char a) EmptyString
  | EmptyString => EmptyString
  end.

(** A field of a struct [S]: its name and how a value changes the struct. *)
Definition Field (S : Type) : Type := string * (JVal -> S -> option S).

Definition set_member {S} (fields : list (Field S)) (kv : string * JVal) (s : S) : option S :=
  match find (fun f => String.eqb (fold_name f.1) (fold_name kv.1)) fields with
  | Some f => f.2 kv.2 s
  | None => Some s
  end.

(** Decode on top of what the struct contains. *)
Definition decode_struct {S} (fields : list (Field S)) (v : JVal) (s : S) : option S :=
  match v with
  | VNull => Some s
  | VObj l => foldl (fun acc kv => acc ≫= set_member fields kv) (Some s) l
  | _ => None
  end.

Definition str_field {S} (name : string) (upd : string -> S -> S) : Field S :=
  (name, fun v s => match v with VNull => Some s | VStr x => Some (upd x s) | _ => None end).

(** [strconv.ParseInt(l, 10, 64)] of a JSON number literal. *)
Fixpoint digits_value (acc : Z) (s : string) : option Z :=
  match s with
  | EmptyString => Some acc
  | String c s' => if is_digit c then digits_value (acc * 10 + Z.of_N (code c - 48)) s' else None
  end.
Definition ParseInt (l : string) : option Z :=
  let '(sg, ds) := minus l in
  match ds with
  | EmptyString => None
  | _ => z ← digits_value 0 ds;
         let z := if String.eqb sg EmptyString then z else (- z)%Z in
         if decide (in_int64 z) then Some z else None
  end.
Definition int_field {S} (name : string) (upd : Z -> S -> S) : Field S :=
  (name, fun v s => match v with
                    | VNull => Some s
                    | VNum l => (fun z => upd z s) <$> ParseInt l
                    | _ => None
                    end).

(** A pointer to an integer. *)
Definition int_ptr_field {S} (name : string) (upd : option Z -> S -> S) : Field S :=
  (name, fun v s => match v with
                    | VNull => Some (upd None s)
                    | VNum l => (fun z => upd (Some z) s) <$> ParseInt l
                    | _ => None
                    end).

(** A nested struct, and a pointer to one. *)
Definition struct_field {S T} (name : string) (fields : list (Field T)) (get : S -> T) (upd : T -> S -> S) : Field S :=
  (name, fun v s => (fun t => upd t s) <$> decode_struct fields v (get s)).
Definition struct_ptr_field {S T} (name : string) (fields : list (Field T)) (zero : T)
    (get : S -> option T) (upd : option T -> S -> S) : Field S :=
  (name, fun v s => match v with
                    | VNull => Some (upd None s)
                    | _ => (fun t => upd (Some t) s) <$> decode_struct fields v (default zero (get s))
                    end).

(** [map[string]string]: members are added to the map that is there. *)
Definition string_map_field {S} (name : string) (get : S -> gmap string string) (upd : gmap string string -> S -> S) : Field S :=
  (name, fun v s => match v with
                    | VNull => Some (upd ∅ s)
                    | VObj l => (fun m => upd m s) <$>
                        foldl (fun acc kv => m ← acc;
                                 match kv.2 with
                                 | VNull => Some (<[kv.1 := EmptyString]> m)
                                 | VStr x => Some (<[kv.1 := x]> m)
                                 | _ => None
                                 end) (Some (get s)) l
                    | _ => None
                    end).

(** A slice of structs. Go decodes the elements into the backing array the
    slice has, so what an earlier array left there shows through. *)
Record Slice (T : Type) := mkSlice { sl_backing : list T; sl_len : nat }.
Arguments mkSlice {T}.
Arguments sl_backing {T}.
Arguments sl_len {T}.
Definition nil_slice {T} : Slice T := mkSlice [] 0.
Definition slice_elems {T} (s : Slice T) : list T := take (sl_len s) (sl_backing s).

Fixpoint decode_elems {T} (fields : list (Field T)) (zero : T) (l : list JVal) (backing : list T) : option (list T) :=
  match l with
  | [] => Some backing
  | v :: l' =>
      x ← decode_struct fields v (default zero (head backing));
      cons x <$> decode_elems fields zero l' (tail backing)
  end.
Definition slice_field {S T} (name : string) (fields : list (Field T)) (zero : T)
    (get : S -> Slice T) (upd : Slice T -> S -> S) : Field S :=
  (name, fun v s => match v with
                    | VNull | VArr [] => Some (upd nil_slice s)
                    | VArr l => (fun b => upd (mkSlice b (length l)) s) <$> decode_elems fields zero l (sl_backing (get s))
                    | _ => None
                    end).

(** ** The decoder always returns

    Every recursive call reads on in a shorter text, so [fuel_for] is enough
    and any larger amount gives the same answer. *)

Lemma skip_ws_length s : (String.length (skip_ws s) <= String.length s)%nat.
Proof. induction s as [|c s IH]; simpl; [done|]. destruct (_ || _); simpl; lia. Qed.

Lemma scan_string_length m hi s out r : scan_string m hi s = Some (out, r) -> (String.length r < String.length s)%nat.
Proof.
  revert m hi out r. induction s as [|c s IH]; intros m hi out r Hs; [done|]. cbn [scan_string String.length] in *.
  assert (Hrec : forall m' hi' f, prod_map f id <$> scan_string m' hi' s = Some (out, r) -> (String.length r < S (String.length s))%nat).
  { intros m' hi' f ([o r'] & Hr & [= -> ->])%fmap_Some. apply IH in Hr. simpl. lia. }
  destruct m as [| |k acc].
  - destruct (Ascii.eqb c dquote); [injection Hs as _ <-; lia|].
    destruct (Ascii.eqb c backslash); [apply IH in Hs; lia|]. destruct (_ <? _)%N; [done|by eapply Hrec].
  - destruct (_ =? _)%N; [apply IH in Hs; lia|]. destruct (simple_escape c); [by eapply Hrec|done].
  - destruct (hex_N c); [|done]. destruct k; [|apply IH in Hs; lia].
    destruct (unicode_escape hi _) as [o hi']. by eapply Hrec.
Qed.

Lemma string_literal_length s k r : string_literal s = Some (k, r) -> (String.length r < String.length s)%nat.
Proof.
  unfold string_literal. intros ([o r'] & Hr & [= -> ->])%fmap_Some. by apply scan_string_length in Hr.
Qed.

Lemma take_digits_length s : (String.length (take_digits s).1 + String.length (take_digits s).2)%nat = String.length s.
Proof.
  induction s as [|c s IH]; simpl; [done|]. destruct (is_digit c); [|done].
  destruct (take_digits s); simpl in *; lia.
Qed.

Lemma digits1_length s ds r : digits1 s = Some (ds, r) -> (String.length r < String.length s)%nat.
Proof.
  unfold digits1. pose proof (take_digits_length s) as Hl. destruct (take_digits s) as [[|c ds'] r']; [done|].
  intros [= _ <-]. simpl in Hl. lia.
Qed.

Lemma number_length s t r : number s = Some (t, r) -> (String.length r < String.length s)%nat.
Proof.
  unfold number, minus, integer_part, fraction_part, exponent_part, sign. intros Hn.
  repeat match type of Hn with
  | context [digits1 ?x] => destruct (digits1 x) as [[? ?]|] eqn:?; simpl in Hn; try done
  | context [match ?x with EmptyString => _ | String _ _ => _ end] => destruct x; simpl in Hn; try done
  | context [if ?b then _ else _] => destruct b; simpl in Hn; try done
  end; simplify_eq/=;
  repeat match goal with Hd : digits1 _ = Some _ |- _ => apply digits1_length in Hd; simpl in Hd end; simpl in *; lia.
Qed.

Lemma keyword_length {A} w (a x : A) s r :
  w <> EmptyString -> keyword w a s = Done x r -> (String.length r < String.length s)%nat.
Proof.
  unfold keyword. intros Hw. destruct (String.prefix w s) eqn:Hp; [|done]. intros [= _ <-].
  apply String.prefix_correct in Hp.
  assert (Hle : (String.length w <= String.length s)%nat).
  { revert s Hp. clear. induction w as [|c w IH]; intros [|d s]; simpl; try done; try lia. intros [= _ Hp]. apply IH in Hp. lia. }
  assert (Hsub : forall n m (u : string), (String.length (String.substring n m u) <= m)%nat).
  { clear. intros n m u. revert n m. induction u as [|c u IH]; intros [|n] [|m]; simpl; try lia; [pose proof (IH O m)|pose proof (IH n O)|pose proof (IH n (S m))]; lia. }
  pose proof (Hsub (String.length w) (String.length s - String.length w)%nat s). destruct w; [done|]. simpl in *. lia.
Qed.

Lemma then_do_Done {A B} (o : outcome A) (k : A -> string -> outcome B) b r :
  then_do o k = Done b r -> exists a r', o = Done a r' /\ k a r' = Done b r.
Proof. destruct o; simpl; naive_solver. Qed.

(** What every reader promises: it consumes something. *)
Definition consumes {A} (o : outcome A) (s : string) : Prop :=
  forall a r, o = Done a r -> (String.length r < String.length s)%nat.

Lemma of_scan_consumes {A} (f : string -> A) x s :
  (forall t r, x = Some (t, r) -> (String.length r < String.length s)%nat) -> consumes (of_scan f x) s.
Proof. intros Hx a r Hd. destruct x as [[t r']|]; [|done]. injection Hd as _ <-. eauto. Qed.

Lemma keyword_consumes {A} w (a : A) s : w <> EmptyString -> consumes (keyword w a s) s.
Proof.
  intros Hw x r Hk. assert (x = a) as -> by (unfold keyword in Hk; destruct (String.prefix _ _); congruence).
  by apply keyword_length in Hk.
Qed.

Lemma consumes_shorter {A} (o : outcome A) s s' :
  consumes o s' -> (String.length s' <= String.length s)%nat -> consumes o s.
Proof. intros Hc Hle a r Hd. apply Hc in Hd. lia. Qed.

(** Reading after a first reader, on what that one has left. *)
Lemma then_consumes {A B} (o : outcome A) (k : A -> string -> outcome B) s :
  consumes o s -> (forall a r, (String.length r < String.length s)%nat -> consumes (k a r) r) -> consumes (then_do o k) s.
Proof. intros Ho Hk b r (a & r' & Ha & Hb)%then_do_Done. apply Ho in Ha as Hl. apply Hk in Hb; [lia|done]. Qed.

Ltac peek_char t :=
  let H := fresh "Hws" in
  pose proof (skip_ws_length t) as H; destruct (skip_ws t) as [|?c ?s]; [by intros ? ?|]; cbn [String.length] in H.
Ltac by_length := let H := fresh in intros ? ? H; simpl in H; simplify_eq; simpl; lia.

Lemma readers_consume fuel :
  (forall depth s, consumes (value fuel depth s) s) /\
  (forall depth s, consumes (elements fuel depth s) s) /\
  (forall depth s, consumes (members fuel depth s) s).
Proof.
  induction fuel as [|f (IHv & IHe & IHm)]; [by split_and!|]. split_and!; intros depth s.
  - cbn [value]. peek_char s.
    destruct (_ =? 123)%N; [destruct (_ <=? _)%N; [by intros ? ?|]; peek_char s0; destruct (_ =? 125)%N; [by_length|]|].
    { intros v r (l & r' & Hl & [= _ <-])%then_do_Done. apply IHm in Hl. lia. }
    destruct (_ =? 91)%N; [destruct (_ <=? _)%N; [by intros ? ?|]; peek_char s0; destruct (_ =? 93)%N; [by_length|]|].
    { intros v r (l & r' & Hl & [= _ <-])%then_do_Done. apply IHe in Hl. lia. }
    destruct (_ =? 34)%N.
    { eapply consumes_shorter; [apply of_scan_consumes, string_literal_length|lia]. }
    do 3 (destruct (_ =? _)%N; [eapply consumes_shorter; [by apply keyword_consumes|done]|]).
    eapply consumes_shorter; [apply of_scan_consumes, number_length|simpl; lia].
  - cbn [elements]. apply then_consumes; [apply IHv|]. intros v r _. peek_char r.
    destruct (_ =? 44)%N; [|destruct (_ =? 93)%N; [by_length|by intros ? ?]].
    intros b r2 (l & r' & Hl & [= _ <-])%then_do_Done. apply IHe in Hl. lia.
  - cbn [members]. peek_char s. destruct (_ =? 34)%N; [|by intros ? ?].
    destruct (string_literal s0) as [[k s2]|] eqn:Hk; [|by intros ? ?]. apply string_literal_length in Hk.
    peek_char s2. destruct (_ =? 58)%N; [|by intros ? ?].
    eapply consumes_shorter; [apply then_consumes; [apply IHv|]|lia]. intros v r _. peek_char r.
    destruct (_ =? 44)%N; [|destruct (_ =? 125)%N; [by_length|by intros ? ?]].
    intros b r2 (l & r' & Hl & [= _ <-])%then_do_Done. apply IHm in Hl. lia.
Qed.

(** More fuel than needed changes nothing. *)
Definition settled_from {A} (n : nat) (g : nat -> outcome A) : Prop :=
  g n <> OutOfFuel /\ forall n', (n <= n')%nat -> g n' = g n.

Lemma then_settled {A B} n (o : nat -> outcome A) (k : nat -> A -> string -> outcome B) :
  settled_from n o -> (forall a r, o n = Done a r -> settled_from n (fun f => k f a r)) ->
  settled_from n (fun f => then_do (o f) (k f)).
Proof.
  intros [H1 H2] Hk. split.
  - destruct (o n) as [a r| |] eqn:Ho; simpl; [|done..]. by apply (Hk a r).
  - intros n' Hn. rewrite (H2 _ Hn). destruct (o n) as [a r| |] eqn:Ho; simpl; [|done..]. by apply (Hk a r).
Qed.

Lemma const_settled {A} n (x : outcome A) : x <> OutOfFuel -> settled_from n (fun _ => x).
Proof. by split. Qed.

Lemma succ_settled {A} n m (g g' : nat -> outcome A) :
  (forall f, g (S f) = g' f) -> settled_from n g' -> (n < m)%nat -> settled_from m g.
Proof.
  intros Hg [H1 H2] Hm. destruct m as [|m]; [lia|]. rewrite <- (H2 m ltac:(lia)) in H1. split; [by rewrite Hg|].
  intros [|n'] Hn; [lia|]. rewrite !Hg, (H2 n'), (H2 m) by lia. done.
Qed.

Lemma of_scan_settled {A} n (f : string -> A) x : settled_from n (fun _ => of_scan f x).
Proof. apply const_settled. by destruct x as [[]|]. Qed.
Lemma keyword_settled {A} n w (a : A) s : settled_from n (fun _ => keyword w a s).
Proof. apply const_settled. unfold keyword. by destruct (String.prefix w s). Qed.

(** The last step of a reader after its parts. *)
Lemma wrap_settled {A B} n (o : nat -> outcome A) (f : A -> B) :
  settled_from n o -> settled_from n (fun n => then_do (o n) (fun a r => Done (f a) r)).
Proof. intros Ho. apply (then_settled n o (fun _ a r => Done (f a) r)); [done|]. intros a r _. by apply const_settled. Qed.

#[local] Hint Resolve of_scan_settled keyword_settled : ticketing.

(** Enough fuel for each reader, by the length of what it has to read. *)
Lemma readers_settle n :
  (forall depth s, (2 * String.length s + 1 <= n)%nat -> settled_from n (fun f => value f depth s)) /\
  (forall depth s, (2 * String.length s + 2 <= n)%nat -> settled_from n (fun f => elements f depth s)) /\
  (forall depth s, (2 * String.length s + 1 <= n)%nat -> settled_from n (fun f => members f depth s)).
Proof.
  induction n as [|n (IHv & IHe & IHm)]; [split_and!; intros; lia|]. split_and!; intros depth s Hn.
  - eapply succ_settled; [intros f; cbn [value]; reflexivity| |apply Nat.lt_succ_diag_r].
    pose proof (skip_ws_length s) as Hws. destruct (skip_ws s) as [|c s0]; [by apply const_settled|]. cbn [String.length] in Hws.
    pose proof (skip_ws_length s0) as Hws0.
    destruct (_ =? 123)%N; [destruct (_ <=? _)%N; [by apply const_settled|]; destruct (skip_ws s0); [by apply const_settled|]|].
    { destruct (_ =? 125)%N; [by apply const_settled|]. apply wrap_settled, IHm. lia. }
    destruct (_ =? 91)%N; [destruct (_ <=? _)%N; [by apply const_settled|]; destruct (skip_ws s0); [by apply const_settled|]|].
    { destruct (_ =? 93)%N; [by apply const_settled|]. apply wrap_settled, IHe. lia. }
    repeat (destruct (_ =? _)%N; [auto with ticketing|]). auto with ticketing.
  - eapply succ_settled; [intros f; cbn [elements]; reflexivity| |apply Nat.lt_succ_diag_r].
    apply then_settled; [apply IHv; lia|]. intros v r Hv. apply (readers_consume n) in Hv.
    pose proof (skip_ws_length r) as Hws. destruct (skip_ws r) as [|c r']; [by apply const_settled|]. cbn [String.length] in Hws.
    destruct (_ =? 44)%N; [apply wrap_settled, IHe; lia|]. destruct (_ =? 93)%N; by apply const_settled.
  - eapply succ_settled; [intros f; cbn [members]; reflexivity| |apply Nat.lt_succ_diag_r].
    pose proof (skip_ws_length s) as Hws. destruct (skip_ws s) as [|c s0]; [by apply const_settled|]. cbn [String.length] in Hws.
    destruct (_ =? 34)%N; [|by apply const_settled].
    destruct (string_literal s0) as [[k s2]|] eqn:Hk; [|by apply const_settled]. apply string_literal_length in Hk.
    pose proof (skip_ws_length s2) as Hws2. destruct (skip_ws s2) as [|c2 s3]; [by apply const_settled|]. cbn [String.length] in Hws2.
    destruct (_ =? 58)%N; [|by apply const_settled].
    apply then_settled; [apply IHv; lia|]. intros v r Hv. apply (readers_consume n) in Hv.
    pose proof (skip_ws_length r) as Hws3. destruct (skip_ws r) as [|e r']; [by apply const_settled|]. cbn [String.length] in Hws3.
    destruct (_ =? 44)%N; [apply (wrap_settled _ _ (fun l => (k, v) :: l)), IHm; lia|]. destruct (_ =? 125)%N; by apply const_settled.
Qed.

Lemma value_settles depth s n : (fuel_for s <= n)%nat -> value n depth s = value (fuel_for s) depth s /\ value n depth s <> OutOfFuel.
Proof.
  intros Hn. destruct (proj1 (readers_settle (fuel_for s)) depth s) as [H1 H2]; [unfold fuel_for; lia|].
  split; [by apply H2|]. by rewrite H2.
Qed.

(** ** The printer ([json.Marshal], object members in the given order) *)

Definition escaped (c : Ascii.ascii) : string := String backslash (String c EmptyString).
Definition u_escape (n : N) : string :=
  escaped "u"%char +:+ hex_EncodeToString [Z.of_N (n / 256); Z.of_N (n mod 256)].

Definition escape_char (c : Ascii.ascii) : string :=
  let n := code c in
  if (n =? 34)%N || (n =? 92)%N then escaped c
  else if (n =? 8)%N then escaped "b"%char
  else if (n =? 9)%N then escaped "t"%char
  else if (n =? 10)%N then escaped "n"%char
  else if (n =? 12)%N then escaped "f"%char
  else if (n =? 13)%N then escaped "r"%char
  else if (n <? 32)%N || (n =? 38)%N || (n =? 60)%N || (n =? 62)%N then u_escape n
  else String c EmptyString.

(** Text between the quotes: HTML characters, control characters, U+2028 and
    U+2029 are escaped, invalid bytes become [\ufffd]. *)
Fixpoint encode_body (s : string) : string :=
  match s with
  | EmptyString => EmptyString
  | String a s1 =>
      if (code a <? 128)%N then escape_char a +:+ encode_body s1
      else
        let bad := u_escape 65533 +:+ encode_body s1 in
        match s1 with
        | EmptyString => bad
        | String b s2 =>
            if two_bytes a b then String a (String b (encode_body s2))
            else match s2 with
                 | EmptyString => bad
                 | String c s3 =>
                     if three_bytes a b c then
                       (if (code a =? 226)%N && (code b =? 128)%N && between 168 169 c
                        then u_escape (8192 + (code c - 128)) else String a (String b (String c EmptyString)))
                       +:+ encode_body s3
                     else match s3 with
                          | EmptyString => bad
                          | String d s4 =>
                              if four_bytes a b c d then String a (String b (String c (String d (encode_body s4))))
                              else bad
                          end
                 end
        end
  end.
Definition quoted (s : string) : string := String dquote (encode_body s) +:+ String dquote EmptyString.

Fixpoint Marshal (v : JVal) : string :=
  match v with
  | VNull => "null"
  | VBool b => if b then "true" else "false"
  | VNum l => l
  | VStr s => quoted s
  | VArr l => "[" +:+ strings_Join ","%char (List.map Marshal l) +:+ "]"
  | VObj fields => "{" +:+ strings_Join ","%char (List.map (fun kv => quoted kv.1 +:+ ":" +:+ Marshal kv.2) fields) +:+ "}"
  end.

(** A Go map is printed in the order of its keys. *)
Definition by_name (x y : string * JVal) : Prop := String.leb x.1 y.1 = true.
#[global] Instance by_name_dec x y : Decision (by_name x y).
Proof. unfold by_name. apply _. Defined.

(** ** Round trip *)

(** How the scanner passes over one printed unit. *)
Definition passes (enc out : string) : Prop := forall t,
  scan_string Lit None (enc +:+ t) = prod_map (fun o => out +:+ o) id <$> scan_string Lit None t.

Lemma passes_char a : (code a <? 128)%N = true -> passes (escape_char a) (String a EmptyString).
Proof. intros Ha t. destruct a as [[] [] [] [] [] [] [] []]; try discriminate Ha; reflexivity. Qed.

Lemma passes_raw a : (code a <? 128)%N = false -> passes (String a EmptyString) (String a EmptyString).
Proof. intros Ha t. destruct a as [[] [] [] [] [] [] [] []]; try discriminate Ha; reflexivity. Qed.

Lemma passes_bad : passes (u_escape 65533) replacement.
Proof. intros t. reflexivity. Qed.


Lemma passes_app e1 o1 e2 o2 : passes e1 o1 -> passes e2 o2 -> passes (e1 +:+ e2) (o1 +:+ o2).
Proof.
  intros H1 H2 t. rewrite string_app_assoc, H1, H2. destruct (scan_string Lit None t) as [[o r]|]; [|done].
  simpl. by rewrite string_app_assoc.
Qed.

Lemma passes_sep c : between 168 169 c = true ->
  passes (u_escape (8192 + (code c - 128))) (chr 226 +:+ chr 128 +:+ String c EmptyString).
Proof. intros Hc t. destruct c as [[] [] [] [] [] [] [] []]; try discriminate Hc; reflexivity. Qed.

Lemma passes_nil : passes EmptyString EmptyString.
Proof. intros t. change (EmptyString +:+ t) with t. by destruct (scan_string Lit None t) as [[]|]. Qed.

Lemma passes_cons a e o : (code a <? 128)%N = false -> passes e o -> passes (String a e) (String a o).
Proof. intros Ha. apply (passes_app (String a EmptyString) (String a EmptyString)), passes_raw, Ha. Qed.

Lemma between_high lo hi b : between lo hi b = true -> (128 <= lo)%N -> (code b <? 128)%N = false.
Proof. unfold between. intros [H1%N.leb_le _]%andb_true_iff Hlo. apply N.ltb_ge. lia. Qed.

Lemma two_bytes_high a b : two_bytes a b = true -> (code b <? 128)%N = false.
Proof. intros [_ Hb]%andb_true_iff. by apply (between_high _ _ _ Hb). Qed.
Lemma three_bytes_high a b c : three_bytes a b c = true -> (code b <? 128)%N = false /\ (code c <? 128)%N = false.
Proof.
  unfold three_bytes. intros [Hc Hb]%andb_true_iff. split; [|by apply (between_high _ _ _ Hc)].
  destruct (_ =? _)%N; [by apply (between_high _ _ _ Hb)|]. destruct (_ =? _)%N; [by apply (between_high _ _ _ Hb)|].
  apply andb_true_iff in Hb as [_ Hb]. by apply (between_high _ _ _ Hb).
Qed.
Lemma four_bytes_high a b c d : four_bytes a b c d = true ->
  (code b <? 128)%N = false /\ (code c <? 128)%N = false /\ (code d <? 128)%N = false.
Proof.
  unfold four_bytes. intros [[Hc Hd]%andb_true_iff Hb]%andb_true_iff.
  split; [|split; [by apply (between_high _ _ _ Hc)|by apply (between_high _ _ _ Hd)]].
  destruct (_ =? _)%N; [by apply (between_high _ _ _ Hb)|]. destruct (_ =? _)%N; [by apply (between_high _ _ _ Hb)|].
  apply andb_true_iff in Hb as [_ Hb]. by apply (between_high _ _ _ Hb).
Qed.

Lemma code_inj a n : (code a =? n)%N = true -> a = Ascii.ascii_of_N n.
Proof. intros <-%N.eqb_eq. unfold code. by rewrite Ascii.ascii_N_embedding. Qed.

(** What the scanner reads back is the text with its invalid bytes repaired. *)
Lemma encode_passes s : passes (encode_body s) (to_valid_utf8 s).
Proof.
  assert (Hall : forall n s, (String.length s <= n)%nat -> passes (encode_body s) (to_valid_utf8 s)); [|by eapply Hall].
  clear s. induction n as [|n IH]; intros [|a s1] Hn; cbn [String.length] in Hn; try lia; [apply passes_nil..|].
  cbn [encode_body to_valid_utf8]. destruct (code a <? 128)%N eqn:Ha.
  { apply (passes_app _ (String a EmptyString)); [by apply passes_char|apply IH; lia]. }
  assert (Hbad : passes (u_escape 65533 +:+ encode_body s1) (replacement +:+ to_valid_utf8 s1))
    by (apply passes_app; [apply passes_bad|apply IH; lia]).
  destruct s1 as [|b s2]; [done|]. cbn [String.length] in Hn.
  destruct (two_bytes a b) eqn:H2.
  { apply two_bytes_high in H2. repeat apply passes_cons; [done..|]. apply IH. lia. }
  destruct s2 as [|c s3]; [done|]. cbn [String.length] in Hn.
  destruct (three_bytes a b c) eqn:H3.
  { assert (Hs3 : passes (encode_body s3) (to_valid_utf8 s3)) by (apply IH; lia).
    destruct (_ && _ && _) eqn:Hsep.
    - apply andb_true_iff in Hsep as [[->%code_inj ->%code_inj]%andb_true_iff Hc].
      apply (passes_app _ (chr 226 +:+ chr 128 +:+ String c EmptyString)); [by apply passes_sep|done].
    - apply three_bytes_high in H3 as [Hb Hc]. by repeat apply passes_cons. }
  destruct s3 as [|d s4]; [done|]. cbn [String.length] in Hn.
  destruct (four_bytes a b c d) eqn:H4; [|done].
  apply four_bytes_high in H4 as (Hb & Hc & Hd). repeat apply passes_cons; [done..|]. apply IH. lia.
Qed.

Lemma quoted_literal s t :
  string_literal (encode_body s +:+ String dquote t) = Some (to_valid_utf8 (to_valid_utf8 s), t).
Proof. unfold string_literal. rewrite encode_passes. simpl. by rewrite string_app_nil. Qed.

(** What may follow a value inside a document. *)
Definition stops (t : string) : Prop :=
  match t with EmptyString => True | String c _ => code c = 44%N \/ code c = 93%N \/ code c = 125%N \/ code c = 10%N end.

Lemma string_app_empty (t : string) : EmptyString +:+ t = t.
Proof. done. Qed.

Lemma take_digits_app s t : stops t -> take_digits (s +:+ t) = prod_map id (fun r => r +:+ t) (take_digits s).
Proof.
  intros Ht. induction s as [|c s IH].
  - rewrite string_app_empty. destruct t as [|c t]; [done|]. simpl. unfold is_digit, between.
    by destruct Ht as [-> | [-> | [-> | ->]]].
  - rewrite string_app_cons. cbn [take_digits]. destruct (is_digit c); [|done]. rewrite IH. by destruct (take_digits s).
Qed.

Lemma digits1_app s t x r : stops t -> digits1 s = Some (x, r) -> digits1 (s +:+ t) = Some (x, r +:+ t).
Proof.
  intros Ht. unfold digits1. rewrite take_digits_app by done. destruct (take_digits s) as [[|c d] r']; [done|].
  by intros [= <- <-].
Qed.

Lemma integer_part_app s t x r : stops t -> integer_part s = Some (x, r) -> integer_part (s +:+ t) = Some (x, r +:+ t).
Proof.
  intros Ht. destruct s as [|c s]; [done|]. rewrite string_app_cons. cbn [integer_part].
  destruct (_ =? _)%N; [by intros [= <- <-]|]. apply (digits1_app (String c s)), Ht.
Qed.

Lemma fraction_part_app s t x r : stops t -> fraction_part s = Some (x, r) -> fraction_part (s +:+ t) = Some (x, r +:+ t).
Proof.
  intros Ht. destruct s as [|c s].
  - intros [= <- <-]. rewrite string_app_empty. destruct t as [|c t]; [done|]. cbn [fraction_part].
    by destruct Ht as [-> | [-> | [-> | ->]]].
  - rewrite string_app_cons. cbn [fraction_part]. destruct (_ =? _)%N; [|by intros [= <- <-]].
    intros ([d r'] & Hd & [= -> ->])%fmap_Some. by rewrite (digits1_app _ _ _ _ Ht Hd).
Qed.

Lemma exponent_part_app s t x r : stops t -> exponent_part s = Some (x, r) -> exponent_part (s +:+ t) = Some (x, r +:+ t).
Proof.
  intros Ht. destruct s as [|c s].
  - intros [= <- <-]. rewrite string_app_empty. destruct t as [|c t]; [done|]. cbn [exponent_part].
    by destruct Ht as [-> | [-> | [-> | ->]]].
  - rewrite string_app_cons. cbn [exponent_part]. destruct (_ || _)%N; [|by intros [= <- <-]].
    destruct s as [|d s]; [done|]. rewrite string_app_cons. cbn [sign].
    destruct (_ || _)%N; intros ([ds r'] & Hd & [= -> ->])%fmap_Some.
    + by rewrite (digits1_app _ _ _ _ Ht Hd).
    + by rewrite <- string_app_cons, (digits1_app _ _ _ _ Ht Hd).
Qed.

Lemma number_app s t x r : stops t -> number s = Some (x, r) -> number (s +:+ t) = Some (x, r +:+ t).
Proof.
  intros Ht Hn. assert (Hs : s <> EmptyString) by (by intros ->). unfold number in *.
  assert (Hm : minus (s +:+ t) = prod_map id (fun r => r +:+ t) (minus s)).
  { destruct s as [|c s]; [done|]. rewrite string_app_cons. cbn [minus]. by destruct (_ =? _)%N. }
  rewrite Hm. destruct (minus s) as [sg s0]. simpl.
  destruct (integer_part s0) as [[i s1]|] eqn:Hi; [|done]. rewrite (integer_part_app _ _ _ _ Ht Hi).
  destruct (fraction_part s1) as [[f s2]|] eqn:Hf; [|done]. rewrite (fraction_part_app _ _ _ _ Ht Hf).
  destruct (exponent_part s2) as [[e s3]|] eqn:He; [|done]. rewrite (exponent_part_app _ _ _ _ Ht He).
  by injection Hn as <- <-.
Qed.

Lemma keyword_app {A} w (a : A) t : keyword w a (w +:+ t) = Done a t.
Proof.
  unfold keyword. assert (Hp : String.prefix w (w +:+ t) = true).
  { induction w as [|c w IH]; [by destruct t|]. rewrite string_app_cons. cbn [String.prefix].
    by destruct (Ascii.ascii_dec c c). }
  rewrite Hp. f_equal.
  induction w as [|c w IH].
  - rewrite string_app_empty. simpl. rewrite Nat.sub_0_r. induction t as [|c t IH]; [done|]. simpl. f_equal. apply IH.
    by destruct t.
  - rewrite string_app_cons. simpl. apply IH. clear. induction w as [|c w IH]; [by destruct t|].
    rewrite string_app_cons. cbn [String.prefix]. by destruct (Ascii.ascii_dec c c).
Qed.

(** Induction over documents, with the hypothesis for every member. *)
Section induction.
Context (P : JVal -> Prop) (Pnull : P VNull) (Pbool : forall b, P (VBool b)) (Pnum : forall l, P (VNum l))
  (Pstr : forall s, P (VStr s)) (Parr : forall l, Forall P l -> P (VArr l))
  (Pobj : forall fields, Forall (fun kv => P kv.2) fields -> P (VObj fields)).
Fixpoint JVal_nested_ind (v : JVal) : P v :=
  match v with
  | VNull => Pnull
  | VBool b => Pbool b
  | VNum l => Pnum l
  | VStr s => Pstr s
  | VArr l => Parr l ((fix go l := match l return Forall P l with
                                   | [] => List.Forall_nil _
                                   | x :: l' => List.Forall_cons _ _ _ (JVal_nested_ind x) (go l')
                                   end) l)
  | VObj fields => Pobj fields ((fix go l := match l return Forall (fun kv => P kv.2) l with
                                   | [] => List.Forall_nil _
                                   | x :: l' => List.Forall_cons _ _ _ (JVal_nested_ind x.2) (go l')
                                   end) fields)
  end.
End induction.

(** Literals are JSON numbers and strings are valid UTF-8. *)
Definition valid_number (l : string) : bool := bool_decide (number l = Some (l, EmptyString)).
Definition valid_text (s : string) : bool := String.eqb (to_valid_utf8 s) s.
Fixpoint document (v : JVal) : bool :=
  match v with
  | VNum l => valid_number l
  | VStr s => valid_text s
  | VArr l => forallb document l
  | VObj fields => forallb (fun kv => valid_text kv.1 && document kv.2) fields
  | _ => true
  end.
Fixpoint height (v : JVal) : N :=
  match v with
  | VArr l => 1 + foldr N.max 0 (List.map height l)
  | VObj fields => 1 + foldr N.max 0 (List.map (fun kv => height kv.2) fields)
  | _ => 0
  end%N.

(** From some amount of fuel on. *)
Definition eventually {A} (g : nat -> outcome A) (x : outcome A) : Prop := exists n, forall m, (n <= m)%nat -> g m = x.

Lemma eventually_S {A} (g g' : nat -> outcome A) x : (forall f, g (S f) = g' f) -> eventually g' x -> eventually g x.
Proof. intros Hg [n Hn]. exists (S n). intros [|m] Hm; [lia|]. rewrite Hg. apply Hn. lia. Qed.

Lemma eventually_const {A} (x : outcome A) : eventually (fun _ => x) x.
Proof. by exists O. Qed.

Lemma eventually_then {A B} (o : nat -> outcome A) (k : nat -> A -> string -> outcome B) a r x :
  eventually o (Done a r) -> eventually (fun f => k f a r) x -> eventually (fun f => then_do (o f) (k f)) x.
Proof. intros [n Hn] [m Hm]. exists (n `max` m)%nat. intros f Hf. rewrite Hn by lia. simpl. apply Hm. lia. Qed.

Definition reads (v : JVal) : Prop := forall depth t,
  document v = true -> (depth + height v <= max_depth)%N -> stops t ->
  eventually (fun f => value f depth (Marshal v +:+ t)) (Done v t).

(** The first character of a document. *)
Lemma Marshal_head v : document v = true ->
  exists c s, Marshal v = String c s /\ (code c =? 93)%N = false /\ forall t, skip_ws (String c t) = String c t.
Proof.
  destruct v as [|[]|l|s|l|fs]; intros Hd; try (eexists _, _; split; [reflexivity|by split]).
  simpl in *. apply bool_decide_eq_true in Hd. unfold number in Hd. destruct l as [|c l]; [done|]. exists c, l. split; [done|].
  cbn [minus] in Hd. destruct (code c =? 45)%N eqn:Hc.
  { apply code_inj in Hc as ->. by split. }
  cbn [integer_part] in Hd. destruct (code c =? 48)%N eqn:H0; [apply code_inj in H0 as ->; by split|].
  unfold digits1 in Hd. cbn [take_digits] in Hd. destruct (is_digit c) eqn:Hdig; [|done]. clear -Hdig.
  destruct c as [[] [] [] [] [] [] [] []]; try discriminate Hdig; by split.
Qed.

Lemma skip_Marshal v t : document v = true -> skip_ws (Marshal v +:+ t) = Marshal v +:+ t.
Proof. intros (c & s & -> & _ & Hs)%Marshal_head. rewrite string_app_cons. apply Hs. Qed.

Lemma value_number depth l t : valid_number l = true -> stops t ->
  eventually (fun f => value f depth (l +:+ t)) (Done (VNum l) t).
Proof.
  intros Hl Ht. pose proof (skip_Marshal (VNum l) t Hl) as Hskip. simpl in Hskip.
  apply bool_decide_eq_true in Hl. eapply eventually_S; [intros f; cbn [value]; reflexivity|]. rewrite Hskip.
  pose proof (number_app _ t _ _ Ht Hl) as Hn. rewrite string_app_empty in Hn.
  destruct l as [|c l]; [done|]. rewrite string_app_cons in *.
  assert (Hc : (code c = 45 \/ 48 <= code c <= 57)%N).
  { unfold number in Hl. cbn [minus] in Hl. destruct (N.eqb_spec (code c) 45); [by left|]. right.
    cbn [integer_part] in Hl. destruct (N.eqb_spec (code c) 48); [lia|].
    unfold digits1 in Hl. cbn [take_digits] in Hl. destruct (is_digit c) eqn:Hdig; [|done].
    unfold is_digit, between in Hdig. apply andb_true_iff in Hdig as [H1%N.leb_le H2%N.leb_le]. lia. }
  assert (Hne : forall n, (n = 123 \/ n = 91 \/ n = 34 \/ n = 116 \/ n = 102 \/ n = 110)%N -> (code c =? n)%N = false)
    by (intros n Hv; apply N.eqb_neq; lia).
  rewrite !Hne by lia. rewrite Hn. apply eventually_const.
Qed.

Lemma elements_read l : Forall reads l -> forall depth t, l <> [] -> forallb document l = true ->
  (depth + foldr N.max 0 (List.map height l) <= max_depth)%N ->
  eventually (fun f => elements f depth (strings_Join ","%char (List.map Marshal l) +:+ "]" +:+ t)) (Done l t).
Proof.
  induction 1 as [|v l Hv _ IH]; intros depth t Hl Hd Hh; [done|]. simpl in Hd, Hh. apply andb_true_iff in Hd as [Hdv Hdl].
  eapply eventually_S; [intros f; cbn [elements]; reflexivity|]. cbn [List.map strings_Join].
  destruct l as [|v2 l].
  - eapply eventually_then; [apply Hv; [done|lia|simpl; auto]|by exists O].
  - cbn [List.map]. rewrite string_app_assoc, string_app_cons. eapply eventually_then; [apply Hv; [done|lia|simpl; auto]|].
    refine (eventually_then _ (fun _ l r2 => Done (v :: l) r2) _ _ _ (IH _ _ _ Hdl _) (eventually_const _)); [done|].
    simpl in Hh |- *. lia.
Qed.

Definition member (kv : string * JVal) : string := quoted kv.1 +:+ ":" +:+ Marshal kv.2.

Lemma members_step f depth k v t : to_valid_utf8 k = k ->
  members (S f) depth (member (k, v) +:+ t) =
    then_do (value f depth (Marshal v +:+ t)) (fun v r =>
      match skip_ws r with
      | String e r' =>
          if (code e =? 44)%N then then_do (members f depth r') (fun l r2 => Done ((k, v) :: l) r2)
          else if (code e =? 125)%N then Done [(k, v)] r'
          else Bad
      | EmptyString => Bad
      end).
Proof.
  intros Hk. unfold member, quoted. cbn [fst snd]. rewrite !string_app_cons, !string_app_assoc, string_app_cons, string_app_empty.
  cbn [members]. change (skip_ws (String dquote ?x)) with (String dquote x). cbv beta iota.
  change (code dquote =? 34)%N with true. cbv iota.
  rewrite quoted_literal, !Hk. reflexivity.
Qed.

Lemma members_read fields : Forall (fun kv => reads kv.2) fields -> forall depth t, fields <> [] ->
  forallb (fun kv => valid_text kv.1 && document kv.2) fields = true ->
  (depth + foldr N.max 0 (List.map (fun kv => height kv.2) fields) <= max_depth)%N ->
  eventually (fun f => members f depth (strings_Join ","%char (List.map member fields) +:+ "}" +:+ t)) (Done fields t).
Proof.
  induction 1 as [|[k v] l Hv _ IH]; intros depth t Hl Hd Hh; [done|]. simpl in Hd, Hh, Hv.
  apply andb_true_iff in Hd as [[Hk%String.eqb_eq Hdv]%andb_true_iff Hdl]. cbn [List.map strings_Join].
  destruct l as [|kv2 l].
  - eapply eventually_S; [intros f; by apply members_step|].
    eapply eventually_then; [apply Hv; [done|lia|simpl; auto]|by exists O].
  - cbn [List.map]. rewrite string_app_assoc, string_app_cons. eapply eventually_S; [intros f; by apply members_step|].
    eapply eventually_then; [apply Hv; [done|lia|simpl; auto]|].
    refine (eventually_then _ (fun _ l r2 => Done ((k, v) :: l) r2) _ _ _ (IH _ _ _ Hdl _) (eventually_const _)); [done|].
    simpl in Hh |- *. lia.
Qed.

Lemma members_head fields t : fields <> [] ->
  exists s, strings_Join ","%char (List.map member fields) +:+ t = String dquote s.
Proof. destruct fields as [|[k v] [|kv2 l]]; [done| |]; intros _; eexists; reflexivity. Qed.

Lemma document_reads v : reads v.
Proof.
  induction v as [|[]|l|s|l IH|fields IH] using JVal_nested_ind; intros depth t Hd Hh Ht.
  - eapply eventually_S; [intros f; reflexivity|]. cbn [Marshal]. exists O. intros m _. apply (keyword_app "null").
  - exists 1%nat. intros [|m] Hm; [lia|]. apply (keyword_app "true").
  - exists 1%nat. intros [|m] Hm; [lia|]. apply (keyword_app "false").
  - by apply value_number.
  - exists 1%nat. intros [|m] Hm; [lia|]. apply String.eqb_eq in Hd. cbn [Marshal]. unfold quoted.
    rewrite !string_app_cons, !string_app_assoc, string_app_cons, string_app_empty.
    change (of_scan VStr (string_literal (encode_body s +:+ String dquote t)) = Done (VStr s) t).
    rewrite quoted_literal, !Hd. done.
  - simpl in Hd, Hh. assert (Hdep : (max_depth <=? depth)%N = false) by (apply N.leb_gt; lia).
    eapply eventually_S; [intros f; cbn [value]; reflexivity|]. cbn [Marshal].
    rewrite !string_app_assoc. change ("[" +:+ ?x) with (String "["%char x).
    change (skip_ws (String "["%char ?x)) with (String "["%char x). cbv beta iota.
    change (code "["%char =? 123)%N with false. change (code "["%char =? 91)%N with true. cbv iota. rewrite Hdep.
    destruct (decide (l = [])) as [->|Hl]; [by exists O|].
    pose proof (elements_read l IH (depth + 1) t Hl Hd ltac:(lia)) as He.
    destruct l as [|v l]; [done|]. apply andb_true_iff in Hd as [Hdv _].
    destruct (Marshal_head v Hdv) as (c & sv & Hv & Hc & Hws).
    assert (Hhead : exists u, strings_Join ","%char (List.map Marshal (v :: l)) +:+ "]" +:+ t = String c u).
    { cbn [List.map strings_Join]. rewrite Hv. destruct (List.map Marshal l); rewrite !string_app_cons; eauto. }
    destruct Hhead as [u Hu]. rewrite Hu in *. rewrite Hws, Hc.
    refine (eventually_then _ (fun _ l r => Done (VArr l) r) _ _ _ He (eventually_const _)).
  - simpl in Hd, Hh. assert (Hdep : (max_depth <=? depth)%N = false) by (apply N.leb_gt; lia).
    eapply eventually_S; [intros f; cbn [value]; reflexivity|]. cbn [Marshal]. fold member.
    rewrite !string_app_assoc. change ("{" +:+ ?x) with (String "{"%char x).
    change (skip_ws (String "{"%char ?x)) with (String "{"%char x). cbv beta iota.
    change (code "{"%char =? 123)%N with true. cbv iota. rewrite Hdep.
    destruct (decide (fields = [])) as [->|Hl]; [by exists O|].
    pose proof (members_read fields IH (depth + 1) t Hl Hd ltac:(lia)) as He.
    destruct (members_head fields ("}" +:+ t) Hl) as [u Hu]. rewrite Hu in *.
    change (skip_ws (String dquote u)) with (String dquote u). cbv beta iota.
    change (code dquote =? 125)%N with false. cbv iota.
    refine (eventually_then _ (fun _ l r => Done (VObj l) r) _ _ _ He (eventually_const _)).
Qed.

(** What [json.Marshal] prints, [json.Unmarshal] reads back. For every
    document of valid numbers and UTF-8 strings that is not nested deeper than
    the decoder allows, with nothing or a line end after it, both [Unmarshal]
    and [Decode] return exactly that document. *)
Lemma Unmarshal_printed v t : stops t -> skip_ws t = EmptyString ->
  document v = true -> (height v <= max_depth)%N -> Unmarshal (Marshal v +:+ t) = Some v /\ Decode (Marshal v +:+ t) = Some v.
Proof.
  intros Ht Hws Hd Hh. destruct (document_reads v 0%N t Hd ltac:(lia) Ht) as [n Hn]. set (s := Marshal v +:+ t) in *.
  destruct (value_settles 0%N s (n `max` fuel_for s) ltac:(lia)) as [Hf _].
  rewrite Hn in Hf by lia. unfold Unmarshal, Decode. by rewrite <- Hf, Hws.
Qed.

Lemma Unmarshal_Marshal v :
  document v = true -> (height v <= max_depth)%N -> Unmarshal (Marshal v) = Some v /\ Decode (Marshal v) = Some v.
Proof. pose proof (Unmarshal_printed v EmptyString I eq_refl) as Hp. by rewrite string_app_nil in Hp. Qed.
