(* ===== verification/GoDecimal.v ===== *)
(** * Decimal integers in JSON

    [strconv.FormatInt] prints a JSON number, and [strconv.ParseInt] reads it
    back. *)
From Stdlib Require Import DecimalString DecimalZ DecimalFacts.
From S2P Require Import Prelude Crypto GoJson.

Lemma digits_value_acc d acc :
  digits_value (Z.pos acc) (NilEmpty.string_of_uint d) = Some (Z.pos (Pos.of_uint_acc d acc)).
Proof.
  revert acc. induction d as [|d IH|d IH|d IH|d IH|d IH|d IH|d IH|d IH|d IH|d IH]; intros acc; [done|..];
    cbn [NilEmpty.string_of_uint digits_value Pos.of_uint_acc];
    change (is_digit _) with true; cbv iota; rewrite <- IH; f_equal; vm_compute (code _); lia.
Qed.

Lemma digits_value_uint d : digits_value 0 (NilEmpty.string_of_uint d) = Some (Z.of_uint d).
Proof.
  induction d as [|d IH|d IH|d IH|d IH|d IH|d IH|d IH|d IH|d IH|d IH]; [done|exact IH|..]; apply (digits_value_acc d).
Qed.

Lemma uint_digits d : take_digits (NilEmpty.string_of_uint d) = (NilEmpty.string_of_uint d, EmptyString).
Proof. induction d as [|d IH|d IH|d IH|d IH|d IH|d IH|d IH|d IH|d IH|d IH]; [done|..]; cbn; by rewrite IH. Qed.

(** Only zero is written with a leading zero. *)
Lemma uint_integer_part d : Decimal.unorm d = d ->
  integer_part (NilEmpty.string_of_uint d) = Some (NilEmpty.string_of_uint d, EmptyString).
Proof.
  intros Hn. assert (Hd : digits1 (NilEmpty.string_of_uint d) = Some (NilEmpty.string_of_uint d, EmptyString)).
  { unfold digits1. rewrite uint_digits. by destruct d. }
  destruct d as [|d|d|d|d|d|d|d|d|d|d]; [done| |exact Hd..].
  pose proof (DecimalFacts.nb_digits_nzhead d) as Hlen. unfold Decimal.unorm in Hn. cbn [Decimal.nzhead] in Hn.
  destruct (Decimal.nzhead d) eqn:Hz; try done; injection Hn as <-; [done|cbn in Hlen; lia].
Qed.

Lemma to_int_norm z : Decimal.norm (Z.to_int z) = Z.to_int z.
Proof. by rewrite <- DecimalZ.to_of, DecimalZ.of_to. Qed.

(** A nonnegative and a negative integer, as digits. *)
Lemma FormatInt_cases z :
  exists d, Decimal.unorm d = d /\ (z = Z.of_uint d /\ FormatInt z = NilEmpty.string_of_uint d \/
    (z = - Z.of_uint d)%Z /\ FormatInt z = String (Ascii.ascii_of_N 45) (NilEmpty.string_of_uint d)).
Proof.
  pose proof (to_int_norm z) as Hn. pose proof (DecimalZ.of_to z) as Hz. unfold FormatInt. destruct (Z.to_int z) as [d|d].
  - exists d. injection Hn as Hn. split; [done|]. left. split; [done|]. by destruct d.
  - exists d. cbn in Hn. assert (Hnil : d <> Decimal.Nil) by (by intros ->).
    split; [|right; split; [done|by destruct d]]. unfold Decimal.unorm. destruct (Decimal.nzhead d) eqn:Hd; [done|congruence..].
Qed.

Lemma valid_FormatInt z : valid_number (FormatInt z) = true.
Proof.
  unfold valid_number. apply bool_decide_eq_true. destruct (FormatInt_cases z) as (d & Hn & [[_ ->]|[_ ->]]);
    pose proof (uint_integer_part d Hn) as Hi; unfold number.
  - assert (Hm : minus (NilEmpty.string_of_uint d) = (EmptyString, NilEmpty.string_of_uint d)) by by destruct d.
    rewrite Hm. cbv beta iota. rewrite Hi. cbn. by rewrite !string_app_nil.
  - change (minus _) with (String (Ascii.ascii_of_N 45) EmptyString, NilEmpty.string_of_uint d).
    cbv beta iota. rewrite Hi. cbn.
    by rewrite !string_app_nil.
Qed.

Lemma ParseInt_FormatInt_eq z : ParseInt (FormatInt z) = if decide (in_int64 z) then Some z else None.
Proof.
  unfold ParseInt. destruct (FormatInt_cases z) as (d & Hn & E). pose proof (digits_value_uint d) as Hv.
  assert (Hm : minus (NilEmpty.string_of_uint d) = (EmptyString, NilEmpty.string_of_uint d)) by by destruct d.
  assert (Hne : NilEmpty.string_of_uint d <> EmptyString) by by destruct d.
  destruct E as [[E ->]|[E ->]]; [rewrite Hm|change (minus _) with (String (Ascii.ascii_of_N 45) EmptyString, NilEmpty.string_of_uint d)];
    cbv beta iota; destruct (NilEmpty.string_of_uint d); try done; rewrite Hv; cbn; by rewrite <- E.
Qed.

Lemma ParseInt_FormatInt z : in_int64 z -> ParseInt (FormatInt z) = Some z.
Proof. intros Hz. by rewrite ParseInt_FormatInt_eq, decide_True. Qed.
