(* ===== verification/GoTime.v ===== *)
(** * [time], as far as the handlers use it

    Civil dates of the proleptic Gregorian calendar and their inverse, the
    decoding of an RFC 3339 time from JSON ([Time.UnmarshalJSON]), its printing
    ([Time.MarshalJSON]), which it undoes, and the [http.TimeFormat] layout. Fractions below a microsecond are dropped, as Postgres does. *)
From S2P Require Import Prelude Crypto GoJson.

(** ** Civil dates *)

(** Days since 1970-01-01 of a date; years begin in March so that the leap day
    comes last. *)
Definition days_of_date (y m d : Z) : Z :=
  let y' := if (m <=? 2)%Z then (y - 1)%Z else y in
  let era := (y' / 400)%Z in
  let yoe := (y' - era * 400)%Z in
  let doy := ((153 * (m + (if (2 <? m)%Z then -3 else 9)) + 2) / 5 + d - 1)%Z in
  let doe := (yoe * 365 + yoe / 4 - yoe / 100 + doy)%Z in
  (era * 146097 + doe - 719468)%Z.

Definition date_of_days (z0 : Z) : Z * Z * Z :=
  let z := (z0 + 719468)%Z in
  let era := (z / 146097)%Z in
  let doe := (z - era * 146097)%Z in
  let yoe := ((doe - doe / 1460 + doe / 36524 - doe / 146096) / 365)%Z in
  let doy := (doe - (365 * yoe + yoe / 4 - yoe / 100))%Z in
  let mp := ((5 * doy + 2) / 153)%Z in
  let d := (doy - (153 * mp + 2) / 5 + 1)%Z in
  let m := if (mp <? 10)%Z then (mp + 3)%Z else (mp - 9)%Z in
  ((yoe + era * 400 + (if (m <=? 2)%Z then 1 else 0))%Z, m, d).

Definition is_leap (y : Z) : bool := (y mod 4 =? 0)%Z && (negb (y mod 100 =? 0)%Z || (y mod 400 =? 0)%Z).
Definition days_in (m y : Z) : Z :=
  if (m =? 2)%Z then if is_leap y then 29 else 28
  else if (m =? 4)%Z || (m =? 6)%Z || (m =? 9)%Z || (m =? 11)%Z then 30 else 31.

(** The instant of a civil date and time at an offset, in microseconds. *)
Definition Date (y mo d h mi s us offset : Z) : Time :=
  ((days_of_date y mo d * 86400 + h * 3600 + mi * 60 + s - offset) * Second + us)%Z.

(** *** The two conversions are inverse *)

Lemma is_leap_period yoe era : is_leap (yoe + era * 400 + 1) = true <->
  ((yoe + 1) mod 4 = 0 /\ ((yoe + 1) mod 100 <> 0 \/ (yoe + 1) mod 400 = 0))%Z.
Proof.
  unfold is_leap.
  replace ((yoe + era * 400 + 1) mod 4)%Z with ((yoe + 1) mod 4)%Z by (Z.div_mod_to_equations; lia).
  replace ((yoe + era * 400 + 1) mod 100)%Z with ((yoe + 1) mod 100)%Z by (Z.div_mod_to_equations; lia).
  replace ((yoe + era * 400 + 1) mod 400)%Z with ((yoe + 1) mod 400)%Z by (Z.div_mod_to_equations; lia).
  rewrite andb_true_iff, orb_true_iff, negb_true_iff, Z.eqb_neq, !Z.eqb_eq. tauto.
Qed.

(** The year of a day of the 400-year cycle, and the day of that year; only leap
    years have a day 365. *)
Lemma year_of_era doe yoe :
  (0 <= doe < 146097)%Z -> yoe = ((doe - doe / 1460 + doe / 36524 - doe / 146096) / 365)%Z ->
  let doy := (doe - (365 * yoe + yoe / 4 - yoe / 100))%Z in
  (0 <= yoe < 400)%Z /\ (0 <= doy <= 365)%Z /\
  (doy = 365 -> (yoe + 1) mod 4 = 0 /\ ((yoe + 1) mod 100 <> 0 \/ yoe = 399))%Z.
Proof. intros H ->. Z.div_mod_to_equations. lia. Qed.

Lemma twelve (mp : Z) : (0 <= mp <= 11)%Z ->
  mp ∈ [0; 1; 2; 3; 4; 5; 6; 7; 8; 9; 10; 11]%Z.
Proof. intros H. rewrite !elem_of_cons. lia. Qed.

(** The month of a day of the year, counted from March, and its length. *)
Definition month_length (doy mp : Z) : Z :=
  match mp with 11 => if (doy =? 365)%Z then 29 else 28 | 1 | 3 | 6 | 8 => 30 | _ => 31 end%Z.
Lemma month_of_year doy mp :
  (0 <= doy <= 365)%Z -> mp = ((5 * doy + 2) / 153)%Z ->
  (0 <= mp <= 11)%Z /\ (1 <= doy - (153 * mp + 2) / 5 + 1 <= month_length doy mp)%Z.
Proof.
  intros H ->. assert (Hmp : (0 <= (5 * doy + 2) / 153 <= 11)%Z) by (Z.div_mod_to_equations; lia).
  split; [done|]. set (mp := ((5 * doy + 2) / 153)%Z) in *.
  assert (Hm : (153 * mp <= 5 * doy + 2 < 153 * mp + 153)%Z) by (subst mp; Z.div_mod_to_equations; lia).
  clearbody mp. apply twelve in Hmp. rewrite !elem_of_cons in Hmp. unfold month_length.
  repeat destruct Hmp as [->|Hmp]; [..|by apply elem_of_nil in Hmp]; [Z.div_mod_to_equations; lia..|].
  destruct (Z.eqb_spec doy 365); Z.div_mod_to_equations; lia.
Qed.

Lemma date_of_days_spec z y m d : date_of_days z = (y, m, d) ->
  days_of_date y m d = z /\ (1 <= m <= 12)%Z /\ (1 <= d <= days_in m y)%Z.
Proof.
  unfold date_of_days. cbv zeta. set (z1 := (z + 719468)%Z). set (era := (z1 / 146097)%Z).
  assert (Hdoe : (0 <= z1 - era * 146097 < 146097)%Z) by (subst era; Z.div_mod_to_equations; lia).
  assert (Hz : z = (era * 146097 + (z1 - era * 146097) - 719468)%Z) by (subst z1; lia).
  set (doe := (z1 - era * 146097)%Z) in *. clearbody doe era. clear z1. subst z.
  destruct (year_of_era doe _ Hdoe eq_refl) as (Hy & Hd & Hleap). set (yoe := (_ / 365)%Z) in *. clearbody yoe.
  set (doy := (doe - (365 * yoe + yoe / 4 - yoe / 100))%Z) in *.
  destruct (month_of_year doy _ Hd eq_refl) as (Hm & Hd0 & Hd1). set (mp := ((5 * doy + 2) / 153)%Z) in *. clearbody mp.
  assert (Hdoe2 : doe = (yoe * 365 + yoe / 4 - yoe / 100 + doy)%Z) by (subst doy; lia). clearbody doy.
  assert (Hmm : ((if mp <? 10 then mp + 3 else mp - 9) = mp + 3 /\ mp < 10 \/
                 (if mp <? 10 then mp + 3 else mp - 9) = mp - 9 /\ 10 <= mp)%Z) by (destruct (Z.ltb_spec mp 10); lia).
  set (m0 := if (mp <? 10)%Z then _ else _) in *. clearbody m0. set (e := if (m0 <=? 2)%Z then 1%Z else 0%Z).
  assert (He : (e = 1 /\ m0 <= 2 \/ e = 0 /\ 2 < m0)%Z) by (subst e; destruct (Z.leb_spec m0 2); lia).
  intros [= <- <- <-]. split; [|split; [lia|split; [done|]]].
  - unfold days_of_date.
    replace (if (m0 <=? 2)%Z then _ else _) with (yoe + era * 400)%Z by (destruct (Z.leb_spec m0 2); lia).
    replace ((yoe + era * 400) / 400)%Z with era by (Z.div_mod_to_equations; lia).
    replace (yoe + era * 400 - era * 400)%Z with yoe by lia.
    replace (m0 + (if (2 <? m0)%Z then -3 else 9))%Z with mp by (destruct (Z.ltb_spec 2 m0); lia). lia.
  - etransitivity; [exact Hd1|]. clear Hd0 Hd1. clearbody e. unfold days_in, month_length.
    apply twelve in Hm. rewrite !elem_of_cons in Hm.
    repeat destruct Hm as [->|Hm]; [..|by apply elem_of_nil in Hm];
      destruct Hmm as [[-> ?]|[-> ?]]; try lia; try done.
    change (11 - 9 =? 2)%Z with true. cbv iota. destruct (Z.eqb_spec doy 365) as [->|]; [|by destruct (is_leap _)].
    destruct (Hleap eq_refl) as [H4 H100]. destruct He as [[-> _]|[_ ?]]; [|lia].
    rewrite (proj2 (is_leap_period yoe era)); [done|]. split; [done|]. destruct H100 as [|E1]; [by left|right; subst yoe; done].
Qed.

(** ** RFC 3339 *)

(** Between one and [max] digits ([min] of them required), as a number. *)
Fixpoint read_digits (min max : nat) (acc : Z) (s : string) : option (Z * string) :=
  match max, s with
  | S max', String c s' =>
      if is_digit c then read_digits (pred min) max' (acc * 10 + Z.of_N (code c - 48)) s'
      else if (min =? 0)%nat then Some (acc, s) else None
  | _, _ => if (min =? 0)%nat then Some (acc, s) else None
  end.
Definition two_digits : string -> option (Z * string) := read_digits 2 2 0.
Definition lit (n : N) (s : string) : option string :=
  match s with String c s' => if (code c =? n)%N then Some s' else None | EmptyString => None end.
Definition in_range (lo hi z : Z) : option unit := if (lo <=? z)%Z && (z <=? hi)%Z then Some tt else None.

(** The fraction after the seconds: a point or comma and digits, of which the
    first six count. *)
Definition fraction (s : string) : Z * string :=
  match s with
  | String c s' =>
      if (code c =? 46)%N || (code c =? 44)%N then
        match take_digits s' with
        | (EmptyString, _) => (0%Z, s)
        | (ds, r) => (default 0%Z (fst <$> read_digits 6 6 0 (ds +:+ "000000")), r)
        end
      else (0%Z, s)
  | EmptyString => (0%Z, s)
  end.

(** [Z] or [+hh:mm] or [-hh:mm], in seconds; nothing may follow. *)
Definition zone (s : string) : option Z :=
  match s with
  | String c s' =>
      if (code c =? 90)%N then match s' with EmptyString => Some 0%Z | _ => None end
      else if (code c =? 43)%N || (code c =? 45)%N then
        '(h, s1) ← two_digits s'; s2 ← lit 58 s1; '(m, s3) ← two_digits s2;
        _ ← in_range 0 24 h; _ ← in_range 0 60 m;
        match s3 with
        | EmptyString => Some (if (code c =? 45)%N then - (h * 3600 + m * 60) else h * 3600 + m * 60)%Z
        | _ => None
        end
      else None
  | EmptyString => None
  end.

(** [Parse(RFC3339, s)], which [UnmarshalJSON] falls back to. *)
Definition ParseRFC3339 (s : string) : option Time :=
  '(y, s) ← read_digits 4 4 0 s; s ← lit 45 s;
  '(mo, s) ← two_digits s; s ← lit 45 s;
  '(d, s) ← two_digits s; s ← lit 84 s;
  '(h, s) ← read_digits 1 2 0 s; s ← lit 58 s;
  '(mi, s) ← two_digits s; s ← lit 58 s;
  '(sec, s) ← two_digits s;
  let '(us, s) := fraction s in
  off ← zone s;
  _ ← in_range 1 12 mo; _ ← in_range 1 (days_in mo y) d;
  _ ← in_range 0 23 h; _ ← in_range 0 59 mi; _ ← in_range 0 59 sec;
  Some (Date y mo d h mi sec us off).

(** *** Printing ([Time.MarshalJSON]) *)

Definition digit (z : Z) : Ascii.ascii := Ascii.ascii_of_N (Z.to_N (48 + z)).
(** The last [n] decimal digits. *)
Fixpoint fixed (n : nat) (z : Z) : string :=
  match n with O => EmptyString | S n' => fixed n' (z / 10) +:+ String (digit (z mod 10)) EmptyString end.
Fixpoint trim_zeros (s : string) : string :=
  match s with
  | EmptyString => EmptyString
  | String c s' =>
      match trim_zeros s' with
      | EmptyString => if (code c =? 48)%N then EmptyString else String c EmptyString
      | t => String c t
      end
  end.
Definition fraction_text (us : Z) : string := if (us =? 0)%Z then EmptyString else "." +:+ trim_zeros (fixed 6 us).
(** The layout "Z07:00": whole minutes, seconds of an offset are dropped. *)
Definition zone_text (offset : Z) : string :=
  if (offset =? 0)%Z then "Z"
  else
    let minutes := Z.abs (Z.quot offset 60) in
    (if (Z.quot offset 60 <? 0)%Z then "-" else "+") +:+ fixed 2 (minutes / 60) +:+ ":" +:+ fixed 2 (minutes mod 60).

(** The layout [RFC3339Nano] at an offset from UTC, without the fractions below a
    microsecond; no text for a year or an offset that the standard excludes. *)
Definition FormatRFC3339 (offset : Z) (t : Time) : option string :=
  let s := (t / Second + offset)%Z in
  let r := (s mod 86400)%Z in
  let '(y, m, d) := date_of_days (s / 86400)%Z in
  _ ← in_range 0 9999 y; _ ← in_range 0 23 (Z.abs (Z.quot offset 60) / 60);
  Some (fixed 4 y +:+ "-" +:+ fixed 2 m +:+ "-" +:+ fixed 2 d +:+ "T" +:+ fixed 2 (r / 3600) +:+ ":" +:+
        fixed 2 (r / 60 mod 60) +:+ ":" +:+ fixed 2 (r mod 60) +:+ fraction_text (t mod Second) +:+ zone_text offset).

(** *** What is printed is read back *)

Lemma digit_code z : (0 <= z < 10)%Z -> code (digit z) = Z.to_N (48 + z).
Proof. intros Hz. unfold code, digit. apply Ascii.N_ascii_embedding. lia. Qed.
Lemma digit_is_digit z : (0 <= z < 10)%Z -> is_digit (digit z) = true.
Proof. intros Hz. unfold is_digit, between. rewrite digit_code by done. apply andb_true_iff. rewrite !N.leb_le. lia. Qed.

Lemma fixed_step n z t : fixed (S n) z +:+ t = fixed n (z / 10) +:+ String (digit (z mod 10)) t.
Proof. cbn [fixed]. by rewrite string_app_assoc. Qed.

Lemma read_digit min max acc z t : (0 <= z < 10)%Z ->
  read_digits min (S max) acc (String (digit z) t) = read_digits (pred min) max (acc * 10 + z) t.
Proof. intros Hz. cbn [read_digits]. rewrite digit_is_digit, digit_code by done. do 2 f_equal. lia. Qed.

(** Reading [n] digits leaves the rest to be read. *)
Lemma read_fixed n j k z acc t : (0 <= z < 10 ^ Z.of_nat n)%Z ->
  read_digits (n + j) (n + k) acc (fixed n z +:+ t) = read_digits j k (acc * 10 ^ Z.of_nat n + z) t.
Proof.
  revert j k z t. induction n as [|n IH]; intros j k z t Hz.
  { cbn [fixed Nat.add]. change (10 ^ Z.of_nat 0)%Z with 1%Z in *. rewrite string_app_empty. f_equal. lia. }
  rewrite fixed_step. rewrite Nat2Z.inj_succ, Z.pow_succ_r in Hz |- * by lia.
  replace (S n + j)%nat with (n + S j)%nat by lia. replace (S n + k)%nat with (n + S k)%nat by lia.
  rewrite IH, read_digit by (Z.div_mod_to_equations; lia). cbn [pred]. f_equal. Z.div_mod_to_equations. lia.
Qed.
Lemma read_fixed_all n z t : (0 <= z < 10 ^ Z.of_nat n)%Z -> read_digits n n 0 (fixed n z +:+ t) = Some (z, t).
Proof. intros Hz. pose proof (read_fixed n 0 0 z 0 t Hz) as Hr. rewrite Nat.add_0_r in Hr. by rewrite Hr. Qed.
Lemma read_two z t : (0 <= z < 100)%Z -> two_digits (fixed 2 z +:+ t) = Some (z, t).
Proof. intros Hz. apply (read_fixed_all 2). simpl. lia. Qed.
(** The hour may be written with one digit. *)
Lemma read_hour z t : (0 <= z < 100)%Z -> read_digits 1 2 0 (fixed 2 z +:+ t) = Some (z, t).
Proof.
  intros Hz. rewrite fixed_step. change (fixed 1 (z / 10)) with (String (digit (z / 10 mod 10)) EmptyString).
  rewrite string_app_cons, string_app_empty, !read_digit by (Z.div_mod_to_equations; lia). cbn [pred].
  destruct t; cbn; repeat f_equal; Z.div_mod_to_equations; lia.
Qed.

(** A fraction without its trailing zeros. *)
Fixpoint zeros (k : nat) : string := match k with O => EmptyString | S k' => String (digit 0) (zeros k') end.
Lemma trim_zeros_spec s : exists k, s = trim_zeros s +:+ zeros k.
Proof.
  induction s as [|c s [k IH]]; [by exists O|]. cbn [trim_zeros]. destruct (trim_zeros s) as [|c' s'] eqn:Ht.
  - destruct (N.eqb_spec (code c) 48) as [Hc|].
    + exists (S k). cbn. rewrite IH at 1. f_equal. by rewrite <- (Ascii.ascii_N_embedding c), (Hc : Ascii.N_of_ascii c = 48%N).
    + exists k. by rewrite IH at 1.
  - exists k. by rewrite IH at 1.
Qed.

Definition all_digits (s : string) : Prop := take_digits s = (s, EmptyString).
Lemma all_digits_app a b t : all_digits (a +:+ b) -> take_digits t = (EmptyString, t) -> take_digits (a +:+ t) = (a, t).
Proof.
  unfold all_digits. intros Hab Ht. revert Hab. induction a as [|c a IH]; [by rewrite !string_app_empty|]. rewrite !string_app_cons. cbn. destruct (is_digit c); [|done].
  destruct (take_digits (a +:+ b)) as [ds r] eqn:Hab. intros [= -> ->]. by rewrite (IH eq_refl).
Qed.
Lemma fixed_digits n z t : (0 <= z)%Z -> all_digits t -> all_digits (fixed n z +:+ t).
Proof.
  revert z t. induction n as [|n IH]; intros z t Hz Ht; [done|]. rewrite fixed_step.
  apply IH; [Z.div_mod_to_equations; lia|]. unfold all_digits in *. cbn.
  by rewrite digit_is_digit, Ht by (Z.div_mod_to_equations; lia).
Qed.
Lemma string_length_app (a b : string) : String.length (a +:+ b) = (String.length a + String.length b)%nat.
Proof. induction a as [|c a IH]; [done|]. rewrite string_app_cons. cbn [String.length]. by rewrite IH. Qed.
Lemma fixed_length n z : String.length (fixed n z) = n.
Proof. revert z. induction n as [|n IH]; intros z; [done|]. cbn [fixed]. rewrite string_length_app, IH. simpl. lia. Qed.
Lemma zeros_app k m : zeros (k + m) = zeros k +:+ zeros m.
Proof. induction k as [|k IH]; [done|]. cbn [zeros Nat.add String.length]. by rewrite ?string_app_cons, IH. Qed.
Lemma zeros_length k : String.length (zeros k) = k.
Proof. induction k as [|k IH]; [done|]. cbn [zeros Nat.add String.length]. by rewrite ?string_app_cons, IH. Qed.

Lemma fraction_read us t : (0 <= us < Second)%Z -> take_digits t = (EmptyString, t) ->
  match t with String c _ => (code c =? 46)%N || (code c =? 44)%N = false | EmptyString => True end ->
  fraction (fraction_text us +:+ t) = (us, t).
Proof.
  unfold Second, fraction_text. intros Hus Ht Hhead. destruct (Z.eqb_spec us 0) as [->|Hne].
  { rewrite string_app_empty. unfold fraction. destruct t as [|c t]; [done|]. by rewrite Hhead. }
  destruct (trim_zeros_spec (fixed 6 us)) as [k Hk]. set (ds := trim_zeros (fixed 6 us)) in *.
  assert (Hlen : (String.length ds + k = 6)%nat).
  { apply (f_equal String.length) in Hk. by rewrite fixed_length, string_length_app, zeros_length in Hk. }
  assert (Hpad : ds +:+ "000000" = fixed 6 us +:+ zeros (6 - k)).
  { change "000000" with (zeros 6). rewrite Hk, string_app_assoc, <- zeros_app. do 2 f_equal. lia. }
  assert (Hread : read_digits 6 6 0 (ds +:+ "000000") = Some (us, zeros (6 - k))).
  { rewrite Hpad. apply read_fixed_all. simpl. lia. }
  assert (Htake : take_digits (ds +:+ t) = (ds, t)).
  { apply (all_digits_app _ (zeros k)); [|done]. rewrite <- Hk, <- (string_app_nil (fixed 6 us)). apply fixed_digits; [lia|done]. }
  destruct ds as [|c ds]; [vm_compute in Hread; congruence|].
  change "." with (String (Ascii.ascii_of_N 46) EmptyString).
  rewrite !string_app_cons, string_app_empty in *. cbn [fraction]. change (code (Ascii.ascii_of_N 46) =? 46)%N with true. cbn [orb].
  rewrite string_app_cons, Htake. cbv iota beta. rewrite string_app_cons, Hread. done.
Qed.

Lemma zone_text_head off c s : zone_text off = String c s -> (code c = 90 \/ code c = 45 \/ code c = 43)%N.
Proof.
  unfold zone_text. destruct (off =? 0)%Z; [intros [= <- _]; by left|].
  destruct (_ <? 0)%Z; intros [= <- _]; right; [by left|by right].
Qed.

Lemma lit_read n t : (n < 256)%N -> lit n (String (Ascii.ascii_of_N n) t) = Some t.
Proof. intros Hn. unfold lit, code. by rewrite Ascii.N_ascii_embedding, N.eqb_refl. Qed.
Lemma in_range_Some lo hi z : (lo <= z <= hi)%Z -> in_range lo hi z = Some tt.
Proof. intros Hz. unfold in_range. destruct (Z.leb_spec lo z), (Z.leb_spec z hi); lia || done. Qed.
Lemma in_range_inv lo hi z u : in_range lo hi z = Some u -> (lo <= z <= hi)%Z.
Proof. unfold in_range. destruct (Z.leb_spec lo z), (Z.leb_spec z hi); done || lia. Qed.

Lemma zone_read off : (off mod 60 = 0)%Z -> (Z.abs (Z.quot off 60) / 60 <= 23)%Z -> zone (zone_text off) = Some off.
Proof.
  intros Hm Hh. unfold zone_text. destruct (Z.eqb_spec off 0) as [->|Hne]; [done|].
  assert (Hoff : off = (60 * Z.quot off 60)%Z) by (Z.quot_rem_to_equations; Z.div_mod_to_equations; lia).
  set (q := Z.quot off 60) in *. clearbody q. subst off.
  assert (Hq : (0 <= Z.abs q < 1440)%Z) by (Z.div_mod_to_equations; lia).
  assert (H1 : (0 <= Z.abs q / 60 < 100)%Z) by (Z.div_mod_to_equations; lia).
  assert (H2 : (0 <= Z.abs q mod 60 < 100)%Z) by (Z.div_mod_to_equations; lia).
  assert (Hrun : two_digits (fixed 2 (Z.abs q / 60) +:+ ":" +:+ fixed 2 (Z.abs q mod 60)) =
    Some (Z.abs q / 60, String (Ascii.ascii_of_N 58) (fixed 2 (Z.abs q mod 60)))%Z) by by apply read_two.
  assert (Hmin : two_digits (fixed 2 (Z.abs q mod 60)) = Some (Z.abs q mod 60, EmptyString)%Z).
  { pose proof (read_two (Z.abs q mod 60) EmptyString H2) as Hr. by rewrite string_app_nil in Hr. }
  destruct (Z.ltb_spec q 0);
    [change "-" with (String (Ascii.ascii_of_N 45) EmptyString)|change "+" with (String (Ascii.ascii_of_N 43) EmptyString)];
    rewrite string_app_cons, string_app_empty; unfold zone;
    [change (code (Ascii.ascii_of_N 45)) with 45%N|change (code (Ascii.ascii_of_N 43)) with 43%N]; cbn [N.eqb Pos.eqb orb];
    rewrite Hrun; cbn [mbind option_bind]; rewrite lit_read by done; cbn [mbind option_bind]; rewrite Hmin; cbn [mbind option_bind];
    rewrite !in_range_Some by (Z.div_mod_to_equations; lia); cbn [mbind option_bind]; f_equal; Z.div_mod_to_equations; lia.
Qed.

(** A printed time reads back as the same instant, in a zone of whole minutes. *)
Lemma ParseRFC3339_FormatRFC3339 off t s :
  (off mod 60 = 0)%Z -> FormatRFC3339 off t = Some s -> ParseRFC3339 s = Some t.
Proof.
  unfold FormatRFC3339. intros Hm. destruct (date_of_days _) as [[y m] d] eqn:Hdate.
  apply date_of_days_spec in Hdate as (Hdays & Hmo & Hd).
  destruct (in_range 0 9999 y) as [u1|] eqn:Hy; [|done]. destruct (in_range 0 23 _) as [u2|] eqn:Hz; [|done].
  apply in_range_inv in Hy, Hz. cbn [mbind option_bind]. intros Hs%(inj Some). subst s. set (sec := (t / Second + off)%Z) in *.
  set (r := (sec mod 86400)%Z). assert (Hr : (0 <= r < 86400)%Z) by (apply Z.mod_pos_bound; lia).
  assert (Hus : (0 <= t mod Second < Second)%Z) by (apply Z.mod_pos_bound; done).
  assert (Hd31 : (d <= 31)%Z) by (unfold days_in in Hd; repeat case_match; lia).
  assert (Hzone : take_digits (zone_text off) = (EmptyString, zone_text off) /\
    match zone_text off with String c _ => (code c =? 46)%N || (code c =? 44)%N = false | EmptyString => True end).
  { destruct (zone_text off) as [|c z] eqn:Ez; [done|]. apply zone_text_head in Ez. cbn [take_digits]. unfold is_digit, between.
    by destruct Ez as [->|[->| ->]]. }
  unfold ParseRFC3339.
  assert (L45 : forall t, lit 45 ("-" +:+ t) = Some t) by done. assert (L58 : forall t, lit 58 (":" +:+ t) = Some t) by done.
  assert (L84 : forall t, lit 84 ("T" +:+ t) = Some t) by done.
  rewrite (read_fixed_all 4) by (simpl; lia). cbn [mbind option_bind]. rewrite ?L45, ?L58, ?L84. cbn [mbind option_bind].
  rewrite read_two by lia. cbn [mbind option_bind]. rewrite ?L45, ?L58, ?L84. cbn [mbind option_bind].
  rewrite read_two by lia. cbn [mbind option_bind]. rewrite ?L45, ?L58, ?L84. cbn [mbind option_bind].
  rewrite read_hour by (Z.div_mod_to_equations; lia). cbn [mbind option_bind]. rewrite ?L45, ?L58, ?L84. cbn [mbind option_bind].
  rewrite read_two by (Z.div_mod_to_equations; lia). cbn [mbind option_bind]. rewrite ?L45, ?L58, ?L84. cbn [mbind option_bind].
  rewrite read_two by (Z.div_mod_to_equations; lia). cbn [mbind option_bind].
  rewrite fraction_read by (done || apply Hzone). rewrite zone_read by lia. cbn [mbind option_bind].
  rewrite !in_range_Some by (done || Z.div_mod_to_equations; lia). cbn [mbind option_bind].
  f_equal. unfold Date. rewrite Hdays. subst r sec. unfold Second in *. Z.div_mod_to_equations. lia.
Qed.

(** *** Printed times are ASCII *)

Fixpoint ascii_only (s : string) : bool :=
  match s with EmptyString => true | String c s' => (code c <? 128)%N && ascii_only s' end.
Lemma ascii_only_app a b : ascii_only (a +:+ b) = ascii_only a && ascii_only b.
Proof. induction a as [|c a IH]; [done|]. rewrite string_app_cons. cbn [ascii_only]. by rewrite IH, andb_assoc. Qed.
Lemma ascii_valid s : ascii_only s = true -> valid_text s = true.
Proof.
  intros Hs. apply String.eqb_eq. induction s as [|c s IH]; [done|]. cbn [ascii_only] in Hs. apply andb_true_iff in Hs as [Hc Hs].
  cbn [to_valid_utf8]. by rewrite Hc, IH.
Qed.
Lemma fixed_ascii n z : (0 <= z)%Z -> ascii_only (fixed n z) = true.
Proof.
  revert z. induction n as [|n IH]; intros z Hz; [done|]. cbn [fixed]. rewrite ascii_only_app, IH by (Z.div_mod_to_equations; lia).
  cbn [ascii_only]. rewrite digit_code by (Z.div_mod_to_equations; lia). rewrite andb_true_r. apply N.ltb_lt.
  Z.div_mod_to_equations. lia.
Qed.
Lemma trim_ascii s : ascii_only s = true -> ascii_only (trim_zeros s) = true.
Proof. destruct (trim_zeros_spec s) as [k Hk]. rewrite Hk at 1. rewrite ascii_only_app. by intros [? _]%andb_true_iff. Qed.
Lemma FormatRFC3339_ascii off t s : FormatRFC3339 off t = Some s -> ascii_only s = true.
Proof.
  unfold FormatRFC3339. destruct (date_of_days _) as [[y m] d] eqn:Hdate. apply date_of_days_spec in Hdate as (_ & Hm & Hd).
  destruct (in_range 0 9999 y) as [u1|] eqn:Hy; [|done]. destruct (in_range 0 23 _); [|done]. apply in_range_inv in Hy.
  cbn [mbind option_bind]. intros Hs%(inj Some). subst s. set (r := ((_ mod 86400))%Z).
  assert (Hr : (0 <= r < 86400)%Z) by (apply Z.mod_pos_bound; lia). assert (Hu : (0 <= t mod Second < Second)%Z) by (apply Z.mod_pos_bound; done).
  assert (Hf : ascii_only (fraction_text (t mod Second)) = true).
  { unfold fraction_text. destruct (_ =? _)%Z; [done|]. by rewrite ascii_only_app, trim_ascii by (apply fixed_ascii; lia). }
  assert (Hz : ascii_only (zone_text off) = true).
  { unfold zone_text. destruct (_ =? _)%Z; [done|]. rewrite !ascii_only_app, !fixed_ascii by (Z.div_mod_to_equations; lia).
    by destruct (_ <? _)%Z. }
  by rewrite !ascii_only_app, !fixed_ascii, Hf, Hz by (Z.div_mod_to_equations; lia).
Qed.
Lemma FormatRFC3339_text off t s : FormatRFC3339 off t = Some s -> valid_text s = true.
Proof. intros Hs. by eapply ascii_valid, FormatRFC3339_ascii. Qed.

(** A [time.Time] field and a [*time.Time] field of a JSON struct. *)
Definition time_field {S} (name : string) (upd : Time -> S -> S) : Field S :=
  (name, fun v s => match v with
                    | VNull => Some s
                    | VStr x => (fun t => upd t s) <$> ParseRFC3339 x
                    | _ => None
                    end).
Definition time_ptr_field {S} (name : string) (upd : option Time -> S -> S) : Field S :=
  (name, fun v s => match v with
                    | VNull => Some (upd None s)
                    | VStr x => (fun t => upd (Some t) s) <$> ParseRFC3339 x
                    | _ => None
                    end).

(** ** [http.TimeFormat] *)

(** The offset from UTC, in seconds, of the zone the process runs in. *)
Class LocalZone := { zone_offset : Time -> Z }.

Definition pad2 (z : Z) : string := (if (z <? 10)%Z then "0" else "") +:+ FormatInt z.
Definition pad4 (z : Z) : string :=
  (if (z <? 10)%Z then "000" else if (z <? 100)%Z then "00" else if (z <? 1000)%Z then "0" else "") +:+ FormatInt z.
Definition weekday_name (days : Z) : string :=
  nth (Z.to_nat ((days + 4) mod 7)) ["Sun"; "Mon"; "Tue"; "Wed"; "Thu"; "Fri"; "Sat"] "".
Definition month_name (m : Z) : string :=
  nth (Z.to_nat (m - 1)) ["Jan"; "Feb"; "Mar"; "Apr"; "May"; "Jun"; "Jul"; "Aug"; "Sep"; "Oct"; "Nov"; "Dec"] "".

(** The layout "Mon, 02 Jan 2006 15:04:05 GMT" at an offset from UTC: the
    letters GMT are part of the layout, whatever the offset is. *)
Definition http_time (offset : Z) (t : Time) : string :=
  let s := (t / Second + offset)%Z in
  let days := (s / 86400)%Z in
  let r := (s mod 86400)%Z in
  let '(y, m, d) := date_of_days days in
  weekday_name days +:+ ", " +:+ pad2 d +:+ " " +:+ month_name m +:+ " " +:+ pad4 y +:+ " " +:+
  pad2 (r / 3600) +:+ ":" +:+ pad2 (r / 60 mod 60) +:+ ":" +:+ pad2 (r mod 60) +:+ " GMT".

(** [t.Format(http.TimeFormat)] of a time in the local zone. *)
Definition FormatHTTP `{LocalZone} (t : Time) : string := http_time (zone_offset t) t.

(** ** Examples *)

Example rfc3339_utc : ParseRFC3339 "2026-08-13T19:45:00Z" = Some (1786650300 * Second)%Z.
Proof. vm_compute. reflexivity. Qed.
Example rfc3339_offset : ParseRFC3339 "2026-08-13T22:45:00.25+03:00" = Some (1786650300 * Second + 250000)%Z.
Proof. vm_compute. reflexivity. Qed.
Example rfc3339_no_date : ParseRFC3339 "2026-02-29T10:00:00Z" = None.
Proof. vm_compute. reflexivity. Qed.
Example http_time_example : http_time 0 (1786650300 * Second) = "Thu, 13 Aug 2026 19:45:00 GMT".
Proof. vm_compute. reflexivity. Qed.
