(* ===== verification/Domain.v ===== *)
(** * The domain layer ([src/internal/domain])

    Entities, status enumerations, the sentinel errors with Go's error
    wrapping, and [Money].  Every other file builds on these types. *)
From S2P Require Import Prelude.

(** ** Errors ([errors.go] and the sentinels of the packages above it) *)

Inductive DomainSentinel := ErrNotFound | ErrConflict | ErrInvalidInput | ErrUnavailable | ErrExpired.
Inductive InventorySentinel := ErrNotAdmitted | ErrRateLimited | ErrLockContention.
Inductive RedisSentinel := ErrNotQueued | ErrLockNotAcquired.
Inductive AuthSentinel :=
  ErrInvalidCredentials | ErrWeakPassword | ErrRefreshExpired | ErrRefreshRevoked | ErrAccountInactive.

Inductive Sentinel :=
| SDomain (s : DomainSentinel)
| SInventory (s : InventorySentinel)
| SRedis (s : RedisSentinel)
| SAuth (s : AuthSentinel)
| SNoRows. (* pgx.ErrNoRows *)

(** A Go error value. [EText] is an unwrapped [errors.New]/[fmt.Errorf];
    [EPg] a [*pgconn.PgError] with its SQLSTATE; [EWrap m e] is
    [fmt.Errorf("m: %w", e)]; [EWith e m] is [fmt.Errorf("%w: m", e)];
    [EOp op e] is [domain.NewError(op, e)].  Messages keep the format
    string of the source; interpolated identifiers are left out. *)
Inductive GoError :=
| ESentinel (s : Sentinel)
| EText (msg : string)
| EPg (code : string)
| EWrap (msg : string) (e : GoError)
| EWith (e : GoError) (msg : string)
| EOp (op : string) (e : GoError).

#[global] Instance DomainSentinel_dec : EqDecision DomainSentinel. Proof. solve_decision. Defined.
#[global] Instance InventorySentinel_dec : EqDecision InventorySentinel. Proof. solve_decision. Defined.
#[global] Instance RedisSentinel_dec : EqDecision RedisSentinel. Proof. solve_decision. Defined.
#[global] Instance AuthSentinel_dec : EqDecision AuthSentinel. Proof. solve_decision. Defined.
#[global] Instance Sentinel_dec : EqDecision Sentinel. Proof. solve_decision. Defined.
#[global] Instance GoError_dec : EqDecision GoError. Proof. solve_decision. Defined.

(** [NewError] and [Error.Unwrap]. *)
Definition NewError (op : string) (e : GoError) : GoError := EOp op e.

Definition Unwrap (e : GoError) : option GoError :=
  match e with
  | EWrap _ e' | EWith e' _ | EOp _ e' => Some e'
  | ESentinel _ | EText _ | EPg _ => None
  end.

(** [errors.Is(e, s)] and [errors.As] for [*pgconn.PgError]: walk the
    chain of wrapped errors. *)
Fixpoint errors_Is (e : GoError) (s : Sentinel) : bool :=
  match e with
  | ESentinel s' => bool_decide (s' = s)
  | EText _ | EPg _ => false
  | EWrap _ e' | EWith e' _ | EOp _ e' => errors_Is e' s
  end.

(** [pgErrorCode] of repository/postgres/errors.go. *)
Fixpoint pgErrorCode (e : GoError) : string :=
  match e with
  | EPg c => c
  | ESentinel _ | EText _ => ""
  | EWrap _ e' | EWith e' _ | EOp _ e' => pgErrorCode e'
  end.

Definition pgCodeUniqueViolation : string := "23505".
Definition pgCodeForeignKeyViolation : string := "23503".
Definition pgCodeCheckViolation : string := "23514".

(** [err.Error()]: the text of an error. It is only logged, stored or shown;
    the model keeps it abstract because messages interpolate identifiers. *)
Class ErrorText := { error_Error : GoError -> string }.

(** Results of fallible Go functions: [(v, nil)] or [(zero, err)]. *)
Inductive result (A : Type) : Type :=
| Ok (a : A)
| Err (e : GoError).
Arguments Ok {A} a.
Arguments Err {A} e.

Definition is_ok {A} (r : result A) : bool := match r with Ok _ => true | Err _ => false end.

(** ** Money ([money.go]) *)

Record Money := mkMoney { Cents : Z; Currency : string }.
#[global] Instance Money_dec : EqDecision Money. Proof. solve_decision. Defined.

Definition NewMoney (cents : Z) (currency : string) : result Money :=
  if (cents <? 0)%Z
  then Err (NewError "domain.NewMoney" (EWith (ESentinel (SDomain ErrInvalidInput)) "cents must be >= 0, got %d"))
  else if negb (String.length currency =? 3)%nat
  then Err (NewError "domain.NewMoney"
              (EWith (ESentinel (SDomain ErrInvalidInput)) "currency must be a 3-letter ISO 4217 code, got %q"))
  else Ok (mkMoney cents currency).

Definition MoneyAdd (m other : Money) : result Money :=
  if negb (String.eqb (Currency m) (Currency other))
  then Err (NewError "Money.Add" (EWith (ESentinel (SDomain ErrInvalidInput)) "currency mismatch %q vs %q"))
  else Ok (mkMoney (wrap64 (Cents m + Cents other)) (Currency m)).

(** ** Status enumerations *)

Inductive EventStatus :=
  EventStatusDraft | EventStatusScheduled | EventStatusOnSale
| EventStatusSoldOut | EventStatusCompleted | EventStatusCancelled.
Inductive InventoryStatus :=
  InventoryStatusAvailable | InventoryStatusHeld | InventoryStatusSold | InventoryStatusVoid.
Inductive OrderStatus :=
  OrderStatusPending | OrderStatusAwaitingPayment | OrderStatusPaid
| OrderStatusCancelled | OrderStatusExpired | OrderStatusRefunded.
Inductive PaymentProvider := PaymentProviderStripe | PaymentProviderAdyen.
Inductive PaymentStatus :=
  PaymentStatusPending | PaymentStatusAuthorized | PaymentStatusCaptured
| PaymentStatusFailed | PaymentStatusRefunded | PaymentStatusPartiallyRefunded.
(** A Go string type; the table admits the first only. *)
Inductive NotificationType := NotificationTypeOrderConfirmation | NotificationTypeOther (s : string).
Inductive NotificationStatus := NotificationStatusPending | NotificationStatusSent | NotificationStatusFailed.
Inductive TenantStatus := TenantStatusActive | TenantStatusSuspended | TenantStatusInactive.
Inductive UserStatus := UserStatusActive | UserStatusSuspended | UserStatusDeleted.
Inductive UserRole := UserRoleFan | UserRoleAdmin.
Inductive SeatingType := SeatingTypeReserved | SeatingTypeGeneralAdmission.

#[global] Instance EventStatus_dec : EqDecision EventStatus. Proof. solve_decision. Defined.
#[global] Instance InventoryStatus_dec : EqDecision InventoryStatus. Proof. solve_decision. Defined.
#[global] Instance OrderStatus_dec : EqDecision OrderStatus. Proof. solve_decision. Defined.
#[global] Instance PaymentProvider_dec : EqDecision PaymentProvider. Proof. solve_decision. Defined.
#[global] Instance PaymentStatus_dec : EqDecision PaymentStatus. Proof. solve_decision. Defined.
#[global] Instance NotificationType_dec : EqDecision NotificationType. Proof. solve_decision. Defined.
#[global] Instance NotificationStatus_dec : EqDecision NotificationStatus. Proof. solve_decision. Defined.
#[global] Instance TenantStatus_dec : EqDecision TenantStatus. Proof. solve_decision. Defined.
#[global] Instance UserStatus_dec : EqDecision UserStatus. Proof. solve_decision. Defined.
#[global] Instance UserRole_dec : EqDecision UserRole. Proof. solve_decision. Defined.
#[global] Instance SeatingType_dec : EqDecision SeatingType. Proof. solve_decision. Defined.

(** The texts the statuses stand for, in the database and in replies. *)
Definition EventStatus_String (s : EventStatus) : string :=
  match s with
  | EventStatusDraft => "draft" | EventStatusScheduled => "scheduled" | EventStatusOnSale => "on_sale"
  | EventStatusSoldOut => "sold_out" | EventStatusCompleted => "completed" | EventStatusCancelled => "cancelled"
  end.

Definition OrderStatus_String (s : OrderStatus) : string :=
  match s with
  | OrderStatusPending => "pending" | OrderStatusAwaitingPayment => "awaiting_payment" | OrderStatusPaid => "paid"
  | OrderStatusCancelled => "cancelled" | OrderStatusExpired => "expired" | OrderStatusRefunded => "refunded"
  end.

Definition InventoryStatus_String (s : InventoryStatus) : string :=
  match s with
  | InventoryStatusAvailable => "available" | InventoryStatusHeld => "held"
  | InventoryStatusSold => "sold" | InventoryStatusVoid => "void"
  end.

Definition PaymentProvider_String (p : PaymentProvider) : string :=
  match p with PaymentProviderStripe => "stripe" | PaymentProviderAdyen => "adyen" end.

Definition PaymentStatus_String (s : PaymentStatus) : string :=
  match s with
  | PaymentStatusPending => "pending" | PaymentStatusAuthorized => "authorized" | PaymentStatusCaptured => "captured"
  | PaymentStatusFailed => "failed" | PaymentStatusRefunded => "refunded"
  | PaymentStatusPartiallyRefunded => "partially_refunded"
  end.

Definition UserStatus_String (s : UserStatus) : string :=
  match s with UserStatusActive => "active" | UserStatusSuspended => "suspended" | UserStatusDeleted => "deleted" end.

Definition UserRole_String (r : UserRole) : string :=
  match r with UserRoleFan => "fan" | UserRoleAdmin => "admin" end.

Definition TenantStatus_String (s : TenantStatus) : string :=
  match s with TenantStatusActive => "active" | TenantStatusSuspended => "suspended" | TenantStatusInactive => "inactive" end.

Definition NotificationStatus_String (s : NotificationStatus) : string :=
  match s with NotificationStatusPending => "pending" | NotificationStatusSent => "sent" | NotificationStatusFailed => "failed" end.

Definition NotificationType_String (t : NotificationType) : string :=
  match t with NotificationTypeOrderConfirmation => "order_confirmation" | NotificationTypeOther s => s end.

Definition SeatingType_String (s : SeatingType) : string :=
  match s with SeatingTypeReserved => "reserved" | SeatingTypeGeneralAdmission => "general_admission" end.

(** ** Entities *)

Record Tenant := mkTenant {
  t_ID : UUID; t_Slug : string; t_Name : string; t_Sport : string; t_Status : TenantStatus;
  t_ContactEmail : string; t_Branding : list (string * string);
  t_CreatedAt : Time; t_UpdatedAt : Time }.

Record User := mkUser {
  u_ID : UUID; u_Email : string; u_Phone : string; u_PasswordHash : string;
  u_FirstName : string; u_LastName : string; u_Status : UserStatus; u_Role : UserRole;
  u_TenantID : option UUID; u_EmailVerifiedAt : option Time;
  u_CreatedAt : Time; u_UpdatedAt : Time }.

Record RefreshToken := mkRefreshToken {
  rt_ID : UUID; rt_UserID : UUID; rt_TokenHash : string; rt_UserAgent : string;
  rt_IPAddress : string; rt_ExpiresAt : Time; rt_RevokedAt : option Time; rt_CreatedAt : Time }.

Record SeatCategory := mkSeatCategory {
  sc_ID : UUID; sc_TenantID : UUID; sc_Name : string; sc_Color : string;
  sc_CreatedAt : Time; sc_UpdatedAt : Time }.

Record Venue := mkVenue {
  v_ID : UUID; v_TenantID : UUID; v_Name : string; v_Address : string; v_City : string;
  v_Country : string; v_Timezone : string; v_Capacity : option Z;
  v_CreatedAt : Time; v_UpdatedAt : Time }.

Record Event := mkEvent {
  e_ID : UUID; e_TenantID : UUID; e_VenueID : UUID; e_Name : string; e_Competition : string;
  e_HomeTeam : string; e_AwayTeam : string; e_StartsAt : Time; e_DoorsOpenAt : option Time;
  e_SalesStartAt : Time; e_SalesEndAt : Time; e_Status : EventStatus;
  e_CreatedAt : Time; e_UpdatedAt : Time }.

(** [Event.IsOnSale]: stored status and sales window [start, end). *)
Definition IsOnSale (e : Event) (now : Time) : bool :=
  bool_decide (e_Status e = EventStatusOnSale)
  && negb (Before now (e_SalesStartAt e)) && Before now (e_SalesEndAt e).

Record EventTicketCategory := mkEventTicketCategory {
  etc_ID : UUID; etc_TenantID : UUID; etc_EventID : UUID; etc_SeatCategoryID : UUID;
  etc_Price : Money; etc_MaxPerOrder : Z; etc_CreatedAt : Time; etc_UpdatedAt : Time }.

Record EventFilter := mkEventFilter {
  f_TenantID : UUID; f_Status : option EventStatus; f_VenueID : option UUID;
  f_From : option Time; f_To : option Time }.

Record EventSeatInventory := mkInventory {
  inv_ID : UUID; inv_TenantID : UUID; inv_EventID : UUID; inv_EventTicketCategoryID : UUID;
  inv_SeatID : option UUID; inv_Status : InventoryStatus; inv_HoldToken : option UUID;
  inv_HeldByUserID : option UUID; inv_HoldExpiresAt : option Time;
  inv_CreatedAt : Time; inv_UpdatedAt : Time }.

Record InventoryCounts := mkCounts { c_Available : Z; c_Held : Z; c_Sold : Z; c_Void : Z }.

Record Order := mkOrder {
  o_ID : UUID; o_TenantID : UUID; o_UserID : UUID; o_Status : OrderStatus;
  o_IdempotencyKey : string; o_Subtotal : Money; o_Fees : Money; o_Total : Money;
  o_ExpiresAt : option Time; o_CreatedAt : Time; o_UpdatedAt : Time }.

Record OrderItem := mkOrderItem {
  oi_ID : UUID; oi_TenantID : UUID; oi_OrderID : UUID; oi_EventSeatInventoryID : UUID;
  oi_HoldToken : UUID; oi_UnitPrice : Money; oi_CreatedAt : Time }.

Record Payment := mkPayment {
  p_ID : UUID; p_TenantID : UUID; p_OrderID : UUID; p_Provider : PaymentProvider;
  p_ProviderPaymentID : string; p_Status : PaymentStatus; p_Amount : Money;
  p_IdempotencyKey : string; p_RawResponse : option string; p_CreatedAt : Time; p_UpdatedAt : Time }.

(** A notification payload is a JSON object; the program stores strings and integers in it. *)
Inductive JSONValue := JString (s : string) | JNumber (z : Z).

Record Notification := mkNotification {
  n_ID : UUID; n_TenantID : UUID; n_UserID : UUID; n_Type : NotificationType;
  n_Payload : list (string * JSONValue); n_Status : NotificationStatus; n_Attempts : Z;
  n_LastError : string; n_CreatedAt : Time; n_SentAt : option Time }.

Record EmailMessage := mkEmail { em_To : string; em_Subject : string; em_Body : string }.

(** ** Facts about [Money] and the error chain *)

(** [Add] of amounts of one currency is the exact sum whenever it fits an int64. *)
Lemma MoneyAdd_exact m n :
  Currency m = Currency n -> in_int64 (Cents m + Cents n) ->
  MoneyAdd m n = Ok (mkMoney (Cents m + Cents n) (Currency m)).
Proof.
  intros Hc Hb. unfold MoneyAdd. rewrite Hc, String.eqb_refl. simpl.
  by rewrite wrap64_id.
Qed.

Lemma MoneyAdd_Ok m n r :
  MoneyAdd m n = Ok r ->
  Currency m = Currency n /\ r = mkMoney (wrap64 (Cents m + Cents n)) (Currency m).
Proof.
  unfold MoneyAdd. destruct (String.eqb_spec (Currency m) (Currency n)); simpl; naive_solver.
Qed.

Lemma MoneyAdd_Err m n e : MoneyAdd m n = Err e -> errors_Is e (SDomain ErrInvalidInput) = true.
Proof. unfold MoneyAdd. destruct (String.eqb _ _); simpl; naive_solver. Qed.

Lemma NewMoney_Ok c cur m :
  NewMoney c cur = Ok m <-> (0 <= c)%Z /\ String.length cur = 3%nat /\ m = mkMoney c cur.
Proof.
  unfold NewMoney. destruct (Z.ltb_spec c 0); simpl.
  { split; [done|lia]. }
  destruct (Nat.eqb_spec (String.length cur) 3); simpl; naive_solver.
Qed.

(** At most one sentinel answers [errors.Is] for a given error. *)
Lemma errors_Is_functional e s1 s2 : errors_Is e s1 = true -> errors_Is e s2 = true -> s1 = s2.
Proof.
  induction e; simpl; try done. rewrite !bool_decide_eq_true. congruence.
Qed.
