(* ===== verification/Schema.v ===== *)
(** * The Postgres schema ([src/migrations]) as a database state

    One finite map per table, keyed by primary key, and the SQL constructs
    the repositories use: a statement reads the statement time and the
    database and yields a value with the new database, or an error that
    leaves the database alone.  Integrity constraints that an INSERT or
    UPDATE of a table must satisfy are modelled with that table's
    repository. *)
From S2P Require Import Prelude Domain.

(** A float64, as its 64 bits; the program only carries it. *)
Definition Float64 := Z.

Record Seat := mkSeat {
  s_ID : UUID; s_TenantID : UUID; s_SectionID : UUID; s_RowLabel : string; s_SeatNumber : string;
  s_IsAccessible : bool; s_PosX : option Float64; s_PosY : option Float64; s_CreatedAt : Time }.

Record VenueSection := mkVenueSection {
  vs_ID : UUID; vs_TenantID : UUID; vs_VenueID : UUID; vs_Name : string; vs_Code : string;
  vs_SeatingType : SeatingType; vs_Capacity : Z; vs_CreatedAt : Time; vs_UpdatedAt : Time }.

(** A row of [inventory_audit_log] (migration 000010). *)
Record AuditEntry := mkAudit {
  a_TenantID : UUID; a_InventoryID : UUID; a_Previous : option InventoryStatus;
  a_New : InventoryStatus; a_HoldToken : option UUID; a_HeldByUserID : option UUID;
  a_ChangedAt : Time }.

Record DB := mkDB {
  tenants : gmap UUID Tenant;
  users : gmap UUID User;
  refresh_tokens : gmap UUID RefreshToken;
  venues : gmap UUID Venue;
  venue_sections : gmap UUID VenueSection;
  seats : gmap UUID Seat;
  seat_categories : gmap UUID SeatCategory;
  events : gmap UUID Event;
  event_ticket_categories : gmap UUID EventTicketCategory;
  inventory : gmap UUID EventSeatInventory;
  audit_log : list AuditEntry;
  orders : gmap UUID Order;
  order_items : gmap UUID OrderItem;
  payments : gmap UUID Payment;
  notifications : gmap UUID Notification
}.

Definition empty_DB : DB := mkDB ∅ ∅ ∅ ∅ ∅ ∅ ∅ ∅ ∅ ∅ [] ∅ ∅ ∅ ∅.

(** Replacing one table. *)
Definition set_tenants x d := mkDB x (users d) (refresh_tokens d) (venues d) (venue_sections d) (seats d) (seat_categories d) (events d) (event_ticket_categories d) (inventory d) (audit_log d) (orders d) (order_items d) (payments d) (notifications d).
Definition set_users x d := mkDB (tenants d) x (refresh_tokens d) (venues d) (venue_sections d) (seats d) (seat_categories d) (events d) (event_ticket_categories d) (inventory d) (audit_log d) (orders d) (order_items d) (payments d) (notifications d).
Definition set_refresh_tokens x d := mkDB (tenants d) (users d) x (venues d) (venue_sections d) (seats d) (seat_categories d) (events d) (event_ticket_categories d) (inventory d) (audit_log d) (orders d) (order_items d) (payments d) (notifications d).
Definition set_venues x d := mkDB (tenants d) (users d) (refresh_tokens d) x (venue_sections d) (seats d) (seat_categories d) (events d) (event_ticket_categories d) (inventory d) (audit_log d) (orders d) (order_items d) (payments d) (notifications d).
Definition set_venue_sections x d := mkDB (tenants d) (users d) (refresh_tokens d) (venues d) x (seats d) (seat_categories d) (events d) (event_ticket_categories d) (inventory d) (audit_log d) (orders d) (order_items d) (payments d) (notifications d).
Definition set_seats x d := mkDB (tenants d) (users d) (refresh_tokens d) (venues d) (venue_sections d) x (seat_categories d) (events d) (event_ticket_categories d) (inventory d) (audit_log d) (orders d) (order_items d) (payments d) (notifications d).
Definition set_seat_categories x d := mkDB (tenants d) (users d) (refresh_tokens d) (venues d) (venue_sections d) (seats d) x (events d) (event_ticket_categories d) (inventory d) (audit_log d) (orders d) (order_items d) (payments d) (notifications d).
Definition set_events x d := mkDB (tenants d) (users d) (refresh_tokens d) (venues d) (venue_sections d) (seats d) (seat_categories d) x (event_ticket_categories d) (inventory d) (audit_log d) (orders d) (order_items d) (payments d) (notifications d).
Definition set_event_ticket_categories x d := mkDB (tenants d) (users d) (refresh_tokens d) (venues d) (venue_sections d) (seats d) (seat_categories d) (events d) x (inventory d) (audit_log d) (orders d) (order_items d) (payments d) (notifications d).
Definition set_inventory x a d := mkDB (tenants d) (users d) (refresh_tokens d) (venues d) (venue_sections d) (seats d) (seat_categories d) (events d) (event_ticket_categories d) x a (orders d) (order_items d) (payments d) (notifications d).
Definition set_orders x d := mkDB (tenants d) (users d) (refresh_tokens d) (venues d) (venue_sections d) (seats d) (seat_categories d) (events d) (event_ticket_categories d) (inventory d) (audit_log d) x (order_items d) (payments d) (notifications d).
Definition set_order_items x d := mkDB (tenants d) (users d) (refresh_tokens d) (venues d) (venue_sections d) (seats d) (seat_categories d) (events d) (event_ticket_categories d) (inventory d) (audit_log d) (orders d) x (payments d) (notifications d).
Definition set_payments x d := mkDB (tenants d) (users d) (refresh_tokens d) (venues d) (venue_sections d) (seats d) (seat_categories d) (events d) (event_ticket_categories d) (inventory d) (audit_log d) (orders d) (order_items d) x (notifications d).
Definition set_notifications x d := mkDB (tenants d) (users d) (refresh_tokens d) (venues d) (venue_sections d) (seats d) (seat_categories d) (events d) (event_ticket_categories d) (inventory d) (audit_log d) (orders d) (order_items d) (payments d) x.

(** The CHECK constraint tying [status] to the hold columns. *)
Definition inventory_check (r : EventSeatInventory) : bool :=
  match inv_Status r, inv_HoldToken r, inv_HoldExpiresAt r, inv_HeldByUserID r with
  | InventoryStatusHeld, Some _, Some _, _ => true
  | InventoryStatusHeld, _, _, _ => false
  | _, None, None, None => true
  | _, _, _, _ => false
  end.

(** The trigger [log_inventory_status_change]. *)
Definition log_inventory_status_change (now : Time) (old : option EventSeatInventory) (new : EventSeatInventory)
    : list AuditEntry :=
  let entry := mkAudit (inv_TenantID new) (inv_ID new) (inv_Status <$> old) (inv_Status new)
                 (inv_HoldToken new) (inv_HeldByUserID new) now in
  match old with
  | None => [entry]
  | Some o => if decide (inv_Status o = inv_Status new) then [] else [entry]
  end.

(** The columns the program updates; [updated_at] is the [set_updated_at] trigger. *)
Definition set_hold (st : InventoryStatus) (tok user : option UUID) (expires : option Time)
    (now : Time) (r : EventSeatInventory) : EventSeatInventory :=
  mkInventory (inv_ID r) (inv_TenantID r) (inv_EventID r) (inv_EventTicketCategoryID r) (inv_SeatID r)
    st tok user expires (inv_CreatedAt r) now.

(** ** SQL statements *)

(** A statement, run at time [now()] on the database. *)
Definition stmt (A : Type) : Type := Time -> DB -> result (A * DB).

Definition query {A} (f : DB -> A) : stmt A := fun _ d => Ok (f d, d).

(** [SELECT ... WHERE P] over a table: rows in some scan order. *)
Definition rows_where {R} (P : R -> bool) (tbl : gmap UUID R) : list R :=
  filter (fun r => P r = true) (snd <$> map_to_list tbl).

(** [ORDER BY key] and [LIMIT/OFFSET]. *)
Definition by_key {R} (key : R -> Z) (x y : R) : Prop := (key x <= key y)%Z.
#[global] Instance by_key_dec {R} (key : R -> Z) x y : Decision (by_key key x y).
Proof. unfold by_key. apply _. Defined.
Definition order_by {R} (key : R -> Z) (l : list R) : list R := merge_sort (by_key key) l.
Definition limit {R} (n : Z) (l : list R) : list R := take (Z.to_nat n) l.
Definition offset {R} (n : Z) (l : list R) : list R := drop (Z.to_nat n) l.

(** A composite foreign key [(id, tenant_id)] into a table. *)
Definition fk_tenant {R} (tenant_of : R -> UUID) (tbl : gmap UUID R) (id tenant : UUID) : bool :=
  match tbl !! id with Some r => (tenant_of r =? tenant)%N | None => false end.

(** A plain foreign key [id] into a table. *)
Definition fk {R} (tbl : gmap UUID R) (id : UUID) : bool :=
  match tbl !! id with Some _ => true | None => false end.

(** [INSERT] of one row: CHECK constraints, then unique indexes (the primary
    key and [clash] with an existing row), then foreign keys. *)
Definition insert_into {R} (tbl : DB -> gmap UUID R) (put : gmap UUID R -> DB -> DB) (id : UUID) (r : R)
    (check : bool) (clash : R -> bool) (fks : DB -> bool) : stmt unit := fun _ d =>
  if negb check then Err (EPg pgCodeCheckViolation)
  else if fk (tbl d) id || existsb clash (snd <$> map_to_list (tbl d)) then Err (EPg pgCodeUniqueViolation)
  else if negb (fks d) then Err (EPg pgCodeForeignKeyViolation)
  else Ok (tt, put (<[id := r]> (tbl d)) d).

(** A Go [int] bound to an INTEGER column: pgx refuses to encode a value that
    does not fit, before anything is sent. *)
Definition in_int4 (z : Z) : bool := (- 2 ^ 31 <=? z)%Z && (z <? 2 ^ 31)%Z.
Definition encoded {A} (fits : bool) (s : stmt A) : stmt A := fun now d =>
  if fits then s now d else Err (EText "value is out of range for int4").

(** [UPDATE ... WHERE id = $ AND cond]; the value is RowsAffected.
    [clash] is a unique-index conflict of the new row with another one. *)
Definition update_row {R} (tbl : DB -> gmap UUID R) (put : gmap UUID R -> DB -> DB) (id : UUID)
    (cond : R -> bool) (upd : Time -> R -> R) (check : R -> bool) (clash : R -> R -> bool) : stmt Z := fun now d =>
  match tbl d !! id with
  | None => Ok (0%Z, d)
  | Some r =>
      if negb (cond r) then Ok (0%Z, d)
      else if negb (check (upd now r)) then Err (EPg pgCodeCheckViolation)
      else if existsb (clash (upd now r)) (snd <$> map_to_list (delete id (tbl d))) then Err (EPg pgCodeUniqueViolation)
      else Ok (1%Z, put (<[id := upd now r]> (tbl d)) d)
  end.

(** [SELECT ... WHERE id = $ AND tenant_id = $], through the primary-key index. *)
Definition in_tenant {R} (id_of tenant_of : R -> UUID) (tbl : gmap UUID R) (tenant id : UUID) : option R :=
  match tbl !! id with
  | Some r => if (id_of r =? id)%N && (tenant_of r =? tenant)%N then Some r else None
  | None => None
  end.

(** [SELECT ... WHERE P], at most one row expected. *)
Definition find_row {R} (P : R -> bool) (tbl : gmap UUID R) : option R := head (rows_where P tbl).

(** [LIMIT l OFFSET o]: Postgres rejects negative values. *)
Definition page {R} (lim off : Z) (l : list R) : result (list R) :=
  if (lim <? 0)%Z then Err (EPg "2201W")
  else if (off <? 0)%Z then Err (EPg "2201X")
  else Ok (limit lim (offset off l)).

(** ** Facts about the SQL constructs *)

Lemma elem_of_rows_where {R} (P : R -> bool) (tbl : gmap UUID R) r :
  r ∈ rows_where P tbl <-> P r = true /\ exists id, tbl !! id = Some r.
Proof.
  unfold rows_where. rewrite list_elem_of_filter, list_elem_of_fmap.
  split; intros [HP Hr]; split; auto.
  - destruct Hr as ([id r'] & -> & Hin). exists id. by apply elem_of_map_to_list in Hin.
  - destruct Hr as [id Hid]. exists (id, r). split; [done|]. by apply elem_of_map_to_list.
Qed.

Lemma rows_where_ext {R} (P Q : R -> bool) (tbl : gmap UUID R) :
  (forall r, P r = Q r) -> rows_where P tbl = rows_where Q tbl.
Proof. intros H. unfold rows_where. apply list_filter_iff. intros r. by rewrite H. Qed.

#[global] Instance by_key_total {R} (key : R -> Z) : Total (by_key key).
Proof. intros x y. unfold by_key. lia. Qed.
#[global] Instance by_key_trans {R} (key : R -> Z) : Transitive (by_key key).
Proof. intros x y z. unfold by_key. lia. Qed.

Lemma order_by_Permutation {R} (key : R -> Z) l : order_by key l ≡ₚ l.
Proof. apply merge_sort_Permutation. Qed.

Lemma order_by_sorted {R} (key : R -> Z) (l : list R) : StronglySorted (by_key key) (order_by key l).
Proof. apply StronglySorted_merge_sort; apply _. Qed.

Lemma elem_of_order_by {R} (key : R -> Z) (l : list R) x : x ∈ order_by key l <-> x ∈ l.
Proof. by rewrite order_by_Permutation. Qed.

Lemma elem_of_limit {R} n (l : list R) x : x ∈ limit n l -> x ∈ l.
Proof. intros H. unfold limit in H. eapply elem_of_take in H. naive_solver eauto using list_elem_of_lookup_2. Qed.

(** A batch of a keyed table holds no row twice. *)
Lemma batch_ids {R} (id_of : R -> UUID) n key P (tbl : gmap UUID R) :
  (forall i r, tbl !! i = Some r -> id_of r = i) -> NoDup (id_of <$> limit n (order_by key (rows_where P tbl))).
Proof.
  intros Hid. eapply sublist_NoDup; [|f_equiv; apply sublist_take].
  rewrite (fmap_Permutation _ _ _ (order_by_Permutation _ _)). unfold rows_where.
  eapply sublist_NoDup; [|f_equiv; apply sublist_filter]. rewrite <- list_fmap_compose.
  rewrite (list_fmap_ext _ fst); [apply NoDup_fst_map_to_list|].
  intros k [i r] Hk. simpl. eapply Hid, elem_of_map_to_list, list_elem_of_lookup_2, Hk.
Qed.

(** A batch that is not full holds every row it looks for. *)
Lemma short_batch {R} n key P (tbl : gmap UUID R) i r :
  (length (limit n (order_by key (rows_where P tbl))) < Z.to_nat n)%nat -> tbl !! i = Some r -> P r = true ->
  r ∈ limit n (order_by key (rows_where P tbl)).
Proof.
  unfold limit. rewrite length_take. intros Hlt Hi HP. rewrite take_ge by lia.
  rewrite elem_of_order_by, elem_of_rows_where. eauto.
Qed.

(** Taking rows out of a table one by one. *)
Lemma size_removed {R} (ids : list UUID) (m m' : gmap UUID R) :
  NoDup ids -> (forall i, i ∈ ids -> exists r, m !! i = Some r) ->
  (forall i, m' !! i = if decide (i ∈ ids) then None else m !! i) -> (size m' + length ids = size m)%nat.
Proof.
  intros Hnd Hin Hm'. assert (Hsub : list_to_set ids ⊆ dom m).
  { intros i Hi%elem_of_list_to_set. destruct (Hin i Hi) as [r Hr]. by apply elem_of_dom_2 in Hr. }
  assert (Hdom : dom m' = dom m ∖ list_to_set ids).
  { apply set_eq. intros i. rewrite elem_of_difference, !elem_of_dom, elem_of_list_to_set, Hm'.
    case_decide; split; [intros [? [=]]|intros [_ []]; done|done|by intros [? _]]. }
  rewrite <- !size_dom, Hdom, size_difference by done. rewrite size_list_to_set by done.
  pose proof (subseteq_size _ _ Hsub) as Hle. rewrite size_list_to_set in Hle by done. lia.
Qed.

#[export] Hint Resolve elem_of_limit order_by_sorted : ticketing.

Lemma encoded_Ok {A} fits (s : stmt A) now d x : encoded fits s now d = Ok x -> s now d = Ok x.
Proof. unfold encoded. by destruct fits. Qed.

Lemma insert_into_Ok {R} (tbl : DB -> gmap UUID R) put id r check clash fks now d u d' :
  insert_into tbl put id r check clash fks now d = Ok (u, d') ->
  tbl d !! id = None /\ check = true /\ fks d = true /\ d' = put (<[id := r]> (tbl d)) d /\
  forall j r', tbl d !! j = Some r' -> clash r' = false.
Proof.
  unfold insert_into. destruct check; simpl; [|done]. unfold fk.
  destruct (tbl d !! id) eqn:Hid; simpl; [done|].
  destruct (existsb _ _) eqn:Hex; [done|]. destruct (fks d); simpl; [|done]. intros [= _ <-]. split_and!; try done.
  intros j r' Hj. destruct (clash r') eqn:Hc; [|done].
  assert (existsb clash (snd <$> map_to_list (tbl d)) = true); [|congruence].
  apply existsb_exists. exists r'. split; [|done]. apply list_elem_of_In, list_elem_of_fmap.
  exists (j, r'). split; [done|]. by apply elem_of_map_to_list.
Qed.

Lemma update_row_Ok {R} (tbl : DB -> gmap UUID R) put id cond upd check clash now d n d' :
  update_row tbl put id cond upd check clash now d = Ok (n, d') ->
  (n = 0%Z /\ d' = d /\ forall r, tbl d !! id = Some r -> cond r = false) \/
  (n = 1%Z /\ exists r, tbl d !! id = Some r /\ cond r = true /\ d' = put (<[id := upd now r]> (tbl d)) d).
Proof.
  unfold update_row. destruct (tbl d !! id) as [r|] eqn:Hid; [|intros [= <- <-]; left; naive_solver].
  destruct (cond r) eqn:Hc; simpl; [|intros [= <- <-]; left; naive_solver].
  destruct (check _); simpl; [|done]. destruct (existsb _ _); [done|]. intros [= <- <-]. right. eauto.
Qed.

Lemma fk_Some {R} (tbl : gmap UUID R) id : fk tbl id = true <-> is_Some (tbl !! id).
Proof. unfold fk. destruct (tbl !! id); [by split; [eexists|]|]. split; [done|by intros []]. Qed.

Lemma in_tenant_Some {R} (id_of tenant_of : R -> UUID) tbl tenant id r :
  in_tenant id_of tenant_of tbl tenant id = Some r <-> tbl !! id = Some r /\ id_of r = id /\ tenant_of r = tenant.
Proof.
  unfold in_tenant. destruct (tbl !! id) as [r'|]; [|naive_solver].
  destruct (N.eqb_spec (id_of r') id), (N.eqb_spec (tenant_of r') tenant); naive_solver.
Qed.

Lemma find_row_Some {R} (P : R -> bool) (tbl : gmap UUID R) r :
  find_row P tbl = Some r -> P r = true /\ exists id, tbl !! id = Some r.
Proof. unfold find_row. intros Hh%head_Some_elem_of. by apply elem_of_rows_where in Hh. Qed.

Lemma find_row_None {R} (P : R -> bool) (tbl : gmap UUID R) :
  find_row P tbl = None -> forall id r, tbl !! id = Some r -> P r = false.
Proof.
  unfold find_row. intros Hh%head_None id r Hr. destruct (P r) eqn:HP; [|done].
  assert (Hin : r ∈ rows_where P tbl) by (apply elem_of_rows_where; eauto).
  rewrite Hh in Hin. by apply elem_of_nil in Hin.
Qed.

Lemma find_row_unique {R} (P : R -> bool) (tbl : gmap UUID R) id r :
  tbl !! id = Some r -> P r = true -> (forall id' r', tbl !! id' = Some r' -> P r' = true -> r' = r) -> find_row P tbl = Some r.
Proof.
  intros Hr HP Hu. destruct (find_row P tbl) as [r'|] eqn:Hf.
  - apply find_row_Some in Hf as (HP' & id' & Hr'). f_equal. by eapply Hu.
  - eapply find_row_None in Hf; [|exact Hr]. congruence.
Qed.

Lemma update_row_hit {R} (tbl : DB -> gmap UUID R) put id cond upd check clash now d r :
  tbl d !! id = Some r -> cond r = true -> check (upd now r) = true ->
  (forall j r', j <> id -> tbl d !! j = Some r' -> clash (upd now r) r' = false) ->
  update_row tbl put id cond upd check clash now d = Ok (1%Z, put (<[id := upd now r]> (tbl d)) d).
Proof.
  intros Hr Hc Hch Hcl. unfold update_row. rewrite Hr, Hc, Hch. simpl.
  destruct (existsb _ _) eqn:Hex; [|done]. apply existsb_exists in Hex as (r' & Hin & Hx).
  apply list_elem_of_In, list_elem_of_fmap in Hin as ([j r2] & -> & Hin). apply elem_of_map_to_list in Hin.
  apply lookup_delete_Some in Hin as [Hj Hin]. simpl in Hx. by rewrite (Hcl j r2) in Hx by (try done; congruence).
Qed.

Lemma insert_into_hit {R} (tbl : DB -> gmap UUID R) put id r (clash : R -> bool) (fks : DB -> bool) now d :
  tbl d !! id = None -> (forall j r', tbl d !! j = Some r' -> clash r' = false) -> fks d = true ->
  insert_into tbl put id r true clash fks now d = Ok (tt, put (<[id := r]> (tbl d)) d).
Proof.
  intros Hn Hcl Hfk. unfold insert_into, fk. rewrite Hn, Hfk. simpl.
  destruct (existsb _ _) eqn:Hex; [|done]. apply existsb_exists in Hex as (r' & Hin & Hx).
  apply list_elem_of_In, list_elem_of_fmap in Hin as ([j r2] & -> & Hin). apply elem_of_map_to_list in Hin.
  simpl in Hx. by rewrite (Hcl j r2 Hin) in Hx.
Qed.
