(* ===== verification/Redis.v ===== *)
(** * The Redis server as an interface

    Redis is a service outside the repository: the commands the program
    issues are the operations of a class, and [RedisLaws] states what the
    Redis documentation promises of them, through the observation
    [r_lookup] (the live value of a key at a server time, with its
    deadline).  Code that only needs the commands takes [RedisServer];
    theorems that depend on Redis behaving as documented also take
    [RedisLaws].  [ref_redis] is a concrete server satisfying the laws. *)
From S2P Require Import Prelude Domain.

(** Values: strings, counters (strings holding an integer) and sorted
    sets, listed in rank order. *)
Inductive RVal := RStr (s : string) | RInt (n : Z) | RZset (z : list (string * Z)).

(** What a key with an optional deadline looks like at time [t]. *)
Definition live (t : Time) (x : option (RVal * option Time)) : option (RVal * option Time) :=
  match x with
  | Some (v, Some d) => if (t <? d)%Z then x else None
  | _ => x
  end.

(** Integer reply of EXISTS and DEL for one key. *)
Definition found {A} (x : option A) : Z := match x with Some _ => 1 | None => 0 end.

(** Rank order of a sorted set: by score, ties by member. *)
Definition zless (a b : string * Z) : bool :=
  (a.2 <? b.2)%Z || ((a.2 =? b.2)%Z && String.ltb a.1 b.1).
Fixpoint zinsert (x : string * Z) (z : list (string * Z)) : list (string * Z) :=
  match z with
  | [] => [x]
  | y :: z' => if zless x y then x :: y :: z' else y :: zinsert x z'
  end.
Definition zmem (m : string) (z : list (string * Z)) : bool := existsb (fun e => String.eqb e.1 m) z.
Definition zadd_nx (m : string) (score : Z) (z : list (string * Z)) : list (string * Z) :=
  if zmem m z then z else zinsert (m, score) z.
Fixpoint zrank (m : string) (z : list (string * Z)) : option Z :=
  match z with
  | [] => None
  | e :: z' => if String.eqb e.1 m then Some 0%Z else Z.succ <$> zrank m z'
  end.

(** The commands, at a server time.  [None] is an error reply. *)
Class RedisServer := {
  rstate : Type;
  r_lookup : Time -> string -> rstate -> option (RVal * option Time);
  r_setnx : Time -> string -> string -> Duration -> rstate -> bool * rstate;
  r_set : Time -> string -> string -> Duration -> rstate -> rstate;
  r_get : Time -> string -> rstate -> option string;
  r_del : Time -> string -> rstate -> Z * rstate;
  r_exists : Time -> string -> rstate -> Z;
  r_incr : Time -> string -> rstate -> option (Z * rstate);
  r_expire : Time -> string -> Duration -> rstate -> rstate;
  r_zaddnx : Time -> string -> string -> Z -> rstate -> option rstate;
  r_zrank : Time -> string -> string -> rstate -> option (option Z);
  r_zcard : Time -> string -> rstate -> option Z;
  r_zpopmin : Time -> string -> Z -> rstate -> option (list (string * Z) * rstate)
}.

(** [s'] looks like [s] at time [t] except that key [k] now reads [x]. *)
Definition r_only `{RedisServer} (t : Time) (k : string) (x : option (RVal * option Time)) (s s' : rstate) : Prop :=
  forall k', r_lookup t k' s' = if String.eqb k' k then x else r_lookup t k' s.

Class RedisLaws (R : RedisServer) : Prop := {
  r_time : forall t t' k s, (t <= t')%Z -> r_lookup t' k s = live t' (r_lookup t k s);
  r_setnx_spec : forall t k v ttl s, (0 < ttl)%Z ->
    match r_lookup t k s with
    | Some x => fst (r_setnx t k v ttl s) = false /\ r_only t k (Some x) s (snd (r_setnx t k v ttl s))
    | None => fst (r_setnx t k v ttl s) = true
              /\ r_only t k (Some (RStr v, Some (t + ttl)%Z)) s (snd (r_setnx t k v ttl s))
    end;
  r_set_spec : forall t k v ttl s, (0 < ttl)%Z ->
    r_only t k (Some (RStr v, Some (t + ttl)%Z)) s (r_set t k v ttl s);
  r_get_spec : forall t k s v, r_get t k s = Some v <-> exists d, r_lookup t k s = Some (RStr v, d);
  r_del_spec : forall t k s,
    fst (r_del t k s) = found (r_lookup t k s) /\ r_only t k None s (snd (r_del t k s));
  r_exists_spec : forall t k s, r_exists t k s = found (r_lookup t k s);
  r_incr_fresh : forall t k s, r_lookup t k s = None ->
    exists s', r_incr t k s = Some (1%Z, s') /\ r_only t k (Some (RInt 1, None)) s s';
  r_incr_int : forall t k s n d, r_lookup t k s = Some (RInt n, d) -> (n < int64_max)%Z ->
    exists s', r_incr t k s = Some ((n + 1)%Z, s') /\ r_only t k (Some (RInt (n + 1), d)) s s';
  r_incr_overflow : forall t k s n d, r_lookup t k s = Some (RInt n, d) -> (int64_max <= n)%Z -> r_incr t k s = None;
  r_expire_spec : forall t k ttl s v d, (0 < ttl)%Z -> r_lookup t k s = Some (v, d) ->
    r_only t k (Some (v, Some (t + ttl)%Z)) s (r_expire t k ttl s);
  r_zaddnx_fresh : forall t k m sc s, r_lookup t k s = None ->
    exists s', r_zaddnx t k m sc s = Some s' /\ r_only t k (Some (RZset [(m, sc)], None)) s s';
  r_zaddnx_zset : forall t k m sc s z d, r_lookup t k s = Some (RZset z, d) ->
    exists s', r_zaddnx t k m sc s = Some s' /\ r_only t k (Some (RZset (zadd_nx m sc z), d)) s s';
  r_zrank_none : forall t k m s, r_lookup t k s = None -> r_zrank t k m s = Some None;
  r_zrank_zset : forall t k m s z d, r_lookup t k s = Some (RZset z, d) -> r_zrank t k m s = Some (zrank m z);
  r_zcard_none : forall t k s, r_lookup t k s = None -> r_zcard t k s = Some 0%Z;
  r_zcard_zset : forall t k s z d, r_lookup t k s = Some (RZset z, d) ->
    r_zcard t k s = Some (Z.of_nat (length z));
  r_zpopmin_none : forall t k n s, r_lookup t k s = None ->
    exists s', r_zpopmin t k n s = Some ([], s') /\ r_only t k None s s';
  r_zpopmin_zset : forall t k n s z d, r_lookup t k s = Some (RZset z, d) ->
    exists s', r_zpopmin t k n s = Some (take (Z.to_nat n) z, s') /\
      r_only t k (match drop (Z.to_nat n) z with [] => None | rest => Some (RZset rest, d) end) s s'
}.

(** ** A reference server *)

Definition ref_state := gmap string (RVal * option Time).
Definition ref_lookup (t : Time) (k : string) (s : gmap string (RVal * option Time)) := live t (s !! k).
Definition ref_put (k : string) (x : option (RVal * option Time)) (s : gmap string (RVal * option Time)) :=
  match x with Some e => <[k := e]> s | None => delete k s end.

#[global] Instance ref_redis : RedisServer := {|
  rstate := gmap string (RVal * option Time);
  r_lookup := ref_lookup;
  r_setnx t k v ttl s :=
    match ref_lookup t k s with
    | Some _ => (false, s)
    | None => (true, ref_put k (Some (RStr v, Some (t + ttl)%Z)) s)
    end;
  r_set t k v ttl s := ref_put k (Some (RStr v, Some (t + ttl)%Z)) s;
  r_get t k s := match ref_lookup t k s with Some (RStr v, _) => Some v | _ => None end;
  r_del t k s := (found (ref_lookup t k s), ref_put k None s);
  r_exists t k s := found (ref_lookup t k s);
  r_incr t k s :=
    match ref_lookup t k s with
    | None => Some (1%Z, ref_put k (Some (RInt 1, None)) s)
    | Some (RInt n, d) =>
        if (n <? int64_max)%Z then Some ((n + 1)%Z, ref_put k (Some (RInt (n + 1), d)) s) else None
    | Some _ => None
    end;
  r_expire t k ttl s :=
    match ref_lookup t k s with
    | Some (v, _) => ref_put k (Some (v, Some (t + ttl)%Z)) s
    | None => s
    end;
  r_zaddnx t k m sc s :=
    match ref_lookup t k s with
    | None => Some (ref_put k (Some (RZset [(m, sc)], None)) s)
    | Some (RZset z, d) => Some (ref_put k (Some (RZset (zadd_nx m sc z), d)) s)
    | Some _ => None
    end;
  r_zrank t k m s :=
    match ref_lookup t k s with
    | None => Some None
    | Some (RZset z, _) => Some (zrank m z)
    | Some _ => None
    end;
  r_zcard t k s :=
    match ref_lookup t k s with
    | None => Some 0%Z
    | Some (RZset z, _) => Some (Z.of_nat (length z))
    | Some _ => None
    end;
  r_zpopmin t k n s :=
    match ref_lookup t k s with
    | None => Some ([], s)
    | Some (RZset z, d) =>
        Some (take (Z.to_nat n) z,
              ref_put k (match drop (Z.to_nat n) z with [] => None | rest => Some (RZset rest, d) end) s)
    | Some _ => None
    end
|}.

(** ** The reference server meets the laws *)

Lemma live_live t t' x : (t <= t')%Z -> live t' (live t x) = live t' x.
Proof.
  intros H. destruct x as [[v [d|]]|]; simpl; try done.
  destruct (Z.ltb_spec t d); simpl; [done|].
  destruct (Z.ltb_spec t' d); [lia|done].
Qed.

Lemma ref_only t k x s :
  live t x = x -> r_only (H := ref_redis) t k x s (ref_put k x s).
Proof.
  intros Hx k'. cbn. unfold ref_lookup, ref_put.
  destruct (String.eqb_spec k' k) as [->|Hne].
  - destruct x as [e|]; [by rewrite lookup_insert_eq|by rewrite lookup_delete_eq].
  - destruct x as [e|]; [by rewrite lookup_insert_ne|by rewrite lookup_delete_ne].
Qed.

Lemma ref_same t k s : r_only (H := ref_redis) t k (ref_lookup t k s) s s.
Proof. intros k'. cbn. by destruct (String.eqb_spec k' k) as [->|]. Qed.

Lemma live_ttl t v ttl : (0 < ttl)%Z -> live t (Some (v, Some (t + ttl)%Z)) = Some (v, Some (t + ttl)%Z).
Proof. intros. simpl. destruct (Z.ltb_spec t (t + ttl)); [done|lia]. Qed.

Lemma live_fixed t k v v' d s :
  ref_lookup t k s = Some (v, d) -> live t (Some (v', d)) = Some (v', d).
Proof.
  unfold ref_lookup. destruct (s !! k) as [[w [d'|]]|]; simpl; [|naive_solver..].
  destruct (Z.ltb_spec t d') as [H|H]; [|done]. intros [= -> <-]. simpl.
  by rewrite (proj2 (Z.ltb_lt _ _) H).
Qed.

#[global] Instance ref_redis_laws : RedisLaws ref_redis.
Proof.
  split; cbn; unfold r_lookup; cbn; intros *.
  - intros H. unfold ref_lookup. by rewrite live_live.
  - intros H. destruct (ref_lookup t k s) eqn:E; simpl; (split; [done|]).
    + rewrite <- E. apply ref_same.
    + by apply ref_only, live_ttl.
  - intros H. by apply ref_only, live_ttl.
  - destruct (ref_lookup t k s) as [[[]]|]; naive_solver.
  - split; [done|]. by apply ref_only.
  - done.
  - intros E. rewrite E. eexists. split; [done|]. by apply ref_only.
  - intros E Hn. rewrite E. rewrite (proj2 (Z.ltb_lt _ _) Hn). eexists. split; [done|].
    eapply ref_only, live_fixed; eauto.
  - intros E Hn. rewrite E. by rewrite (proj2 (Z.ltb_ge _ _) Hn).
  - intros H E. rewrite E. by apply ref_only, live_ttl.
  - intros E. rewrite E. eexists. split; [done|]. by apply ref_only.
  - intros E. rewrite E. eexists. split; [done|]. eapply ref_only, live_fixed; eauto.
  - intros E. by rewrite E.
  - intros E. by rewrite E.
  - intros E. by rewrite E.
  - intros E. by rewrite E.
  - intros E. rewrite E. eexists. split; [done|]. rewrite <- E. apply ref_same.
  - intros E. rewrite E. eexists. split; [done|]. apply ref_only.
    destruct (drop _ _); [done|]. eapply live_fixed; eauto.
Qed.
