(* ===== verification/Runtime.v ===== *)
(** * Execution model: the world, the environment and the effect monad

    A Go function that talks to Postgres, Redis, the payment provider, the
    clock or the UUID generator becomes a function [World -> result A * World].
    Everything the outside decides is an oracle of the class [Env], indexed
    by the number of the interaction: the time, the next random UUID, how a
    network call ends, and what the other sessions (API replicas, workers)
    committed just before it.  [env_outcome] distinguishes a request that
    never reached the server ([NotSent]) from one whose effect happened but
    whose reply was lost ([ReplyLost]); Go sees an error in both cases.
    [env_others] is the interference of concurrent requests: what other
    sessions committed just before an interaction.  Transactions run at
    Postgres's default isolation level, read committed: every statement sees
    what others have committed by then, up to and including the first
    statement that writes.  From that write on, the rows written are locked
    until the end, so what others commit meanwhile is ordered before the
    transaction or after it, and its effect is placed at its commit. *)
From S2P Require Import Prelude Domain Schema Redis.

Inductive Outcome := Delivered | NotSent | ReplyLost.

(** A POST to the payment provider. *)
Record HttpRequest := mkRequest {
  rq_Path : string; rq_Form : list (string * string); rq_IdempotencyKey : option string }.
Record HttpResponse := mkResponse { rs_Status : Z; rs_Body : string }.

Class Env `{RedisServer} := {
  env_uuid : nat -> UUID;
  env_clock : nat -> Time;
  env_outcome : nat -> Outcome;
  env_others : nat -> DB -> DB;
  env_redis_others : nat -> rstate -> rstate;
  env_http : nat -> HttpRequest -> HttpResponse
}.

(** [w_tx] is the open transaction, if any: the committed database to fall
    back to and the transaction's [now()]; [w_wrote] tells whether it has
    written yet.  [w_intents] is the state of the
    in-memory mock gateway, [w_http] the requests sent to the provider and
    [w_mail] the messages handed to the mail transport. *)
Record World `{RedisServer} := mkWorld {
  w_tick : nat; w_db : DB; w_tx : option (DB * Time); w_wrote : bool; w_redis : rstate;
  w_intents : gset string; w_http : list HttpRequest; w_mail : list EmailMessage }.

Section world.
Context `{RedisServer}.
Definition set_tick n (w : World) := mkWorld _ n (w_db w) (w_tx w) (w_wrote w) (w_redis w) (w_intents w) (w_http w) (w_mail w).
Definition set_db d (w : World) := mkWorld _ (w_tick w) d (w_tx w) (w_wrote w) (w_redis w) (w_intents w) (w_http w) (w_mail w).
Definition set_tx x (w : World) := mkWorld _ (w_tick w) (w_db w) x (w_wrote w) (w_redis w) (w_intents w) (w_http w) (w_mail w).
Definition set_wrote b (w : World) := mkWorld _ (w_tick w) (w_db w) (w_tx w) b (w_redis w) (w_intents w) (w_http w) (w_mail w).
Definition set_redis s (w : World) := mkWorld _ (w_tick w) (w_db w) (w_tx w) (w_wrote w) s (w_intents w) (w_http w) (w_mail w).
Definition set_intents s (w : World) := mkWorld _ (w_tick w) (w_db w) (w_tx w) (w_wrote w) (w_redis w) s (w_http w) (w_mail w).
Definition set_http l (w : World) := mkWorld _ (w_tick w) (w_db w) (w_tx w) (w_wrote w) (w_redis w) (w_intents w) l (w_mail w).
Definition set_mail l (w : World) := mkWorld _ (w_tick w) (w_db w) (w_tx w) (w_wrote w) (w_redis w) (w_intents w) (w_http w) l.
End world.

Definition M `{RedisServer} (A : Type) : Type := World -> result A * World.

Section monad.
Context `{RedisServer}.

Definition ret {A} (a : A) : M A := fun w => (Ok a, w).
Definition throw {A} (e : GoError) : M A := fun w => (Err e, w).
Definition bind {A B} (m : M A) (k : A -> M B) : M B :=
  fun w => match m w with
           | (Ok a, w') => k a w'
           | (Err e, w') => (Err e, w')
           end.
(** The result of a call together with its error, as Go returns them. *)
Definition attempt {A} (m : M A) : M (result A) := fun w => let '(r, w') := m w in (Ok r, w').
Definition of_result {A} (r : result A) : M A := fun w => (r, w).
Definition map_err {A} (f : GoError -> GoError) (m : M A) : M A :=
  fun w => match m w with
           | (Ok a, w') => (Ok a, w')
           | (Err e, w') => (Err (f e), w')
           end.
(** [if err != nil { return fmt.Errorf("msg: %w", err) }] *)
Definition wrap {A} (msg : string) (m : M A) : M A := map_err (EWrap msg) m.
(** [defer f()] with the results of [f] discarded. *)
Definition defer {A B} (f : M B) (m : M A) : M A :=
  fun w => let '(r, w1) := m w in let '(_, w2) := f w1 in (r, w2).
(** [for _, x := range l], with the loop-carried variables as accumulator. *)
Fixpoint fold_loop {A B} (body : B -> A -> M B) (acc : B) (l : list A) : M B :=
  match l with
  | [] => ret acc
  | x :: l' => bind (body acc x) (fun acc' => fold_loop body acc' l')
  end.
End monad.

Notation "x <- m ;; k" := (bind m (fun x => k)) (at level 100, m at next level, right associativity) : go_scope.
Notation "m ;;; k" := (bind m (fun _ => k)) (at level 100, right associativity) : go_scope.
Open Scope go_scope.

(** A failure of the transport itself (dial, timeout, cancelled context). *)
Definition transport_error : GoError := EText "transport failure".

Section effects.
Context `{E : Env}.

(** Start an interaction: number it and let the other sessions act. *)
Definition interact (w : World) : World :=
  let n := w_tick w in
  let w1 := set_tick (S n) w in
  match w_tx w with
  | None => set_db (env_others n (w_db w)) (set_redis (env_redis_others n (w_redis w)) w1)
  | Some (base, t) =>
      if w_wrote w then w1 else set_db (env_others n (w_db w)) (set_tx (Some (env_others n base, t)) w1)
  end.

Definition uuid_New : M UUID := fun w => (Ok (env_uuid (w_tick w)), set_tick (S (w_tick w)) w).
Definition time_Now : M Time := fun w => (Ok (env_clock (w_tick w)), set_tick (S (w_tick w)) w).

(** [now()] inside Postgres: the start of the current transaction. *)
Definition db_now (w : World) : Time :=
  match w_tx w with Some (_, t) => t | None => env_clock (w_tick w) end.

(** One statement sent through the executor resolved by [db(ctx, pool)]; a
    transaction that executes a writing statement holds locks from then on. *)
Definition exec {A} (writes : bool) (s : stmt A) : M A := fun w =>
  let w1 := interact w in
  let w2 := if writes then set_wrote true w1 else w1 in
  match env_outcome (w_tick w), s (db_now w) (w_db w1) with
  | NotSent, _ => (Err transport_error, w1)
  | ReplyLost, Ok (_, d) => (Err transport_error, set_db d w2)
  | ReplyLost, Err _ => (Err transport_error, w2)
  | Delivered, Ok (a, d) => (Ok a, set_db d w2)
  | Delivered, Err e => (Err e, w2)
  end.

(** One Redis command; [None] is an error reply. *)
Definition redis {A} (f : Time -> rstate -> option (A * rstate)) : M A := fun w =>
  let w1 := interact w in
  match env_outcome (w_tick w), f (env_clock (w_tick w)) (w_redis w1) with
  | NotSent, _ => (Err transport_error, w1)
  | ReplyLost, Some (_, s) => (Err transport_error, set_redis s w1)
  | ReplyLost, None => (Err transport_error, w1)
  | Delivered, Some (a, s) => (Ok a, set_redis s w1)
  | Delivered, None => (Err (EText "redis error reply"), w1)
  end.

(** [postgres.WithTx]: BEGIN, run [fn], COMMIT when it returns nil and
    ROLLBACK otherwise.  A failed BEGIN runs nothing.  A COMMIT whose reply
    is lost has happened; one that was not sent has not. *)
Definition committed (w : World) : DB := match w_tx w with Some (base, _) => base | None => w_db w end.
Definition open_tx (w : World) : World :=
  let w0 := interact w in set_wrote false (set_tx (Some (w_db w0, env_clock (w_tick w))) w0).
Definition close_tx (w w1 : World) : World := set_wrote (w_wrote (interact w)) (set_tx (w_tx (interact w)) w1).

Definition WithTx {A} (fn : M A) : M A := fun w =>
  match env_outcome (w_tick w) with
  | Delivered =>
      match fn (open_tx w) with
      | (Err e, w1) => (Err e, set_db (committed w1) (close_tx w w1))
      | (Ok a, w1) =>
          let w2 := set_tick (S (w_tick w1)) (close_tx w w1) in
          match env_outcome (w_tick w1) with
          | Delivered => (Ok a, w2)
          | ReplyLost => (Err transport_error, w2)
          | NotSent => (Err transport_error, set_db (committed w1) w2)
          end
      end
  | NotSent | ReplyLost => (Err (EWrap "postgres: begin tx" transport_error), interact w)
  end.

End effects.

Abbreviation sql := (exec true).
Abbreviation select := (exec false).

(** ** Reasoning principles *)

Section rules.
Context `{E : Env}.

(** Any number of writes by other sessions. *)
Definition others : DB -> DB -> Prop := rtc (fun d d' => exists n, d' = env_others n d).

(** How an open transaction looks later in the same session: the committed
    state behind it has moved, if at all, by what others did. *)
Definition tx_moves (x y : option (DB * Time)) : Prop :=
  match x, y with
  | None, None => True
  | Some (base, t), Some (base', t') => others base base' /\ t' = t
  | _, _ => False
  end.

#[global] Instance tx_moves_preorder : PreOrder tx_moves.
Proof.
  split.
  - intros [[b t]|]; simpl; [|done]. split; [reflexivity|done].
  - intros [[b1 t1]|] [[b2 t2]|] [[b3 t3]|]; simpl; try done. intros [H1 ->] [H2 ->]. split; [by etransitivity|done].
Qed.

Lemma tx_moves_None x : tx_moves None x -> x = None.
Proof. by destruct x. Qed.
Lemma tx_moves_Some x y : tx_moves x y -> x <> None -> y <> None.
Proof. by destruct x as [[]|], y. Qed.

(** [upholds G m]: whatever the outcome of [m], the database moves along [G],
    and what is committed behind an open transaction moves by others only. *)
Definition upholds {A} (G : DB -> DB -> Prop) (m : M A) : Prop :=
  forall w r w', m w = (r, w') -> tx_moves (w_tx w) (w_tx w') /\ G (w_db w) (w_db w').

(** An environment in which every call goes through and nobody else writes. *)
Class Quiet : Prop := {
  quiet_outcome : forall n, env_outcome n = Delivered;
  quiet_others : forall n d, env_others n d = d;
  quiet_redis : forall n s, env_redis_others n s = s
}.

(** A random (version 4) UUID is never the nil UUID. *)
Class RandomUuids : Prop := uuid_New_not_nil : forall n, env_uuid n <> uuid_Nil.

(** Random UUIDs do not repeat. *)
Class DistinctUuids : Prop := uuid_New_distinct : forall n m, env_uuid n = env_uuid m -> n = m.

(** The clocks of the application servers and of Redis agree and never go back. *)
Class SteadyClock : Prop := clock_mono : forall n m, (n <= m)%nat -> (env_clock n <= env_clock m)%Z.

Lemma others_step n d : others d (env_others n d).
Proof. apply rtc_once. by exists n. Qed.

Lemma interact_others w : others (w_db w) (w_db (interact w)).
Proof.
  unfold interact. destruct (w_tx w) as [[b t]|]; [destruct (w_wrote w)|]; simpl; [reflexivity|apply others_step..].
Qed.
Lemma interact_moves w : tx_moves (w_tx w) (w_tx (interact w)).
Proof.
  unfold interact. destruct (w_tx w) as [[b t]|] eqn:Hw; [destruct (w_wrote w)|]; simpl; rewrite ?Hw; simpl;
    try done; split; auto using others_step; reflexivity.
Qed.
Lemma interact_tick w : w_tick (interact w) = S (w_tick w).
Proof. unfold interact. destruct (w_tx w) as [[b t]|]; [by destruct (w_wrote w)|done]. Qed.
Lemma interact_no_tx w : w_tx w = None -> w_tx (interact w) = None.
Proof. intros Hw. pose proof (interact_moves w) as Hm. rewrite Hw in Hm. by apply tx_moves_None. Qed.
Lemma interact_rest w : w_intents (interact w) = w_intents w /\ w_http (interact w) = w_http w /\ w_mail (interact w) = w_mail w.
Proof. unfold interact. destruct (w_tx w) as [[b t]|]; [by destruct (w_wrote w)|done]. Qed.

Lemma interact_quiet `{!Quiet} w : interact w = set_tick (S (w_tick w)) w.
Proof.
  unfold interact. destruct (w_tx w) as [[b t]|] eqn:Hw; [destruct (w_wrote w) eqn:Hx; [done|]|];
    rewrite !quiet_others, ?quiet_redis; destruct w; simpl in *; by subst.
Qed.

Lemma exec_quiet `{!Quiet} {A} b (s : stmt A) w :
  exec b s w = match s (db_now w) (w_db w) with
               | Ok (a, d) => (Ok a, set_db d (set_wrote (b || w_wrote w) (set_tick (S (w_tick w)) w)))
               | Err e => (Err e, set_wrote (b || w_wrote w) (set_tick (S (w_tick w)) w))
               end.
Proof.
  unfold exec. rewrite quiet_outcome, interact_quiet. simpl. destruct (s _ _) as [[]|], b; try done; by destruct w.
Qed.

Lemma sql_quiet `{!Quiet} {A} (s : stmt A) w :
  sql s w = match s (db_now w) (w_db w) with
            | Ok (a, d) => (Ok a, set_db d (set_wrote true (set_tick (S (w_tick w)) w)))
            | Err e => (Err e, set_wrote true (set_tick (S (w_tick w)) w))
            end.
Proof. apply exec_quiet. Qed.

Lemma select_quiet `{!Quiet} {A} (s : stmt A) w :
  select s w = match s (db_now w) (w_db w) with
               | Ok (a, d) => (Ok a, set_db d (set_tick (S (w_tick w)) w))
               | Err e => (Err e, set_tick (S (w_tick w)) w)
               end.
Proof. rewrite exec_quiet. destruct (s _ _) as [[]|]; by destruct w. Qed.

Lemma redis_quiet `{!Quiet} {A} (f : Time -> rstate -> option (A * rstate)) w :
  redis f w = match f (env_clock (w_tick w)) (w_redis w) with
              | Some (a, s) => (Ok a, set_redis s (set_tick (S (w_tick w)) w))
              | None => (Err (EText "redis error reply"), set_tick (S (w_tick w)) w)
              end.
Proof. unfold redis. rewrite quiet_outcome, interact_quiet. simpl. by destruct (f _ _) as [[]|]. Qed.

Lemma query_quiet `{!Quiet} {A} (f : DB -> A) w : select (query f) w = (Ok (f (w_db w)), set_tick (S (w_tick w)) w).
Proof. rewrite select_quiet. simpl. by destruct w. Qed.

Lemma WithTx_quiet `{!Quiet} {A} (fn : M A) w :
  WithTx fn w =
    match fn (set_wrote false (set_tx (Some (w_db w, env_clock (w_tick w))) (set_tick (S (w_tick w)) w))) with
    | (Err e, w1) => (Err e, set_db (committed w1) (set_wrote (w_wrote w) (set_tx (w_tx w) w1)))
    | (Ok a, w1) => (Ok a, set_tick (S (w_tick w1)) (set_wrote (w_wrote w) (set_tx (w_tx w) w1)))
    end.
Proof.
  unfold WithTx, open_tx, close_tx. rewrite quiet_outcome, interact_quiet. simpl.
  destruct (fn _) as [[a|e] w1]; [|done]. by rewrite quiet_outcome.
Qed.

(** What a statement can do: take effect or not, whatever Go is told. *)
Lemma exec_inv {A} b (s : stmt A) w r w' :
  exec b s w = (r, w') ->
  (exists a d, s (db_now w) (w_db (interact w)) = Ok (a, d) /\
     w' = set_db d (set_wrote (b || w_wrote (interact w)) (interact w)) /\ (r = Ok a \/ r = Err transport_error)) \/
  (exists e x, r = Err e /\ w' = set_wrote x (interact w) /\
     (e = transport_error \/ s (db_now w) (w_db (interact w)) = Err e)).
Proof.
  assert (Heta : forall w, set_wrote (w_wrote w) w = w) by (by intros []).
  unfold exec. intros Hw. destruct (env_outcome _), (s _ _) as [[a d]|e], b; simpl; rewrite ?Heta; simplify_eq;
    try (left; eexists _, _; by eauto); right; eexists _; first [by exists true; eauto|exists (w_wrote (interact w)); rewrite ?Heta; by eauto].
Qed.

Lemma exec_Ok {A} b (s : stmt A) w a w' :
  exec b s w = (Ok a, w') ->
  exists d, s (db_now w) (w_db (interact w)) = Ok (a, d) /\ w' = set_db d (set_wrote (b || w_wrote (interact w)) (interact w)).
Proof. intros Hs%exec_inv. naive_solver. Qed.

Lemma sql_Ok {A} (s : stmt A) w a w' :
  sql s w = (Ok a, w') ->
  exists d, s (db_now w) (w_db (interact w)) = Ok (a, d) /\ w' = set_db d (set_wrote true (interact w)).
Proof. apply exec_Ok. Qed.

Lemma run_Ok {A B} (p : A * B) a : fst p = a -> p = (a, snd p).
Proof. intros <-. apply surjective_pairing. Qed.

Lemma bind_Ok {A B} (m : M A) (k : A -> M B) w b w' :
  bind m k w = (Ok b, w') -> exists a w1, m w = (Ok a, w1) /\ k a w1 = (Ok b, w').
Proof. unfold bind. destruct (m w) as [[a|e] w1]; naive_solver. Qed.

Lemma bind_inv {A B} (m : M A) (k : A -> M B) w r w' :
  bind m k w = (r, w') ->
  (exists a w1, m w = (Ok a, w1) /\ k a w1 = (r, w')) \/ (exists e, m w = (Err e, w') /\ r = Err e).
Proof. unfold bind. destruct (m w) as [[a|e] w1]; naive_solver. Qed.

Lemma bind_attempt {A B} (m : M A) (k : result A -> M B) w :
  bind (attempt m) k w = let '(x, w1) := m w in k x w1.
Proof. unfold bind, attempt. by destruct (m w). Qed.

Lemma wrap_Ok {A} msg (m : M A) w a w' : wrap msg m w = (Ok a, w') -> m w = (Ok a, w').
Proof. unfold wrap, map_err. destruct (m w) as [[]]; naive_solver. Qed.

Lemma map_err_Ok {A} f (m : M A) w a w' : map_err f m w = (Ok a, w') -> m w = (Ok a, w').
Proof. unfold map_err. destruct (m w) as [[]]; naive_solver. Qed.

Lemma wrap_inv {A} msg (m : M A) w r w' :
  wrap msg m w = (r, w') ->
  (exists a, r = Ok a /\ m w = (Ok a, w')) \/ (exists e, r = Err (EWrap msg e) /\ m w = (Err e, w')).
Proof. unfold wrap, map_err. destruct (m w) as [[]]; naive_solver. Qed.

(** [w'] is a later state of the same session. *)
Definition same_session (w w' : World) : Prop := tx_moves (w_tx w) (w_tx w') /\ (w_tick w <= w_tick w')%nat.
Lemma same_session_refl w : same_session w w.
Proof. split; [reflexivity|done]. Qed.
Lemma same_session_trans w1 w2 w3 : same_session w1 w2 -> same_session w2 w3 -> same_session w1 w3.
Proof. intros [T1 L1] [T2 L2]. split; [by etransitivity|lia]. Qed.

(** In a transaction [now()] stands still. *)
Lemma same_session_now w w' : same_session w w' -> w_tx w <> None -> db_now w' = db_now w.
Proof. intros [Hm _]. unfold db_now. destruct (w_tx w) as [[]|], (w_tx w') as [[]|]; try done. by destruct Hm. Qed.
Lemma same_session_in_tx w w' : same_session w w' -> w_tx w <> None -> w_tx w' <> None.
Proof. intros [Hm _]. by eapply tx_moves_Some. Qed.

Lemma exec_session {A} b (s : stmt A) w r w' : exec b s w = (r, w') -> same_session w w'.
Proof.
  pose proof (interact_moves w).
  intros [(a & d & _ & -> & _)|(e & x & _ & -> & _)]%exec_inv; split; simpl; rewrite ?interact_tick; auto with lia.
Qed.

(** A transaction that has written sees no more of the others. *)
Lemma interact_wrote w : w_tx w <> None -> w_wrote w = true -> w_db (interact w) = w_db w.
Proof. intros Htx Hw. unfold interact. destruct (w_tx w) as [[]|]; [by rewrite Hw|done]. Qed.

(** A transaction is all or nothing: either nothing of [fn] remains, or [fn]
    succeeded and everything it did is there; the caller is told "ok" only in
    the second case. *)
Lemma WithTx_inv {A} (fn : M A) w r w' :
  upholds (fun _ _ => True) fn -> WithTx fn w = (r, w') ->
  tx_moves (w_tx w) (w_tx w') /\
  ((exists e, r = Err e /\ others (w_db w) (w_db w')) \/
   (exists a w1, fn (open_tx w) = (Ok a, w1) /\ w_db w' = w_db w1 /\ (r = Ok a \/ r = Err transport_error))).
Proof.
  intros Hup Hw. pose proof (interact_moves w) as Hm. pose proof (interact_others w) as Ho. unfold WithTx in Hw.
  destruct (env_outcome (w_tick w)); [|simplify_eq; split; [done|]; left; eauto..].
  destruct (fn (open_tx w)) as [ra w1] eqn:Hf. apply Hup in Hf as Hc. destruct Hc as [Hc _].
  assert (Hbase : others (w_db w) (committed w1)).
  { simpl in Hc. unfold committed. destruct (w_tx w1) as [[b t]|]; [|done]. etransitivity; [exact Ho|apply Hc]. }
  destruct ra as [a|e]; [|simplify_eq; split; [done|]; left; eauto].
  destruct (env_outcome (w_tick w1)); simplify_eq; (split; [done|]); [right|left|right]; eauto 8.
Qed.

Lemma query_Ok {A} (f : DB -> A) w a w' :
  select (query f) w = (Ok a, w') -> a = f (w_db (interact w)) /\ w_db w' = w_db (interact w) /\ same_session w w'.
Proof.
  intros Hw. pose proof (exec_session _ _ _ _ _ Hw). by apply exec_Ok in Hw as (d & [= <- <-] & ->).
Qed.

End rules.

(** ** Guarantees: rely-guarantee rules for [upholds]

    [G] is a preorder on databases that the interference respects; the
    rules show that a program moves the database along [G] when each of
    its statements does. An invariant [I] is the case
    [G d d' := I d -> I d']. *)
Section guarantee.
Context `{E : Env} (G : DB -> DB -> Prop) `{!PreOrder G}.
Context (rely : forall n d, G d (env_others n d)).

Lemma others_upholds d d' : others d d' -> G d d'.
Proof. induction 1 as [|d1 d2 d3 [n ->] _ IH]; [reflexivity|]. etransitivity; [apply rely|exact IH]. Qed.

Lemma interact_upholds w : G (w_db w) (w_db (interact w)).
Proof. apply others_upholds, interact_others. Qed.

Lemma upholds_ret {A} (a : A) : upholds G (ret a).
Proof. intros w r w' [= <- <-]. split; reflexivity. Qed.
Lemma upholds_throw {A} e : upholds G (throw (A := A) e).
Proof. intros w r w' [= <- <-]. split; reflexivity. Qed.
Lemma upholds_of_result {A} (x : result A) : upholds G (of_result x).
Proof. intros w r w' [= <- <-]. split; reflexivity. Qed.
Lemma upholds_uuid : upholds G uuid_New.
Proof. intros w r w' [= <- <-]. split; reflexivity. Qed.
Lemma upholds_now : upholds G time_Now.
Proof. intros w r w' [= <- <-]. split; reflexivity. Qed.

Lemma upholds_bind {A B} (m : M A) (k : A -> M B) :
  upholds G m -> (forall a, upholds G (k a)) -> upholds G (bind m k).
Proof.
  intros Hm Hk w r w' [(a & w1 & H1 & H2)|(e & H1 & ->)]%bind_inv.
  - apply Hm in H1 as [T1 G1]. apply Hk in H2 as [T2 G2].
    split; by etransitivity.
  - by apply Hm in H1.
Qed.

Lemma upholds_map_err {A} f (m : M A) : upholds G m -> upholds G (map_err f m).
Proof.
  intros Hm w r w' Hw. unfold map_err in Hw.
  destruct (m w) as [[a|e] w1] eqn:Hm1; simplify_eq; by apply Hm in Hm1.
Qed.

Lemma upholds_wrap {A} msg (m : M A) : upholds G m -> upholds G (wrap msg m).
Proof. apply upholds_map_err. Qed.

Lemma upholds_attempt {A} (m : M A) : upholds G m -> upholds G (attempt m).
Proof.
  intros Hm w r w' Hw. unfold attempt in Hw.
  destruct (m w) eqn:Hm1. simplify_eq. by apply Hm in Hm1.
Qed.

Lemma upholds_defer {A B} (f : M B) (m : M A) : upholds G f -> upholds G m -> upholds G (defer f m).
Proof.
  intros Hf Hm w r w' Hw. unfold defer in Hw.
  destruct (m w) as [x w1] eqn:H1. destruct (f w1) as [y w2] eqn:H2. simplify_eq.
  apply Hm in H1 as [T1 G1]. apply Hf in H2 as [T2 G2]. split; by etransitivity.
Qed.

Lemma upholds_fold {A B} (body : B -> A -> M B) acc l :
  (forall b a, a ∈ l -> upholds G (body b a)) -> upholds G (fold_loop body acc l).
Proof.
  revert acc. induction l as [|x l IH]; intros acc Hb; simpl; [by apply upholds_ret|].
  apply upholds_bind; [apply Hb, elem_of_cons; by left|].
  intros b. apply IH. intros b' a Ha. apply Hb, elem_of_cons. by right.
Qed.

Lemma upholds_exec {A} b (s : stmt A) :
  (forall t d a d', s t d = Ok (a, d') -> G d d') -> upholds G (exec b s).
Proof.
  intros Hs w r w' Hw. split; [apply (exec_session _ _ _ _ _ Hw)|].
  apply exec_inv in Hw as [(a & d & H1 & -> & _)|(e & x & _ & -> & _)]; simpl.
  - etransitivity; [apply interact_upholds|by eapply Hs].
  - apply interact_upholds.
Qed.

Lemma upholds_query {A} b (f : DB -> A) : upholds G (exec b (query f)).
Proof. apply upholds_exec. intros t d a d' [= _ <-]. reflexivity. Qed.

Lemma upholds_redis {A} (f : Time -> rstate -> option (A * rstate)) : upholds G (redis f).
Proof.
  intros w r w' Hw. unfold redis in Hw. pose proof (interact_moves w). pose proof (interact_upholds w).
  destruct (env_outcome _); try destruct (f _ _) as [[]|]; by simplify_eq/=.
Qed.

Lemma upholds_WithTx {A} (fn : M A) : upholds G fn -> upholds G (WithTx fn).
Proof.
  intros Hf w r w' Hw. assert (Hup : upholds (fun _ _ => True) fn) by (intros w1 r1 w2 H1; split; [exact (proj1 (Hf _ _ _ H1))|done]).
  apply (WithTx_inv _ _ _ _ Hup) in Hw as [Hm [(e & _ & Ho)|(a & w1 & H1 & -> & _)]]; (split; [done|]).
  - by apply others_upholds.
  - apply Hf in H1 as [_ HG]. etransitivity; [apply interact_upholds|exact HG].
Qed.

End guarantee.

#[export] Hint Resolve upholds_ret upholds_throw upholds_of_result upholds_uuid upholds_now
  upholds_bind upholds_map_err upholds_wrap upholds_attempt upholds_defer upholds_fold upholds_exec upholds_query
  upholds_redis upholds_WithTx : ticketing.

(** Walk a program text and leave its statements as goals. *)
Ltac upholds_step :=
  match goal with
  | |- upholds _ (bind _ _) => apply upholds_bind; [apply _| |intros ?]
  | |- upholds _ (wrap _ _) => apply upholds_wrap
  | |- upholds _ (map_err _ _) => apply upholds_map_err
  | |- upholds _ (attempt _) => apply upholds_attempt
  | |- upholds _ (defer _ _) => apply upholds_defer; [apply _| | ]
  | |- upholds _ (fold_loop _ _ _) => apply upholds_fold; [apply _|intros ? ? _]
  | |- upholds _ (WithTx _) => apply upholds_WithTx; [apply _|assumption|]
  | |- upholds _ (ret _) => apply upholds_ret; apply _
  | |- upholds _ (throw _) => apply upholds_throw; apply _
  | |- upholds _ (of_result _) => apply upholds_of_result; apply _
  | |- upholds _ uuid_New => apply upholds_uuid; apply _
  | |- upholds _ time_Now => apply upholds_now; apply _
  | |- upholds _ (redis _) => apply upholds_redis; [apply _|assumption]
  | |- upholds _ (exec _ (query _)) => apply upholds_query; [apply _|assumption]
  | |- upholds _ (exec _ _) => apply upholds_exec; [apply _|assumption|intros ? ? ? ?]
  | |- upholds _ (match ?x with _ => _ end) => destruct x
  | |- upholds _ (let '(_, _) := ?x in _) => destruct x
  end.
Ltac upholds_steps := repeat (upholds_step; simpl).

#[global] Instance any_preorder : PreOrder (fun _ _ : DB => True).
Proof. by split. Qed.

#[global] Instance invariant_preorder (I : DB -> Prop) : PreOrder (fun d d' => I d -> I d').
Proof. split; [by intros d|intros d1 d2 d3 H1 H2; auto]. Qed.

(** ** What a request can have written

    [moved_by R d d']: [d'] comes from [d] by what other sessions do and by
    writes in [R], in any order. *)
Section moved.
Context `{E : Env} (R : DB -> DB -> Prop).

Definition moved_by : DB -> DB -> Prop := rtc (fun d d' => (exists n, d' = env_others n d) \/ R d d').

#[global] Instance moved_by_preorder : PreOrder moved_by.
Proof. unfold moved_by. split; apply _. Qed.
Lemma moved_rely n d : moved_by d (env_others n d).
Proof. apply rtc_once. left. by exists n. Qed.
Lemma moved_write d d' : R d d' -> moved_by d d'.
Proof. intros. apply rtc_once. by right. Qed.
Lemma moved_others d d' : others d d' -> moved_by d d'.
Proof. apply others_upholds; [apply _|apply moved_rely]. Qed.

Lemma moved_exec {A} b (s : stmt A) :
  (forall now d a d', s now d = Ok (a, d') -> R d d') -> upholds moved_by (exec b s).
Proof. intros Hs. apply upholds_exec; [apply _|apply moved_rely|]. intros. eapply moved_write, Hs; eauto. Qed.

Lemma moved_select {A} (f : DB -> A) : upholds moved_by (select (query f)).
Proof. apply upholds_query; [apply _|apply moved_rely]. Qed.

Lemma moved_bind_ok {A B} (P : A -> Prop) (m : M A) (k : result A -> M B) :
  upholds moved_by m -> (forall w a w', m w = (Ok a, w') -> P a) ->
  (forall e, upholds moved_by (k (Err e))) -> (forall a, P a -> upholds moved_by (k (Ok a))) ->
  upholds moved_by (x <- attempt m;; k x).
Proof.
  intros Hm HP He Hk w r w'. rewrite bind_attempt. destruct (m w) as [[a|e] w1] eqn:Hw; intros H2.
  - apply Hm in Hw as Hg. destruct Hg as [T1 G1]. apply (Hk _ (HP _ _ _ Hw)) in H2 as [T2 G2]. split; by etransitivity.
  - apply Hm in Hw as [T1 G1]. apply He in H2 as [T2 G2]. split; by etransitivity.
Qed.
End moved.

(** ** What a program text does outside the database

    A relation on worlds that every primitive call respects is respected by
    every program made of them. *)
Class Frame `{RedisServer} (R : World -> World -> Prop) : Prop := {
  frame_preorder : PreOrder R;
  frame_tick : forall n w, (w_tick w <= n)%nat -> R w (set_tick n w);
  frame_db : forall d w, R w (set_db d w);
  frame_tx : forall x w, R w (set_tx x w);
  frame_wrote : forall b w, R w (set_wrote b w);
  frame_redis : forall s w, R w (set_redis s w) }.
#[export] Existing Instance frame_preorder.

Definition along `{RedisServer} {A} (R : World -> World -> Prop) (m : M A) : Prop := forall w r w', m w = (r, w') -> R w w'.

(** The number of interactions so far. *)
Definition tick_le `{RedisServer} (w w' : World) : Prop := (w_tick w <= w_tick w')%nat.
#[global] Instance tick_le_frame `{RedisServer} : Frame tick_le.
Proof. split; unfold tick_le; [split; [intros ?; lia|intros ? ? ? ? ?; lia]|intros; simpl; lia..]. Qed.

(** What was sent to the payment provider and to the mail transport. *)
Definition same_outside `{RedisServer} (w w' : World) : Prop :=
  w_intents w' = w_intents w /\ w_http w' = w_http w /\ w_mail w' = w_mail w.
#[global] Instance same_outside_frame `{RedisServer} : Frame same_outside.
Proof.
  split; unfold same_outside; [|done..]. split; [done|]. intros w1 w2 w3 (? & ? & ?) (? & ? & ?). by split_and!; etransitivity.
Qed.

Section frame.
Context `{E : Env} (R : World -> World -> Prop) `{!Frame R}.

Lemma frame_interact w : R w (interact w).
Proof.
  assert (Ht : R w (set_tick (S (w_tick w)) w)) by (apply frame_tick; lia).
  unfold interact. destruct (w_tx w) as [[b t]|]; [destruct (w_wrote w); [done|]|].
  - etransitivity; [exact Ht|]. etransitivity; [apply frame_tx|apply frame_db].
  - etransitivity; [exact Ht|]. etransitivity; [apply frame_redis|apply frame_db].
Qed.

Lemma along_ret {A} (a : A) : along R (ret a).
Proof. by intros w r w' [= _ <-]. Qed.
Lemma along_throw {A} e : along R (throw (A := A) e).
Proof. by intros w r w' [= _ <-]. Qed.
Lemma along_of_result {A} (x : result A) : along R (of_result x).
Proof. by intros w r w' [= _ <-]. Qed.
Lemma along_uuid : along R uuid_New.
Proof. intros w r w' [= _ <-]. apply frame_tick. lia. Qed.
Lemma along_now : along R time_Now.
Proof. intros w r w' [= _ <-]. apply frame_tick. lia. Qed.
Lemma along_bind {A B} (m : M A) (k : A -> M B) : along R m -> (forall a, along R (k a)) -> along R (bind m k).
Proof.
  intros Hm Hk w r w' [(a & w1 & H1%Hm & H2%Hk)|(e & H1%Hm & _)]%bind_inv; [by etransitivity|done].
Qed.
Lemma along_map_err {A} f (m : M A) : along R m -> along R (map_err f m).
Proof. intros Hm w r w'. unfold map_err. destruct (m w) as [[] w1] eqn:H1; intros [= _ <-]; by eapply Hm. Qed.
Lemma along_wrap {A} msg (m : M A) : along R m -> along R (wrap msg m).
Proof. apply along_map_err. Qed.
Lemma along_attempt {A} (m : M A) : along R m -> along R (attempt m).
Proof. intros Hm w r w'. unfold attempt. destruct (m w) eqn:H1. intros [= _ <-]. by eapply Hm. Qed.
Lemma along_defer {A B} (f : M B) (m : M A) : along R f -> along R m -> along R (defer f m).
Proof.
  intros Hf Hm w r w'. unfold defer. destruct (m w) as [x w1] eqn:H1. destruct (f w1) as [y w2] eqn:H2.
  intros [= _ <-]. etransitivity; [by eapply Hm|by eapply Hf].
Qed.
Lemma along_fold {A B} (body : B -> A -> M B) acc l : (forall b a, along R (body b a)) -> along R (fold_loop body acc l).
Proof.
  intros Hb. revert acc. induction l as [|x l IH]; intros acc; [apply along_ret|]. by apply along_bind.
Qed.
Lemma along_exec {A} b (s : stmt A) : along R (exec b s).
Proof.
  intros w r w' [(a & d & _ & -> & _)|(e & x & _ & -> & _)]%exec_inv.
  - etransitivity; [apply frame_interact|]. etransitivity; [apply frame_wrote|apply frame_db].
  - etransitivity; [apply frame_interact|apply frame_wrote].
Qed.
Lemma along_redis {A} (f : Time -> rstate -> option (A * rstate)) : along R (redis f).
Proof.
  intros w r w'. unfold redis. pose proof (frame_interact w) as Hi.
  destruct (env_outcome _); try destruct (f _ _) as [[]|]; intros [= _ <-]; try done; (etransitivity; [exact Hi|apply frame_redis]).
Qed.
Lemma along_WithTx {A} (fn : M A) : along R fn -> along R (WithTx fn).
Proof.
  intros Hf w r w'. unfold WithTx. pose proof (frame_interact w) as Hi.
  destruct (env_outcome (w_tick w)); [|intros [= _ <-]; done..].
  assert (Ho : R w (open_tx w)) by (unfold open_tx; etransitivity; [exact Hi|]; etransitivity; [apply frame_tx|apply frame_wrote]).
  destruct (fn (open_tx w)) as [ra w1] eqn:H1. apply Hf in H1.
  assert (Hc : R w (close_tx w w1)).
  { etransitivity; [exact Ho|]. etransitivity; [exact H1|]. unfold close_tx. etransitivity; [apply frame_tx|apply frame_wrote]. }
  assert (Ht : forall n, (w_tick w1 <= n)%nat -> R w (set_tick n (close_tx w w1)))
    by (intros n Hn; etransitivity; [exact Hc|]; by apply frame_tick).
  destruct ra as [a|e]; [destruct (env_outcome _)|]; intros [= _ <-];
    first [by apply Ht; lia|etransitivity; [apply (Ht (S (w_tick w1))); lia|apply frame_db]|etransitivity; [exact Hc|apply frame_db]].
Qed.
End frame.

Ltac along_step :=
  match goal with
  | |- along _ (bind _ _) => apply along_bind; try apply _; [|intros ?]
  | |- along _ (wrap _ _) => apply along_wrap; try apply _
  | |- along _ (map_err _ _) => apply along_map_err; try apply _
  | |- along _ (attempt _) => apply along_attempt; try apply _
  | |- along _ (defer _ _) => apply along_defer; try apply _
  | |- along _ (fold_loop _ _ _) => apply along_fold; try apply _; intros ? ?
  | |- along _ (WithTx _) => apply along_WithTx; try apply _
  | |- along _ (ret _) => apply along_ret; try apply _
  | |- along _ (throw _) => apply along_throw; try apply _
  | |- along _ (of_result _) => apply along_of_result; try apply _
  | |- along _ uuid_New => apply along_uuid; try apply _
  | |- along _ time_Now => apply along_now; try apply _
  | |- along _ (redis _) => apply along_redis; try apply _
  | |- along _ (exec _ _) => apply along_exec; try apply _
  | |- along _ (match ?x with _ => _ end) => destruct x
  end.
Ltac along_steps := repeat (along_step; simpl).
