(* ===== verification/Ports.v ===== *)
(** * The interfaces between the layers

    One class per Go interface: [domain.InventoryRepository], and the
    [locker], [waitingRoom] and [rateLimiter] interfaces the inventory
    service declares for itself.  The contracts the services rely on are
    classes of laws; the repositories provide the instances. *)
From S2P Require Import Prelude Domain Schema Redis Runtime.

(** ** Interfaces *)

Class InventoryRepository `{RedisServer} := {
  ir_BulkCreate : list EventSeatInventory -> M unit;
  ir_GetByID : UUID -> UUID -> M EventSeatInventory;
  ir_Hold : UUID -> UUID -> UUID -> UUID -> Time -> M bool;
  ir_Release : UUID -> UUID -> UUID -> M bool;
  ir_ConfirmSale : UUID -> UUID -> UUID -> M bool;
  ir_Void : UUID -> UUID -> M unit;
  ir_ListExpiredHolds : Time -> Z -> M (list EventSeatInventory);
  ir_CountByStatus : UUID -> UUID -> M (gmap UUID InventoryCounts)
}.

Class locker `{RedisServer} := {
  lk_Acquire : string -> Duration -> M (string * bool);
  lk_Release : string -> string -> M bool
}.

Class waitingRoom `{RedisServer} := {
  wr_Join : UUID -> UUID -> M Z;
  wr_Position : UUID -> UUID -> M Z;
  wr_IsAdmitted : UUID -> UUID -> M bool;
  wr_Admit : UUID -> Z -> Duration -> M (list UUID);
  wr_QueueLength : UUID -> M Z
}.

Class rateLimiter `{RedisServer} := {
  rl_Allow : string -> Z -> Duration -> M bool
}.

(** [domain.PaymentGateway] and [domain.EmailSender]. *)
Class PaymentGateway `{RedisServer} := {
  gw_CreateIntent : Money -> string -> list (string * string) -> M (string * string);
  gw_Refund : string -> Money -> string -> M string;
  gw_VerifyWebhookSignature : string -> string -> result unit
}.

Class EmailSender `{RedisServer} := { em_Send : EmailMessage -> M unit }.

(** ** Contracts *)

(** A call that leaves the database to the other sessions: the database
    moves only along relations the interference itself respects. *)
Definition db_neutral `{E : Env} {A} (m : M A) : Prop :=
  forall G : DB -> DB -> Prop, PreOrder G -> (forall n d, G d (env_others n d)) -> upholds G m.

(** What the inventory service assumes of the Redis layer: nothing but that
    it stays away from the database. *)
Class LockerContract `{E : Env} (L : locker) : Prop := {
  lk_Acquire_neutral : forall k ttl, db_neutral (lk_Acquire k ttl);
  lk_Release_neutral : forall k tok, db_neutral (lk_Release k tok)
}.
Class WaitingRoomContract `{E : Env} (W : waitingRoom) : Prop := {
  wr_Join_neutral : forall e u, db_neutral (wr_Join e u);
  wr_Position_neutral : forall e u, db_neutral (wr_Position e u);
  wr_IsAdmitted_neutral : forall e u, db_neutral (wr_IsAdmitted e u);
  wr_Admit_neutral : forall e n ttl, db_neutral (wr_Admit e n ttl);
  wr_QueueLength_neutral : forall e, db_neutral (wr_QueueLength e)
}.
Class RateLimiterContract `{E : Env} (L : rateLimiter) : Prop := {
  rl_Allow_neutral : forall k n window, db_neutral (rl_Allow k n window)
}.

(** The provider's API and the mail transport do not write the database. *)
Class GatewayContract `{E : Env} (G : PaymentGateway) : Prop := {
  gw_CreateIntent_neutral : forall a k md, db_neutral (gw_CreateIntent a k md);
  gw_Refund_neutral : forall p a r, db_neutral (gw_Refund p a r)
}.
Class EmailContract `{E : Env} (S : EmailSender) : Prop := { em_Send_neutral : forall m, db_neutral (em_Send m) }.

(** The compare-and-swap an inventory method performs on one row, seen from
    outside: the row satisfied the guard, only its hold columns changed, within
    the CHECK constraint, and the trigger logged the change. *)
Definition swapped (tenantID id : UUID) (guard : EventSeatInventory -> Prop)
    (st : InventoryStatus) (tok user : option UUID) (expires : option Time) (d d' : DB) : Prop :=
  exists r now, let r' := set_hold st tok user expires now r in
    inventory d !! id = Some r /\ inv_TenantID r = tenantID /\ guard r /\ inventory_check r' = true /\
    d' = set_inventory (<[id := r']> (inventory d)) (audit_log d ++ log_inventory_status_change now (Some r) r') d.

(** The row is there, in this tenant, and satisfies the guard. *)
Definition eligible (tenantID id : UUID) (guard : EventSeatInventory -> Prop) (d : DB) : Prop :=
  exists r, inventory d !! id = Some r /\ inv_TenantID r = tenantID /\ guard r.

Definition is_available (r : EventSeatInventory) : Prop := inv_Status r = InventoryStatusAvailable.
Definition is_held_by (tok : UUID) (r : EventSeatInventory) : Prop :=
  inv_Status r = InventoryStatusHeld /\ inv_HoldToken r = Some tok.

(** A method [m] is a compare-and-swap: it reports [true] exactly when it
    swapped and [false] exactly when the row was not eligible; an error
    means that the swap did or did not happen. A reported outcome counts as
    a write of the transaction it is part of. *)
Definition is_cas `{E : Env} (elig : DB -> Prop) (swap : DB -> DB -> Prop) (m : M bool) : Prop :=
  forall w r w', m w = (r, w') ->
    let d := w_db (interact w) in
    tx_moves (w_tx w) (w_tx w') /\ w_tick w' = S (w_tick w) /\ w_redis w' = w_redis (interact w) /\
    (is_ok r = true -> w_wrote w' = true) /\
    match r with
    | Ok true => swap d (w_db w')
    | Ok false => ~ elig d /\ w_db w' = d
    | Err _ => w_db w' = d \/ swap d (w_db w')
    end.

Lemma cas_upholds `{E : Env} (G : DB -> DB -> Prop) `{!PreOrder G} elig swap m :
  (forall n d, G d (env_others n d)) -> (forall d d', swap d d' -> G d d') ->
  is_cas elig swap m -> upholds G m.
Proof.
  intros rely Hs Hm w r w' Hw. apply Hm in Hw as (Htx & _ & _ & _ & Hw). split; [done|].
  pose proof (interact_upholds G rely w) as Hi.
  destruct r as [[]|]; [| |destruct Hw as [Hw|Hw]]; [|destruct Hw as [_ ->]; done|by rewrite Hw|];
    (etransitivity; [exact Hi|auto]).
Qed.

Definition expired_at (before : Time) (r : EventSeatInventory) : bool :=
  bool_decide (inv_Status r = InventoryStatusHeld)
  && match inv_HoldExpiresAt r with Some e => (e <? before)%Z | None => false end.

(** A listing that only returns rows that are there and have expired. *)
Definition lists_expired `{E : Env} (before : Time) (m : M (list EventSeatInventory)) : Prop :=
  forall w r w', m w = (r, w') ->
    tx_moves (w_tx w) (w_tx w') /\ w_db w' = w_db (interact w) /\
    match r with
    | Ok l => forall row, row ∈ l -> expired_at before row = true /\ exists i, inventory (w_db w') !! i = Some row
    | Err _ => True
    end.

Class InventoryContract `{E : Env} (R : InventoryRepository) : Prop := {
  ir_Hold_cas : forall t i tok u e,
    is_cas (eligible t i is_available)
           (swapped t i is_available InventoryStatusHeld (Some tok) (Some u) (Some e))
           (ir_Hold t i tok u e);
  ir_Release_cas : forall t i tok,
    is_cas (eligible t i (is_held_by tok))
           (swapped t i (is_held_by tok) InventoryStatusAvailable None None None)
           (ir_Release t i tok);
  ir_ConfirmSale_cas : forall t i tok,
    is_cas (eligible t i (is_held_by tok))
           (swapped t i (is_held_by tok) InventoryStatusSold None None None)
           (ir_ConfirmSale t i tok);
  ir_ListExpiredHolds_sound : forall before lim, lists_expired before (ir_ListExpiredHolds before lim)
}.

#[export] Hint Resolve lk_Acquire_neutral lk_Release_neutral wr_Join_neutral wr_Position_neutral
  wr_IsAdmitted_neutral wr_Admit_neutral wr_QueueLength_neutral rl_Allow_neutral
  gw_CreateIntent_neutral gw_Refund_neutral em_Send_neutral : ticketing.
