(* ===== verification/Fixtures.v ===== *)
(** * A small concrete database and environments

    One club (tenant 1) with an admin (10) and two fans (11, 12), an event
    on sale (20) with one ticket category (30) and four units: 100 is
    available, 101 is held by fan 11 under token 500, 102 is sold and 103
    is held by fan 12 under token 501 with an earlier deadline.  The
    witnesses of the other files evaluate the definitions on it. *)
From S2P Require Import Prelude GoJson Domain Schema Redis Runtime.

Definition fx_tenant : Tenant := mkTenant 1 "gor-mahia" "Gor Mahia" "football" TenantStatusActive "" [] 0 0.
Definition fx_admin : User :=
  mkUser 10 "admin@club.ke" "" "hash-admin" "Ada" "Min" UserStatusActive UserRoleAdmin (Some 1%N) None 0 0.
Definition fx_fan : User :=
  mkUser 11 "fan@mail.ke" "" "hash-fan" "Fan" "One" UserStatusActive UserRoleFan None None 0 0.
Definition fx_fan2 : User :=
  mkUser 12 "two@mail.ke" "" "hash-two" "Fan" "Two" UserStatusActive UserRoleFan None None 0 0.
Definition fx_venue : Venue := mkVenue 15 1 "Nyayo" "" "Nairobi" "KE" "Africa/Nairobi" None 0 0.
Definition fx_seat_category : SeatCategory := mkSeatCategory 16 1 "Terraces" "" 0 0.
Definition fx_event : Event :=
  mkEvent 20 1 15 "Derby" "" "" "" 9000000 None 0 8000000 EventStatusOnSale 0 0.
Definition fx_category : EventTicketCategory :=
  mkEventTicketCategory 30 1 20 16 (mkMoney 150000 "KES") 2 0 0.
Definition fx_unit (id : UUID) (st : InventoryStatus) (tok u : option UUID) (e : option Time) : EventSeatInventory :=
  mkInventory id 1 20 30 None st tok u e 0 0.

Definition fx_inventory : gmap UUID EventSeatInventory :=
  <[100%N := fx_unit 100 InventoryStatusAvailable None None None]>
  (<[101%N := fx_unit 101 InventoryStatusHeld (Some 500%N) (Some 11%N) (Some 5000000%Z)]>
  (<[102%N := fx_unit 102 InventoryStatusSold None None None]>
  (<[103%N := fx_unit 103 InventoryStatusHeld (Some 501%N) (Some 12%N) (Some 900%Z)]> ∅))).

Definition fx_created (i : UUID) : AuditEntry := mkAudit 1 i None InventoryStatusAvailable None None 0.
Definition fx_held (i tok u : UUID) : AuditEntry :=
  mkAudit 1 i (Some InventoryStatusAvailable) InventoryStatusHeld (Some tok) (Some u) 0.

Definition fx_audit : list AuditEntry :=
  [fx_created 100; fx_created 101; fx_created 102; fx_created 103;
   fx_held 102 499 11; mkAudit 1 102 (Some InventoryStatusHeld) InventoryStatusSold None None 0;
   fx_held 101 500 11; fx_held 103 501 12].

Definition fx_db : DB :=
  mkDB {[1%N := fx_tenant]} (<[10%N := fx_admin]> (<[11%N := fx_fan]> {[12%N := fx_fan2]})) ∅
    {[15%N := fx_venue]} ∅ ∅ {[16%N := fx_seat_category]} {[20%N := fx_event]} {[30%N := fx_category]}
    fx_inventory fx_audit ∅ ∅ ∅ ∅.

(** What the payment provider answers to every request. *)
Definition fx_provider_body : string := Marshal (VObj [("id", VStr "pi_1"); ("client_secret", VStr "sec_1")]).

(** Nothing fails and nobody interferes; the clock advances one millisecond
    per interaction from the second 1. *)
#[global] Instance fx_env : Env (H := ref_redis) := {|
  env_uuid n := (1000 + N.of_nat n)%N;
  env_clock n := (1000000 + 1000 * Z.of_nat n)%Z;
  env_outcome _ := Delivered;
  env_others _ d := d;
  env_redis_others _ s := s;
  env_http _ _ := mkResponse 200 fx_provider_body
|}.

#[global] Instance fx_error_text : ErrorText := {| error_Error _ := "error" |}.

#[global] Instance fx_quiet : Quiet (E := fx_env).
Proof. by split. Qed.

#[global] Instance fx_steady : SteadyClock (E := fx_env).
Proof. intros n m H. simpl. lia. Qed.

#[global] Instance fx_uuids : RandomUuids (E := fx_env).
Proof. intros n. unfold uuid_Nil. simpl. lia. Qed.

#[global] Instance fx_distinct : DistinctUuids (E := fx_env).
Proof. intros n m. simpl. lia. Qed.

Definition fx_world (d : DB) : World (H := ref_redis) := mkWorld ref_redis 0 d None false (∅ : gmap string (RVal * option Time)) ∅ [] [].
