(* ===== verification/InventoryRepo.v ===== *)
(** * The inventory repository ([src/internal/repository/postgres/inventory.go])

    The table [event_seat_inventory] with its constraints and triggers
    (migrations 000006 and 000010), the compare-and-swap statements, and
    the repository methods built from them.  The second half studies the
    statements as atomic operations under arbitrary interleaving. *)
From S2P Require Import Prelude Domain Schema Redis Runtime Fixtures Ports.

(** ** The table *)

(** UNIQUE (event_id, seat_id): NULL seats are exempt. *)
Definition seat_taken (r : EventSeatInventory) (tbl : gmap UUID EventSeatInventory) : bool :=
  match inv_SeatID r with
  | None => false
  | Some s => existsb (fun r' => (inv_EventID r' =? inv_EventID r)%N && bool_decide (inv_SeatID r' = Some s))
                      (snd <$> map_to_list tbl)
  end.

(** Foreign keys: an UPDATE rechecks only the one whose column it writes. *)
Definition holder_fk (r : EventSeatInventory) (d : DB) : bool :=
  match inv_HeldByUserID r with Some u => fk (users d) u | None => true end.

Definition inventory_fks (r : EventSeatInventory) (d : DB) : bool :=
  fk_tenant e_TenantID (events d) (inv_EventID r) (inv_TenantID r)
  && fk_tenant etc_TenantID (event_ticket_categories d) (inv_EventTicketCategoryID r) (inv_TenantID r)
  && match inv_SeatID r with Some s => fk_tenant s_TenantID (seats d) s (inv_TenantID r) | None => true end
  && holder_fk r d.

(** INSERT: CHECK, then unique indexes, then foreign keys, then the trigger. *)
Definition insert_inventory (r : EventSeatInventory) : stmt unit := fun now d =>
  if negb (inventory_check r) then Err (EPg pgCodeCheckViolation)
  else if fk (inventory d) (inv_ID r) || seat_taken r (inventory d) then Err (EPg pgCodeUniqueViolation)
  else if negb (inventory_fks r d) then Err (EPg pgCodeForeignKeyViolation)
  else Ok (tt, set_inventory (<[inv_ID r := r]> (inventory d))
                 (audit_log d ++ log_inventory_status_change now None r) d).

(** [UPDATE event_seat_inventory SET ... WHERE id = $ AND ...]; the value is RowsAffected. *)
Definition update_inventory (id : UUID) (cond : EventSeatInventory -> bool)
    (upd : Time -> EventSeatInventory -> EventSeatInventory) : stmt Z := fun now d =>
  match inventory d !! id with
  | None => Ok (0%Z, d)
  | Some r =>
      if negb (cond r) then Ok (0%Z, d)
      else
        let r' := upd now r in
        if negb (inventory_check r') then Err (EPg pgCodeCheckViolation)
        else if negb (holder_fk r' d) then Err (EPg pgCodeForeignKeyViolation)
        else Ok (1%Z, set_inventory (<[id := r']> (inventory d))
                        (audit_log d ++ log_inventory_status_change now (Some r) r') d)
  end.

(** ** The statements of the repository *)

Definition hold_stmt (tenantID id holdToken userID : UUID) (expiresAt : Time) : stmt Z :=
  update_inventory id
    (fun r => (inv_TenantID r =? tenantID)%N && bool_decide (inv_Status r = InventoryStatusAvailable))
    (set_hold InventoryStatusHeld (Some holdToken) (Some userID) (Some expiresAt)).

Definition token_matches (tenantID holdToken : UUID) (r : EventSeatInventory) : bool :=
  (inv_TenantID r =? tenantID)%N && bool_decide (inv_Status r = InventoryStatusHeld)
  && bool_decide (inv_HoldToken r = Some holdToken).

Definition release_stmt (tenantID id holdToken : UUID) : stmt Z :=
  update_inventory id (token_matches tenantID holdToken)
    (set_hold InventoryStatusAvailable None None None).

Definition confirm_sale_stmt (tenantID id holdToken : UUID) : stmt Z :=
  update_inventory id (token_matches tenantID holdToken)
    (set_hold InventoryStatusSold None None None).

Definition void_stmt (tenantID id : UUID) : stmt Z :=
  update_inventory id (fun r => (inv_TenantID r =? tenantID)%N)
    (set_hold InventoryStatusVoid None None None).

(** The batch of INSERTs of [BulkCreate]: one implicit transaction. *)
Definition available_row (now : Time) (id : UUID) (row : EventSeatInventory) : EventSeatInventory :=
  mkInventory id (inv_TenantID row) (inv_EventID row) (inv_EventTicketCategoryID row) (inv_SeatID row)
    InventoryStatusAvailable None None None now now.

Fixpoint bulk_stmt (rows : list (UUID * EventSeatInventory)) : stmt unit := fun now d =>
  match rows with
  | [] => Ok (tt, d)
  | (id, row) :: rest =>
      match insert_inventory (available_row now id row) now d with
      | Err e => Err e
      | Ok (_, d') => bulk_stmt rest now d'
      end
  end.

Definition expiry_key (r : EventSeatInventory) : Z := default 0%Z (inv_HoldExpiresAt r).

Definition list_expired_stmt (before : Time) (lim : Z) : stmt (list EventSeatInventory) := fun _ d =>
  if (lim <? 0)%Z then Err (EPg "2201W")
  else Ok (limit lim (order_by expiry_key (rows_where (expired_at before) (inventory d))), d).

(** [GROUP BY event_ticket_category_id, status]. *)
Definition count_key (r : EventSeatInventory) : UUID * InventoryStatus :=
  (inv_EventTicketCategoryID r, inv_Status r).
Definition count_rows (tenantID eventID : UUID) (d : DB) : list EventSeatInventory :=
  rows_where (fun r => (inv_TenantID r =? tenantID)%N && (inv_EventID r =? eventID)%N) (inventory d).
Definition group_counts (rows : list EventSeatInventory) : list (UUID * InventoryStatus * Z) :=
  (fun k => (k, Z.of_nat (length (filter (fun r => count_key r = k) rows)))) <$> remove_dups (count_key <$> rows).

(** ** The repository methods *)
Section repo.
Context `{E : Env}.

Definition assign_id (row : EventSeatInventory) : M (UUID * EventSeatInventory) :=
  if (inv_ID row =? uuid_Nil)%N then id <- uuid_New;; ret (id, row) else ret (inv_ID row, row).

Definition BulkCreate (rows : list EventSeatInventory) : M unit :=
  match rows with
  | [] => ret tt
  | _ =>
      batch <- fold_loop (fun acc row => x <- assign_id row;; ret (acc ++ [x])) [] rows;;
      wrap "postgres: bulk create inventory" (sql (bulk_stmt batch))
  end.

Definition GetByID (tenantID id : UUID) : M EventSeatInventory :=
  o <- wrap "postgres: get inventory by id"
         (select (query (fun d => match inventory d !! id with
                               | Some r => if (inv_TenantID r =? tenantID)%N then Some r else None
                               | None => None
                               end)));;
  match o with
  | Some r => ret r
  | None => throw (NewError "postgres.InventoryRepo.GetByID" (ESentinel (SDomain ErrNotFound)))
  end.

Definition Hold (tenantID id holdToken userID : UUID) (expiresAt : Time) : M bool :=
  n <- wrap "postgres: hold inventory" (sql (hold_stmt tenantID id holdToken userID expiresAt));;
  ret (n =? 1)%Z.

Definition Release (tenantID id holdToken : UUID) : M bool :=
  n <- wrap "postgres: release inventory" (sql (release_stmt tenantID id holdToken));;
  ret (n =? 1)%Z.

Definition ConfirmSale (tenantID id holdToken : UUID) : M bool :=
  n <- wrap "postgres: confirm sale" (sql (confirm_sale_stmt tenantID id holdToken));;
  ret (n =? 1)%Z.

Definition Void (tenantID id : UUID) : M unit :=
  n <- wrap "postgres: void inventory" (sql (void_stmt tenantID id));;
  if (n =? 0)%Z then throw (NewError "postgres.InventoryRepo.Void" (ESentinel (SDomain ErrNotFound))) else ret tt.

Definition ListExpiredHolds (before : Time) (lim : Z) : M (list EventSeatInventory) :=
  wrap "postgres: list expired holds" (select (list_expired_stmt before lim)).

(** One iteration of the scan loop: [result[categoryID]] defaults to the zero value. *)
Definition add_count (result : gmap UUID InventoryCounts) (g : UUID * InventoryStatus * Z)
    : gmap UUID InventoryCounts :=
  let '(categoryID, status, count) := g in
  let counts := default (mkCounts 0 0 0 0) (result !! categoryID) in
  <[categoryID :=
      match status with
      | InventoryStatusAvailable => mkCounts count (c_Held counts) (c_Sold counts) (c_Void counts)
      | InventoryStatusHeld => mkCounts (c_Available counts) count (c_Sold counts) (c_Void counts)
      | InventoryStatusSold => mkCounts (c_Available counts) (c_Held counts) count (c_Void counts)
      | InventoryStatusVoid => mkCounts (c_Available counts) (c_Held counts) (c_Sold counts) count
      end]> result.

Definition CountByStatus (tenantID eventID : UUID) : M (gmap UUID InventoryCounts) :=
  groups <- wrap "postgres: count inventory by status"
              (select (query (fun d => group_counts (count_rows tenantID eventID d))));;
  ret (foldl add_count ∅ groups).

#[global] Instance InventoryRepo : InventoryRepository := {|
  ir_BulkCreate := BulkCreate; ir_GetByID := GetByID; ir_Hold := Hold; ir_Release := Release;
  ir_ConfirmSale := ConfirmSale; ir_Void := Void; ir_ListExpiredHolds := ListExpiredHolds;
  ir_CountByStatus := CountByStatus
|}.

End repo.

(** ** Statements as atomic operations *)

(** Every statement of the program that writes the table. *)
Inductive inv_op :=
| OpHold (tenantID id holdToken userID : UUID) (expiresAt : Time)
| OpRelease (tenantID id holdToken : UUID)
| OpConfirmSale (tenantID id holdToken : UUID)
| OpVoid (tenantID id : UUID)
| OpBulkCreate (rows : list (UUID * EventSeatInventory)).

Definition op_stmt (o : inv_op) : stmt Z :=
  match o with
  | OpHold t i k u e => hold_stmt t i k u e
  | OpRelease t i k => release_stmt t i k
  | OpConfirmSale t i k => confirm_sale_stmt t i k
  | OpVoid t i => void_stmt t i
  | OpBulkCreate rows => fun now d =>
      match bulk_stmt rows now d with
      | Ok (_, d') => Ok (Z.of_nat (length rows), d')
      | Err e => Err e
      end
  end.

(** Run one statement; report whether it changed exactly one row. *)
Definition exec_op (now : Time) (o : inv_op) (d : DB) : bool * DB :=
  match op_stmt o now d with
  | Ok (n, d') => ((n =? 1)%Z, d')
  | Err _ => (false, d)
  end.

(** A history of statements issued by any number of concurrent sessions. *)
Fixpoint run_ops (ops : list (Time * inv_op)) (d : DB) : list bool * DB :=
  match ops with
  | [] => ([], d)
  | (now, o) :: rest =>
      let '(b, d1) := exec_op now o d in
      let '(bs, d2) := run_ops rest d1 in
      (b :: bs, d2)
  end.

(** How many statements of a history satisfying [p] took effect. *)
Fixpoint wins (p : inv_op -> bool) (ops : list (Time * inv_op)) (d : DB) : nat :=
  match ops with
  | [] => 0
  | (now, o) :: rest =>
      let '(b, d1) := exec_op now o d in
      ((if b && p o then 1 else 0) + wins p rest d1)%nat
  end.

Definition sells (i : UUID) (o : inv_op) : bool :=
  match o with OpConfirmSale _ j _ => (j =? i)%N | _ => false end.
Definition holds (i : UUID) (o : inv_op) : bool :=
  match o with OpHold _ j _ _ _ => (j =? i)%N | _ => false end.
Definition releases (i : UUID) (o : inv_op) : bool :=
  match o with OpRelease _ j _ => (j =? i)%N | _ => false end.
Definition voids (i : UUID) (o : inv_op) : bool :=
  match o with OpVoid _ j => (j =? i)%N | _ => false end.

Definition status_of (d : DB) (i : UUID) : option InventoryStatus := inv_Status <$> inventory d !! i.

(** A row that has been sold or withdrawn never becomes sellable again. *)
Definition consumed (d : DB) (i : UUID) : Prop :=
  status_of d i = Some InventoryStatusSold \/ status_of d i = Some InventoryStatusVoid.

(** Every row satisfies the CHECK constraint and sits under its own id. *)
Definition inventory_wf (d : DB) : Prop :=
  forall i r, inventory d !! i = Some r -> inv_ID r = i /\ inventory_check r = true.

(** ** The audit log as a state machine *)

(** The life cycle of a sellable unit. *)
Definition allowed (from : option InventoryStatus) (to : InventoryStatus) : bool :=
  match from, to with
  | None, InventoryStatusAvailable => true
  | Some InventoryStatusAvailable, InventoryStatusHeld => true
  | Some InventoryStatusHeld, InventoryStatusAvailable => true
  | Some InventoryStatusHeld, InventoryStatusSold => true
  | Some InventoryStatusAvailable, InventoryStatusVoid => true
  | Some InventoryStatusHeld, InventoryStatusVoid => true
  | Some InventoryStatusSold, InventoryStatusVoid => true
  | _, _ => false
  end.

(** Replay audit entries from a status; [None] when they are not a path of the life cycle. *)
Fixpoint replay (s : option InventoryStatus) (l : list AuditEntry) : option (option InventoryStatus) :=
  match l with
  | [] => Some s
  | a :: l' =>
      if bool_decide (a_Previous a = s) && allowed s (a_New a) then replay (Some (a_New a)) l' else None
  end.

Definition audit_of (i : UUID) (l : list AuditEntry) : list AuditEntry :=
  filter (fun a => a_InventoryID a = i) l.

(** The audit trail of row [i] explains its current status. *)
Definition audit_explains (d : DB) (i : UUID) : Prop :=
  replay None (audit_of i (audit_log d)) = Some (status_of d i).

(** ** Effect of one statement *)

Lemma update_inventory_inv id cond upd now d n d' :
  update_inventory id cond upd now d = Ok (n, d') ->
  (n = 0%Z /\ d' = d) \/
  (n = 1%Z /\ exists r, inventory d !! id = Some r /\ cond r = true /\
     inventory_check (upd now r) = true /\
     d' = set_inventory (<[id := upd now r]> (inventory d))
            (audit_log d ++ log_inventory_status_change now (Some r) (upd now r)) d).
Proof.
  unfold update_inventory. intros. run_hyps; try (by left).
  right. split; [done|]. eexists. repeat split; eauto using negb_false_iff; by apply negb_false_iff.
Qed.

Lemma insert_inventory_inv r now d d' u :
  insert_inventory r now d = Ok (u, d') ->
  inventory d !! inv_ID r = None /\ inventory_check r = true /\
  d' = set_inventory (<[inv_ID r := r]> (inventory d))
         (audit_log d ++ log_inventory_status_change now None r) d.
Proof.
  unfold insert_inventory, fk. intros. run_hyps.
  split_and!; [|by apply negb_false_iff|done].
  destruct (inventory d !! inv_ID r); [done|done].
Qed.

(** ** The repository meets its contract *)

Lemma update_inventory_zero id cond upd now d d' :
  update_inventory id cond upd now d = Ok (0%Z, d') ->
  d' = d /\ forall r, inventory d !! id = Some r -> cond r = false.
Proof.
  unfold update_inventory. intros. run_hyps; split; try done; intros; simplify_eq.
  by apply negb_true_iff.
Qed.

Section contract.
Context `{E : Env}.

Lemma update_cas id cond st tok u e t guard msg :
  (forall r, cond r = true <-> inv_TenantID r = t /\ guard r) ->
  is_cas (eligible t id guard) (swapped t id guard st tok u e)
    (n <- wrap msg (sql (update_inventory id cond (set_hold st tok u e)));; ret (n =? 1)%Z).
Proof.
  intros Hc w r w' Hw. cbv zeta.
  assert (Hswap : forall n d', update_inventory id cond (set_hold st tok u e) (db_now w) (w_db (interact w)) = Ok (n, d') ->
    (n = 0%Z /\ d' = w_db (interact w) /\ ~ eligible t id guard (w_db (interact w))) \/
    (n = 1%Z /\ swapped t id guard st tok u e (w_db (interact w)) d')).
  { intros n d' Hu. pose proof Hu as [[-> ->]|(-> & row & Hr & Hcond & Hchk & ->)]%update_inventory_inv.
    - left. split_and!; try done. intros (row & Hr & Hg).
      apply update_inventory_zero in Hu as [_ Hn]. apply Hc in Hg. by rewrite (Hn _ Hr) in Hg.
    - right. split; [done|]. exists row, (db_now w). apply Hc in Hcond as [? ?]. by split_and!. }
  unfold wrap, map_err, bind, ret in Hw. destruct (sql _ w) as [x w1] eqn:Hs. pose proof (interact_moves w).
  apply exec_inv in Hs as [(n & d & Hu & -> & Hx)|(er & y & -> & -> & _)].
  - apply Hswap in Hu. destruct Hx as [-> | ->]; simplify_eq/=; rewrite interact_tick.
    + destruct Hu as [(-> & -> & ?)|(-> & ?)]; by split_and!.
    + split_and!; try done. naive_solver.
  - simplify_eq/=. rewrite interact_tick. split_and!; try done. by left.
Qed.

Lemma list_expired_sound before lim : lists_expired before (ListExpiredHolds before lim).
Proof.
  intros w r w' Hw. unfold ListExpiredHolds, wrap, map_err in Hw.
  destruct (select _ w) as [x w1] eqn:Hs. pose proof (interact_moves w).
  apply exec_inv in Hs as [(l & d & Hq & -> & Hx)|(er & y & -> & -> & _)].
  - unfold list_expired_stmt in Hq. destruct (lim <? 0)%Z; [done|]. injection Hq as <- <-.
    destruct Hx as [-> | ->]; simplify_eq/=; split_and!; try done.
    intros row Hrow%elem_of_limit. by rewrite elem_of_order_by in Hrow; apply elem_of_rows_where in Hrow as [? ?].
  - by simplify_eq/=.
Qed.

#[global] Instance InventoryRepo_contract : InventoryContract InventoryRepo.
Proof.
  split; [intros; apply update_cas; intros r; unfold token_matches, is_available, is_held_by;
    rewrite ?andb_true_iff, ?bool_decide_eq_true, N.eqb_eq; tauto..|].
  apply list_expired_sound.
Qed.

End contract.

(** The rows that existed before a batch are untouched by it. *)
Lemma bulk_stmt_inv rows now d d' u :
  bulk_stmt rows now d = Ok (u, d') ->
  forall i, inventory d' !! i = inventory d !! i \/
    (inventory d !! i = None /\ exists r, inventory d' !! i = Some r /\ inv_ID r = i /\
       inv_Status r = InventoryStatusAvailable /\ inventory_check r = true).
Proof.
  revert d. induction rows as [|[id row] rows IH]; intros d H i; simpl in H; [simplify_eq; by left|].
  destruct (insert_inventory _ now d) as [[[] d1]|] eqn:Hins; [|done].
  apply insert_inventory_inv in Hins as (Hnone & Hchk & ->).
  specialize (IH _ H i) as [Heq|(Hn & r & Hr & Hid & Hst)]; simpl in *.
  - destruct (decide (id = i)) as [->|Hne].
    + right. split; [done|]. rewrite Heq, lookup_insert_eq. eauto.
    + left. by rewrite Heq, lookup_insert_ne.
  - destruct (decide (id = i)) as [->|Hne].
    + by rewrite lookup_insert_eq in Hn.
    + rewrite lookup_insert_ne in Hn by done. right. eauto.
Qed.

(** What a statement does to the status of every row. *)
Definition status_effect (o : inv_op) (b : bool) (d d' : DB) : Prop :=
  match o with
  | OpHold _ j _ _ _ =>
      if b then status_of d j = Some InventoryStatusAvailable /\ status_of d' j = Some InventoryStatusHeld
                /\ forall i, i <> j -> status_of d' i = status_of d i
      else forall i, status_of d' i = status_of d i
  | OpRelease _ j _ =>
      if b then status_of d j = Some InventoryStatusHeld /\ status_of d' j = Some InventoryStatusAvailable
                /\ forall i, i <> j -> status_of d' i = status_of d i
      else forall i, status_of d' i = status_of d i
  | OpConfirmSale _ j _ =>
      if b then status_of d j = Some InventoryStatusHeld /\ status_of d' j = Some InventoryStatusSold
                /\ forall i, i <> j -> status_of d' i = status_of d i
      else forall i, status_of d' i = status_of d i
  | OpVoid _ j =>
      if b then is_Some (status_of d j) /\ status_of d' j = Some InventoryStatusVoid
                /\ forall i, i <> j -> status_of d' i = status_of d i
      else forall i, status_of d' i = status_of d i
  | OpBulkCreate _ =>
      forall i, status_of d' i = status_of d i \/
        (status_of d i = None /\ status_of d' i = Some InventoryStatusAvailable)
  end.

Lemma status_of_insert i j r d x a :
  status_of (set_inventory (<[i := r]> (inventory d)) x a) j = if decide (i = j) then Some (inv_Status r) else status_of d j.
Proof.
  unfold status_of. simpl. destruct (decide (i = j)) as [->|Hne].
  - by rewrite lookup_insert_eq.
  - by rewrite lookup_insert_ne.
Qed.

Lemma update_status id cond upd now d b d' st (P : option InventoryStatus -> Prop) :
  (match update_inventory id cond upd now d with Ok (n, d2) => ((n =? 1)%Z, d2) | Err _ => (false, d) end) = (b, d') ->
  (forall t r, inv_Status (upd t r) = st) ->
  (forall r, cond r = true -> P (Some (inv_Status r))) ->
  if b then P (status_of d id) /\ status_of d' id = Some st /\ (forall i, i <> id -> status_of d' i = status_of d i)
  else forall i, status_of d' i = status_of d i.
Proof.
  intros H Hst HP. destruct (update_inventory id cond upd now d) as [[n d2]|e] eqn:Hu; [|by simplify_eq].
  apply update_inventory_inv in Hu as [[-> ->]|(-> & r & Hr & Hc & _ & ->)]; simplify_eq/=; [done|].
  split_and!.
  - unfold status_of. rewrite Hr. by apply HP.
  - rewrite status_of_insert. by rewrite decide_True, Hst.
  - intros i Hi. rewrite status_of_insert. by rewrite decide_False.
Qed.

Lemma exec_op_status now o d b d' : exec_op now o d = (b, d') -> status_effect o b d d'.
Proof.
  unfold exec_op. destruct o as [t i k u e|t i k|t i k|t i|rows]; simpl; intros H.
  - eapply (update_status _ _ _ _ _ _ _ _ (fun s => s = Some InventoryStatusAvailable)) in H; [done|done|].
    intros r [_ Hr]%andb_true_iff. by apply bool_decide_eq_true in Hr as ->.
  - eapply (update_status _ _ _ _ _ _ _ _ (fun s => s = Some InventoryStatusHeld)) in H; [done|done|].
    intros r [[_ Hr]%andb_true_iff _]%andb_true_iff. by apply bool_decide_eq_true in Hr as ->.
  - eapply (update_status _ _ _ _ _ _ _ _ (fun s => s = Some InventoryStatusHeld)) in H; [done|done|].
    intros r [[_ Hr]%andb_true_iff _]%andb_true_iff. by apply bool_decide_eq_true in Hr as ->.
  - eapply (update_status _ _ _ _ _ _ _ _ is_Some) in H; [done|done|]. intros; by eexists.
  - intros i. destruct (bulk_stmt rows now d) as [[u d2]|] eqn:Hb; simplify_eq/=; [|by left].
    apply bulk_stmt_inv with (i := i) in Hb. unfold status_of.
    destruct Hb as [->|(-> & r & -> & _ & Hst & _)]; [by left|right; simpl; by rewrite Hst].
Qed.

(** ** Histories *)

Definition held_now (d : DB) (i : UUID) : nat :=
  if decide (status_of d i = Some InventoryStatusHeld) then 1 else 0.

Lemma consumed_exec now o d b d' i :
  consumed d i -> exec_op now o d = (b, d') -> consumed d' i /\ b && sells i o = false /\ b && holds i o = false.
Proof.
  intros Hc H%exec_op_status. unfold consumed in *.
  destruct o as [t j k u e|t j k|t j k|t j|rows]; simpl in *.
  5: { rewrite !andb_false_r. destruct (H i) as [->|[E _]]; [done|]. rewrite E in Hc. naive_solver. }
  all: destruct b; simpl; [|by rewrite H].
  all: destruct H as (H1 & H2 & H3); destruct (N.eqb_spec j i) as [->|Hne];
    [rewrite H2|by rewrite H3 by congruence].
  all: try rewrite H1 in Hc; naive_solver.
Qed.

Lemma consumed_no_sale ops d i : consumed d i -> wins (sells i) ops d = 0%nat /\ wins (holds i) ops d = 0%nat.
Proof.
  revert d. induction ops as [|[now o] ops IH]; intros d Hc; simpl; [done|].
  destruct (exec_op now o d) as [b d1] eqn:He.
  destruct (consumed_exec _ _ _ _ _ _ Hc He) as (Hc1 & Hs & Hh).
  rewrite Hs, Hh. by apply IH.
Qed.

Lemma consumed_run ops d i : consumed d i -> consumed (run_ops ops d).2 i.
Proof.
  revert d. induction ops as [|[now o] ops IH]; intros d Hc; simpl; [done|].
  destruct (exec_op now o d) as [b d1] eqn:He.
  destruct (consumed_exec _ _ _ _ _ _ Hc He) as (Hc1 & _).
  specialize (IH d1 Hc1). by destruct (run_ops ops d1).
Qed.

Lemma sell_consumes now o d d' i :
  exec_op now o d = (true, d') -> sells i o = true -> consumed d' i.
Proof.
  intros H%exec_op_status Hs. destruct o; try done. simpl in *.
  apply N.eqb_eq in Hs as ->. left. naive_solver.
Qed.

(** One statement's contribution to the hold ledger of a row. *)
Lemma exec_ledger now o d b d' i :
  exec_op now o d = (b, d') ->
  let c (p : inv_op -> bool) : nat := if b && p o then 1 else 0 in
  (c (releases i) + c (sells i) + held_now d' i <= c (holds i) + held_now d i)%nat /\
  (c (holds i) + held_now d i <= c (releases i) + c (sells i) + c (voids i) + held_now d' i)%nat.
Proof.
  intros H%exec_op_status. unfold held_now. simpl.
  destruct o as [t j k u e|t j k|t j k|t j|rows]; simpl in *.
  5: { specialize (H i). rewrite !andb_false_r. destruct H as [->|[-> ->]]; repeat case_decide; naive_solver lia. }
  all: destruct b; simpl; [|rewrite H; lia].
  all: destruct H as (H1 & H2 & H3); destruct (N.eqb_spec j i) as [->|Hne];
    [rewrite H2|rewrite H3 by congruence; lia].
  all: try rewrite H1; repeat case_decide; naive_solver lia.
Qed.

(** ** Well-formedness and the audit trail of a statement *)

Lemma replay_app s l1 l2 :
  replay s (l1 ++ l2) = match replay s l1 with Some s' => replay s' l2 | None => None end.
Proof.
  revert s. induction l1 as [|a l1 IH]; intros s; simpl; [done|]. by destruct (_ && _).
Qed.

Lemma audit_of_app i l1 l2 : audit_of i (l1 ++ l2) = audit_of i l1 ++ audit_of i l2.
Proof. apply filter_app. Qed.

(** Once sold, a trail can only continue to 'void'. *)
Lemma replay_sold_once s l s' :
  replay s l = Some s' ->
  (length (filter (fun a => a_New a = InventoryStatusSold) l) <=
     if decide (s = Some InventoryStatusSold \/ s = Some InventoryStatusVoid) then 0 else 1)%nat.
Proof.
  revert s. induction l as [|a l IH]; intros s H; simpl in *; [lia|].
  destruct (bool_decide _ && allowed s (a_New a)) eqn:E; [|done].
  apply andb_true_iff in E as [_ Ha]. specialize (IH _ H).
  rewrite filter_cons. destruct (a_New a) eqn:Hn, s as [[]|]; try done;
    repeat case_decide; simpl; naive_solver lia.
Qed.

(** One row changes its state, seen by the invariants. *)
Lemma unit_step id r r' now d :
  inventory_wf d -> inventory d !! id = Some r -> inv_ID r' = inv_ID r -> inventory_check r' = true ->
  inv_Status r = inv_Status r' \/ allowed (Some (inv_Status r)) (inv_Status r') = true ->
  let d' := set_inventory (<[id := r']> (inventory d)) (audit_log d ++ log_inventory_status_change now (Some r) r') d in
  inventory_wf d' /\ forall i, audit_explains d i -> audit_explains d' i.
Proof.
  intros Hwf Hr Hid' Hchk Hal. destruct (Hwf _ _ Hr) as [Hid _]. split.
  - intros i x Hx. simpl in Hx. apply lookup_insert_Some in Hx as [[<- <-]|[_ Hx]]; [split; [congruence|done]|eauto].
  - intros i Hi. unfold audit_explains. rewrite status_of_insert. simpl.
    rewrite audit_of_app, replay_app, Hi. unfold log_inventory_status_change, audit_of. simpl.
    assert (Hs : status_of d id = Some (inv_Status r)) by (unfold status_of; by rewrite Hr).
    rewrite Hid', Hid. repeat case_decide; subst; simpl; rewrite ?filter_cons; simpl;
      repeat case_decide; subst; simpl; try congruence.
    rewrite Hs, bool_decide_true by done. cbn [andb].
    destruct Hal as [Heq|Ha]; [congruence|by rewrite Ha].
Qed.

Lemma set_hold_step id cond st tok u e now d n d' :
  inventory_wf d ->
  update_inventory id cond (set_hold st tok u e) now d = Ok (n, d') ->
  (forall r, cond r = true -> inv_Status r = st \/ allowed (Some (inv_Status r)) st = true) ->
  inventory_wf d' /\ forall i, audit_explains d i -> audit_explains d' i.
Proof.
  intros Hwf [[-> ->]|(-> & r & Hr & Hc & Hchk & ->)]%update_inventory_inv Hal; [done|].
  apply (unit_step id r); [done..|by apply Hal].
Qed.

Lemma insert_step r now d d' u :
  inventory_wf d -> insert_inventory r now d = Ok (u, d') -> inv_Status r = InventoryStatusAvailable ->
  inventory_wf d' /\ forall i, audit_explains d i -> audit_explains d' i.
Proof.
  intros Hwf (Hnone & Hchk & ->)%insert_inventory_inv Hst. split.
  - intros i r' Hr'. simpl in Hr'. apply lookup_insert_Some in Hr' as [[<- <-]|[_ Hr']]; eauto.
  - intros i Hi. unfold audit_explains. rewrite status_of_insert. simpl.
    rewrite audit_of_app, replay_app, Hi. unfold audit_of. rewrite filter_cons, filter_nil. simpl.
    destruct (decide (inv_ID r = i)) as [<-|Hd]; simpl; [|done].
    unfold status_of. rewrite Hnone. simpl. by rewrite Hst.
Qed.

Lemma exec_step now o d b d' :
  inventory_wf d -> exec_op now o d = (b, d') ->
  inventory_wf d' /\ forall i, audit_explains d i -> audit_explains d' i.
Proof.
  intros Hwf H. unfold exec_op in H.
  destruct (op_stmt o now d) as [[n d2]|] eqn:Hs; simplify_eq/=; [|done].
  destruct o as [t i k u e|t i k|t i k|t i|rows]; simpl in Hs.
  - eapply set_hold_step in Hs; eauto. intros r [_ Hr%bool_decide_eq_true]%andb_true_iff. rewrite Hr. by right.
  - eapply set_hold_step in Hs; eauto.
    intros r [[_ Hr%bool_decide_eq_true]%andb_true_iff _]%andb_true_iff. rewrite Hr. by right.
  - eapply set_hold_step in Hs; eauto.
    intros r [[_ Hr%bool_decide_eq_true]%andb_true_iff _]%andb_true_iff. rewrite Hr. by right.
  - eapply set_hold_step in Hs; eauto. intros r _. destruct (inv_Status r); auto.
  - destruct (bulk_stmt rows now d) as [[[] d3]|] eqn:Hb; simplify_eq/=.
    revert d Hwf Hb. induction rows as [|[id row] rows IH]; intros d Hwf Hb; simpl in Hb; [by simplify_eq|].
    destruct (insert_inventory _ now d) as [[[] d1]|] eqn:Hins; [|done].
    eapply insert_step in Hins as [Hwf1 Ha1]; [|done|done].
    destruct (IH _ Hwf1 Hb) as [Hwf2 Ha2]. eauto.
Qed.

Lemma run_step ops d :
  inventory_wf d ->
  inventory_wf (run_ops ops d).2 /\ forall i, audit_explains d i -> audit_explains (run_ops ops d).2 i.
Proof.
  revert d. induction ops as [|[now o] ops IH]; intros d Hwf; simpl; [done|].
  destruct (exec_op now o d) as [b d1] eqn:He.
  destruct (exec_step _ _ _ _ _ Hwf He) as [Hwf1 Ha1].
  destruct (IH d1 Hwf1) as [Hwf2 Ha2]. destruct (run_ops ops d1); simpl in *. eauto.
Qed.

(** ** Sorting, limits and grouping *)

Lemma take_sorted_min {R} (key : R -> Z) n (l : list R) x y :
  StronglySorted (by_key key) l -> x ∈ take n l -> y ∈ drop n l -> (key x <= key y)%Z.
Proof.
  intros Hs Hx Hy. rewrite <- (take_drop n l) in Hs.
  revert Hs Hx. generalize (take n l). intros l1. induction l1 as [|z l1 IH]; intros Hs Hx; [by apply not_elem_of_nil in Hx|].
  simpl in Hs. apply StronglySorted_inv in Hs as [Hs Hz].
  apply elem_of_cons in Hx as [->|Hx]; [|by auto].
  rewrite Forall_forall in Hz. apply (Hz y), elem_of_app. by right.
Qed.

Definition count_of (tenantID eventID cat : UUID) (st : InventoryStatus) (d : DB) : Z :=
  Z.of_nat (length (filter (fun r => count_key r = (cat, st)) (count_rows tenantID eventID d))).

Definition field_of (st : InventoryStatus) (c : InventoryCounts) : Z :=
  match st with
  | InventoryStatusAvailable => c_Available c
  | InventoryStatusHeld => c_Held c
  | InventoryStatusSold => c_Sold c
  | InventoryStatusVoid => c_Void c
  end.

Lemma add_count_field cat st res g :
  field_of st (default (mkCounts 0 0 0 0) (add_count res g !! cat)) =
  if decide (g.1 = (cat, st)) then g.2 else field_of st (default (mkCounts 0 0 0 0) (res !! cat)).
Proof.
  destruct g as [[cat' st'] n]. simpl. destruct (decide (cat' = cat)) as [->|Hne].
  - rewrite lookup_insert_eq. destruct st, st'; simpl; case_decide; naive_solver.
  - rewrite lookup_insert_ne by done. by rewrite decide_False by naive_solver.
Qed.

Lemma foldl_add_count cat st gs res :
  NoDup gs.*1 ->
  field_of st (default (mkCounts 0 0 0 0) (foldl add_count res gs !! cat)) =
  match list_find (fun g => g.1 = (cat, st)) gs with
  | Some (_, g) => g.2
  | None => field_of st (default (mkCounts 0 0 0 0) (res !! cat))
  end.
Proof.
  revert res. induction gs as [|g gs IH]; intros res Hnd; simpl; [done|].
  apply NoDup_cons in Hnd as [Hg Hnd]. rewrite (IH _ Hnd), add_count_field.
  case_decide as Hd.
  - destruct (list_find _ gs) as [[j g']|] eqn:Hf; simpl; [|done].
    apply list_find_Some in Hf as (Hl & Hp & _). destruct Hg. rewrite Hd, <- Hp.
    apply list_elem_of_fmap_2. by eapply list_elem_of_lookup_2.
  - by destruct (list_find _ gs) as [[]|].
Qed.

Lemma count_field rows cat st :
  field_of st (default (mkCounts 0 0 0 0) (foldl add_count ∅ (group_counts rows) !! cat)) =
  Z.of_nat (length (filter (fun r => count_key r = (cat, st)) rows)).
Proof.
  unfold group_counts. rewrite foldl_add_count.
  2: { rewrite <- list_fmap_compose. apply NoDup_fmap_2; [by intros ??|apply NoDup_remove_dups]. }
  destruct (list_find _ _) as [[j g]|] eqn:Hf.
  - apply list_find_Some in Hf as (Hl & Hp & _).
    apply list_lookup_fmap_Some in Hl as (k & -> & Hk). simpl in *. by subst.
  - apply list_find_None in Hf. rewrite lookup_empty. simpl.
    replace (filter _ rows) with (@nil EventSeatInventory); [by destruct st|].
    symmetry. apply filter_none. intros r Hr Hk.
    rewrite Forall_fmap, Forall_forall in Hf. apply (Hf (cat, st)); [|done].
    apply elem_of_remove_dups. rewrite <- Hk. by apply list_elem_of_fmap_2.
Qed.

(** ** Properties *)

(** C1: no seat is ever sold twice. In any history of statements issued by
    any number of concurrent sessions, from any database, at most one
    ConfirmSale of a given inventory row succeeds. *)
Theorem no_double_sale ops d i : (wins (sells i) ops d <= 1)%nat.
Proof.
  revert d. induction ops as [|[now o] ops IH]; intros d; simpl; [lia|].
  destruct (exec_op now o d) as [b d1] eqn:He. destruct (b && sells i o) eqn:Hb; [|apply IH].
  apply andb_true_iff in Hb as [-> Hs].
  rewrite (proj1 (consumed_no_sale ops d1 i (sell_consumes _ _ _ _ _ He Hs))). lia.
Qed.

(** The hold ledger. Over any history, every successful release or sale of
    a row is paid for by a successful hold (or the hold it started with), and
    a hold can only end by a release, a sale or an administrative void; so two
    fans never hold one row at the same time. *)
Theorem hold_ledger ops d i :
  let d' := (run_ops ops d).2 in
  (wins (releases i) ops d + wins (sells i) ops d + held_now d' i
     <= wins (holds i) ops d + held_now d i)%nat /\
  (wins (holds i) ops d + held_now d i
     <= wins (releases i) ops d + wins (sells i) ops d + wins (voids i) ops d + held_now d' i)%nat.
Proof.
  revert d. induction ops as [|[now o] ops IH]; intros d; simpl; [lia|].
  destruct (exec_op now o d) as [b d1] eqn:He.
  pose proof (exec_ledger _ _ _ _ _ i He) as Hl. specialize (IH d1). simpl in Hl, IH.
  destruct (run_ops ops d1) as [bs d2]. simpl in *. lia.
Qed.

(** the audit log written by the trigger is a faithful account. If it
    explains the table at the start, then after any history of statements the
    entries of each row still replay through the life cycle to the row's
    current status, and record at most one sale of it. *)
Theorem audit_trail_explains ops d :
  inventory_wf d -> (forall i, audit_explains d i) ->
  forall i, audit_explains (run_ops ops d).2 i /\
    (length (filter (fun a => a_New a = InventoryStatusSold) (audit_of i (audit_log (run_ops ops d).2))) <= 1)%nat.
Proof.
  intros Hwf Ha i. pose proof (proj2 (run_step ops d Hwf) i (Ha i)) as He. split; [done|].
  apply replay_sold_once in He. by rewrite decide_False in He by naive_solver.
Qed.

Lemma fx_inventory_wf : inventory_wf fx_db.
Proof.
  intros i r. simpl. unfold fx_inventory. rewrite !lookup_insert_Some.
  intros [[<- <-]|[_ [[<- <-]|[_ [[<- <-]|[_ [[<- <-]|[_ H]]]]]]]]; try done.
Defined.

Lemma fx_audit_explains : forall i, audit_explains fx_db i.
Proof.
  intros i. destruct (decide (i = 100%N \/ i = 101%N \/ i = 102%N \/ i = 103%N)) as [H|H].
  - naive_solver.
  - unfold audit_explains, status_of. cbn [fx_db audit_log inventory].
    replace (fx_inventory !! i) with (@None EventSeatInventory).
    + unfold audit_of. rewrite filter_none; [done|]. intros a Ha Hi.
      unfold fx_audit in Ha. rewrite !elem_of_cons, elem_of_nil in Ha. naive_solver.
    + symmetry. unfold fx_inventory. rewrite !lookup_insert_ne by naive_solver. apply lookup_empty.
Defined.

Definition fx_history : list (Time * inv_op) :=
  [(10%Z, OpHold 1 100 600 11 2000); (20%Z, OpHold 1 100 601 12 2000); (30%Z, OpConfirmSale 1 100 600);
   (40%Z, OpConfirmSale 1 100 600); (50%Z, OpRelease 1 101 500); (60%Z, OpVoid 1 102)].

Lemma audit_trail_explains_witness :
  (run_ops fx_history fx_db).1 = [true; false; true; false; true; true] /\
  audit_explains (run_ops fx_history fx_db).2 100.
Proof.
  split; [vm_compute; reflexivity|].
  exact (proj1 (audit_trail_explains fx_history fx_db fx_inventory_wf fx_audit_explains 100)).
Defined.

(** C37: no statement the program issues can violate the table's CHECK
    constraint, and every history keeps the rows well formed: held rows carry a
    token and a deadline, all others carry no hold data. *)
Theorem inventory_check_maintained ops d :
  inventory_wf d ->
  inventory_wf (run_ops ops d).2 /\
  forall now o, op_stmt o now (run_ops ops d).2 <> Err (EPg pgCodeCheckViolation).
Proof.
  intros Hwf. split; [apply run_step, Hwf|].
  intros now o. generalize (run_ops ops d).2. clear. intros d.
  assert (Hupd : forall id cond st tok u e, inventory_check (set_hold st tok u e now (fx_unit 0 st None None None)) = true ->
    update_inventory id cond (set_hold st tok u e) now d <> Err (EPg pgCodeCheckViolation)).
  { intros id cond st tok u e Hc. unfold update_inventory. destruct (inventory d !! id) as [r|]; [|done].
    destruct (cond r); simpl; [|done]. replace (inventory_check (set_hold st tok u e now r)) with true by done.
    simpl. by destruct (holder_fk _ d). }
  destruct o as [t i k u e|t i k|t i k|t i|rows]; simpl; try (by apply Hupd).
  clear Hupd. revert d. induction rows as [|[id row] rows IH]; intros d; simpl; [done|].
  unfold insert_inventory. cbn [inventory_check available_row negb inv_Status inv_HoldToken inv_HoldExpiresAt inv_HeldByUserID].
  destruct (_ || _); [done|]. destruct (negb _); [done|].
  match goal with |- context [bulk_stmt rows now ?x] =>
    specialize (IH x); destruct (bulk_stmt rows now x) as [[]|] end; done.
Qed.

Lemma inventory_check_maintained_witness : inventory_wf (run_ops fx_history fx_db).2.
Proof. exact (proj1 (inventory_check_maintained fx_history fx_db fx_inventory_wf)). Defined.

(** The tenant a statement acts for; a batch names the tenant of each row. *)
Definition op_tenants (o : inv_op) : list UUID :=
  match o with
  | OpHold t _ _ _ _ | OpRelease t _ _ | OpConfirmSale t _ _ | OpVoid t _ => [t]
  | OpBulkCreate rows => (fun x => inv_TenantID x.2) <$> rows
  end.

Lemma update_tenant id cond upd now d n d' t i r :
  update_inventory id cond upd now d = Ok (n, d') ->
  (forall r, cond r = true -> inv_TenantID r = t) ->
  inventory d !! i = Some r -> inv_TenantID r <> t -> inventory d' !! i = Some r.
Proof.
  intros [[-> ->]|(-> & r0 & Hr0 & Hc & _ & ->)]%update_inventory_inv Ht Hr Hne; [done|].
  simpl. destruct (decide (id = i)) as [->|]; [|by rewrite lookup_insert_ne].
  simplify_eq. by apply Ht in Hc.
Qed.

(** Tenant isolation. A statement issued for one club leaves every
    inventory row of every other club exactly as it was. *)
Theorem inventory_tenant_isolation now o d b d' i r :
  exec_op now o d = (b, d') -> inventory d !! i = Some r -> inv_TenantID r ∉ op_tenants o ->
  inventory d' !! i = Some r.
Proof.
  unfold exec_op. intros H Hr Ht.
  destruct (op_stmt o now d) as [[n d2]|] eqn:Hs; simplify_eq/=; [|done].
  destruct o as [t j k u e|t j k|t j k|t j|rows]; simpl in *.
  5: { destruct (bulk_stmt rows now d) as [[u d3]|] eqn:Hb; simplify_eq/=.
       apply bulk_stmt_inv with (i := i) in Hb as [->|[Hn _]]; [done|congruence]. }
  all: assert (Hne : inv_TenantID r <> t) by set_solver.
  all: eapply (update_tenant _ _ _ _ _ _ _ t); [exact Hs| |exact Hr|exact Hne].
  all: intros r0; unfold token_matches; rewrite ?andb_true_iff, N.eqb_eq; naive_solver.
Qed.

Lemma inventory_tenant_isolation_witness :
  inventory (exec_op 7 (OpVoid 2 101) fx_db).2 !! 101%N
  = Some (fx_unit 101 InventoryStatusHeld (Some 500%N) (Some 11%N) (Some 5000000%Z)).
Proof.
  eapply (inventory_tenant_isolation 7 (OpVoid 2 101) fx_db); [reflexivity|reflexivity|].
  simpl. rewrite elem_of_cons, elem_of_nil. naive_solver.
Defined.

Section repo_spec.
Context `{E : Env}.

(** ListExpiredHolds returns only held rows past their deadline, at most
    [limit] of them, in order of deadline, and misses an expired row only when
    the limit is reached by rows that expired no later. *)
Theorem ListExpiredHolds_spec before lim w l w' :
  ListExpiredHolds before lim w = (Ok l, w') ->
  let d := w_db (interact w) in
  (forall r, r ∈ l -> expired_at before r = true /\ exists i, inventory d !! i = Some r) /\
  (Z.of_nat (length l) <= lim)%Z /\ StronglySorted (by_key expiry_key) l /\
  (forall i r, inventory d !! i = Some r -> expired_at before r = true ->
     r ∈ l \/ (Z.of_nat (length l) = lim /\ forall r', r' ∈ l -> (expiry_key r' <= expiry_key r)%Z)).
Proof.
  intros (d1 & Hs & ->)%wrap_Ok%exec_Ok. simpl. unfold list_expired_stmt in Hs.
  destruct (Z.ltb_spec lim 0); [done|]. injection Hs as <- <-.
  set (d := w_db (interact w)). set (all := rows_where _ _). unfold limit.
  pose proof (order_by_sorted expiry_key all) as Hsort. split_and!.
  - intros r Hr%elem_of_limit. by rewrite elem_of_order_by in Hr; apply elem_of_rows_where in Hr.
  - rewrite length_take. lia.
  - rewrite <- (take_drop (Z.to_nat lim) (order_by expiry_key all)) in Hsort.
    by eapply StronglySorted_app_1_l.
  - intros i r Hr He.
    assert (Hin : r ∈ order_by expiry_key all) by (apply elem_of_order_by, elem_of_rows_where; eauto).
    rewrite <- (take_drop (Z.to_nat lim) (order_by _ _)), elem_of_app in Hin.
    destruct Hin as [Hin|Hin]; [by left|right]. split; [|eauto using take_sorted_min].
    rewrite length_take. apply list_elem_of_lookup_1 in Hin as [j Hj].
    apply lookup_lt_Some in Hj. rewrite length_drop in Hj. lia.
Qed.

(** C38: CountByStatus is exact: for every category, each field of the returned
    counts is the number of units of the event in that state, and a category
    missing from the map has none. *)
Theorem CountByStatus_exact tenantID eventID w counts w' :
  CountByStatus tenantID eventID w = (Ok counts, w') ->
  forall cat st, field_of st (default (mkCounts 0 0 0 0) (counts !! cat))
                 = count_of tenantID eventID cat st (w_db (interact w)).
Proof.
  intros (gs & w1 & (d1 & Hs & ->)%wrap_Ok%exec_Ok & Hr)%bind_Ok cat st.
  injection Hs as <- <-. injection Hr as <- <-. apply count_field.
Qed.

End repo_spec.

Lemma ListExpiredHolds_spec_witness :
  (Z.of_nat (length [fx_unit 103 InventoryStatusHeld (Some 501%N) (Some 12%N) (Some 900%Z)]) <= 10)%Z.
Proof.
  assert (H : fst (ListExpiredHolds 1000 10 (fx_world fx_db))
    = Ok [fx_unit 103 InventoryStatusHeld (Some 501%N) (Some 12%N) (Some 900%Z)]) by (vm_compute; reflexivity).
  exact (proj1 (proj2 (ListExpiredHolds_spec 1000 10 _ _ _ (run_Ok _ _ H)))).
Defined.

Lemma CountByStatus_exact_witness : count_of 1 20 30 InventoryStatusHeld fx_db = 2%Z.
Proof.
  assert (H : fst (CountByStatus 1 20 (fx_world fx_db)) = Ok {[ 30%N := mkCounts 1 2 1 0 ]})
    by (vm_compute; reflexivity).
  exact (eq_sym (CountByStatus_exact 1 20 (fx_world fx_db) _ _ (run_Ok _ _ H) 30%N InventoryStatusHeld)).
Defined.
