(* ===== verification/RedisRepo.v ===== *)
(** * The Redis layer ([src/internal/repository/redis])

    The distributed lock, the fixed-window rate limiter and the virtual
    waiting room, over the Redis commands of [Redis].  Each command sent
    is one interaction; the unlock script and a pipeline are one
    interaction each. *)
From S2P Require Import Prelude Domain Schema Redis Runtime Ports Fixtures.

(** ** Commands *)

(** Conversion of an int64 to float64: 53 significant bits, ties to even. *)
Definition float64_of_int (z : Z) : Z :=
  let e := (Z.log2 (Z.abs z) - 52)%Z in
  if (e <=? 0)%Z then z
  else
    let q := (z / 2 ^ e)%Z in
    let r := (z mod 2 ^ e)%Z in
    let half := (2 ^ (e - 1))%Z in
    let up := (half <? r)%Z || ((r =? half)%Z && Z.odd q) in
    ((if up then q + 1 else q) * 2 ^ e)%Z.

(** [unlockScript]: delete the key if it still holds the caller's token. *)
Definition unlockScript `{RedisServer} (key token : string) (t : Time) (s : rstate) : Z * rstate :=
  match r_get t key s with
  | Some v => if String.eqb v token then r_del t key s else (0%Z, s)
  | None => (0%Z, s)
  end.

Section keys.
Context `{UuidPkg}.
Definition queueKey (eventID : UUID) : string := "waitingroom:queue:" +:+ uuid_String eventID.
Definition seqKey (eventID : UUID) : string := "waitingroom:seq:" +:+ uuid_String eventID.
Definition admittedKey (eventID userID : UUID) : string :=
  "waitingroom:admitted:" +:+ uuid_String eventID +:+ ":" +:+ uuid_String userID.
End keys.

Section redisrepo.
Context `{U : UuidPkg} `{E : Env}.

(** ** Locker *)

Definition Acquire (key : string) (ttl : Duration) : M (string * bool) :=
  u <- uuid_New;;
  let token := uuid_String u in
  ok <- wrap "redis: acquire lock" (redis (fun t s => Some (r_setnx t key token ttl s)));;
  ret (token, ok).

Definition Unlock (key token : string) : M bool :=
  res <- wrap "redis: release lock" (redis (fun t s => Some (unlockScript key token t s)));;
  ret (res =? 1)%Z.

(** ** RateLimiter *)

Definition Allow (key : string) (limit : Z) (window : Duration) : M bool :=
  count <- wrap "redis: rate limit incr" (redis (fun t s => r_incr t key s));;
  (if (count =? 1)%Z
   then wrap "redis: rate limit expire" (redis (fun t s => Some (tt, r_expire t key window s)))
   else ret tt);;;
  ret (count <=? limit)%Z.

(** ** WaitingRoom *)

Definition Position (eventID userID : UUID) : M Z :=
  rank <- wrap "redis: waiting room position"
            (redis (fun t s => (fun r => (r, s)) <$> r_zrank t (queueKey eventID) (uuid_String userID) s));;
  match rank with
  | None => throw (ESentinel (SRedis ErrNotQueued))
  | Some r => ret (r + 1)%Z
  end.

Definition Join (eventID userID : UUID) : M Z :=
  seq <- wrap "redis: waiting room join (seq)" (redis (fun t s => r_incr t (seqKey eventID) s));;
  wrap "redis: waiting room join (zadd)"
    (redis (fun t s => (fun s' => (tt, s'))
              <$> r_zaddnx t (queueKey eventID) (uuid_String userID) (float64_of_int seq) s));;;
  Position eventID userID.

Definition QueueLength (eventID : UUID) : M Z :=
  wrap "redis: waiting room length" (redis (fun t s => (fun n => (n, s)) <$> r_zcard t (queueKey eventID) s)).

(** The members that parse, in order; malformed ones are skipped. *)
Definition parse_members (popped : list (string * Z)) : list UUID :=
  omap (fun z => uuid_Parse z.1) popped.

(** The SETs queued on the pipeline, run in order. *)
Fixpoint set_admitted (eventID : UUID) (ttl : Duration) (ids : list UUID) (t : Time) (s : rstate) : rstate :=
  match ids with
  | [] => s
  | id :: rest => set_admitted eventID ttl rest t (r_set t (admittedKey eventID id) "1" ttl s)
  end.

(** [pipe.Exec]: nothing is sent when nothing was queued. *)
Definition mark_admitted (eventID : UUID) (ttl : Duration) (ids : list UUID) : M unit :=
  match ids with
  | [] => ret tt
  | _ => wrap "redis: waiting room admit (mark)"
           (redis (fun t s => Some (tt, set_admitted eventID ttl ids t s)))
  end.

Definition Admit (eventID : UUID) (count : Z) (admissionTTL : Duration) : M (list UUID) :=
  if (count <=? 0)%Z then ret []
  else
    popped <- wrap "redis: waiting room admit (pop)"
                (redis (fun t s => r_zpopmin t (queueKey eventID) count s));;
    match popped with
    | [] => ret []
    | _ =>
        let admitted := parse_members popped in
        mark_admitted eventID admissionTTL admitted;;;
        ret admitted
    end.

Definition IsAdmitted (eventID userID : UUID) : M bool :=
  n <- wrap "redis: waiting room check admission"
         (redis (fun t s => Some (r_exists t (admittedKey eventID userID) s, s)));;
  ret (n =? 1)%Z.

#[global] Instance Locker : locker := {| lk_Acquire := Acquire; lk_Release := Unlock |}.
#[global] Instance RateLimiter : rateLimiter := {| rl_Allow := Allow |}.
#[global] Instance WaitingRoom : waitingRoom := {|
  wr_Join := Join; wr_Position := Position; wr_IsAdmitted := IsAdmitted;
  wr_Admit := Admit; wr_QueueLength := QueueLength |}.

(** ** The Redis layer never touches the database *)

#[global] Instance Locker_contract : LockerContract Locker.
Proof. split; intros ** G HG rely; simpl; unfold Acquire, Unlock; upholds_steps. Qed.
#[global] Instance RateLimiter_contract : RateLimiterContract RateLimiter.
Proof. split; intros ** G HG rely; simpl; unfold Allow; upholds_steps. Qed.
#[global] Instance WaitingRoom_contract : WaitingRoomContract WaitingRoom.
Proof.
  split; intros ** G HG rely; simpl;
    unfold Join, Position, IsAdmitted, Admit, QueueLength, mark_admitted; upholds_steps.
Qed.

End redisrepo.

(** ** Key formats *)

Section key_facts.
Context `{U : UuidPkg, !UuidLaws U}.

Lemma queueKey_inj e e' : queueKey e = queueKey e' -> e = e'.
Proof. intros H%string_app_inj_l. by apply uuid_String_inj. Qed.
Lemma seqKey_inj e e' : seqKey e = seqKey e' -> e = e'.
Proof. intros H%string_app_inj_l. by apply uuid_String_inj. Qed.
Lemma admittedKey_inj e u e' u' : admittedKey e u = admittedKey e' u' -> e = e' /\ u = u'.
Proof.
  intros H%string_app_inj_l.
  apply sep_app_inj in H as [He Hu]; [|apply uuid_String_no_colon..].
  split; apply uuid_String_inj; [done|]. exact Hu.
Qed.
Lemma queueKey_seqKey e e' : queueKey e <> seqKey e'.
Proof. done. Qed.
Lemma queueKey_admittedKey e e' u : queueKey e <> admittedKey e' u.
Proof. done. Qed.
Lemma seqKey_admittedKey e e' u : seqKey e <> admittedKey e' u.
Proof. done. Qed.
End key_facts.

(** ** Histories of calls *)

(** Calls one after the other, with their answers. *)
Fixpoint answers `{RedisServer} {A B} (f : A -> M B) (calls : list A) (w : World) : list (result B) * World :=
  match calls with
  | [] => ([], w)
  | x :: rest => let '(r, w1) := f x w in let '(rs, w2) := answers f rest w1 in (r :: rs, w2)
  end.

Section histories.
Context `{R : RedisServer}.

(** ** Reading a key after a command *)

Context `{!RedisLaws R}.

Lemma only_later t k x s s' t' k' :
  r_only t k x s s' -> (t <= t')%Z ->
  r_lookup t' k' s' = live t' (if String.eqb k' k then x else r_lookup t k' s).
Proof. intros Ho Ht. by rewrite (r_time t t' k' s' Ht), Ho. Qed.

Lemma lookup_forever t t' k s v :
  r_lookup t k s = Some (v, None) -> (t <= t')%Z -> r_lookup t' k s = Some (v, None).
Proof. intros Hl Ht. by rewrite (r_time t t' k s Ht), Hl. Qed.

Lemma lookup_gone t t' k s : r_lookup t k s = None -> (t <= t')%Z -> r_lookup t' k s = None.
Proof. intros Hl Ht. by rewrite (r_time t t' k s Ht), Hl. Qed.

Lemma lookup_until t t' k s v d :
  r_lookup t k s = Some (v, Some d) -> (t <= t' < d)%Z -> r_lookup t' k s = Some (v, Some d).
Proof.
  intros Hl [Ht Hd]. rewrite (r_time t t' k s Ht), Hl. simpl.
  by rewrite (proj2 (Z.ltb_lt _ _) Hd).
Qed.

Lemma unlock_stranger key tok tok' t s d :
  r_lookup t key s = Some (RStr tok, d) -> tok' <> tok -> unlockScript key tok' t s = (0%Z, s).
Proof.
  intros Hl Hne. unfold unlockScript. destruct (r_get t key s) as [v|] eqn:Hg; [|done].
  apply r_get_spec in Hg as [d' Hg]. rewrite Hl in Hg. simplify_eq.
  destruct (String.eqb_spec v tok'); congruence.
Qed.

Lemma unlock_owner key tok t s d : r_lookup t key s = Some (RStr tok, d) ->
  fst (unlockScript key tok t s) = 1%Z /\ r_lookup t key (snd (unlockScript key tok t s)) = None.
Proof.
  intros Hl. unfold unlockScript. assert (Hg : r_get t key s = Some tok) by (apply r_get_spec; eauto).
  rewrite Hg, String.eqb_refl. destruct (r_del_spec t key s) as [Hd Ho]. rewrite Hd, Hl. split; [done|].
  by rewrite (Ho key), String.eqb_refl.
Qed.
End histories.

(** ** Mutual exclusion of the lock *)

(** A call on one lock key, by anybody: an acquisition, or a release with a
    token. It sends one command, so every interleaving of the calls of several
    sessions is a sequence of calls. *)
Inductive lock_call := CallAcquire (ttl : Duration) | CallRelease (token : string).

Section lock.
Context `{U : UuidPkg, !UuidLaws U} `{R : RedisServer, !RedisLaws R} `{E : !Env, !SteadyClock, !DistinctUuids}.
Context (key : string).

(** The answer: the token, if any, and whether the call succeeded. *)
Definition call_lock (c : lock_call) : M (option string * bool) :=
  match c with
  | CallAcquire ttl => x <- Acquire key ttl;; ret (Some (fst x), snd x)
  | CallRelease token => ok <- Unlock key token;; ret (None, ok)
  end.

(** What others may do while [tok] owns the lock. *)
Definition by_others (tok : string) (c : lock_call) : Prop :=
  match c with CallAcquire ttl => (0 < ttl)%Z | CallRelease token => token <> tok end.

(** A call that failed, or was told no and handed out another token. *)
Definition turned_down (tok : string) (r : result (option string * bool)) : Prop :=
  match r with Ok (tok', ok) => ok = false /\ tok' <> Some tok | Err _ => True end.

(** Nobody touches the key but by these calls. *)
Context (alone : forall n t s, r_lookup t key (env_redis_others n s) = r_lookup t key s).

Lemma interact_alone t w : r_lookup t key (w_redis (interact w)) = r_lookup t key (w_redis w).
Proof. unfold interact. destruct (w_tx w) as [[]|]; [by destruct (w_wrote w)|apply alone]. Qed.

Lemma redis_inv {A} (f : Time -> rstate -> option (A * rstate)) w r w' :
  redis f w = (r, w') -> w_tick w' = S (w_tick w) /\
  ((exists e, r = Err e /\ w_redis w' = w_redis (interact w)) \/
   (exists a s, f (env_clock (w_tick w)) (w_redis (interact w)) = Some (a, s) /\ w_redis w' = s /\
      (r = Ok a \/ exists e, r = Err e))).
Proof.
  unfold redis. pose proof (interact_tick w) as Ht.
  destruct (env_outcome _), (f _ _) as [[a s]|] eqn:Hf; intros [= <- <-]; (split; [done|]); eauto 8.
Qed.

Lemma Acquire_inv ttl w r w' : Acquire key ttl w = (r, w') ->
  let u := uuid_String (env_uuid (w_tick w)) in
  exists x, redis (fun t s => Some (r_setnx t key u ttl s)) (set_tick (S (w_tick w)) w) = (x, w') /\
    match x with Ok ok => r = Ok (u, ok) | Err _ => exists e, r = Err e end.
Proof.
  unfold Acquire, bind, uuid_New, wrap, map_err, ret. destruct (redis _ _) as [[ok|e] w1]; intros [= <- <-];
    [by exists (Ok ok)|exists (Err e); by eauto].
Qed.

Lemma call_turned_down n tok d c w r w' t :
  tok = uuid_String (env_uuid n) -> (n < w_tick w)%nat -> by_others tok c ->
  call_lock c w = (r, w') -> (t <= env_clock (w_tick w))%Z -> (env_clock (w_tick w') < d)%Z ->
  r_lookup t key (w_redis w) = Some (RStr tok, Some d) ->
  turned_down tok r /\ (w_tick w <= w_tick w')%nat /\ r_lookup (env_clock (w_tick w')) key (w_redis w') = Some (RStr tok, Some d).
Proof.
  intros Htok Hn Hc Hw Ht Hd Hl. destruct c as [ttl|tok']; simpl in Hc, Hw.
  - unfold bind at 1, ret in Hw. destruct (Acquire key ttl w) as [ra w2] eqn:Ha. apply Acquire_inv in Ha as (x & Hx & Hra).
    set (w1 := set_tick _ w) in Hx. set (u := uuid_String _) in Hx, Hra. apply redis_inv in Hx as (T2 & Hx).
    assert (Hw' : w' = w2) by (destruct ra; congruence). subst w'.
    pose proof (clock_mono (w_tick w1) (w_tick w2) ltac:(lia)) as C1. pose proof (clock_mono (w_tick w) (w_tick w1) ltac:(simpl; lia)) as C2.
    assert (Hl1 : r_lookup (env_clock (w_tick w1)) key (w_redis (interact w1)) = Some (RStr tok, Some d)).
    { rewrite interact_alone. eapply (lookup_until t); [exact Hl|lia]. }
    destruct Hx as [(e & -> & Hs2)|(b & s & Hs & Hs2 & Hr)].
    + destruct Hra as [e' ->]. injection Hw as <-. split; [done|]. split; [simpl in T2; lia|]. rewrite Hs2. eapply lookup_until; [exact Hl1|lia].
    + pose proof (r_setnx_spec (env_clock (w_tick w1)) key u ttl (w_redis (interact w1)) Hc) as Hsp.
      rewrite Hl1 in Hsp. cbn beta in Hs. apply (inj Some) in Hs. rewrite Hs in Hsp. destruct Hsp as [Hb Ho]. cbn [fst snd] in Hb, Ho. subst b.
      split; [|split; [simpl in T2; lia|]].
      * destruct Hr as [-> |[e ->]]; [rewrite Hra in Hw|destruct Hra as [e' ->]]; injection Hw as <-; [|done]. split; [done|].
        unfold u. rewrite Htok. simpl.
        intros [= Hu%uuid_String_inj%uuid_New_distinct]. lia.
      * rewrite Hs2. eapply (lookup_until (env_clock (w_tick w1))); [|lia]. by rewrite (Ho key), String.eqb_refl.
  - unfold Unlock in Hw. unfold bind, wrap, map_err, ret in Hw. destruct (redis _ w) as [x w2] eqn:Hx.
    apply redis_inv in Hx as (T2 & Hx). assert (Hw' : w' = w2) by (destruct x; congruence). subst w'.
    pose proof (clock_mono (w_tick w) (w_tick w2) ltac:(lia)) as C1.
    assert (Hl1 : r_lookup (env_clock (w_tick w)) key (w_redis (interact w)) = Some (RStr tok, Some d)).
    { rewrite interact_alone. eapply (lookup_until t); [exact Hl|lia]. }
    destruct Hx as [(e & -> & Hs2)|(b & s & Hs & Hs2 & Hr)].
    + injection Hw as <-. split; [done|]. split; [lia|]. rewrite Hs2. eapply lookup_until; [exact Hl1|lia].
    + rewrite (unlock_stranger _ _ _ _ _ _ Hl1 Hc) in Hs. injection Hs as <- <-.
      split; [destruct Hr as [-> |[e ->]]; by injection Hw as <-|]. split; [lia|]. rewrite Hs2. eapply lookup_until; [exact Hl1|lia].
Qed.

Lemma calls_turned_down n tok d calls w t :
  tok = uuid_String (env_uuid n) -> (n < w_tick w)%nat -> Forall (by_others tok) calls -> (t <= env_clock (w_tick w))%Z ->
  r_lookup t key (w_redis w) = Some (RStr tok, Some d) ->
  let '(rs, w') := answers call_lock calls w in
  (w_tick w <= w_tick w')%nat /\
  ((env_clock (w_tick w') < d)%Z -> Forall (turned_down tok) rs /\
     r_lookup (env_clock (w_tick w')) key (w_redis w') = Some (RStr tok, Some d)).
Proof.
  intros Htok. revert w t. induction calls as [|c calls IH]; intros w t Hn Hc Ht Hl; simpl.
  { split; [done|]. intros Hd. split; [constructor|]. eapply lookup_until; [exact Hl|lia]. }
  apply Forall_cons in Hc as [Hc Hcs]. destruct (call_lock c w) as [r w1] eqn:Hw.
  assert (T1 : (w_tick w <= w_tick w1)%nat).
  { assert (Ha : along tick_le (call_lock c)) by (destruct c; unfold call_lock, Acquire, Unlock; along_steps).
    by apply Ha in Hw. }
  destruct (answers call_lock calls w1) as [rs w'] eqn:Hrest.
  destruct (decide (env_clock (w_tick w1) < d)%Z) as [Hd1|Hd1].
  - destruct (call_turned_down _ _ _ _ _ _ _ t Htok Hn Hc Hw Ht Hd1 Hl) as (Hr & _ & Hl1).
    specialize (IH w1 (env_clock (w_tick w1)) ltac:(lia) Hcs ltac:(lia) Hl1). rewrite Hrest in IH.
    destruct IH as [T2 IH]. split; [lia|]. intros [H1 H2]%IH. split; [by constructor|done].
  - assert (T2 : (w_tick w1 <= w_tick w')%nat).
    { clear -Hrest. revert w1 rs Hrest. induction calls as [|c calls IH]; intros w1 rs; simpl; [by intros [= _ <-]|].
      destruct (call_lock c w1) as [r w2] eqn:Hw. destruct (answers _ calls w2) as [rs' w3] eqn:H3. intros [= _ <-].
      apply IH in H3. assert (Ha : along tick_le (call_lock c)) by (destruct c; unfold call_lock, Acquire, Unlock; along_steps).
      apply Ha in Hw. unfold tick_le in Hw. lia. }
    split; [lia|]. intros Hd. pose proof (clock_mono _ _ T2). lia.
Qed.

(** C27: the lock is exclusive. Once [Acquire] has told a caller yes, then until
    its TTL runs out every other [Acquire] of the key fails or is told no, with a
    token of its own, and every [Release] with another token fails or is told no,
    whatever calls the other sessions make, in whatever order, and whichever of
    the commands or replies are lost; the owner's token still releases the lock
    at the end. *)
Theorem lock_mutual_exclusion ttl tok w w0 calls :
  (0 < ttl)%Z -> Acquire key ttl w = (Ok (tok, true), w0) -> Forall (by_others tok) calls ->
  let until := (env_clock (S (w_tick w)) + ttl)%Z in
  let '(rs, w') := answers call_lock calls w0 in
  (env_clock (w_tick w') < until)%Z ->
  Forall (turned_down tok) rs /\
  r_lookup (env_clock (w_tick w')) key (w_redis w') = Some (RStr tok, Some until) /\
  match Unlock key tok w' with
  | (Ok ok, w2) => ok = true /\ r_lookup (env_clock (w_tick w')) key (w_redis w2) = None
  | (Err _, _) => True
  end.
Proof.
  intros Httl Hacq Hcalls until.
  assert (Hown : tok = uuid_String (env_uuid (w_tick w)) /\ (w_tick w < w_tick w0)%nat /\
    (env_clock (S (w_tick w)) <= env_clock (w_tick w0))%Z /\ r_lookup (env_clock (S (w_tick w))) key (w_redis w0) = Some (RStr tok, Some until)).
  { apply Acquire_inv in Hacq as (x & Hs & Hx). destruct x as [ok|e]; [injection Hx as -> <-|by destruct Hx].
    apply redis_inv in Hs as (T & [(e & [=] & _)|(b & s & Hs & H2 & [[= <-]|[e [=]]])]). simpl in T, Hs.
    split; [done|]. split; [lia|]. split; [apply clock_mono; lia|].
    pose proof (r_setnx_spec (env_clock (S (w_tick w))) key (uuid_String (env_uuid (w_tick w))) ttl
      (w_redis (interact (set_tick (S (w_tick w)) w))) Httl) as Hsp.
    injection Hs as Hs. rewrite Hs in Hsp. destruct (r_lookup _ _ _); destruct Hsp as [Hb Ho]; [done|].
    rewrite H2. unfold r_only in Ho. cbn [snd] in Ho. by rewrite (Ho key), String.eqb_refl. }
  destruct Hown as (Htok & Hn & Ht & Hl).
  pose proof (calls_turned_down _ _ _ calls w0 _ Htok Hn Hcalls Ht Hl) as Hc.
  destruct (answers call_lock calls w0) as [rs w']. intros Hd. destruct Hc as [_ Hc]. destruct (Hc Hd) as [H1 H2].
  split; [done|]. split; [done|]. destruct (Unlock key tok w') as [[ok|e] w2] eqn:Hu; [|done].
  apply bind_Ok in Hu as (res & w3 & Hs%wrap_Ok & [= <- <-]).
  apply redis_inv in Hs as (_ & [(e & [=] & _)|(b & s & Hs & H3 & [[= ->]|[e [=]]])]). injection Hs as Hs.
  assert (H4 : r_lookup (env_clock (w_tick w')) key (w_redis (interact w')) = Some (RStr tok, Some until)) by by rewrite interact_alone.
  destruct (unlock_owner _ _ _ _ _ H4) as [H5 H6]. rewrite Hs in H5, H6. simpl in H5, H6. subst. split; [done|congruence].
Qed.
End lock.

(** ** The bound of the limiter *)

Section limiter.
Context `{U : UuidPkg} `{R : RedisServer, !RedisLaws R} `{E : !Env, !SteadyClock}.
Context (key : string) (limit : Z) (window : Duration).

(** Before [until], at least [c] attempts have been counted in the key, and the
    count is kept until then. *)
Definition counted (until c t : Z) (s : rstate) : Prop :=
  match r_lookup t key s with
  | None => (c <= 0)%Z
  | Some (RInt n, dl) => (c <= n)%Z /\ match dl with Some d => (until <= d)%Z | None => True end
  | Some _ => False
  end.

Definition allowed (r : result bool) : bool := match r with Ok b => b | Err _ => false end.
Definition allowances (rs : list (result bool)) : Z := Z.of_nat (length (List.filter allowed rs)).

Lemma counted_later until c t t' s : counted until c t s -> (t <= t' < until)%Z -> counted until c t' s.
Proof.
  unfold counted. intros Hc [Ht Hu]. rewrite (r_time t t' key s Ht).
  destruct (r_lookup t key s) as [[[x|n|z] [d|]]|]; simpl; try done. destruct Hc as [Hc Hd].
  rewrite (proj2 (Z.ltb_lt t' d)) by lia. done.
Qed.

Lemma counted_weaken until c c' t s : counted until c t s -> (c' <= c)%Z -> counted until c' t s.
Proof. unfold counted. destruct (r_lookup t key s) as [[[x|n|z] [d|]]|]; simpl; try done; intros; repeat split; lia. Qed.

(** One INCR: the answer is larger than every count before. *)
Lemma incr_counted until c t s : (0 <= c)%Z -> counted until c t s ->
  match r_incr t key s with
  | Some (n, s') => (c + 1 <= n)%Z /\ counted until (c + 1) t s'
  | None => True
  end.
Proof.
  intros Hc Hs. unfold counted in Hs. destruct (r_lookup t key s) as [[[x|n|z] dl]|] eqn:Hl; [done| |done|].
  - destruct (decide (n < int64_max)%Z) as [Hn|Hn].
    + destruct (r_incr_int t key s n dl Hl Hn) as (s' & -> & Ho). destruct Hs. split; [lia|].
      unfold counted. rewrite (Ho key), String.eqb_refl. split; [lia|done].
    + by rewrite (r_incr_overflow t key s n dl Hl) by lia.
  - destruct (r_incr_fresh t key s Hl) as (s' & -> & Ho). split; [lia|].
    unfold counted. rewrite (Ho key), String.eqb_refl. split; [lia|done].
Qed.

Lemma expire_counted until c t s : (0 < window)%Z -> (until <= t + window)%Z -> (1 <= c)%Z ->
  counted until c t s -> counted until c t (r_expire t key window s).
Proof.
  intros Hw Hu Hc. unfold counted at 1. destruct (r_lookup t key s) as [[[x|n|z] dl]|] eqn:Hl; [done| |done|lia].
  intros [Hn _]. unfold counted. pose proof (r_expire_spec t key window s _ _ Hw Hl) as Ho.
  rewrite (Ho key), String.eqb_refl. split; lia.
Qed.

Section bound.
Context (until : Z).
(** Other sessions count as well, and never shorten the window. *)
Context (fair : forall n c s, (0 <= c)%Z -> (until - window <= env_clock n < until)%Z ->
  counted until c (env_clock n) s -> counted until c (env_clock n) (env_redis_others n s)).

Lemma interact_fair c w : (0 <= c)%Z -> (until - window <= env_clock (w_tick w) < until)%Z ->
  counted until c (env_clock (w_tick w)) (w_redis w) -> counted until c (env_clock (w_tick w)) (w_redis (interact w)).
Proof. intros Hc Hu Hs. unfold interact. destruct (w_tx w) as [[]|]; [by destruct (w_wrote w)|by apply fair]. Qed.

Lemma Allow_counted c w r w' :
  (0 < window)%Z -> (0 <= c)%Z -> (until <= env_clock (w_tick w) + window)%Z ->
  counted until c (env_clock (w_tick w)) (w_redis w) ->
  Allow key limit window w = (r, w') -> (env_clock (w_tick w') < until)%Z ->
  exists c', (c <= c')%Z /\ counted until c' (env_clock (w_tick w')) (w_redis w') /\
    (allowed r = true -> (c + 1 <= c')%Z /\ (c + 1 <= limit)%Z).
Proof.
  intros Hwin Hc0 Hwu Hs Hw Hu.
  assert (Ht : forall w1, (w_tick w <= w_tick w1)%nat -> (w_tick w1 <= w_tick w')%nat ->
    (env_clock (w_tick w) <= env_clock (w_tick w1) < until)%Z).
  { intros w1 H1 H2. pose proof (clock_mono _ _ H1). pose proof (clock_mono _ _ H2). lia. }
  unfold Allow in Hw. apply bind_inv in Hw as [(n & w1 & Hi%wrap_Ok & Hw)|(e & Hi & ->)].
  2: { apply wrap_inv in Hi as [(? & [=] & _)|(e' & _ & Hi)]. apply redis_inv in Hi as (T & Hi).
       pose proof (Ht w ltac:(lia) ltac:(lia)). pose proof (Ht w' ltac:(lia) ltac:(lia)).
       pose proof (clock_mono (w_tick w) (w_tick w') ltac:(lia)) as C1.
       pose proof (interact_fair c w Hc0 ltac:(lia) Hs) as Hs1. exists c. split; [done|]. split; [|done].
       eapply (counted_later until c (env_clock (w_tick w))); [|lia].
       destruct Hi as [(e1 & _ & ->)|(n & s & Hi & -> & _)]; [done|].
       pose proof (incr_counted until c _ _ Hc0 Hs1) as Hn. rewrite Hi in Hn. destruct Hn.
       eapply counted_weaken; [done|lia]. }
  assert (T' : (w_tick w1 <= w_tick w')%nat).
  { assert (Ha : along tick_le ((if (n =? 1)%Z then wrap "redis: rate limit expire" (redis (fun t s => Some (tt, r_expire t key window s))) else ret tt);;;
       ret (n <=? limit)%Z)) by along_steps. by apply Ha in Hw. }
  apply redis_inv in Hi as (T & [(e1 & [=] & _)|(n' & s & Hi & R1 & [[= ->]|[e [=]]])]).
  pose proof (Ht w ltac:(lia) ltac:(lia)). pose proof (Ht w1 ltac:(lia) ltac:(lia)).
  pose proof (clock_mono (w_tick w) (w_tick w1) ltac:(lia)) as C0.
  pose proof (interact_fair c w Hc0 ltac:(lia) Hs) as Hs1.
  pose proof (incr_counted until c _ _ Hc0 Hs1) as Hn. rewrite Hi in Hn. destruct Hn as [Hn Hs2].
  assert (Hs3 : counted until (c + 1) (env_clock (w_tick w1)) (w_redis w1)) by (rewrite R1; eapply counted_later; [exact Hs2|lia]).
  exists (c + 1)%Z. split; [lia|]. apply bind_inv in Hw as [(u & w2 & Hx & [= <- <-])|(e & Hx & ->)].
  - split.
    + destruct (n' =? 1)%Z; [|by injection Hx as _ <-]. apply wrap_Ok, redis_inv in Hx as (T2 & [(e1 & [=] & _)|([] & s2 & [= <-] & -> & _)]).
      pose proof (clock_mono (w_tick w1) (w_tick w2) ltac:(lia)) as C1. pose proof (Ht w2 ltac:(lia) ltac:(lia)). eapply (counted_later until _ (env_clock (w_tick w1))); [|lia].
      apply expire_counted; [done|lia|lia|]. apply interact_fair; [lia|lia|done].
    + simpl. intros Hle%Z.leb_le. lia.
  - split; [|done]. destruct (n' =? 1)%Z; [|done].
    apply wrap_inv in Hx as [(? & [=] & _)|(e' & _ & Hx)]. apply redis_inv in Hx as (T2 & Hx).
    pose proof (clock_mono (w_tick w1) (w_tick w') ltac:(lia)) as C1. pose proof (Ht w' ltac:(lia) ltac:(lia)).
    eapply (counted_later until _ (env_clock (w_tick w1))); [|lia].
    pose proof (interact_fair (c + 1) w1 ltac:(lia) ltac:(lia) Hs3) as Hs4.
    destruct Hx as [(e1 & _ & ->)|([] & s2 & [= <-] & -> & _)]; [done|]. apply expire_counted; [done|lia|lia|done].
Qed.

Lemma answers_tick {A B} (f : A -> M B) calls w : (forall x, along tick_le (f x)) -> (w_tick w <= w_tick (answers f calls w).2)%nat.
Proof.
  intros Hf. revert w. induction calls as [|x calls IH]; intros w; simpl; [done|].
  destruct (f x w) as [r w1] eqn:Hw. apply Hf in Hw. specialize (IH w1). destruct (answers f calls w1). simpl in *.
  unfold tick_le in Hw. lia.
Qed.

Lemma Allow_ticks : along tick_le (Allow key limit window).
Proof. unfold Allow. along_steps. Qed.

Lemma allowances_bound k c w rs w' :
  (0 < window)%Z -> (0 <= c)%Z -> (until <= env_clock (w_tick w) + window)%Z ->
  counted until c (env_clock (w_tick w)) (w_redis w) ->
  answers (fun _ : unit => Allow key limit window) (repeat tt k) w = (rs, w') -> (env_clock (w_tick w') < until)%Z ->
  (allowances rs <= Z.max 0 (limit - c))%Z.
Proof.
  intros Hwin. revert c w rs. induction k as [|k IH]; intros c w rs Hc Hwu Hs; simpl.
  { intros [= <- <-] _. unfold allowances. simpl. lia. }
  destruct (Allow key limit window w) as [r w1] eqn:Hw. pose proof (Allow_ticks _ _ _ Hw) as T1.
  pose proof (answers_tick (fun _ : unit => Allow key limit window) (repeat tt k) w1 (fun _ => Allow_ticks)) as T2.
  destruct (answers _ (repeat tt k) w1) as [rs' w2] eqn:Hrest. intros [= <- <-] Hu. simpl in T2. unfold tick_le in T1.
  pose proof (clock_mono _ _ T1). pose proof (clock_mono _ _ T2).
  destruct (Allow_counted c w r w1) as (c' & Hcc & Hs' & Hr); [done..|lia|].
  specialize (IH c' w1 rs' ltac:(lia) ltac:(lia) Hs' Hrest Hu). unfold allowances in *. cbn [List.filter].
  destruct (allowed r); cbn [length]; [|lia]. destruct (Hr eq_refl). lia.
Qed.
End bound.

(** Undisturbed calls in one window: numbered, and allowed up to the limit. *)
Lemma Allow_undisturbed `{!Quiet} n dl w :
  (0 < window)%Z -> (0 <= n < int64_max)%Z ->
  r_lookup (env_clock (w_tick w)) key (w_redis w) = (if (n =? 0)%Z then None else Some (RInt n, Some dl)) ->
  exists w', Allow key limit window w = (Ok (n + 1 <=? limit)%Z, w') /\
    r_lookup (env_clock (w_tick w')) key (w_redis w') =
      live (env_clock (w_tick w')) (Some (RInt (n + 1), Some (if (n =? 0)%Z then env_clock (S (w_tick w)) + window else dl)%Z)).
Proof.
  intros Hwin Hn Hl. unfold Allow, bind, wrap, map_err. rewrite redis_quiet.
  destruct (Z.eqb_spec n 0) as [->|Hn0].
  - destruct (r_incr_fresh _ _ _ Hl) as (s1 & -> & Ho). simpl. rewrite redis_quiet. simpl. eexists. split; [done|]. simpl.
    assert (H1 : r_lookup (env_clock (S (w_tick w))) key s1 = Some (RInt 1, None)).
    { rewrite (only_later _ _ _ _ _ (env_clock (S (w_tick w))) key Ho), String.eqb_refl by (apply clock_mono; lia). done. }
    pose proof (r_expire_spec _ _ window _ _ _ Hwin H1) as He.
    rewrite (only_later _ _ _ _ _ (env_clock (S (S (w_tick w)))) key He), String.eqb_refl by (apply clock_mono; lia). done.
  - destruct (r_incr_int _ _ _ _ _ Hl ltac:(lia)) as (s1 & -> & Ho). destruct (Z.eqb_spec (n + 1) 1); [lia|].
    eexists. split; [done|]. simpl.
    rewrite (only_later _ _ _ _ _ (env_clock (S (w_tick w))) key Ho), String.eqb_refl by (apply clock_mono; lia). done.
Qed.

Lemma allowances_exact `{!Quiet} k n dl w rs w' :
  (0 < window)%Z -> (0 <= n)%Z -> (n + Z.of_nat k <= int64_max)%Z ->
  r_lookup (env_clock (w_tick w)) key (w_redis w) = (if (n =? 0)%Z then None else Some (RInt n, Some dl)) ->
  (if (n =? 0)%Z then dl = env_clock (S (w_tick w)) + window else True)%Z ->
  answers (fun _ : unit => Allow key limit window) (repeat tt k) w = (rs, w') -> (env_clock (w_tick w') < dl)%Z ->
  rs = (fun i => Ok (i <=? limit)%Z) <$> seqZ (n + 1) (Z.of_nat k) /\
  r_lookup (env_clock (w_tick w')) key (w_redis w') =
    (if (n + Z.of_nat k =? 0)%Z then None else Some (RInt (n + Z.of_nat k), Some dl)).
Proof.
  intros Hwin. revert n w rs. induction k as [|k IH]; intros n w rs Hn Hmax Hl Hdl; cbn [repeat answers].
  { intros [= <- <-] Hu. simpl. rewrite Z.add_0_r. by rewrite Hl. }
  destruct (Allow_undisturbed n dl w Hwin ltac:(lia) Hl) as (w1 & -> & Hl1).
  pose proof (answers_tick (fun _ : unit => Allow key limit window) (repeat tt k) w1 (fun _ => Allow_ticks)) as T2.
  destruct (answers _ (repeat tt k) w1) as [rs' w2] eqn:Hrest. intros [= <- <-] Hu. simpl in T2.
  pose proof (clock_mono _ _ T2).
  assert (Hd : (if (n =? 0)%Z then env_clock (S (w_tick w)) + window else dl)%Z = dl) by (destruct (n =? 0)%Z; congruence).
  rewrite Hd in Hl1. simpl in Hl1. rewrite (proj2 (Z.ltb_lt _ dl)) in Hl1 by lia.
  destruct (IH (n + 1)%Z w1 rs') as [-> ->]; [lia|lia| | |done|done|].
  - destruct (Z.eqb_spec (n + 1) 0); [lia|done].
  - destruct (Z.eqb_spec (n + 1) 0); [lia|done].
  - rewrite (seqZ_cons (n + 1)) by lia. rewrite fmap_cons.
    replace (Z.pred (Z.of_nat (S k))) with (Z.of_nat k) by lia. replace (Z.succ (n + 1)) with (n + 1 + 1)%Z by lia.
    split; [done|]. replace (n + 1 + Z.of_nat k)%Z with (n + Z.of_nat (S k))%Z by lia. done.
Qed.

(** C28: the limiter bounds a window. From an unused key, of any number of
    [Allow] calls that a session makes within one window at most [limit] are told yes,
    whatever other sessions count on the same key in between (their calls may
    interleave with these command by command) and whichever commands or replies
    are lost. When nobody interferes exactly the first [limit] are, and the key
    counts the calls and runs out one window after the first of them. *)
Theorem rate_limit_bound k w rs w' :
  let until := (env_clock (w_tick w) + window)%Z in
  (0 <= limit)%Z -> (0 < window)%Z ->
  (forall n c s, (0 <= c)%Z -> (env_clock (w_tick w) <= env_clock n < until)%Z ->
     counted until c (env_clock n) s -> counted until c (env_clock n) (env_redis_others n s)) ->
  r_lookup (env_clock (w_tick w)) key (w_redis w) = None ->
  answers (fun _ : unit => Allow key limit window) (repeat tt k) w = (rs, w') -> (env_clock (w_tick w') < until)%Z ->
  (allowances rs <= limit)%Z /\
  (Quiet -> (Z.of_nat k <= int64_max)%Z ->
     rs = (fun i => Ok (i <=? limit)%Z) <$> seqZ 1 (Z.of_nat k) /\
     (k <> O -> r_lookup (env_clock (w_tick w')) key (w_redis w') =
                  Some (RInt (Z.of_nat k), Some (env_clock (S (w_tick w)) + window)%Z))).
Proof.
  intro until. intros Hlim Hwin Hfair Hl Ha Hu. split.
  - replace limit with (Z.max 0 (limit - 0)) by lia.
    assert (Hf : forall n c s, (0 <= c)%Z -> (until - window <= env_clock n < until)%Z ->
      counted until c (env_clock n) s -> counted until c (env_clock n) (env_redis_others n s))
      by (intros n c s Hc Hn; apply Hfair; [done|lia]).
    apply (allowances_bound until Hf k 0 w rs w'); [done|lia|unfold until; lia|unfold counted; by rewrite Hl|exact Ha|done].
  - intros Hq Hk. pose proof (clock_mono (w_tick w) (S (w_tick w)) ltac:(lia)).
    destruct (allowances_exact k 0 (env_clock (S (w_tick w)) + window)%Z w rs w') as [H1 H2];
      [done|lia|lia|done|done|exact Ha|unfold until in Hu; lia|].
    split; [done|]. intros Hk0. rewrite H2, Z.add_0_l. destruct (Z.eqb_spec (Z.of_nat k) 0); [lia|done].
Qed.
End limiter.


(** ** Sorted sets as queues *)

Lemma zmem_spec m z : zmem m z = true <-> m ∈ z.*1.
Proof.
  unfold zmem. rewrite existsb_exists. setoid_rewrite String.eqb_eq. split.
  - intros (e & He & <-). apply list_elem_of_fmap_2. by apply list_elem_of_In.
  - intros (e & -> & He)%list_elem_of_fmap. exists e. by rewrite <- list_elem_of_In.
Qed.

Lemma zinsert_last m sc z : Forall (fun e => (e.2 < sc)%Z) z -> zinsert (m, sc) z = z ++ [(m, sc)].
Proof.
  induction z as [|e z IH]; intros Hall; [done|]. apply Forall_cons in Hall as [He Hall]. simpl.
  assert (Hz : zless (m, sc) e = false); [|by rewrite Hz, IH].
  unfold zless. simpl. destruct (Z.ltb_spec sc e.2); [lia|]. by destruct (Z.eqb_spec sc e.2); [lia|].
Qed.

Lemma zrank_lookup m z (i : nat) : NoDup z.*1 -> z.*1 !! i = Some m -> zrank m z = Some (Z.of_nat i).
Proof.
  revert i. induction z as [|e z IH]; intros i Hnd Hi; [done|]. simpl in *.
  apply NoDup_cons in Hnd as [He Hnd]. destruct i as [|i]; simpl in *; simplify_eq.
  - by rewrite String.eqb_refl.
  - destruct (String.eqb_spec e.1 m) as [Hem|].
    + destruct He. rewrite Hem. by eapply list_elem_of_lookup_2.
    + rewrite (IH i Hnd Hi). simpl. f_equal. lia.
Qed.

Lemma float64_exact n : (0 <= n <= 2 ^ 53)%Z -> float64_of_int n = n.
Proof.
  intros Hn. unfold float64_of_int. destruct (Z.leb_spec (Z.log2 (Z.abs n) - 52) 0) as [H|H]; [done|].
  assert (n = 2 ^ 53)%Z as ->; [|by vm_compute].
  destruct (decide (n = 0%Z)) as [->|]; [simpl in H; lia|].
  rewrite Z.abs_eq in H by lia. destruct (decide (n = (2 ^ 53)%Z)); [done|].
  pose proof (proj1 (Z.log2_lt_pow2 n 53 ltac:(lia)) ltac:(lia)). lia.
Qed.

(** ** The abstract waiting room: a duplicate-free FIFO line *)

Definition enqueue (u : UUID) (q : list UUID) : list UUID := if decide (u ∈ q) then q else q ++ [u].

Section waiting_room.
Context `{U : UuidPkg, !UuidLaws U} `{R : RedisServer, !RedisLaws R}.

(** At time [t] the keys of event [e] represent the line [q], and [n] joins
    have been numbered. *)
Record line_is (t : Time) (e : UUID) (s : rstate) (n : Z) (q : list UUID) : Prop := {
  li_seq : r_lookup t (seqKey e) s = if (n =? 0)%Z then None else Some (RInt n, None);
  li_queue : exists z, r_lookup t (queueKey e) s = match z with [] => None | _ => Some (RZset z, None) end /\
    z.*1 = uuid_String <$> q /\ Forall (fun x => (x.2 <= n)%Z) z;
  li_nodup : NoDup q;
  li_pos : (0 <= n)%Z
}.

Lemma line_later t t' e s n q : line_is t e s n q -> (t <= t')%Z -> line_is t' e s n q.
Proof.
  intros [H1 (z & H2 & H3 & H4) H5 H6] Ht. split; [| |done..].
  - destruct (n =? 0)%Z; eauto using lookup_gone, lookup_forever.
  - exists z. split; [|done]. destruct z; eauto using lookup_gone, lookup_forever.
Qed.

(** Commands on other keys leave a line alone. *)
Lemma line_frame t e s s' n q k x :
  r_only t k x s s' -> k <> seqKey e -> k <> queueKey e -> line_is t e s n q -> line_is t e s' n q.
Proof.
  intros Ho Hk1 Hk2 [H1 (z & H2 & H3 & H4) H5 H6].
  assert (String.eqb (seqKey e) k = false) as Hs by (apply String.eqb_neq; congruence).
  assert (String.eqb (queueKey e) k = false) as Hq by (apply String.eqb_neq; congruence).
  split; [by rewrite (Ho (seqKey e)), Hs| |done..].
  exists z. by rewrite (Ho (queueKey e)), Hq.
Qed.

Lemma member_in_line (q : list UUID) u : uuid_String u ∈ (uuid_String <$> q) <-> u ∈ q.
Proof.
  rewrite list_elem_of_fmap. split.
  - intros (v & Hv%uuid_String_inj & Hin). by subst.
  - intros. by exists u.
Qed.

(** INCR on the sequence key. *)
Lemma incr_seq t e s n q :
  line_is t e s n q -> (n < int64_max)%Z ->
  exists s', r_incr t (seqKey e) s = Some ((n + 1)%Z, s') /\
    r_only t (seqKey e) (Some (RInt (n + 1), None)) s s'.
Proof.
  intros [Hs _ _ Hn] Hmax. destruct (Z.eqb_spec n 0) as [->|].
  - by apply r_incr_fresh.
  - eapply r_incr_int; eauto.
Qed.

(** ZADD NX with a score above every score in the line. *)
Lemma zadd_line t e s n q u z sc :
  r_lookup t (queueKey e) s = match z with [] => None | _ => Some (RZset z, None) end ->
  z.*1 = uuid_String <$> q -> Forall (fun x => (x.2 <= n)%Z) z -> (n < sc)%Z ->
  exists s' z', r_zaddnx t (queueKey e) (uuid_String u) sc s = Some s' /\
    r_only t (queueKey e) (Some (RZset z', None)) s s' /\ z' <> [] /\
    z'.*1 = uuid_String <$> enqueue u q /\ Forall (fun x => (x.2 <= sc)%Z) z'.
Proof.
  intros Hl Hz Hb Hsc. unfold enqueue. destruct z as [|x z].
  - destruct (r_zaddnx_fresh t (queueKey e) (uuid_String u) sc s Hl) as (s' & -> & Ho).
    destruct q; [|done]. exists s', [(uuid_String u, sc)].
    rewrite decide_False by apply not_elem_of_nil. split_and!; try done. repeat constructor; simpl; lia.
  - destruct (r_zaddnx_zset t (queueKey e) (uuid_String u) sc s _ _ Hl) as (s' & -> & Ho).
    exists s', (zadd_nx (uuid_String u) sc (x :: z)). unfold zadd_nx in *.
    assert (Hw : Forall (fun x => (x.2 <= sc)%Z) (x :: z)) by (eapply Forall_impl; [done|simpl; lia]).
    destruct (zmem (uuid_String u) (x :: z)) eqn:Hm in Ho |- *.
    + apply zmem_spec in Hm. rewrite Hz, member_in_line in Hm. by rewrite decide_True.
    + rewrite decide_False.
      2: { intros Hin. rewrite <- member_in_line, <- Hz, <- zmem_spec in Hin. congruence. }
      rewrite zinsert_last in Ho |- * by (eapply Forall_impl; [exact Hb|simpl; lia]).
      split_and!; try done.
      * by rewrite !fmap_app, Hz.
      * apply Forall_app. split; [done|]. repeat constructor; simpl; lia.
Qed.

Context `{E : !Env, !Quiet, !SteadyClock}.

Lemma clock_next w : (env_clock (w_tick w) <= env_clock (S (w_tick w)))%Z.
Proof. apply clock_mono. lia. Qed.

Lemma Position_line e u n q i w :
  line_is (env_clock (w_tick w)) e (w_redis w) n q -> q !! i = Some u ->
  Position e u w = (Ok (Z.of_nat i + 1)%Z, set_redis (w_redis w) (set_tick (S (w_tick w)) w)).
Proof.
  intros [_ (z & Hl & Hz & _) Hnd _] Hi.
  destruct z as [|x z]; [destruct q; done|].
  unfold Position, bind, wrap, map_err. rewrite redis_quiet.
  rewrite (r_zrank_zset _ _ (uuid_String u) _ _ _ Hl), (zrank_lookup _ _ i); [done| |].
  - rewrite Hz. apply NoDup_fmap_2; [|done]. intros ??. apply uuid_String_inj.
  - rewrite Hz, list_lookup_fmap, Hi. done.
Qed.

Lemma elem_of_enqueue u q : u ∈ enqueue u q.
Proof. unfold enqueue. case_decide; [done|]. apply elem_of_app. right. by apply elem_of_cons; left. Qed.

Lemma NoDup_enqueue u q : NoDup q -> NoDup (enqueue u q).
Proof.
  intros Hq. unfold enqueue. case_decide; [done|]. apply NoDup_app. split_and!; [done| |apply NoDup_singleton].
  intros v Hv ->%list_elem_of_singleton. done.
Qed.

(** C25: [Join] refines "append to a FIFO line unless already in it". From any
    line, joining succeeds, returns the caller's 1-based place, puts a new
    caller behind everybody who joined before and leaves a queued caller and
    the lines of all other events where they were. *)
Theorem Join_fifo e u n q w :
  line_is (env_clock (w_tick w)) e (w_redis w) n q -> (n < 2 ^ 53)%Z ->
  exists w' i, Join e u w = (Ok (Z.of_nat i + 1)%Z, w') /\ enqueue u q !! i = Some u /\
    line_is (env_clock (w_tick w')) e (w_redis w') (n + 1) (enqueue u q) /\
    (forall e' n' q', e' <> e -> line_is (env_clock (w_tick w)) e' (w_redis w) n' q' ->
       line_is (env_clock (w_tick w')) e' (w_redis w') n' q') /\
    w_db w' = w_db w.
Proof.
  intros Hline Hn. pose proof (li_pos _ _ _ _ _ Hline) as Hpos.
  pose proof (clock_next w) as Hc1. pose proof (clock_next (set_tick (S (w_tick w)) w)) as Hc2. simpl in Hc2.
  destruct (incr_seq _ _ _ _ _ Hline) as (s1 & Hincr & Ho1); [unfold int64_max; lia|].
  assert (Hmid : r_lookup (env_clock (S (w_tick w))) (queueKey e) s1 = r_lookup (env_clock (w_tick w)) (queueKey e) (w_redis w)).
  { rewrite (only_later _ _ _ _ _ (env_clock (S (w_tick w))) (queueKey e) Ho1 Hc1).
    simpl. destruct (li_queue _ _ _ _ _ Hline) as (z & -> & _). by destruct z. }
  destruct (li_queue _ _ _ _ _ Hline) as (z & Hz & Hzq & Hzn).
  destruct (zadd_line (env_clock (S (w_tick w))) e s1 n q u z (n + 1)) as (s2 & z' & Hadd & Ho2 & Hne & Hz' & Hb');
    [by rewrite Hmid|done|done|lia|].
  destruct (list_elem_of_lookup_1 _ _ (elem_of_enqueue u q)) as [i Hi].
  assert (Hline2 : line_is (env_clock (S (S (w_tick w)))) e s2 (n + 1) (enqueue u q)).
  { apply (line_later (env_clock (S (w_tick w)))); [|done]. split.
    - rewrite (Ho2 (seqKey e)). simpl. destruct (Z.eqb_spec (n + 1) 0); [lia|].
      rewrite (only_later _ _ _ _ _ _ (seqKey e) Ho1 Hc1). by rewrite String.eqb_refl.
    - exists z'. rewrite (Ho2 (queueKey e)), String.eqb_refl. destruct z'; [done|]. done.
    - apply NoDup_enqueue, Hline.
    - lia. }
  set (w2 := set_redis s2 (set_tick (S (S (w_tick w))) (set_redis s1 (set_tick (S (w_tick w)) w)))).
  exists (set_redis (w_redis w2) (set_tick (S (w_tick w2)) w2)), i. split_and!; simpl; try done.
  - unfold Join, bind at 1 2, wrap, map_err. rewrite redis_quiet, Hincr. simpl.
    rewrite redis_quiet. simpl. rewrite float64_exact by lia. rewrite Hadd. simpl.
    by apply (Position_line e u (n + 1) (enqueue u q)).
  - apply (line_later (env_clock (S (S (w_tick w))))); [done|]. apply clock_mono. lia.
  - intros e' n' q' He' Hl'. apply (line_later (env_clock (S (w_tick w)))); [|apply clock_mono; lia].
    apply (line_frame _ _ s1 _ _ _ _ _ Ho2); [done|intros ?%queueKey_inj; congruence|].
    apply (line_later (env_clock (w_tick w))); [|done].
    apply (line_frame _ _ (w_redis w) _ _ _ _ _ Ho1); [intros ?%seqKey_inj; congruence|done|done].
Qed.

Lemma set_admitted_lookup e ttl ids t s k :
  (0 < ttl)%Z ->
  r_lookup t k (set_admitted e ttl ids t s) =
    if decide (k ∈ admittedKey e <$> ids) then Some (RStr "1", Some (t + ttl)%Z) else r_lookup t k s.
Proof.
  intros Httl. revert s. induction ids as [|id ids IH]; intros s; cbn [set_admitted fmap list_fmap].
  { case_decide as Hd; [by apply elem_of_nil in Hd|done]. }
  rewrite IH, (r_set_spec t (admittedKey e id) "1" ttl s Httl k).
  destruct (String.eqb_spec k (admittedKey e id)) as [->|Hne].
  - case_decide; rewrite decide_True; try done; rewrite elem_of_cons; auto.
  - case_decide as Hd.
    + rewrite decide_True; [done|]. rewrite elem_of_cons. auto.
    + rewrite decide_False; [done|]. rewrite elem_of_cons. naive_solver.
Qed.

Lemma parse_members_line z (q : list UUID) : z.*1 = uuid_String <$> q -> parse_members z = q.
Proof.
  revert q. induction z as [|x z IH]; intros [|u q] Hzq; try done; unfold parse_members in *; simpl in *.
  injection Hzq as Hx Hq. rewrite Hx, uuid_Parse_String. f_equal. by apply IH.
Qed.

Lemma pop_line t e s n q c :
  line_is t e s n q ->
  exists popped s', r_zpopmin t (queueKey e) c s = Some (popped, s') /\
    parse_members popped = take (Z.to_nat c) q /\ length popped = length (take (Z.to_nat c) q) /\
    line_is t e s' n (drop (Z.to_nat c) q) /\
    (forall k, k <> queueKey e -> r_lookup t k s' = r_lookup t k s).
Proof.
  intros [Hs (z & Hl & Hz & Hb) Hnd Hn]. destruct z as [|x z].
  - destruct q; [|done]. destruct (r_zpopmin_none t (queueKey e) c s Hl) as (s' & -> & Ho).
    exists [], s'. rewrite take_nil, drop_nil. split_and!; try done.
    + split; [|exists []|constructor|done].
      * by rewrite (Ho (seqKey e)).
      * by rewrite (Ho (queueKey e)), String.eqb_refl.
    + intros k Hk. rewrite (Ho k). by apply String.eqb_neq in Hk as ->.
  - destruct (r_zpopmin_zset t (queueKey e) c s _ _ Hl) as (s' & -> & Ho).
    exists (take (Z.to_nat c) (x :: z)), s'. rewrite !length_take.
    assert (length (x :: z) = length q) as Hlen by (by rewrite <- (length_fmap fst), Hz, length_fmap).
    split_and!; [done| |by rewrite Hlen| |].
    + apply parse_members_line. by rewrite !fmap_take, Hz.
    + split; [by rewrite (Ho (seqKey e))| |by eapply sublist_NoDup, sublist_drop|done].
      exists (drop (Z.to_nat c) (x :: z)). rewrite (Ho (queueKey e)), String.eqb_refl.
      rewrite !fmap_drop, Hz. split_and!; [|done|by apply Forall_drop].
      by destruct (drop _ _).
    + intros k Hk. rewrite (Ho k). by apply String.eqb_neq in Hk as ->.
Qed.

Lemma admit_line e count ttl n q w :
  line_is (env_clock (w_tick w)) e (w_redis w) n q -> (0 < count)%Z -> (0 < ttl)%Z ->
  exists w', Admit e count ttl w = (Ok (take (Z.to_nat count) q), w') /\
    line_is (env_clock (w_tick w')) e (w_redis w') n (drop (Z.to_nat count) q) /\
    (forall u t, u ∈ take (Z.to_nat count) q -> (env_clock (w_tick w') <= t < env_clock (w_tick w) + ttl)%Z ->
       r_exists t (admittedKey e u) (w_redis w') = 1%Z) /\
    (forall u t, u ∉ take (Z.to_nat count) q -> (env_clock (w_tick w') <= t)%Z ->
       r_exists t (admittedKey e u) (w_redis w') = r_exists t (admittedKey e u) (w_redis w)) /\
    w_db w' = w_db w.
Proof.
  intros Hline Hc Httl.
  pose proof (clock_next w) as Hc1. pose proof (clock_next (set_tick (S (w_tick w)) w)) as Hc2. simpl in Hc2.
  destruct (pop_line _ _ _ _ _ count Hline) as (popped & s1 & Hpop & Hparse & Hlen & Hline1 & Hframe).
  unfold Admit. rewrite (proj2 (Z.leb_gt count 0) Hc). unfold bind at 1, wrap at 1, map_err at 1.
  rewrite redis_quiet, Hpop.
  assert (Hkeep : forall u t, (env_clock (w_tick w) <= t)%Z ->
    r_lookup t (admittedKey e u) s1 = r_lookup t (admittedKey e u) (w_redis w)).
  { intros u t Ht. rewrite !(r_time _ t _ _ Ht). by rewrite Hframe. }
  destruct (take (Z.to_nat count) q) as [|u0 ids] eqn:Htake.
  { destruct popped; [|done]. eexists. split; [done|]. simpl. split_and!; [by eapply line_later|..|done].
    - by intros u t ?%elem_of_nil.
    - intros u t _ Ht. rewrite !r_exists_spec, Hkeep; [done|lia]. }
  destruct popped as [|p popped]; [done|]. unfold bind. rewrite Hparse. cbn [mark_admitted].
  unfold wrap, map_err. rewrite redis_quiet. eexists. split; [done|].
  cbn [w_tick w_redis set_redis set_tick w_db].
  set (t1 := env_clock (S (w_tick w))) in *.
  assert (Hmark := set_admitted_lookup e ttl (u0 :: ids) t1 s1). 
  split_and!; [| | |done].
  - apply (line_later t1); [|done]. apply (line_later _ t1) in Hline1; [|done].
    assert (Hn1 : forall k, (forall v, k <> admittedKey e v) ->
      r_lookup t1 k (set_admitted e ttl (u0 :: ids) t1 s1) = r_lookup t1 k s1).
    { intros k Hk. rewrite Hmark by done. rewrite decide_False; [done|].
      intros (v & -> & _)%list_elem_of_fmap. by eapply Hk. }
    destruct Hline1 as [L1 L2 L3 L4]. split; [by rewrite Hn1| |done..]. by rewrite Hn1.
  - intros u t Hu [Ht1 Ht2]. rewrite r_exists_spec.
    rewrite (lookup_until t1 t _ _ (RStr "1") (t1 + ttl)); [done| |lia].
    rewrite Hmark by done. rewrite decide_True; [done|]. by apply list_elem_of_fmap_2.
  - intros u t Hu Ht. rewrite !r_exists_spec, <- (Hkeep u t) by lia.
    rewrite !(r_time t1 t _ _ (Z.le_trans _ _ _ Hc2 Ht)), Hmark by done. rewrite decide_False; [done|].
    intros (v & [_ ->]%admittedKey_inj & Hv)%list_elem_of_fmap. done.
Qed.

(** C26: [Admit] refines "take the first [count] of the line". It returns
    exactly the fans at the front, in order, removes them and nobody else,
    and until the admission window closes [IsAdmitted] answers yes for each
    of them; the admission of everybody else is what it was. *)
Theorem Admit_fifo e count ttl n q w :
  line_is (env_clock (w_tick w)) e (w_redis w) n q -> (0 < count)%Z -> (0 < ttl)%Z ->
  exists w', Admit e count ttl w = (Ok (take (Z.to_nat count) q), w') /\
    line_is (env_clock (w_tick w')) e (w_redis w') n (drop (Z.to_nat count) q) /\
    (forall u t, u ∈ take (Z.to_nat count) q -> (env_clock (w_tick w') <= t < env_clock (w_tick w) + ttl)%Z ->
       r_exists t (admittedKey e u) (w_redis w') = 1%Z) /\
    (forall u t, u ∉ take (Z.to_nat count) q -> (env_clock (w_tick w') <= t)%Z ->
       r_exists t (admittedKey e u) (w_redis w') = r_exists t (admittedKey e u) (w_redis w)) /\
    w_db w' = w_db w.
Proof. apply admit_line. Qed.

End waiting_room.

(** ** A limiter key that lost its EXPIRE *)

Section stuck.
Context `{U : UuidPkg} `{R : RedisServer, !RedisLaws R} `{E : !Env, !Quiet}.

(** When the EXPIRE after the first INCR is lost the key has no deadline;
    once its counter has reached the limit every later call for that key is
    refused, however long ago the window ended, and the key stays that way. *)
Theorem Allow_stuck_without_ttl key limit window t n w :
  r_lookup t key (w_redis w) = Some (RInt n, None) -> (t <= env_clock (w_tick w))%Z ->
  (1 <= n)%Z -> (limit <= n < int64_max)%Z ->
  exists w', Allow key limit window w = (Ok false, w') /\
    r_lookup (env_clock (w_tick w)) key (w_redis w') = Some (RInt (n + 1), None).
Proof.
  intros Hl Ht Hn Hlim. pose proof (lookup_forever _ _ _ _ _ Hl Ht) as Hl'.
  destruct (r_incr_int _ _ _ _ _ Hl' ltac:(lia)) as (s1 & Hi & Ho).
  unfold Allow, bind, wrap, map_err. rewrite redis_quiet, Hi.
  destruct (Z.eqb_spec (n + 1) 1); [lia|]. unfold ret.
  rewrite (proj2 (Z.leb_gt (n + 1) limit)) by lia. eexists. split; [done|]. simpl.
  by rewrite (Ho key), String.eqb_refl.
Qed.
End stuck.

(** ** Witnesses *)

Definition fx_line : gmap string (RVal * option Time) :=
  <[seqKey 20 := (RInt 2, None)]>
    {[queueKey 20 := (RZset [(uuid_String 11, 1%Z); (uuid_String 12, 2%Z)], None)]}.

Definition fx_line_world : World (H := ref_redis) := set_redis (H := ref_redis) fx_line (fx_world fx_db).

Lemma fx_line_is : line_is (R := ref_redis) (env_clock (w_tick fx_line_world)) 20 (w_redis fx_line_world) 2 [11%N; 12%N].
Proof.
  split; [by vm_compute| | |lia].
  - exists [(uuid_String 11, 1%Z); (uuid_String 12, 2%Z)]. split_and!; [by vm_compute|by vm_compute|].
    repeat constructor; simpl; lia.
  - apply (bool_decide_unpack _). by vm_compute.
Qed.

(** Somebody else tries to take the lock and to release it. *)
Lemma lock_mutual_exclusion_witness :
  let '(rs, w') := answers (call_lock (E := fx_env) "k") [CallAcquire 3000000; CallRelease "b"] (Acquire (E := fx_env) "k" 3000000 (fx_world fx_db)).2 in
  Forall (turned_down (uuid_String 1000)) rs /\ rs = [Ok (Some (uuid_String 1002), false); Ok (None, false)].
Proof.
  assert (H : fst (Acquire (E := fx_env) "k" 3000000 (fx_world fx_db)) = Ok (uuid_String 1000, true)) by (vm_compute; reflexivity).
  assert (Hc : Forall (by_others (uuid_String 1000)) [CallAcquire 3000000; CallRelease "b"]).
  { apply Forall_cons. split; [simpl; lia|]. apply Forall_cons. split; [simpl; discriminate|constructor]. }
  pose proof (lock_mutual_exclusion (E := fx_env) "k" (fun _ _ _ => eq_refl) 3000000 (uuid_String 1000) (fx_world fx_db) _
            [CallAcquire 3000000; CallRelease "b"] ltac:(lia) (run_Ok _ _ H) Hc) as Hx.
  match type of Hx with context [answers ?f ?l ?w] =>
    assert (E1 : (answers f l w).1 = [Ok (Some (uuid_String 1002), false); Ok (None, false)]) by (vm_compute; reflexivity);
    assert (E2 : w_tick (answers f l w).2 = 5) by (vm_compute; reflexivity) end.
  cbn [snd]. destruct (answers _ _ _) as [rs w']. simpl in E1, E2. rewrite E2 in Hx.
  split; [exact (proj1 (Hx ltac:(vm_compute; reflexivity)))|exact E1].
Defined.

(** Three calls against a limit of two. *)
Lemma rate_limit_bound_witness :
  (answers (fun _ : unit => Allow (E := fx_env) "k" 2 60000000) (repeat tt 3) (fx_world fx_db)).1 = [Ok true; Ok true; Ok false].
Proof.
  destruct (rate_limit_bound (E := fx_env) "k" 2 60000000 3 (fx_world fx_db) _ _ ltac:(lia) ltac:(lia) (fun _ _ _ _ _ H => H)
              ltac:(vm_compute; reflexivity) (surjective_pairing _) ltac:(vm_compute; reflexivity)) as [_ H].
  exact (proj1 (H fx_quiet ltac:(unfold int64_max; lia))).
Defined.

Lemma Join_fifo_witness :
  exists w' i, Join 20 10 fx_line_world = (Ok (Z.of_nat i + 1)%Z, w') /\
    [11%N; 12%N; 10%N] !! i = Some 10%N.
Proof.
  destruct (Join_fifo 20 10 2 [11%N; 12%N] fx_line_world fx_line_is ltac:(lia))
    as (w' & i & H1 & H2 & _).
  exists w', i. split; [exact H1|exact H2].
Defined.

Lemma Admit_fifo_witness :
  exists w', Admit 20 1 600000000 fx_line_world = (Ok [11%N], w') /\
    line_is (R := ref_redis) (env_clock (w_tick w')) 20 (w_redis w') 2 [12%N].
Proof.
  destruct (Admit_fifo 20 1 600000000 2 [11%N; 12%N] fx_line_world fx_line_is
              ltac:(lia) ltac:(unfold Minute; lia)) as (w' & H1 & H2 & _).
  exists w'. split; [exact H1|exact H2].
Defined.

Definition fx_stuck_world : World (H := ref_redis) :=
  set_redis (H := ref_redis) {["k" := (RInt 10, None)]} (fx_world fx_db).

Lemma Allow_stuck_without_ttl_witness :
  exists w', Allow "k" 10 60000000 fx_stuck_world = (Ok false, w') /\
    r_lookup (env_clock (w_tick fx_stuck_world)) "k" (w_redis w') = Some (RInt (10 + 1), None).
Proof.
  apply (Allow_stuck_without_ttl "k" 10 60000000 0 10 fx_stuck_world);
    [reflexivity|simpl; lia|lia|unfold int64_max; lia].
Defined.
