(* ===== verification/InventoryService.v ===== *)
(** * The inventory service ([src/internal/service/inventory])

    The purchase hot path: waiting room, rate limit, Redis lock and the
    Postgres compare-and-swap.  The operations are written against the
    interfaces of [Ports]; the theorems of the first group use only the
    contracts, those of the second group the Redis implementation. *)
From S2P Require Import Prelude Domain Schema Redis Runtime Ports Fixtures InventoryRepo RedisRepo.

Record Config := mkConfig {
  HoldDuration : Duration; LockTTL : Duration; AdmissionTTL : Duration;
  HoldRateLimit : Z; HoldRateLimitWindow : Duration }.

Definition DefaultConfig : Config :=
  mkConfig (5 * Minute) (3 * Second) (10 * Minute) 10 Minute.

Record HoldResult := mkHoldResult { hr_HoldToken : UUID; hr_ExpiresAt : Time }.
Record QueueStatusResult := mkQueueStatus { qs_Admitted : bool; qs_Position : Z }.

Section keys.
Context `{UuidPkg}.
Definition lockKey (tenantID inventoryID : UUID) : string :=
  "lock:inventory:" +:+ uuid_String tenantID +:+ ":" +:+ uuid_String inventoryID.
Definition rateLimitKey (tenantID eventID userID : UUID) : string :=
  "ratelimit:hold:" +:+ uuid_String tenantID +:+ ":" +:+ uuid_String eventID +:+ ":" +:+ uuid_String userID.
End keys.

(** [domain.NewError(op, domain.Err...)]. *)
Definition op_error (op : string) (s : DomainSentinel) : GoError := NewError op (ESentinel (SDomain s)).

Section service.
Context `{U : UuidPkg} `{E : Env}.
Context `{R : !InventoryRepository, L : !locker, W : !waitingRoom, RL : !rateLimiter} (cfg : Config).

(** Step 4 of [HoldSeat], run while the lock is held. *)
Definition hold_row (tenantID inventoryID userID : UUID) : M HoldResult :=
  holdToken <- uuid_New;;
  now <- time_Now;;
  let expiresAt := TimeAdd now (HoldDuration cfg) in
  ok <- wrap "inventory: hold" (ir_Hold tenantID inventoryID holdToken userID expiresAt);;
  if negb ok then throw (op_error "inventory.HoldSeat" ErrUnavailable)
  else ret (mkHoldResult holdToken expiresAt).

Definition HoldSeat (tenantID eventID inventoryID userID : UUID) : M HoldResult :=
  admitted <- wrap "inventory: check admission" (wr_IsAdmitted eventID userID);;
  if negb admitted then throw (ESentinel (SInventory ErrNotAdmitted))
  else
    allowed <- wrap "inventory: check rate limit"
                 (rl_Allow (rateLimitKey tenantID eventID userID) (HoldRateLimit cfg) (HoldRateLimitWindow cfg));;
    if negb allowed then throw (ESentinel (SInventory ErrRateLimited))
    else
      let key := lockKey tenantID inventoryID in
      lock <- wrap "inventory: acquire lock" (lk_Acquire key (LockTTL cfg));;
      let '(lockToken, acquired) := lock in
      if negb acquired then throw (ESentinel (SInventory ErrLockContention))
      else defer (lk_Release key lockToken) (hold_row tenantID inventoryID userID).

Definition ReleaseHold (tenantID inventoryID holdToken : UUID) : M unit :=
  ok <- wrap "inventory: release" (ir_Release tenantID inventoryID holdToken);;
  if negb ok then throw (op_error "inventory.ReleaseHold" ErrExpired) else ret tt.

Definition ConfirmSale (tenantID inventoryID holdToken : UUID) : M unit :=
  ok <- wrap "inventory: confirm sale" (ir_ConfirmSale tenantID inventoryID holdToken);;
  if negb ok then throw (op_error "inventory.ConfirmSale" ErrExpired) else ret tt.

(** One iteration of the sweep. *)
Definition sweep_row (released : Z) (row : EventSeatInventory) : M Z :=
  match inv_HoldToken row with
  | None => ret released
  | Some token =>
      ok <- wrap "inventory: sweep release" (ir_Release (inv_TenantID row) (inv_ID row) token);;
      ret (if ok then released + 1 else released)%Z
  end.

Definition SweepExpiredHolds (batchSize : Z) : M Z :=
  now <- time_Now;;
  expired <- wrap "inventory: list expired holds" (ir_ListExpiredHolds now batchSize);;
  fold_loop sweep_row 0%Z expired.

Definition JoinQueue (eventID userID : UUID) : M Z :=
  wrap "inventory: join queue" (wr_Join eventID userID).

Definition QueueStatus (eventID userID : UUID) : M QueueStatusResult :=
  admitted <- wrap "inventory: check admission" (wr_IsAdmitted eventID userID);;
  if (admitted : bool) then ret (mkQueueStatus true 0)
  else
    r <- attempt (wr_Position eventID userID);;
    match r with
    | Err e => if errors_Is e (SRedis ErrNotQueued) then throw (ESentinel (SRedis ErrNotQueued))
               else throw (EWrap "inventory: queue status" e)
    | Ok pos => ret (mkQueueStatus false pos)
    end.

Definition AdmitNext (eventID : UUID) (count : Z) : M (list UUID) :=
  wrap "inventory: admit next" (wr_Admit eventID count (AdmissionTTL cfg)).

Definition QueueLength (eventID : UUID) : M Z :=
  wrap "inventory: queue length" (wr_QueueLength eventID).

(** ** Against the contracts *)

Context `{!InventoryContract R, !LockerContract L, !WaitingRoomContract W, !RateLimiterContract RL}.

Lemma neutral_others {A} (m : M A) w r w' :
  db_neutral m -> m w = (r, w') -> others (w_db w) (w_db w').
Proof. intros Hm Hw. by eapply (Hm others _ others_step). Qed.

(** The hold [HoldSeat] may place. *)
Definition placed (tenantID inventoryID userID tok : UUID) (exp : Time) : DB -> DB -> Prop :=
  swapped tenantID inventoryID is_available InventoryStatusHeld (Some tok) (Some userID) (Some exp).

Definition hold_outcome (tenantID inventoryID userID : UUID) (r : result HoldResult) (d1 d2 : DB) : Prop :=
  match r with
  | Ok res => placed tenantID inventoryID userID (hr_HoldToken res) (hr_ExpiresAt res) d1 d2
  | Err e =>
      (e = op_error "inventory.HoldSeat" ErrUnavailable /\ d2 = d1 /\ ~ eligible tenantID inventoryID is_available d1) \/
      (e <> op_error "inventory.HoldSeat" ErrUnavailable /\
         (d2 = d1 \/ exists tok exp, placed tenantID inventoryID userID tok exp d1 d2))
  end.

Lemma hold_row_outcome t i u w r w' :
  hold_row t i u w = (r, w') ->
  exists d1 d2, others (w_db w) d1 /\ hold_outcome t i u r d1 d2 /\ d2 = w_db w'.
Proof.
  unfold hold_row, bind, uuid_New, time_Now, wrap, map_err, ret, throw. intros Hw. simpl in Hw.
  match type of Hw with context [ir_Hold t i ?tok u ?e ?w0] =>
    destruct (ir_Hold t i tok u e w0) as [x w1] eqn:Hh; pose proof (interact_others w0) as Ho end.
  apply ir_Hold_cas in Hh as (_ & _ & _ & _ & Hh). simpl in Ho.
  eexists _, (w_db w'). split; [exact Ho|]. split; [|done].
  destruct x as [[]|e]; simpl in *; simplify_eq; simpl.
  - exact Hh.
  - left. by destruct Hh as [? ->].
  - right. split; [done|]. destruct Hh as [->|Hh]; [by left|right; eauto].
Qed.

(** The outcome, with interference before and after the swap. *)
Definition hold_post (tenantID inventoryID userID : UUID) (w : World) (r : result HoldResult) (w' : World) : Prop :=
  exists d1 d2, others (w_db w) d1 /\ hold_outcome tenantID inventoryID userID r d1 d2 /\ others d2 (w_db w').

Lemma hold_post_fail t i u w e w' :
  e <> op_error "inventory.HoldSeat" ErrUnavailable -> others (w_db w) (w_db w') -> hold_post t i u w (Err e) w'.
Proof. intros He Ho. exists (w_db w'), (w_db w'). split_and!; [done| |reflexivity]. right. auto. Qed.

Lemma hold_post_bind {A} t i u msg (m : M A) k w r w' :
  db_neutral m ->
  (forall a w1, k a w1 = (r, w') -> hold_post t i u w1 r w') ->
  bind (wrap msg m) k w = (r, w') -> hold_post t i u w r w'.
Proof.
  intros Hm Hk [(a & w1 & Hw%wrap_Ok & H2)|(e & Hw & ->)]%bind_inv.
  - destruct (Hk _ _ H2) as (d1 & d2 & H3 & H4). exists d1, d2. split; [|done].
    etransitivity; [by eapply neutral_others|done].
  - apply wrap_inv in Hw as [(? & ? & _)|(e' & [= ->] & Hw)]; [done|].
    apply hold_post_fail; [done|by eapply neutral_others].
Qed.

Lemma HoldSeat_post t ev i u w r w' : HoldSeat t ev i u w = (r, w') -> hold_post t i u w r w'.
Proof.
  unfold HoldSeat. apply hold_post_bind; [apply wr_IsAdmitted_neutral|intros [] w1; simpl].
  2: { intros [= <- <-]. by apply hold_post_fail. }
  apply hold_post_bind; [apply rl_Allow_neutral|intros [] w2; simpl].
  2: { intros [= <- <-]. by apply hold_post_fail. }
  apply hold_post_bind; [apply lk_Acquire_neutral|intros [tok []] w3; simpl].
  2: { intros [= <- <-]. by apply hold_post_fail. }
  unfold defer. destruct (hold_row t i u w3) as [x w4] eqn:Hh. apply hold_row_outcome in Hh as (d1 & d2 & H1 & H2 & ->).
  destruct (lk_Release _ _ w4) as [y w5] eqn:Hr. intros [= <- <-]. exists d1, (w_db w4). split_and!; [done..|].
  by eapply neutral_others, Hr; apply lk_Release_neutral.
Qed.

(** C14: Redis is not load-bearing. For any lock, limiter and waiting room that
    stay away from the database, and whatever other sessions do meanwhile, the
    only write of [HoldSeat] is at most one compare-and-swap of the requested
    row from available to held by the caller: on success exactly that happened
    with the returned token and deadline, and "unavailable" is reported only
    when the row was not available and nothing was written. *)
Theorem HoldSeat_one_swap t ev i u w r w' :
  HoldSeat t ev i u w = (r, w') ->
  exists d1 d2, others (w_db w) d1 /\ hold_outcome t i u r d1 d2 /\ others d2 (w_db w').
Proof. apply HoldSeat_post. Qed.

(** Only the holder can give up or convert a hold. [ReleaseHold] and
    [ConfirmSale] succeed only by moving the row from held under exactly the
    presented token, report "expired" only when the row is not held under that
    token, and then write nothing. *)
Theorem token_gate t i tok w r w' (sell : bool) :
  (if sell then ConfirmSale t i tok else ReleaseHold t i tok) w = (r, w') ->
  let d := w_db (interact w) in
  let target := if sell then InventoryStatusSold else InventoryStatusAvailable in
  let swap := swapped t i (is_held_by tok) target None None None in
  match r with
  | Ok _ => swap d (w_db w')
  | Err e =>
      (e = op_error (if sell then "inventory.ConfirmSale" else "inventory.ReleaseHold") ErrExpired ->
         ~ eligible t i (is_held_by tok) d /\ w_db w' = d) /\
      (w_db w' = d \/ swap d (w_db w'))
  end.
Proof.
  assert (Hgate : forall (m : M bool) msg e swap elig,
    is_cas elig swap m ->
    (ok <- wrap msg m;; if negb ok then throw e else ret tt) w = (r, w') ->
    match r with
    | Ok _ => swap (w_db (interact w)) (w_db w')
    | Err e' => ((forall m' e1, e' <> EWrap m' e1) -> ~ elig (w_db (interact w)) /\ w_db w' = w_db (interact w)) /\
        (w_db w' = w_db (interact w) \/ swap (w_db (interact w)) (w_db w'))
    end).
  { intros m msg e swap elig Hm Hw. unfold bind, wrap, map_err in Hw.
    destruct (m w) as [x w1] eqn:H1. apply Hm in H1 as (_ & _ & _ & _ & H1).
    destruct x as [[]|e1]; unfold ret, throw in Hw; simplify_eq/=; [done|..].
    - destruct H1 as [H1 ->]. auto.
    - split; [|done]. intros Hno. by destruct (Hno msg e1). }
  intros Hw. simpl. destruct sell; simpl in *; eapply Hgate in Hw;
    [|apply ir_ConfirmSale_cas| |apply ir_Release_cas]; (destruct r as [|e]; [done|]);
    (destruct Hw as [Hw1 Hw2]; split; [|done]); intros ->; by apply Hw1.
Qed.

(** One write while a sweep that listed its rows in [d0] at [now] is running. *)
Definition sweep_step (now : Time) (d0 d d' : DB) : Prop :=
  (exists n, d' = env_others n d) \/
  exists i row tok, inventory d0 !! i = Some row /\ expired_at now row = true /\ inv_HoldToken row = Some tok /\
    swapped (inv_TenantID row) (inv_ID row) (is_held_by tok) InventoryStatusAvailable None None None d d'.

(** C24: the expiry sweep is race-safe. Whatever happens between listing the
    expired holds and releasing them, every write of the sweep gives back a
    row that is at that moment still held under the very token whose hold was
    listed as expired: a seat that was sold, released or held again meanwhile
    under another token is never touched. *)
Theorem Sweep_race_safe batch w r w' :
  SweepExpiredHolds batch w = (r, w') ->
  exists d0, others (w_db w) d0 /\ rtc (sweep_step (env_clock (w_tick w)) d0) d0 (w_db w').
Proof.
  unfold SweepExpiredHolds. intros [(now & w0 & [= <- <-] & Hw)|(? & [=] & _)]%bind_inv.
  apply bind_inv in Hw as [(l & w1 & Hl%wrap_Ok & Hw)|(e & Hl & ->)].
  - pose proof (interact_others (set_tick (S (w_tick w)) w)) as Ho.
    apply ir_ListExpiredHolds_sound in Hl as (_ & Hd & Hl). rewrite <- Hd in Ho.
    exists (w_db w1). split; [exact Ho|].
    set (G := rtc (sweep_step (env_clock (w_tick w)) (w_db w1))).
    assert (rely : forall n d, G d (env_others n d)) by (intros; apply rtc_once; left; eauto).
    refine (proj2 (upholds_fold G sweep_row 0%Z l _ _ _ _ Hw)).
    intros b row Hrow. destruct (Hl row Hrow) as (Hexp & i & Hi). unfold sweep_row.
    destruct (inv_HoldToken row) as [tok|] eqn:Htok; [|apply upholds_ret; apply _].
    apply upholds_bind; [apply _| |intros ?; apply upholds_ret; apply _].
    apply upholds_wrap. eapply cas_upholds; [apply _|exact rely| |apply ir_Release_cas].
    intros d d' Hs. apply rtc_once. right. exists i, row, tok. by split_and!.
  - apply wrap_inv in Hl as [(? & ? & _)|(e' & [= ->] & Hl)]; [done|].
    pose proof (interact_others (set_tick (S (w_tick w)) w)) as Ho.
    apply ir_ListExpiredHolds_sound in Hl as (_ & Hd & _). rewrite <- Hd in Ho.
    exists (w_db w'). split; [exact Ho|reflexivity].
Qed.

End service.

(** ** With the Postgres repository, nobody interfering *)

Section quiet_sweep.
Context `{U : UuidPkg} `{E : Env} `{!Quiet}.

Definition released_row (d' : DB) (r : EventSeatInventory) : Prop :=
  exists t, inventory d' !! inv_ID r = Some (set_hold InventoryStatusAvailable None None None t r).

Lemma sweep_row_quiet n r w :
  inventory (w_db w) !! inv_ID r = Some r -> inv_Status r = InventoryStatusHeld -> is_Some (inv_HoldToken r) ->
  exists t a, let d := w_db w in
    let d' := set_inventory (<[inv_ID r := set_hold InventoryStatusAvailable None None None t r]> (inventory d)) a d in
    sweep_row n r w = (Ok (n + 1)%Z, set_db d' (set_wrote true (set_tick (S (w_tick w)) w))).
Proof.
  intros Hr Hst [tok Htok]. exists (db_now w). eexists. simpl. unfold sweep_row, bind, wrap, map_err. rewrite Htok.
  simpl. unfold Release, bind, wrap, map_err, ret. rewrite sql_quiet. unfold release_stmt, update_inventory, token_matches.
  rewrite Hr, N.eqb_refl, !bool_decide_true by done. simpl. done.
Qed.

Lemma sweep_fold l w n :
  NoDup (inv_ID <$> l) ->
  (forall r, r ∈ l -> inventory (w_db w) !! inv_ID r = Some r /\ inv_Status r = InventoryStatusHeld /\ is_Some (inv_HoldToken r)) ->
  exists w', fold_loop sweep_row n l w = (Ok (n + Z.of_nat (length l))%Z, w') /\
    (forall r, r ∈ l -> released_row (w_db w') r) /\
    (forall i, i ∉ inv_ID <$> l -> inventory (w_db w') !! i = inventory (w_db w) !! i) /\
    w_db w' = set_inventory (inventory (w_db w')) (audit_log (w_db w')) (w_db w).
Proof.
  revert w n. induction l as [|r l IH]; intros w n Hnd Hl; cbn [fold_loop length].
  { exists w. unfold ret. rewrite Z.add_0_r. split_and!; [done|by intros ? ?%elem_of_nil|done|by destruct w as [? [] ? ? ? ? ? ?]]. }
  apply NoDup_cons in Hnd as [Hnin Hnd].
  destruct (Hl r) as (Hr & Hst & Htok); [by apply elem_of_cons; left|].
  destruct (sweep_row_quiet n r w Hr Hst Htok) as (t & a & Hs). simpl in Hs.
  set (w1 := set_db _ _) in Hs.
  destruct (IH w1 (n + 1)%Z Hnd) as (w' & Hf & H1 & H2 & H3).
  { intros r' Hr'. destruct (Hl r') as (Hi & ? & ?); [by apply elem_of_cons; right|]. split_and!; [|done..].
    simpl. rewrite lookup_insert_ne; [done|]. intros Heq. apply Hnin. rewrite Heq. by apply list_elem_of_fmap_2. }
  exists w'. unfold bind. rewrite Hs, Hf. split_and!.
  - do 2 f_equal. lia.
  - intros r' [->|Hr']%elem_of_cons; [|by apply H1].
    exists t. rewrite H2 by done. simpl. by rewrite lookup_insert_eq.
  - intros i Hi. rewrite fmap_cons, not_elem_of_cons in Hi. destruct Hi as [Hne Hi]. rewrite H2 by done. simpl.
    by rewrite lookup_insert_ne.
  - rewrite H3. simpl. done.
Qed.

Lemma Sweep_post batch w :
  inventory_wf (w_db w) -> (0 <= batch)%Z ->
  exists w' l, SweepExpiredHolds batch w = (Ok (Z.of_nat (length l)), w') /\ NoDup (inv_ID <$> l) /\
    (forall r, r ∈ l -> expired_at (env_clock (w_tick w)) r = true /\ inventory (w_db w) !! inv_ID r = Some r /\
       released_row (w_db w') r) /\
    (forall i, i ∉ inv_ID <$> l -> inventory (w_db w') !! i = inventory (w_db w) !! i) /\
    (forall i r, inventory (w_db w') !! i = Some r -> expired_at (env_clock (w_tick w)) r = true ->
       Z.of_nat (length l) = batch) /\
    w_db w' = set_inventory (inventory (w_db w')) (audit_log (w_db w')) (w_db w).
Proof.
  intros Hwf Hbatch. set (now := env_clock (w_tick w)).
  set (l := limit batch (order_by expiry_key (rows_where (expired_at now) (inventory (w_db w))))).
  assert (Hl : forall r, r ∈ l -> expired_at now r = true /\ inventory (w_db w) !! inv_ID r = Some r).
  { intros r Hr%elem_of_limit. rewrite elem_of_order_by in Hr. apply elem_of_rows_where in Hr as (He & i & Hi).
    split; [done|]. by destruct (Hwf _ _ Hi) as [-> _]. }
  assert (Hnd : NoDup (inv_ID <$> l)).
  { apply batch_ids. intros i r Hi. by apply Hwf in Hi as [-> _]. }
  set (w1 := set_tick (S (S (w_tick w))) w).
  destruct (sweep_fold l w1 0 Hnd) as (w' & Hf & H1 & H2 & H3).
  { intros r Hr. destruct (Hl r Hr) as [He Hi]. split; [done|]. destruct (Hwf _ _ Hi) as [_ Hc].
    unfold expired_at in He. apply andb_true_iff in He as [Hst%bool_decide_eq_true _]. split; [done|].
    unfold inventory_check in Hc. rewrite Hst in Hc. destruct (inv_HoldToken r); [eauto|done]. }
  exists w', l. split_and!; [|done| |done| |done].
  - unfold SweepExpiredHolds, bind at 1, time_Now. unfold bind, wrap, map_err. simpl.
    unfold ListExpiredHolds, wrap, map_err. rewrite select_quiet. simpl. unfold list_expired_stmt.
    rewrite (proj2 (Z.ltb_ge batch 0) Hbatch). simpl. fold now l.
    replace (set_db (w_db w) _) with w1 by (by destruct w). by rewrite Hf.
  - intros r Hr. destruct (Hl r Hr). auto.
  - intros i r Hi He. destruct (decide (i ∈ inv_ID <$> l)) as [(r0 & -> & Hr0)%list_elem_of_fmap|Hn].
    + destruct (H1 r0 Hr0) as [t Ht]. by simplify_eq.
    + rewrite H2 in Hi by done. simpl in Hi.
      assert (Hin : r ∈ order_by expiry_key (rows_where (expired_at now) (inventory (w_db w))))
        by (apply elem_of_order_by, elem_of_rows_where; eauto).
      destruct (decide (Z.of_nat (length l) = batch)) as [|Hlt]; [done|exfalso].
      destruct Hn. destruct (Hwf _ _ Hi) as [<- _]. apply list_elem_of_fmap_2. revert Hin Hlt.
      unfold l, limit. intros Hin. rewrite length_take. intros Hlt. by rewrite take_ge by lia.
Qed.

(** A sweep that nobody interferes with does the whole job: it succeeds,
    counts exactly the rows it returned to sale, gives back every expired hold
    unless the batch bound is reached, and changes nothing else. *)
Theorem Sweep_complete batch w :
  inventory_wf (w_db w) -> (0 <= batch)%Z ->
  exists w' l, SweepExpiredHolds batch w = (Ok (Z.of_nat (length l)), w') /\
    (forall r, r ∈ l -> expired_at (env_clock (w_tick w)) r = true /\ inventory (w_db w) !! inv_ID r = Some r /\
       released_row (w_db w') r) /\
    (forall i, i ∉ inv_ID <$> l -> inventory (w_db w') !! i = inventory (w_db w) !! i) /\
    (forall i r, inventory (w_db w') !! i = Some r -> expired_at (env_clock (w_tick w)) r = true ->
       Z.of_nat (length l) = batch) /\
    w_db w' = set_inventory (inventory (w_db w')) (audit_log (w_db w')) (w_db w).
Proof. intros Hwf Hb. destruct (Sweep_post batch w Hwf Hb) as (w' & l & H1 & _ & H2). by exists w', l. Qed.

End quiet_sweep.

Lemma Sweep_complete_witness : exists w' (l : list EventSeatInventory),
  SweepExpiredHolds 100 (fx_world fx_db) = (Ok (Z.of_nat (length l)), w') /\
  forall i r, inventory (w_db w') !! i = Some r -> expired_at 1000000 r = true -> Z.of_nat (length l) = 100%Z.
Proof.
  destruct (Sweep_complete 100 (fx_world fx_db) fx_inventory_wf ltac:(lia)) as (w' & l & H1 & _ & _ & H2 & _).
  exists w', l. split; [exact H1|exact H2].
Defined.

Lemma Sweep_race_safe_witness : exists d0,
  others (w_db (fx_world fx_db)) d0 /\
  rtc (sweep_step 1000000 d0) d0 (w_db (SweepExpiredHolds 100 (fx_world fx_db)).2).
Proof.
  exact (Sweep_race_safe 100 (fx_world fx_db) _ _ (surjective_pairing (SweepExpiredHolds 100 (fx_world fx_db)))).
Defined.

Lemma token_gate_witness :
  swapped 1 101 (is_held_by 500) InventoryStatusSold None None None fx_db (w_db (ConfirmSale 1 101 500 (fx_world fx_db)).2).
Proof.
  assert (H : fst (ConfirmSale 1 101 500 (fx_world fx_db)) = Ok tt) by (vm_compute; reflexivity).
  exact (token_gate 1 101 500 (fx_world fx_db) _ _ true (run_Ok _ _ H)).
Defined.

(** ** With the Redis layer as well: the decision [HoldSeat] takes *)

Section decision.
Context `{U : UuidPkg, !UuidLaws U} `{R : RedisServer, !RedisLaws R} `{E : !Env, !Quiet, !SteadyClock}.
Context (cfg : Config).

Lemma only_elsewhere t t' k k' x s s' :
  r_only t k x s s' -> k' <> k -> (t <= t')%Z -> r_lookup t' k' s' = r_lookup t' k' s.
Proof.
  intros Ho Hk Ht. rewrite (only_later _ _ _ _ _ _ k' Ho Ht).
  apply String.eqb_neq in Hk as ->. by rewrite (r_time t t' k' s Ht).
Qed.

(** After the owner unlocks the key it is free, expired or not. *)
Lemma unlock_frees t key tok d s :
  (forall x, r_lookup t key s = Some x -> x = (RStr tok, d)) ->
  r_lookup t key (unlockScript key tok t s).2 = None.
Proof.
  intros Hk. unfold unlockScript. destruct (r_get t key s) as [v|] eqn:Hg; simpl.
  - apply r_get_spec in Hg as [d' Hg]. apply Hk in Hg as [= -> ->]. rewrite String.eqb_refl.
    destruct (r_del_spec t key s) as [_ Ho]. by rewrite (Ho key), String.eqb_refl.
  - destruct (r_lookup t key s) as [x|] eqn:Hl; [|done]. rewrite (Hk _ eq_refl) in Hl.
    assert (r_get t key s = Some tok) by (apply r_get_spec; eauto). congruence.
Qed.

Definition present {A} (x : option A) : bool := match x with Some _ => true | None => false end.

(** [k] interactions later, the database untouched. *)
Definition advanced (k : nat) (w w' : World) : Prop :=
  w_tick w' = (w_tick w + k)%nat /\ w_db w' = w_db w /\ w_tx w' = w_tx w.

Lemma IsAdmitted_quiet e u w :
  exists w', IsAdmitted e u w = (Ok (present (r_lookup (env_clock (w_tick w)) (admittedKey e u) (w_redis w))), w') /\
    advanced 1 w w' /\ w_redis w' = w_redis w.
Proof.
  unfold IsAdmitted, bind, wrap, map_err. rewrite redis_quiet. eexists. unfold advanced.
  split; [rewrite r_exists_spec; by destruct (r_lookup _ _ _)|]. simpl. split_and!; [lia|done..].
Qed.

(** The attempts a limiter key counts: none without the key. *)
Definition counts (x : option (RVal * option Time)) (c : Z) : Prop :=
  match x with None => c = 0%Z | Some (RInt n, _) => n = c /\ (1 <= c < int64_max)%Z | Some _ => False end.
(** A key keeps its deadline; a new one gets it from EXPIRE. *)
Definition deadline (x : option (RVal * option Time)) (d : Time) : option Time :=
  match x with None => Some d | Some (_, dl) => dl end.
(** The EXPIRE is one interaction more. *)
Definition extra (c : Z) : nat := if (c =? 0)%Z then 1 else 0.

Lemma Allow_quiet key limit window c w :
  let x := r_lookup (env_clock (w_tick w)) key (w_redis w) in
  counts x c -> (0 < window)%Z ->
  exists w', Allow key limit window w = (Ok (c + 1 <=? limit)%Z, w') /\ advanced (1 + extra c) w w' /\
    forall t' k', (env_clock (w_tick w + extra c) <= t')%Z ->
      r_lookup t' k' (w_redis w') =
        (if String.eqb k' key then live t' (Some (RInt (c + 1), deadline x (env_clock (w_tick w + 1) + window)%Z))
         else r_lookup t' k' (w_redis w)).
Proof.
  intros x Hx Hwin. unfold Allow, bind, wrap, map_err, advanced, extra. rewrite redis_quiet.
  destruct x as [[[y|n|z] dl]|] eqn:Hl; simpl in Hx; [done| |done|]; subst x.
  - destruct Hx as [-> Hc]. destruct (r_incr_int _ _ _ _ _ Hl ltac:(lia)) as (s1 & -> & Ho).
    destruct (Z.eqb_spec (c + 1) 1), (Z.eqb_spec c 0); [lia..|]. eexists. split; [done|]. simpl.
    split; [split_and!; [lia|done..]|]. intros t' k' Ht. rewrite Nat.add_0_r in Ht.
    destruct (String.eqb_spec k' key) as [->|Hk]; [|by eapply only_elsewhere].
    by rewrite (only_later _ _ _ _ _ _ key Ho Ht), String.eqb_refl.
  - subst c. destruct (r_incr_fresh _ _ _ Hl) as (s1 & -> & Ho). simpl. rewrite redis_quiet. simpl.
    assert (H1 : r_lookup (env_clock (S (w_tick w))) key s1 = Some (RInt 1, None)).
    { rewrite (only_later _ _ _ _ _ (env_clock (S (w_tick w))) key Ho), String.eqb_refl by (apply clock_mono; lia). done. }
    pose proof (r_expire_spec _ _ window _ _ _ Hwin H1) as He.
    eexists. split; [done|]. simpl. split; [split_and!; [lia|done..]|].
    replace (w_tick w + 1)%nat with (S (w_tick w)) by lia. intros t' k' Ht.
    pose proof (clock_mono (w_tick w) (S (w_tick w)) ltac:(lia)).
    destruct (String.eqb_spec k' key) as [->|Hk].
    + by rewrite (only_later _ _ _ _ _ _ key He Ht), String.eqb_refl.
    + rewrite (only_elsewhere _ _ _ _ _ _ _ He Hk Ht). eapply only_elsewhere; [exact Ho|done|lia].
Qed.

Lemma Acquire_quiet key ttl w :
  (0 < ttl)%Z ->
  let T := env_clock (w_tick w + 1) in
  let tok := uuid_String (env_uuid (w_tick w)) in
  let old := r_lookup T key (w_redis w) in
  exists w', Acquire key ttl w = (Ok (tok, negb (present old)), w') /\ advanced 2 w w' /\
    r_only T key (Some (default (RStr tok, Some (T + ttl)%Z) old)) (w_redis w) (w_redis w').
Proof.
  intros Httl T tok old. unfold Acquire, bind at 1, uuid_New, bind, wrap, map_err.
  rewrite redis_quiet. simpl. pose proof (r_setnx_spec T key tok ttl (w_redis w) Httl) as Hs.
  subst T old. replace (w_tick w + 1)%nat with (S (w_tick w)) in * by lia.
  fold tok. destruct (r_setnx _ _ _ _ _) as [b s1]. eexists. unfold advanced.
  destruct (r_lookup _ _ _); simpl in *; destruct Hs as [-> Ho]; (split; [done|]); simpl;
    split_and!; try done; lia.
Qed.

Lemma unlock_elsewhere key tok k' t t' s :
  k' <> key -> (t <= t')%Z -> r_lookup t' k' (unlockScript key tok t s).2 = r_lookup t' k' s.
Proof.
  intros Hk Ht. unfold unlockScript. destruct (r_get t key s) as [v|]; [|done]. destruct (String.eqb v tok); [|done].
  destruct (r_del_spec t key s) as [_ Ho]. by eapply only_elsewhere.
Qed.

Lemma Unlock_quiet key tok w :
  exists w' b, Unlock key tok w = (Ok b, w') /\ advanced 1 w w' /\
    w_redis w' = (unlockScript key tok (env_clock (w_tick w)) (w_redis w)).2.
Proof.
  unfold Unlock, bind, wrap, map_err. rewrite redis_quiet. destruct (unlockScript _ _ _ _) as [n s'].
  eexists _, _. unfold advanced. split; [done|]. simpl. split_and!; [lia|done..].
Qed.

Lemma hold_row_quiet t i u w :
  w_tx w = None ->
  let tok := env_uuid (w_tick w) in
  let expires := TimeAdd (env_clock (w_tick w + 1)) (HoldDuration cfg) in
  exists w',
    match hold_stmt t i tok u expires (env_clock (w_tick w + 2)) (w_db w) with
    | Err e => hold_row cfg t i u w = (Err (EWrap "inventory: hold" (EWrap "postgres: hold inventory" e)), w') /\ w_db w' = w_db w
    | Ok (n, d') => hold_row cfg t i u w =
        (if (n =? 1)%Z then Ok (mkHoldResult tok expires) else Err (op_error "inventory.HoldSeat" ErrUnavailable), w') /\
        w_db w' = d'
    end /\ w_tick w' = (w_tick w + 3)%nat /\ w_redis w' = w_redis w.
Proof.
  intros Htx tok expires. subst tok expires.
  replace (w_tick w + 1)%nat with (S (w_tick w)) by lia. replace (w_tick w + 2)%nat with (S (S (w_tick w))) by lia.
  destruct (hold_stmt _ _ _ _ _ _ _) as [[n d']|e] eqn:Hs;
    unfold hold_row, bind at 1 2, uuid_New, time_Now; simpl;
    unfold bind, wrap, map_err, Hold, bind, wrap, map_err; rewrite sql_quiet;
    unfold db_now; simpl; rewrite Htx, Hs; unfold ret; [destruct (n =? 1)%Z|];
    (eexists; split; [split; reflexivity|]); simpl; split; (done || lia).
Qed.

(** What [HoldSeat] answers and does to the database, from what the keys and
    the row contain when each step looks at them. *)
Definition hold_verdict (admitted : bool) (count : Z) (locked : bool) (cas : result (Z * DB))
    (d : DB) (res : HoldResult) : result HoldResult * DB :=
  if negb admitted then (Err (ESentinel (SInventory ErrNotAdmitted)), d)
  else if negb (count <=? HoldRateLimit cfg)%Z then (Err (ESentinel (SInventory ErrRateLimited)), d)
  else if negb (negb locked) then (Err (ESentinel (SInventory ErrLockContention)), d)
  else match cas with
       | Err e => (Err (EWrap "inventory: hold" (EWrap "postgres: hold inventory" e)), d)
       | Ok (n, d') => (if (n =? 1)%Z then Ok res else Err (op_error "inventory.HoldSeat" ErrUnavailable), d')
       end.

(** C15: the decision table of [HoldSeat]. Run against Redis and Postgres with
    nobody interfering, a fan's first attempt in a window or a later one alike,
    it answers "not admitted", "rate limited", "contended", "unavailable" or a
    hold exactly as the admission key, the attempt counter, the lock key and the
    row say, and writes the database only in the last case. Every attempt of an
    admitted fan is counted, the first one opening the fan's window, and the
    row's lock is never left behind. *)
Theorem HoldSeat_decides t ev i u c w :
  let at_ k := env_clock (w_tick w + k) in
  let s := w_redis w in
  let attempts := r_lookup (at_ 1%nat) (rateLimitKey t ev u) s in
  counts attempts c -> (0 < HoldRateLimitWindow cfg)%Z -> (0 < LockTTL cfg)%Z -> w_tx w = None ->
  let k := extra c in
  let tok := env_uuid (w_tick w + (4 + k)) in
  let expires := TimeAdd (at_ (5 + k)%nat) (HoldDuration cfg) in
  let v := hold_verdict (present (r_lookup (at_ 0%nat) (admittedKey ev u) s)) (c + 1)
             (present (r_lookup (at_ (3 + k)%nat) (lockKey t i) s))
             (hold_stmt t i tok u expires (at_ (6 + k)%nat) (w_db w)) (w_db w) (mkHoldResult tok expires) in
  exists w', HoldSeat cfg t ev i u w = (fst v, w') /\ w_db w' = snd v /\
    let now := env_clock (w_tick w') in
    (r_lookup (at_ 0%nat) (admittedKey ev u) s <> None ->
     r_lookup now (rateLimitKey t ev u) (w_redis w') =
       live now (Some (RInt (c + 1), deadline attempts (at_ 2%nat + HoldRateLimitWindow cfg)%Z))) /\
    (r_lookup (at_ 0%nat) (admittedKey ev u) s <> None -> (c + 1 <= HoldRateLimit cfg)%Z ->
     r_lookup (at_ (3 + k)%nat) (lockKey t i) s = None -> r_lookup now (lockKey t i) (w_redis w') = None).
Proof.
  cbv beta zeta. intros Hc Hwin Httl Htx.
  destruct (IsAdmitted_quiet ev u w) as (w1 & H1 & (T1 & D1 & X1) & R1).
  rewrite <- T1, <- R1 in Hc.
  destruct (Allow_quiet _ (HoldRateLimit cfg) (HoldRateLimitWindow cfg) _ _ Hc Hwin) as (w2 & H2 & (T2 & D2 & X2) & R2).
  rewrite T1, R1 in R2. replace (w_tick w + 1 + 1)%nat with (w_tick w + 2)%nat in R2 by lia.
  destruct (Acquire_quiet (lockKey t i) (LockTTL cfg) w2 Httl) as (w3 & H3 & (T3 & D3 & X3) & R3).
  assert (Hlk : r_lookup (env_clock (w_tick w2 + 1)) (lockKey t i) (w_redis w2)
              = r_lookup (env_clock (w_tick w + (3 + extra c))) (lockKey t i) (w_redis w)).
  { replace (w_tick w + (3 + extra c))%nat with (w_tick w2 + 1)%nat by lia. apply R2, clock_mono. lia. }
  rewrite Hlk in H3, R3.
  set (counter := Some (RInt (c + 1), _)).
  assert (C2 : forall n, (w_tick w2 <= n)%nat -> r_lookup (env_clock n) (rateLimitKey t ev u) (w_redis w2) = live (env_clock n) counter).
  { intros n Hn. rewrite R2, String.eqb_refl by (apply clock_mono; lia). done. }
  assert (C3 : forall n, (w_tick w3 <= n)%nat -> r_lookup (env_clock n) (rateLimitKey t ev u) (w_redis w3) = live (env_clock n) counter).
  { intros n Hn. rewrite <- C2 by lia. eapply only_elsewhere; [exact R3|done|apply clock_mono; lia]. }
  unfold HoldSeat, bind at 1, wrap at 1, map_err at 1. cbn [wr_IsAdmitted WaitingRoom]. rewrite H1, Nat.add_0_r.
  unfold hold_verdict. destruct (r_lookup _ (admittedKey ev u) _); cbn [present negb fst snd].
  2: { exists w1. by split_and!. }
  unfold bind at 1, wrap at 1, map_err at 1. cbn [rl_Allow RateLimiter]. rewrite H2.
  destruct (Z.leb_spec (c + 1) (HoldRateLimit cfg)) as [Hle|Hgt]; cbn [negb fst snd].
  2: { exists w2. split_and!; [done|congruence|by intros _; apply C2|lia]. }
  unfold bind at 1, wrap at 1, map_err at 1. cbn [lk_Acquire Locker]. rewrite H3.
  destruct (r_lookup _ (lockKey t i) _) eqn:Hlock; cbn [present negb fst snd].
  { exists w3. split_and!; [done|congruence|by intros _; apply C3|done]. }
  cbn [default] in R3.
  destruct (hold_row_quiet t i u w3) as (w4 & H4 & T4 & R4); [congruence|].
  destruct (Unlock_quiet (lockKey t i) (uuid_String (env_uuid (w_tick w2))) w4) as (w5 & b & H5 & (T5 & D5 & X5) & R5).
  exists w5. unfold defer. cbn [lk_Release Locker].
  replace (w_tick w + (4 + extra c))%nat with (w_tick w3) by lia.
  replace (w_tick w + (5 + extra c))%nat with (w_tick w3 + 1)%nat by lia.
  replace (w_tick w + (6 + extra c))%nat with (w_tick w3 + 2)%nat by lia. replace (w_db w) with (w_db w3) by congruence.
  split; [|split; [|split]].
  - destruct (hold_stmt _ _ _ _ _ _ _) as [[]|]; destruct H4 as [-> _]; by rewrite H5.
  - rewrite D5. destruct (hold_stmt _ _ _ _ _ _ _) as [[]|]; by destruct H4 as [_ ->].
  - intros _. rewrite R5, unlock_elsewhere, R4 by (done || apply clock_mono; lia). apply C3. lia.
  - intros _ _ _.
    assert (Hle4 : (env_clock (w_tick w2 + 1) <= env_clock (w_tick w4))%Z) by (apply clock_mono; lia).
    assert (Hfree : r_lookup (env_clock (w_tick w4)) (lockKey t i) (w_redis w5) = None).
    { rewrite R5, R4. eapply unlock_frees. intros x Hx.
      rewrite (only_later _ _ _ _ _ _ _ R3 Hle4), String.eqb_refl in Hx. simpl in Hx.
      destruct (_ <? _)%Z in Hx; [|done]. injection Hx as <-. done. }
    eapply lookup_gone; [exact Hfree|]. apply clock_mono. lia.
Qed.
End decision.

Definition fx_admitted : gmap string (RVal * option Time) :=
  <[admittedKey 20 11 := (RStr "1", Some 900000000%Z)]>
    {[rateLimitKey 1 20 11 := (RInt 1, Some 60000000%Z)]}.
Definition fx_hold_world : World (H := ref_redis) := set_redis (H := ref_redis) fx_admitted (fx_world fx_db).
(** The same fan before the first attempt. *)
Definition fx_first_world : World (H := ref_redis) :=
  set_redis (H := ref_redis) {[admittedKey 20 11 := (RStr "1", Some 900000000%Z)]} (fx_world fx_db).

Lemma HoldSeat_decides_witness :
  (exists w', HoldSeat DefaultConfig 1 20 100 11 fx_hold_world = (Ok (mkHoldResult 1004 301005000), w')) /\
  (exists w', HoldSeat DefaultConfig 1 20 100 11 fx_first_world = (Ok (mkHoldResult 1005 301006000), w') /\
     r_lookup (env_clock (w_tick w')) (rateLimitKey 1 20 11) (w_redis w') = 
       live (env_clock (w_tick w')) (Some (RInt 1, Some 61002000%Z))).
Proof.
  split.
  - destruct (HoldSeat_decides DefaultConfig 1 20 100 11 1 fx_hold_world) as (w' & H & _).
    + vm_compute. intuition congruence.
    + vm_compute. reflexivity.
    + vm_compute. reflexivity.
    + reflexivity.
    + exists w'. rewrite H. apply (f_equal (fun x => (x, w'))). vm_compute. reflexivity.
  - destruct (HoldSeat_decides DefaultConfig 1 20 100 11 0 fx_first_world) as (w' & H & _ & Hc & _).
    + vm_compute. reflexivity.
    + vm_compute. reflexivity.
    + vm_compute. reflexivity.
    + reflexivity.
    + exists w'. split.
      * rewrite H. apply (f_equal (fun x => (x, w'))). vm_compute. reflexivity.
      * apply Hc. vm_compute. discriminate.
Defined.

Lemma HoldSeat_one_swap_witness : exists d1 d2,
  hold_outcome 1 100 11 (HoldSeat DefaultConfig 1 20 100 11 fx_hold_world).1 d1 d2.
Proof.
  destruct (HoldSeat_one_swap DefaultConfig 1 20 100 11 fx_hold_world _ _
              (surjective_pairing (HoldSeat DefaultConfig 1 20 100 11 fx_hold_world))) as (d1 & d2 & _ & H & _).
  exists d1, d2. exact H.
Defined.
