(* ===== verification/CheckoutRepos.v ===== *)
(** * The checkout repositories ([order.go], [payment.go], [notification.go] of
    [src/internal/repository/postgres])

    Orders with their items, payments and the notification outbox: the
    constraints of migrations 000007, 000008, 000012 and 000014, and every
    repository method. *)
From S2P Require Import Prelude Domain Schema Redis Runtime.

(** An [idempotency_key] lookup or [id] lookup that came back empty. *)
Definition not_found (op : string) : GoError := NewError op (ESentinel (SDomain ErrNotFound)).

(** [INSERT] errors: a unique violation becomes [ErrConflict], the rest is wrapped. *)
Definition conflict_or (op msg : string) (e : GoError) : GoError :=
  if String.eqb (pgErrorCode e) pgCodeUniqueViolation
  then NewError op (ESentinel (SDomain ErrConflict)) else EWrap msg e.

Section rows.
Context `{E : Env}.

(** [if x.ID == uuid.Nil { x.ID = uuid.New() }]. *)
Definition fresh_if_nil (id : UUID) : M UUID := if (id =? uuid_Nil)%N then uuid_New else ret id.

(** The row a single-row query returned, or [ErrNotFound]. *)
Definition one_row {R} (op msg : string) (q : DB -> option R) : M R :=
  o <- wrap msg (select (query q));;
  match o with Some r => ret r | None => throw (not_found op) end.

(** An UPDATE that must hit a row. *)
Definition must_affect (op msg : string) (s : stmt Z) : M unit :=
  n <- wrap msg (sql s);;
  if (n =? 0)%Z then throw (not_found op) else ret tt.

Lemma fresh_if_nil_Ok id w i w' :
  fresh_if_nil id w = (Ok i, w') -> w_db w' = w_db w /\ same_session w w' /\ (id <> uuid_Nil -> i = id).
Proof.
  pose proof (same_session_refl w) as [Hm _]. unfold fresh_if_nil, uuid_New, ret, same_session.
  destruct (N.eqb_spec id uuid_Nil); intros [= <- <-]; simpl; split_and!; auto with lia; done.
Qed.

Lemma one_row_Ok {R} op msg (q : DB -> option R) w r w' :
  one_row op msg q w = (Ok r, w') ->
  q (w_db (interact w)) = Some r /\ w_db w' = w_db (interact w) /\ same_session w w'.
Proof.
  intros (o & w1 & (-> & Hd & Hs)%wrap_Ok%query_Ok & Hr)%bind_Ok.
  destruct (q _) eqn:Hq; [|done]. injection Hr as <- <-. by rewrite Hd.
Qed.

(** A read leaves the database to the others, whatever its outcome. *)
Lemma select_query_inv {A} (f : DB -> A) w r w' :
  select (query f) w = (r, w') ->
  w_db w' = w_db (interact w) /\ same_session w w' /\ (r = Ok (f (w_db w')) \/ r = Err transport_error).
Proof.
  intros Hw. split_and!; [|by eapply exec_session|];
    apply exec_inv in Hw as [(a & d & [= <- <-] & -> & Hr)|(e & x & -> & -> & Hr)]; simpl; try done; naive_solver.
Qed.

Lemma one_row_inv {R} op msg (q : DB -> option R) w r w' :
  one_row op msg q w = (r, w') ->
  w_db w' = w_db (interact w) /\ same_session w w' /\
  match r with
  | Ok x => q (w_db w') = Some x
  | Err e => (e = not_found op /\ q (w_db w') = None) \/ e = EWrap msg transport_error
  end.
Proof.
  intros [(o & w1 & Ho%wrap_Ok & Hr)|(e & He & ->)]%bind_inv.
  - apply select_query_inv in Ho as (Hd & Hs & [[= ->]|]); [|done].
    destruct (q (w_db w1)) eqn:Hq; injection Hr as <- <-; split_and!; auto.
  - apply wrap_inv in He as [(? & [=] & _)|(e' & [= ->] & He)].
    apply select_query_inv in He as (Hd & Hs & [|[= ->]]); [done|]. split_and!; auto.
Qed.

Lemma must_affect_Ok op msg (s : stmt Z) w u w' :
  must_affect op msg s w = (Ok u, w') ->
  exists n d, s (db_now w) (w_db (interact w)) = Ok (n, d) /\ n <> 0%Z /\ w_db w' = d /\ same_session w w'.
Proof.
  intros (n & w1 & Hs%wrap_Ok & Hr)%bind_Ok. pose proof (exec_session _ _ _ _ _ Hs).
  apply sql_Ok in Hs as (d & Hs & ->). destruct (Z.eqb_spec n 0); [done|]. injection Hr as <- <-. eauto 6.
Qed.

Lemma must_affect_wrote op msg (s : stmt Z) w u w' : must_affect op msg s w = (Ok u, w') -> w_wrote w' = true.
Proof.
  intros (n & w1 & Hs%wrap_Ok & Hr)%bind_Ok. apply sql_Ok in Hs as (d & _ & ->).
  destruct (n =? 0)%Z; [done|]. by injection Hr as <- <-.
Qed.

Lemma one_row_quiet `{!Quiet} {R} op msg (q : DB -> option R) r w :
  q (w_db w) = Some r -> one_row op msg q w = (Ok r, set_tick (S (w_tick w)) w).
Proof. intros Hq. unfold one_row, bind, wrap, map_err. by rewrite query_quiet, Hq. Qed.

Lemma must_affect_quiet `{!Quiet} op msg (s : stmt Z) d w :
  s (db_now w) (w_db w) = Ok (1%Z, d) -> must_affect op msg s w = (Ok tt, set_db d (set_wrote true (set_tick (S (w_tick w)) w))).
Proof. intros Hs. unfold must_affect, bind, wrap, map_err. by rewrite sql_quiet, Hs. Qed.

(** [SetTenantContext]: [set_config] for the transaction; it changes no row, and
    no statement of the model depends on the setting (the row level security of
    migration 000011 does not bind the owner of the tables). *)
Definition SetTenantContext (tenantID : UUID) : M unit :=
  wrap "postgres: set tenant context" (select (query (fun _ => tt))).
End rows.

Module OrderRepo.

Definition order_money_ok (o : Order) : bool :=
  (0 <=? Cents (o_Subtotal o))%Z && (0 <=? Cents (o_Fees o))%Z && (0 <=? Cents (o_Total o))%Z.

(** The row as stored: one currency column, the total's. *)
Definition stored (now : Time) (o : Order) : Order :=
  let cur := Currency (o_Total o) in
  mkOrder (o_ID o) (o_TenantID o) (o_UserID o) (o_Status o) (o_IdempotencyKey o)
    (mkMoney (Cents (o_Subtotal o)) cur) (mkMoney (Cents (o_Fees o)) cur) (o_Total o) (o_ExpiresAt o) now now.

Definition insert_order (o : Order) : stmt unit := fun now d =>
  insert_into orders set_orders (o_ID o) (stored now o) (order_money_ok o)
    (fun o' => (o_TenantID o' =? o_TenantID o)%N && String.eqb (o_IdempotencyKey o') (o_IdempotencyKey o))
    (fun d => fk (tenants d) (o_TenantID o) && fk (users d) (o_UserID o)) now d.

Definition stored_item (now : Time) (tenantID orderID id : UUID) (it : OrderItem) : OrderItem :=
  mkOrderItem id tenantID orderID (oi_EventSeatInventoryID it) (oi_HoldToken it) (oi_UnitPrice it) now.

Definition insert_item (tenantID orderID id : UUID) (it : OrderItem) : stmt unit := fun now d =>
  insert_into order_items set_order_items id (stored_item now tenantID orderID id it)
    (0 <=? Cents (oi_UnitPrice it))%Z (fun _ => false)
    (fun d => fk_tenant o_TenantID (orders d) orderID tenantID
              && fk_tenant inv_TenantID (inventory d) (oi_EventSeatInventoryID it) tenantID) now d.

(** The batch of INSERTs. *)
Fixpoint insert_items (tenantID orderID : UUID) (items : list (UUID * OrderItem)) : stmt unit := fun now d =>
  match items with
  | [] => Ok (tt, d)
  | (id, it) :: rest =>
      match insert_item tenantID orderID id it now d with
      | Err e => Err e
      | Ok (_, d') => insert_items tenantID orderID rest now d'
      end
  end.

Definition set_status (st : OrderStatus) (now : Time) (o : Order) : Order :=
  mkOrder (o_ID o) (o_TenantID o) (o_UserID o) st (o_IdempotencyKey o) (o_Subtotal o) (o_Fees o) (o_Total o)
    (o_ExpiresAt o) (o_CreatedAt o) now.

Definition update_status_stmt (tenantID id : UUID) (st : OrderStatus) : stmt Z :=
  update_row orders set_orders id (fun o => (o_TenantID o =? tenantID)%N) (set_status st)
    (fun _ => true) (fun _ _ => false).

(** [ORDER BY created_at] and [ORDER BY created_at DESC]. *)
Definition items_of (tenantID orderID : UUID) (d : DB) : list OrderItem :=
  order_by oi_CreatedAt (rows_where (fun it => (oi_TenantID it =? tenantID)%N && (oi_OrderID it =? orderID)%N) (order_items d)).
Definition orders_of (tenantID userID : UUID) (d : DB) : list Order :=
  order_by (fun o => (- o_CreatedAt o)%Z)
    (rows_where (fun o => (o_TenantID o =? tenantID)%N && (o_UserID o =? userID)%N) (orders d)).

Section repo.
Context `{E : Env}.

Definition with_ID (id : UUID) (o : Order) : Order :=
  mkOrder id (o_TenantID o) (o_UserID o) (o_Status o) (o_IdempotencyKey o) (o_Subtotal o) (o_Fees o) (o_Total o)
    (o_ExpiresAt o) (o_CreatedAt o) (o_UpdatedAt o).

Definition CreateWithItems (order : Order) (items : list OrderItem) : M unit :=
  id <- fresh_if_nil (o_ID order);;
  let order := with_ID id order in
  map_err (conflict_or "postgres.OrderRepo.CreateWithItems" "postgres: create order") (sql (insert_order order));;;
  match items with
  | [] => ret tt
  | _ =>
      batch <- fold_loop (fun acc it => i <- fresh_if_nil (oi_ID it);; ret (acc ++ [(i, it)])) [] items;;
      wrap "postgres: create order item" (sql (insert_items (o_TenantID order) (o_ID order) batch))
  end.

Definition GetByID (tenantID id : UUID) : M Order :=
  one_row "postgres.OrderRepo.GetByID" "postgres: get order" (fun d => in_tenant o_ID o_TenantID (orders d) tenantID id).

Definition GetByIdempotencyKey (tenantID : UUID) (key : string) : M Order :=
  one_row "postgres.OrderRepo.GetByIdempotencyKey" "postgres: get order by idempotency key"
    (fun d => find_row (fun o => (o_TenantID o =? tenantID)%N && String.eqb (o_IdempotencyKey o) key) (orders d)).

Definition ListItems (tenantID orderID : UUID) : M (list OrderItem) :=
  wrap "postgres: list order items" (select (query (items_of tenantID orderID))).

Definition UpdateStatus (tenantID id : UUID) (status : OrderStatus) : M unit :=
  must_affect "postgres.OrderRepo.UpdateStatus" "postgres: update order status" (update_status_stmt tenantID id status).

Definition ListByUser (tenantID userID : UUID) (lim off : Z) : M (list Order) :=
  wrap "postgres: list orders by user"
    (select (fun _ d => match page lim off (orders_of tenantID userID d) with Ok l => Ok (l, d) | Err e => Err e end)).

End repo.
End OrderRepo.

Module PaymentRepo.

Definition stored (now : Time) (p : Payment) : Payment :=
  mkPayment (p_ID p) (p_TenantID p) (p_OrderID p) (p_Provider p) (p_ProviderPaymentID p) (p_Status p) (p_Amount p)
    (p_IdempotencyKey p) (p_RawResponse p) now now.

(** UNIQUE (tenant_id, idempotency_key) and UNIQUE (provider, provider_payment_id);
    the empty provider id is stored as NULL and never clashes. *)
Definition clash (p p' : Payment) : bool :=
  ((p_TenantID p' =? p_TenantID p)%N && String.eqb (p_IdempotencyKey p') (p_IdempotencyKey p))
  || (bool_decide (p_Provider p' = p_Provider p) && negb (String.eqb (p_ProviderPaymentID p) "")
      && String.eqb (p_ProviderPaymentID p') (p_ProviderPaymentID p)).

Definition insert_payment (p : Payment) : stmt unit := fun now d =>
  insert_into payments set_payments (p_ID p) (stored now p) (0 <=? Cents (p_Amount p))%Z (clash p)
    (fun d => fk_tenant o_TenantID (orders d) (p_OrderID p) (p_TenantID p)) now d.

(** [COALESCE($2, provider_payment_id)] and [COALESCE($3, raw_response)]. *)
Definition set_status (st : PaymentStatus) (providerPaymentID : string) (raw : option string) (now : Time) (p : Payment) : Payment :=
  mkPayment (p_ID p) (p_TenantID p) (p_OrderID p) (p_Provider p)
    (if String.eqb providerPaymentID "" then p_ProviderPaymentID p else providerPaymentID)
    st (p_Amount p) (p_IdempotencyKey p)
    (match raw with Some r => Some r | None => p_RawResponse p end) (p_CreatedAt p) now.

Definition update_status_stmt (tenantID id : UUID) (st : PaymentStatus) (ppid : string) (raw : option string) : stmt Z :=
  update_row payments set_payments id (fun p => (p_TenantID p =? tenantID)%N) (set_status st ppid raw)
    (fun _ => true) clash.

Section repo.
Context `{E : Env}.

Definition Create (p : Payment) : M unit :=
  id <- fresh_if_nil (p_ID p);;
  let p := mkPayment id (p_TenantID p) (p_OrderID p) (p_Provider p) (p_ProviderPaymentID p) (p_Status p) (p_Amount p)
             (p_IdempotencyKey p) (p_RawResponse p) (p_CreatedAt p) (p_UpdatedAt p) in
  map_err (conflict_or "postgres.PaymentRepo.Create" "postgres: create payment") (sql (insert_payment p)).

Definition GetByID (tenantID id : UUID) : M Payment :=
  one_row "postgres.PaymentRepo.GetByID" "postgres: get payment" (fun d => in_tenant p_ID p_TenantID (payments d) tenantID id).

Definition GetByIdempotencyKey (tenantID : UUID) (key : string) : M Payment :=
  one_row "postgres.PaymentRepo.GetByIdempotencyKey" "postgres: get payment by idempotency key"
    (fun d => find_row (fun p => (p_TenantID p =? tenantID)%N && String.eqb (p_IdempotencyKey p) key) (payments d)).

Definition UpdateStatus (tenantID id : UUID) (status : PaymentStatus) (providerPaymentID : string) (raw : option string) : M unit :=
  must_affect "postgres.PaymentRepo.UpdateStatus" "postgres: update payment status"
    (update_status_stmt tenantID id status providerPaymentID raw).

End repo.
End PaymentRepo.

Module NotificationRepo.

(** CHECK (type IN (...)). *)
Definition known_type (t : NotificationType) : bool :=
  match t with NotificationTypeOrderConfirmation => true | NotificationTypeOther _ => false end.

Definition insert_notification (n : Notification) : stmt unit := fun now d =>
  insert_into notifications set_notifications (n_ID n)
    (mkNotification (n_ID n) (n_TenantID n) (n_UserID n) (n_Type n) (n_Payload n) (n_Status n) 0 "" now None)
    (known_type (n_Type n)) (fun _ => false) (fun d => fk (tenants d) (n_TenantID n) && fk (users d) (n_UserID n)) now d.

Definition is_pending (n : Notification) : bool := bool_decide (n_Status n = NotificationStatusPending).

Definition list_pending_stmt (lim : Z) : stmt (list Notification) := fun _ d =>
  if (lim <? 0)%Z then Err (EPg "2201W")
  else Ok (limit lim (order_by n_CreatedAt (rows_where is_pending (notifications d))), d).

Definition sent (now : Time) (n : Notification) : Notification :=
  mkNotification (n_ID n) (n_TenantID n) (n_UserID n) (n_Type n) (n_Payload n) NotificationStatusSent
    (n_Attempts n + 1) (n_LastError n) (n_CreatedAt n) (Some now).
Definition failed (errMsg : string) (now : Time) (n : Notification) : Notification :=
  mkNotification (n_ID n) (n_TenantID n) (n_UserID n) (n_Type n) (n_Payload n) NotificationStatusFailed
    (n_Attempts n + 1) errMsg (n_CreatedAt n) (n_SentAt n).

Definition mark_stmt (id : UUID) (upd : Time -> Notification -> Notification) : stmt Z :=
  update_row notifications set_notifications id (fun _ => true) upd (fun _ => true) (fun _ _ => false).

Section repo.
Context `{E : Env}.

(** On the fields of [n] that it looks at: the empty status, [None], is pending, and
    a nil payload is the empty object. *)
Definition Create (id tenantID userID : UUID) (typ : NotificationType) (payload : list (string * JSONValue))
    (status : option NotificationStatus) : M unit :=
  id <- fresh_if_nil id;;
  wrap "postgres: create notification"
    (sql (insert_notification
            (mkNotification id tenantID userID typ payload (default NotificationStatusPending status) 0 "" time_Zero None))).

Definition ListPending (lim : Z) : M (list Notification) :=
  wrap "postgres: list pending notifications" (select (list_pending_stmt lim)).

Definition MarkSent (id : UUID) : M unit :=
  must_affect "postgres.NotificationRepo.MarkSent" "postgres: mark notification sent" (mark_stmt id sent).

Definition MarkFailed (id : UUID) (errMsg : string) : M unit :=
  must_affect "postgres.NotificationRepo.MarkFailed" "postgres: mark notification failed" (mark_stmt id (failed errMsg)).

End repo.
End NotificationRepo.
