(* ===== verification/CatalogRepos.v ===== *)
(** * The catalogue repositories ([event.go], [seatcategory.go], [venue.go] of
    [src/internal/repository/postgres])

    Events with their ticket categories, seat categories and venues with
    sections and seats, under the constraints of migrations 000004 and
    000005. *)
From S2P Require Import Prelude Domain Schema Redis Runtime CheckoutRepos.

(** [ORDER BY] on a text column follows the database's collation. *)
Class Collation := {
  text_le : string -> string -> bool;
  text_le_total : forall a b, text_le a b = true \/ text_le b a = true;
  text_le_trans : forall a b c, text_le a b = true -> text_le b c = true -> text_le a c = true
}.

(** A collation for the witnesses: all texts are equal. *)
#[export] Instance fx_collation : Collation.
Proof. refine {| text_le _ _ := true |}; [by left|done]. Defined.

Definition by_text {R} `{Collation} (key : R -> string) (x y : R) : Prop := text_le (key x) (key y) = true.
#[global] Instance by_text_dec {R} `{Collation} (key : R -> string) x y : Decision (by_text key x y).
Proof. unfold by_text. apply _. Defined.
Definition order_by_text {R} `{Collation} (key : R -> string) (l : list R) : list R := merge_sort (by_text key) l.

Lemma elem_of_order_by_text {R} `{Collation} (key : R -> string) (l : list R) x : x ∈ order_by_text key l <-> x ∈ l.
Proof. unfold order_by_text. by rewrite merge_sort_Permutation. Qed.

(** A paginated SELECT. *)
Definition page_stmt {R} (lim off : Z) (rows : DB -> list R) : stmt (list R) := fun _ d =>
  match page lim off (rows d) with Ok l => Ok (l, d) | Err e => Err e end.

Module EventRepo.

Definition event_check (e : Event) : bool :=
  (e_SalesStartAt e <? e_SalesEndAt e)%Z && (e_SalesStartAt e <=? e_StartsAt e)%Z.

Definition insert_event (e : Event) : stmt unit := fun now d =>
  insert_into events set_events (e_ID e)
    (mkEvent (e_ID e) (e_TenantID e) (e_VenueID e) (e_Name e) (e_Competition e) (e_HomeTeam e) (e_AwayTeam e)
       (e_StartsAt e) (e_DoorsOpenAt e) (e_SalesStartAt e) (e_SalesEndAt e) (e_Status e) now now)
    (event_check e) (fun _ => false) (fun d => fk_tenant v_TenantID (venues d) (e_VenueID e) (e_TenantID e)) now d.

(** The updated columns; the venue is not among them. *)
Definition overwrite (e : Event) (now : Time) (r : Event) : Event :=
  mkEvent (e_ID r) (e_TenantID r) (e_VenueID r) (e_Name e) (e_Competition e) (e_HomeTeam e) (e_AwayTeam e)
    (e_StartsAt e) (e_DoorsOpenAt e) (e_SalesStartAt e) (e_SalesEndAt e) (e_Status e) (e_CreatedAt r) now.

Definition update_event (e : Event) : stmt Z :=
  update_row events set_events (e_ID e) (fun r => (e_TenantID r =? e_TenantID e)%N) (overwrite e)
    event_check (fun _ _ => false).

(** The dynamically built WHERE clause: tenant always, the rest when set. *)
Definition matches (f : EventFilter) (e : Event) : bool :=
  (e_TenantID e =? f_TenantID f)%N
  && match f_Status f with Some s => bool_decide (e_Status e = s) | None => true end
  && match f_VenueID f with Some v => (e_VenueID e =? v)%N | None => true end
  && match f_From f with Some t => (t <=? e_StartsAt e)%Z | None => true end
  && match f_To f with Some t => (e_StartsAt e <? t)%Z | None => true end.

Definition list_rows (f : EventFilter) (d : DB) : list Event := order_by e_StartsAt (rows_where (matches f) (events d)).

Definition stored_category (now : Time) (c : EventTicketCategory) : EventTicketCategory :=
  mkEventTicketCategory (etc_ID c) (etc_TenantID c) (etc_EventID c) (etc_SeatCategoryID c) (etc_Price c)
    (etc_MaxPerOrder c) now now.

Definition insert_category (c : EventTicketCategory) : stmt unit := encoded (in_int4 (etc_MaxPerOrder c)) (fun now d =>
  insert_into event_ticket_categories set_event_ticket_categories (etc_ID c) (stored_category now c)
    ((0 <=? Cents (etc_Price c))%Z && (0 <? etc_MaxPerOrder c)%Z)
    (fun c' => (etc_EventID c' =? etc_EventID c)%N && (etc_SeatCategoryID c' =? etc_SeatCategoryID c)%N)
    (fun d => fk_tenant e_TenantID (events d) (etc_EventID c) (etc_TenantID c)
              && fk_tenant sc_TenantID (seat_categories d) (etc_SeatCategoryID c) (etc_TenantID c)) now d).

Definition categories_of (tenantID eventID : UUID) (d : DB) : list EventTicketCategory :=
  rows_where (fun c => (etc_TenantID c =? tenantID)%N && (etc_EventID c =? eventID)%N) (event_ticket_categories d).

Section repo.
Context `{E : Env}.

(** The caller's struct is updated with the generated id, which is returned. *)
Definition Create (e : Event) : M UUID :=
  id <- fresh_if_nil (e_ID e);;
  wrap "postgres: create event"
    (sql (insert_event (mkEvent id (e_TenantID e) (e_VenueID e) (e_Name e) (e_Competition e) (e_HomeTeam e) (e_AwayTeam e)
            (e_StartsAt e) (e_DoorsOpenAt e) (e_SalesStartAt e) (e_SalesEndAt e) (e_Status e) (e_CreatedAt e) (e_UpdatedAt e))));;;
  ret id.

Definition GetByID (tenantID id : UUID) : M Event :=
  one_row "postgres.EventRepo.GetByID" "postgres: get event" (fun d => in_tenant e_ID e_TenantID (events d) tenantID id).

Definition Update (e : Event) : M unit :=
  must_affect "postgres.EventRepo.Update" "postgres: update event" (update_event e).

Definition List (f : EventFilter) (lim off : Z) : M (list Event) :=
  wrap "postgres: list events" (select (page_stmt lim off (list_rows f))).

Definition default_max (c : EventTicketCategory) (id : UUID) : EventTicketCategory :=
  mkEventTicketCategory id (etc_TenantID c) (etc_EventID c) (etc_SeatCategoryID c) (etc_Price c)
    (if (etc_MaxPerOrder c <=? 0)%Z then 6 else etc_MaxPerOrder c) (etc_CreatedAt c) (etc_UpdatedAt c).

(** Returns the struct as the method leaves it: id and limit filled in. *)
Definition CreateTicketCategory (c : EventTicketCategory) : M EventTicketCategory :=
  id <- fresh_if_nil (etc_ID c);;
  let c := default_max c id in
  map_err (conflict_or "postgres.EventRepo.CreateTicketCategory" "postgres: create event ticket category")
    (sql (insert_category c));;;
  ret c.

Definition ListTicketCategories (tenantID eventID : UUID) : M (list EventTicketCategory) :=
  wrap "postgres: list ticket categories" (select (query (categories_of tenantID eventID))).

End repo.
End EventRepo.

Module SeatCategoryRepo.

Definition insert_category (c : SeatCategory) : stmt unit := fun now d =>
  insert_into seat_categories set_seat_categories (sc_ID c)
    (mkSeatCategory (sc_ID c) (sc_TenantID c) (sc_Name c) (sc_Color c) now now) true
    (fun c' => (sc_TenantID c' =? sc_TenantID c)%N && String.eqb (sc_Name c') (sc_Name c))
    (fun d => fk (tenants d) (sc_TenantID c)) now d.

Section repo.
Context `{E : Env, C : Collation}.

Definition Create (c : SeatCategory) : M UUID :=
  id <- fresh_if_nil (sc_ID c);;
  map_err (conflict_or "postgres.SeatCategoryRepo.Create" "postgres: create seat category")
    (sql (insert_category (mkSeatCategory id (sc_TenantID c) (sc_Name c) (sc_Color c) (sc_CreatedAt c) (sc_UpdatedAt c))));;;
  ret id.

Definition ListByTenant (tenantID : UUID) : M (list SeatCategory) :=
  wrap "postgres: list seat categories"
    (select (query (fun d => order_by_text sc_Name (rows_where (fun c => (sc_TenantID c =? tenantID)%N) (seat_categories d))))).

End repo.
End SeatCategoryRepo.

Module VenueRepo.

Definition capacity_check (c : option Z) : bool := match c with Some n => (0 <=? n)%Z | None => true end.

Definition capacity_fits (c : option Z) : bool := match c with Some n => in_int4 n | None => true end.

Definition insert_venue (v : Venue) : stmt unit := encoded (capacity_fits (v_Capacity v)) (fun now d =>
  insert_into venues set_venues (v_ID v)
    (mkVenue (v_ID v) (v_TenantID v) (v_Name v) (v_Address v) (v_City v) (v_Country v) (v_Timezone v) (v_Capacity v) now now)
    (capacity_check (v_Capacity v)) (fun _ => false) (fun d => fk (tenants d) (v_TenantID v)) now d).

Definition overwrite (v : Venue) (now : Time) (r : Venue) : Venue :=
  mkVenue (v_ID r) (v_TenantID r) (v_Name v) (v_Address v) (v_City v) (v_Country v) (v_Timezone v) (v_Capacity v)
    (v_CreatedAt r) now.

Definition update_venue (v : Venue) : stmt Z := encoded (capacity_fits (v_Capacity v))
  (update_row venues set_venues (v_ID v) (fun r => (v_TenantID r =? v_TenantID v)%N) (overwrite v)
    (fun r => capacity_check (v_Capacity r)) (fun _ _ => false)).

Definition insert_section (s : VenueSection) : stmt unit := encoded (in_int4 (vs_Capacity s)) (fun now d =>
  insert_into venue_sections set_venue_sections (vs_ID s)
    (mkVenueSection (vs_ID s) (vs_TenantID s) (vs_VenueID s) (vs_Name s) (vs_Code s) (vs_SeatingType s) (vs_Capacity s) now now)
    (0 <=? vs_Capacity s)%Z
    (fun s' => (vs_VenueID s' =? vs_VenueID s)%N && String.eqb (vs_Code s') (vs_Code s))
    (fun d => fk_tenant v_TenantID (venues d) (vs_VenueID s) (vs_TenantID s)) now d).

(** The coordinates of a seat are stored as NUMERIC(8,2): rounded to two
    decimals, or refused. [numeric_8_2] gives the value that is read back. *)
Class NumericCast := { numeric_8_2 : Float64 -> option Float64 }.
Definition numeric_column `{NumericCast} (x : option Float64) : option (option Float64) :=
  match x with Some f => Some <$> numeric_8_2 f | None => Some None end.

Definition insert_seat `{NumericCast} (id : UUID) (s : Seat) : stmt unit := fun now d =>
  match numeric_column (s_PosX s), numeric_column (s_PosY s) with
  | Some x, Some y =>
      insert_into seats set_seats id
        (mkSeat id (s_TenantID s) (s_SectionID s) (s_RowLabel s) (s_SeatNumber s) (s_IsAccessible s) x y now) true
        (fun s' => (s_SectionID s' =? s_SectionID s)%N && String.eqb (s_RowLabel s') (s_RowLabel s)
                   && String.eqb (s_SeatNumber s') (s_SeatNumber s))
        (fun d => fk_tenant vs_TenantID (venue_sections d) (s_SectionID s) (s_TenantID s)) now d
  | _, _ => Err (EPg "22003")
  end.

Fixpoint insert_seats `{NumericCast} (batch : list (UUID * Seat)) : stmt unit := fun now d =>
  match batch with
  | [] => Ok (tt, d)
  | (id, s) :: rest =>
      match insert_seat id s now d with
      | Err e => Err e
      | Ok (_, d') => insert_seats rest now d'
      end
  end.

Section repo.
Context `{E : Env, C : Collation}.

(** Returns the struct as the method leaves it: id and time zone filled in. *)
Definition CreateVenue (v : Venue) : M Venue :=
  id <- fresh_if_nil (v_ID v);;
  let tz := if String.eqb (v_Timezone v) "" then "Africa/Nairobi" else v_Timezone v in
  let v := mkVenue id (v_TenantID v) (v_Name v) (v_Address v) (v_City v) (v_Country v) tz (v_Capacity v)
             (v_CreatedAt v) (v_UpdatedAt v) in
  wrap "postgres: create venue" (sql (insert_venue v));;;
  ret v.

Definition GetVenue (tenantID id : UUID) : M Venue :=
  one_row "postgres.VenueRepo.GetVenue" "postgres: get venue" (fun d => in_tenant v_ID v_TenantID (venues d) tenantID id).

Definition ListVenues (tenantID : UUID) (lim off : Z) : M (list Venue) :=
  wrap "postgres: list venues"
    (select (page_stmt lim off (fun d => order_by_text v_Name (rows_where (fun v => (v_TenantID v =? tenantID)%N) (venues d))))).

Definition UpdateVenue (v : Venue) : M unit :=
  must_affect "postgres.VenueRepo.UpdateVenue" "postgres: update venue" (update_venue v).

(** [SeatingType] is never empty here: the zero value is the default, reserved. *)
Definition CreateSection (s : VenueSection) : M UUID :=
  id <- fresh_if_nil (vs_ID s);;
  map_err (conflict_or "postgres.VenueRepo.CreateSection" "postgres: create section")
    (sql (insert_section (mkVenueSection id (vs_TenantID s) (vs_VenueID s) (vs_Name s) (vs_Code s) (vs_SeatingType s)
                            (vs_Capacity s) (vs_CreatedAt s) (vs_UpdatedAt s))));;;
  ret id.

Definition ListSectionsByVenue (tenantID venueID : UUID) : M (list VenueSection) :=
  wrap "postgres: list sections"
    (select (query (fun d => order_by_text vs_Name
       (rows_where (fun s => (vs_TenantID s =? tenantID)%N && (vs_VenueID s =? venueID)%N) (venue_sections d))))).

Definition CreateSeatsBulk `{NumericCast} (ss : list Seat) : M unit :=
  match ss with
  | [] => ret tt
  | _ =>
      batch <- fold_loop (fun acc s => i <- fresh_if_nil (s_ID s);; ret (acc ++ [(i, s)])) [] ss;;
      wrap "postgres: bulk create seats" (sql (insert_seats batch))
  end.

(** [ORDER BY row_label, seat_number]: a stable sort by each key, last key first. *)
Definition ListSeatsBySection (tenantID sectionID : UUID) : M (list Seat) :=
  wrap "postgres: list seats"
    (select (query (fun d => order_by_text s_RowLabel (order_by_text s_SeatNumber
       (rows_where (fun s => (s_TenantID s =? tenantID)%N && (s_SectionID s =? sectionID)%N) (seats d)))))).

End repo.
End VenueRepo.
