(* ===== verification/AccountRepos.v ===== *)
(** * The account repositories ([tenant.go], [user.go] of
    [src/internal/repository/postgres])

    Clubs, user accounts and refresh tokens, under the constraints of
    migrations 000002, 000003 and 000013. *)
From S2P Require Import Prelude Domain Schema Redis Runtime CheckoutRepos CatalogRepos.

(** CITEXT equality: letters compare without case. *)
Definition citext_eqb (a b : string) : bool := String.eqb (lower a) (lower b).

Module TenantRepo.

Definition insert_tenant (t : Tenant) : stmt unit := fun now d =>
  insert_into tenants set_tenants (t_ID t)
    (mkTenant (t_ID t) (t_Slug t) (t_Name t) (t_Sport t) (t_Status t) (t_ContactEmail t) (t_Branding t) now now) true
    (fun t' => String.eqb (t_Slug t') (t_Slug t)) (fun _ => true) now d.

Definition overwrite (t : Tenant) (now : Time) (r : Tenant) : Tenant :=
  mkTenant (t_ID r) (t_Slug r) (t_Name t) (t_Sport t) (t_Status t) (t_ContactEmail t) (t_Branding t) (t_CreatedAt r) now.

Definition update_tenant (t : Tenant) : stmt Z :=
  update_row tenants set_tenants (t_ID t) (fun _ => true) (overwrite t) (fun _ => true) (fun _ _ => false).

Section repo.
Context `{E : Env, C : Collation}.

(** The zero status stands for active, which is what the method fills in. *)
Definition Create (t : Tenant) : M UUID :=
  id <- fresh_if_nil (t_ID t);;
  let sport := if String.eqb (t_Sport t) "" then "football" else t_Sport t in
  map_err (conflict_or "postgres.TenantRepo.Create" "postgres: create tenant")
    (sql (insert_tenant (mkTenant id (t_Slug t) (t_Name t) sport (t_Status t) (t_ContactEmail t) (t_Branding t)
                           (t_CreatedAt t) (t_UpdatedAt t))));;;
  ret id.

Definition GetByID (id : UUID) : M Tenant :=
  one_row "postgres.TenantRepo.GetByID" "postgres: get tenant" (fun d => tenants d !! id).

Definition GetBySlug (slug : string) : M Tenant :=
  one_row "postgres.TenantRepo.GetBySlug" "postgres: get tenant by slug"
    (fun d => find_row (fun t => String.eqb (t_Slug t) slug) (tenants d)).

Definition Update (t : Tenant) : M unit :=
  must_affect "postgres.TenantRepo.Update" "postgres: update tenant" (update_tenant t).

Definition List (status : TenantStatus) (lim off : Z) : M (list Tenant) :=
  wrap "postgres: list tenants"
    (select (page_stmt lim off (fun d =>
       order_by_text t_Name (rows_where (fun t => bool_decide (t_Status t = status)) (tenants d))))).

End repo.
End TenantRepo.

Module UserRepo.

(** CHECK users_role_tenant_consistency. *)
Definition role_check (u : User) : bool :=
  match u_Role u, u_TenantID u with
  | UserRoleAdmin, Some _ | UserRoleFan, None => true
  | _, _ => false
  end.

(** UNIQUE (email), without case. *)
Definition clash (u u' : User) : bool := citext_eqb (u_Email u') (u_Email u).

Definition insert_user (u : User) : stmt unit := fun now d =>
  insert_into users set_users (u_ID u)
    (mkUser (u_ID u) (u_Email u) (u_Phone u) (u_PasswordHash u) (u_FirstName u) (u_LastName u) (u_Status u) (u_Role u)
       (u_TenantID u) None now now)
    (role_check u) (clash u) (fun d => match u_TenantID u with Some t => fk (tenants d) t | None => true end) now d.

Definition overwrite (u : User) (now : Time) (r : User) : User :=
  mkUser (u_ID r) (u_Email u) (u_Phone u) (u_PasswordHash u) (u_FirstName u) (u_LastName u) (u_Status u) (u_Role r)
    (u_TenantID r) (u_EmailVerifiedAt u) (u_CreatedAt r) now.

Definition update_user (u : User) : stmt Z :=
  update_row users set_users (u_ID u) (fun _ => true) (overwrite u) role_check clash.

Section repo.
Context `{E : Env}.

Definition Create (u : User) : M UUID :=
  id <- fresh_if_nil (u_ID u);;
  map_err (conflict_or "postgres.UserRepo.Create" "postgres: create user")
    (sql (insert_user (mkUser id (u_Email u) (u_Phone u) (u_PasswordHash u) (u_FirstName u) (u_LastName u) (u_Status u)
                         (u_Role u) (u_TenantID u) (u_EmailVerifiedAt u) (u_CreatedAt u) (u_UpdatedAt u))));;;
  ret id.

Definition GetByID (id : UUID) : M User :=
  one_row "postgres.UserRepo.GetByID" "postgres: get user" (fun d => users d !! id).

Definition GetByEmail (email : string) : M User :=
  one_row "postgres.UserRepo.GetByEmail" "postgres: get user by email"
    (fun d => find_row (fun u => citext_eqb (u_Email u) email) (users d)).

Definition Update (u : User) : M unit :=
  n <- map_err (conflict_or "postgres.UserRepo.Update" "postgres: update user") (sql (update_user u));;
  if (n =? 0)%Z then throw (not_found "postgres.UserRepo.Update") else ret tt.

End repo.
End UserRepo.

Module RefreshTokenRepo.

(** Postgres casts the client address to INET, or refuses it; [host] reads it
    back as text. [inet_host] is the text a given one is read back as. *)
Class InetCast := { inet_host : string -> option string }.

(** An empty address is written as NULL, which COALESCE reads as empty. *)
Definition inet_column `{InetCast} (ip : string) : option string :=
  if String.eqb ip "" then Some "" else inet_host ip.

Definition insert_token `{InetCast} (rt : RefreshToken) : stmt unit := fun now d =>
  match inet_column (rt_IPAddress rt) with
  | None => Err (EPg "22P02")
  | Some ip =>
      insert_into refresh_tokens set_refresh_tokens (rt_ID rt)
        (mkRefreshToken (rt_ID rt) (rt_UserID rt) (rt_TokenHash rt) (rt_UserAgent rt) ip (rt_ExpiresAt rt) None now)
        true (fun r' => String.eqb (rt_TokenHash r') (rt_TokenHash rt)) (fun d => fk (users d) (rt_UserID rt)) now d
  end.

Definition revoke (now : Time) (r : RefreshToken) : RefreshToken :=
  mkRefreshToken (rt_ID r) (rt_UserID r) (rt_TokenHash r) (rt_UserAgent r) (rt_IPAddress r) (rt_ExpiresAt r) (Some now) (rt_CreatedAt r).

Definition unrevoked (r : RefreshToken) : bool := match rt_RevokedAt r with None => true | Some _ => false end.

Definition revoke_stmt (id : UUID) : stmt Z :=
  update_row refresh_tokens set_refresh_tokens id unrevoked revoke (fun _ => true) (fun _ _ => false).

Definition revoke_all_stmt (userID : UUID) : stmt unit := fun now d =>
  Ok (tt, set_refresh_tokens
            ((fun r => if (rt_UserID r =? userID)%N && unrevoked r then revoke now r else r) <$> refresh_tokens d) d).

Section repo.
Context `{E : Env, I : InetCast}.

Definition Create (rt : RefreshToken) : M UUID :=
  id <- fresh_if_nil (rt_ID rt);;
  map_err (conflict_or "postgres.RefreshTokenRepo.Create" "postgres: create refresh token")
    (sql (insert_token (mkRefreshToken id (rt_UserID rt) (rt_TokenHash rt) (rt_UserAgent rt) (rt_IPAddress rt)
                          (rt_ExpiresAt rt) (rt_RevokedAt rt) (rt_CreatedAt rt))));;;
  ret id.

Definition GetByTokenHash (tokenHash : string) : M RefreshToken :=
  one_row "postgres.RefreshTokenRepo.GetByTokenHash" "postgres: get refresh token"
    (fun d => find_row (fun r => String.eqb (rt_TokenHash r) tokenHash) (refresh_tokens d)).

Definition Revoke (id : UUID) : M unit :=
  must_affect "postgres.RefreshTokenRepo.Revoke" "postgres: revoke refresh token" (revoke_stmt id).

Definition RevokeAllForUser (userID : UUID) : M unit :=
  wrap "postgres: revoke all refresh tokens for user" (sql (revoke_all_stmt userID)).

End repo.
End RefreshTokenRepo.
