(* ===== verification/Rows.v ===== *)
(** * Rows and columns ([scan...] of [src/internal/repository/postgres])

    The tables of [Schema] hold domain values. In the program a value goes
    through columns: an INSERT spells it out, with some empty texts turned into
    NULL, money split over columns and maps marshalled as JSON, and a SELECT is
    scanned back into a struct.
    This file models both directions and shows that the way through the columns
    gives the value the table holds. *)
From S2P Require Import Prelude GoJson GoDecimal Domain Schema Redis Runtime Fixtures InventoryRepo CheckoutRepos CatalogRepos AccountRepos.

(** ** pgx *)

(** The value of a column; a JSONB column by the text it was given, a NUMERIC
    one by the float it is read as. *)
Inductive Col := CNull | CUuid (u : UUID) | CText (s : string) | CTime (t : Time) | CInt (z : Z) | CBool (b : bool)
  | CNumeric (x : Float64) | CJson (s : string).

(** A flat JSON object of texts and integers, and its members in the order
    [json.Marshal] prints a map. Postgres refuses NUL in a text of JSONB. *)
Definition flat_member (kv : string * JVal) : bool :=
  valid_text kv.1 && match kv.2 with
                     | VStr s => valid_text s && negb (has_char Ascii.zero s)
                     | VNum l => match ParseInt l with Some z => String.eqb (FormatInt z) l | None => false end
                     | _ => false
                     end.
Definition flat_object (kvs : list (string * JVal)) : Prop := NoDup kvs.*1 /\ forallb flat_member kvs = true.

Lemma flat_printed kvs : flat_object kvs -> Unmarshal (Marshal (VObj kvs)) = Some (VObj kvs).
Proof.
  intros [_ Hf]. apply Unmarshal_Marshal.
  - cbn [document]. rewrite forallb_forall in Hf |- *. intros [k v] Hin%Hf. unfold flat_member in Hin. cbn [fst snd] in *.
    apply andb_true_iff in Hin as [-> Hv]. destruct v as [|b|l|s|l|l]; try done.
    + cbn. destruct (ParseInt l) as [z|]; [|done]. apply String.eqb_eq in Hv as <-. apply valid_FormatInt.
    + by apply andb_true_iff in Hv as [Hv _].
  - assert (Hh : foldr N.max 0%N (List.map (fun kv => height kv.2) kvs) = 0%N); [|cbn [height]; rewrite Hh; done].
    induction kvs as [|[k v] kvs IH]; [done|]. cbn [forallb] in Hf. apply andb_true_iff in Hf as [Hv Hf]. cbn [List.map foldr].
    rewrite IH by done. unfold flat_member in Hv. apply andb_true_iff in Hv as [_ Hv]. by destruct v.
Qed.

(** What [Scan] does with a column, by the type of its destination. It is
    documented to store a value of the column's type, to store nil for NULL in
    a pointer and the element otherwise, and to fail for NULL elsewhere
    ("cannot scan NULL into *string", src/docs/notifications.md). *)
Class PgxScan := {
  into_uuid : Col -> option UUID;
  into_string : Col -> option string;
  into_time : Col -> option Time;
  into_int : Col -> option Z;
  into_bool : Col -> option bool;
  into_float : Col -> option Float64;
  into_ptr {A} : (Col -> option A) -> Col -> option (option A);
  into_bytes : Col -> option string;
  scan_CUuid u : into_uuid (CUuid u) = Some u;
  scan_CText s : into_string (CText s) = Some s;
  scan_CTime t : into_time (CTime t) = Some t;
  scan_CInt z : into_int (CInt z) = Some z;
  scan_CBool b : into_bool (CBool b) = Some b;
  scan_CNumeric x : into_float (CNumeric x) = Some x;
  (** A JSONB column keeps the members, not their order nor the white space. *)
  scan_CJson given kvs : Unmarshal given = Some (VObj kvs) -> flat_object kvs -> exists text kvs',
    into_bytes (CJson given) = Some text /\ Unmarshal text = Some (VObj kvs') /\ kvs' ≡ₚ kvs;
  scan_null_string : into_string CNull = None;
  scan_null_ptr {A} (f : Col -> option A) : into_ptr f CNull = Some None;
  scan_value_ptr {A} (f : Col -> option A) c : c <> CNull -> into_ptr f c = Some <$> f c }.

Section rows.
Context `{P : PgxScan}.

(** A call of [Scan], destination by destination; too few or too many columns
    are an error. *)
Definition Scanner (A : Type) : Type := list Col -> option A.
Definition dest {A B} (into : Col -> option A) (k : A -> Scanner B) : Scanner B := fun row =>
  match row with
  | [] => None
  | c :: row => match into c with Some a => k a row | None => None end
  end.
Definition scanned {B} (b : B) : Scanner B := fun row => match row with [] => Some b | _ => None end.

(** A text column converted to a string type of the domain. The CHECK
    constraints of the tables admit the listed values only. *)
Definition into_enum {A} (text : A -> string) (values : list A) (c : Col) : option A :=
  match into_string c with
  | Some s => List.find (fun a => String.eqb (text a) s) values
  | None => None
  end.

(** [nullIfEmpty] and its inverse when reading, [if x != nil { v = *x }]. *)
Definition nullIfEmpty (s : string) : option string := if String.eqb s "" then None else Some s.
Definition or_empty (s : option string) : string := default "" s.

Definition nullable {A} (col : A -> Col) (x : option A) : Col := match x with Some a => col a | None => CNull end.

(** [json.Unmarshal] of a JSONB column into a map, if there is anything in it. *)
Definition into_json {A} (read : JVal -> option A) (c : Col) : option (list (string * A)) :=
  text ← into_bytes c;
  if String.eqb text "" then Some []
  else match Unmarshal text with
       | Some (VObj kvs) => mapM (fun kv => pair kv.1 <$> read kv.2) kvs
       | Some VNull => Some []
       | _ => None
       end.
(** [json.Marshal] of a map into a JSONB column. *)
Definition json_col {A} (to : A -> JVal) (m : list (string * A)) : Col :=
  CJson (Marshal (VObj (merge_sort by_name ((fun kv => (kv.1, to kv.2)) <$> m)))).

(** A list of rows: the first that cannot be scanned fails the whole call. *)
Definition scan_rows {A} (f : Scanner A) (rows : list (list Col)) : option (list A) := mapM f rows.
End rows.

#[local] Notation "'scan' x 'as' f ; k" := (dest f (fun x => k)) (at level 100, x name, f at level 99, k at level 200).

(** ** The tables

    For each: the columns an INSERT writes, in the order of the SELECT, with the
    defaults of those it leaves out; and the scan of a SELECT. *)
Section tables.
Context `{P : PgxScan}.

Definition InventoryStatuses := [InventoryStatusAvailable; InventoryStatusHeld; InventoryStatusSold; InventoryStatusVoid].
Definition scanInventory : Scanner EventSeatInventory :=
  scan id as into_uuid; scan tenant as into_uuid; scan event as into_uuid; scan category as into_uuid;
  scan seat as into_ptr into_uuid; scan status as into_enum InventoryStatus_String InventoryStatuses;
  scan token as into_ptr into_uuid; scan user as into_ptr into_uuid; scan expires as into_ptr into_time;
  scan created as into_time; scan updated as into_time;
  scanned (mkInventory id tenant event category seat status token user expires created updated).
(** A row in any of its states: the statements [Hold] etc. set the columns directly. *)
Definition inventory_row (r : EventSeatInventory) : list Col :=
  [CUuid (inv_ID r); CUuid (inv_TenantID r); CUuid (inv_EventID r); CUuid (inv_EventTicketCategoryID r);
   nullable CUuid (inv_SeatID r); CText (InventoryStatus_String (inv_Status r)); nullable CUuid (inv_HoldToken r);
   nullable CUuid (inv_HeldByUserID r); nullable CTime (inv_HoldExpiresAt r); CTime (inv_CreatedAt r); CTime (inv_UpdatedAt r)].

Definition OrderStatuses :=
  [OrderStatusPending; OrderStatusAwaitingPayment; OrderStatusPaid; OrderStatusCancelled; OrderStatusExpired; OrderStatusRefunded].
Definition scanOrder : Scanner Order :=
  scan id as into_uuid; scan tenant as into_uuid; scan user as into_uuid;
  scan status as into_enum OrderStatus_String OrderStatuses; scan key as into_string; scan currency as into_string;
  scan subtotal as into_int; scan fees as into_int; scan total as into_int; scan expires as into_ptr into_time;
  scan created as into_time; scan updated as into_time;
  scanned (mkOrder id tenant user status key (mkMoney subtotal currency) (mkMoney fees currency) (mkMoney total currency)
             expires created updated).
Definition order_row (now : Time) (o : Order) : list Col :=
  [CUuid (o_ID o); CUuid (o_TenantID o); CUuid (o_UserID o); CText (OrderStatus_String (o_Status o));
   CText (o_IdempotencyKey o); CText (Currency (o_Total o)); CInt (Cents (o_Subtotal o)); CInt (Cents (o_Fees o));
   CInt (Cents (o_Total o)); nullable CTime (o_ExpiresAt o); CTime now; CTime now].

Definition scan_item : Scanner OrderItem :=
  scan id as into_uuid; scan tenant as into_uuid; scan order as into_uuid; scan unit as into_uuid;
  scan token as into_uuid; scan cents as into_int; scan currency as into_string; scan created as into_time;
  scanned (mkOrderItem id tenant order unit token (mkMoney cents currency) created).
Definition item_row (now : Time) (tenantID orderID id : UUID) (it : OrderItem) : list Col :=
  [CUuid id; CUuid tenantID; CUuid orderID; CUuid (oi_EventSeatInventoryID it); CUuid (oi_HoldToken it);
   CInt (Cents (oi_UnitPrice it)); CText (Currency (oi_UnitPrice it)); CTime now].

Definition PaymentProviders := [PaymentProviderStripe; PaymentProviderAdyen].
Definition PaymentStatuses :=
  [PaymentStatusPending; PaymentStatusAuthorized; PaymentStatusCaptured; PaymentStatusFailed; PaymentStatusRefunded;
   PaymentStatusPartiallyRefunded].
Definition scanPayment : Scanner Payment :=
  scan id as into_uuid; scan tenant as into_uuid; scan order as into_uuid;
  scan provider as into_enum PaymentProvider_String PaymentProviders; scan ppid as into_ptr into_string;
  scan status as into_enum PaymentStatus_String PaymentStatuses; scan cents as into_int; scan currency as into_string;
  scan key as into_string; scan raw as into_ptr into_bytes; scan created as into_time; scan updated as into_time;
  scanned (mkPayment id tenant order provider (or_empty ppid) status (mkMoney cents currency) key raw created updated).
(** A row in any of its states; the provider's answer goes into a JSONB column
    and out of it into a byte slice, nil for NULL. *)
Definition payment_row (created updated : Time) (p : Payment) : list Col :=
  [CUuid (p_ID p); CUuid (p_TenantID p); CUuid (p_OrderID p); CText (PaymentProvider_String (p_Provider p));
   nullable CText (nullIfEmpty (p_ProviderPaymentID p)); CText (PaymentStatus_String (p_Status p)); CInt (Cents (p_Amount p));
   CText (Currency (p_Amount p)); CText (p_IdempotencyKey p); nullable CJson (p_RawResponse p); CTime created; CTime updated].

Definition EventStatuses :=
  [EventStatusDraft; EventStatusScheduled; EventStatusOnSale; EventStatusSoldOut; EventStatusCompleted; EventStatusCancelled].
Definition scanEvent : Scanner Event :=
  scan id as into_uuid; scan tenant as into_uuid; scan venue as into_uuid; scan name as into_string;
  scan competition as into_ptr into_string; scan homeTeam as into_ptr into_string; scan awayTeam as into_ptr into_string;
  scan startsAt as into_time; scan doors as into_ptr into_time; scan salesStart as into_time; scan salesEnd as into_time;
  scan status as into_enum EventStatus_String EventStatuses; scan created as into_time; scan updated as into_time;
  scanned (mkEvent id tenant venue name (or_empty competition) (or_empty homeTeam) (or_empty awayTeam) startsAt doors
             salesStart salesEnd status created updated).
Definition event_row (now : Time) (e : Event) : list Col :=
  [CUuid (e_ID e); CUuid (e_TenantID e); CUuid (e_VenueID e); CText (e_Name e); nullable CText (nullIfEmpty (e_Competition e));
   nullable CText (nullIfEmpty (e_HomeTeam e)); nullable CText (nullIfEmpty (e_AwayTeam e)); CTime (e_StartsAt e);
   nullable CTime (e_DoorsOpenAt e); CTime (e_SalesStartAt e); CTime (e_SalesEndAt e); CText (EventStatus_String (e_Status e));
   CTime now; CTime now].

Definition scan_ticket_category : Scanner EventTicketCategory :=
  scan id as into_uuid; scan tenant as into_uuid; scan event as into_uuid; scan category as into_uuid;
  scan cents as into_int; scan currency as into_string; scan max as into_int; scan created as into_time;
  scan updated as into_time;
  scanned (mkEventTicketCategory id tenant event category (mkMoney cents currency) max created updated).
Definition ticket_category_row (now : Time) (c : EventTicketCategory) : list Col :=
  [CUuid (etc_ID c); CUuid (etc_TenantID c); CUuid (etc_EventID c); CUuid (etc_SeatCategoryID c);
   CInt (Cents (etc_Price c)); CText (Currency (etc_Price c)); CInt (etc_MaxPerOrder c); CTime now; CTime now].

Definition scan_seat_category : Scanner SeatCategory :=
  scan id as into_uuid; scan tenant as into_uuid; scan name as into_string; scan color as into_string;
  scan created as into_time; scan updated as into_time;
  scanned (mkSeatCategory id tenant name color created updated).
Definition seat_category_row (now : Time) (c : SeatCategory) : list Col :=
  [CUuid (sc_ID c); CUuid (sc_TenantID c); CText (sc_Name c); CText (sc_Color c); CTime now; CTime now].

Definition scanVenue : Scanner Venue :=
  scan id as into_uuid; scan tenant as into_uuid; scan name as into_string; scan address as into_string;
  scan city as into_string; scan country as into_string; scan timezone as into_string; scan capacity as into_ptr into_int;
  scan created as into_time; scan updated as into_time;
  scanned (mkVenue id tenant name address city country timezone capacity created updated).
Definition venue_row (now : Time) (v : Venue) : list Col :=
  [CUuid (v_ID v); CUuid (v_TenantID v); CText (v_Name v); CText (v_Address v); CText (v_City v); CText (v_Country v);
   CText (v_Timezone v); nullable CInt (v_Capacity v); CTime now; CTime now].

Definition SeatingTypes := [SeatingTypeReserved; SeatingTypeGeneralAdmission].
Definition scan_section : Scanner VenueSection :=
  scan id as into_uuid; scan tenant as into_uuid; scan venue as into_uuid; scan name as into_string; scan code as into_string;
  scan seating as into_enum SeatingType_String SeatingTypes; scan capacity as into_int; scan created as into_time;
  scan updated as into_time;
  scanned (mkVenueSection id tenant venue name code seating capacity created updated).
Definition section_row (now : Time) (s : VenueSection) : list Col :=
  [CUuid (vs_ID s); CUuid (vs_TenantID s); CUuid (vs_VenueID s); CText (vs_Name s); CText (vs_Code s);
   CText (SeatingType_String (vs_SeatingType s)); CInt (vs_Capacity s); CTime now; CTime now].

Definition scan_seat : Scanner Seat :=
  scan id as into_uuid; scan tenant as into_uuid; scan section as into_uuid; scan label as into_string;
  scan number as into_string; scan accessible as into_bool; scan x as into_ptr into_float; scan y as into_ptr into_float;
  scan created as into_time;
  scanned (mkSeat id tenant section label number accessible x y created).
Definition seat_row (now : Time) (id : UUID) (x y : option Float64) (s : Seat) : list Col :=
  [CUuid id; CUuid (s_TenantID s); CUuid (s_SectionID s); CText (s_RowLabel s); CText (s_SeatNumber s);
   CBool (s_IsAccessible s); nullable CNumeric x; nullable CNumeric y; CTime now].

Definition UserStatuses := [UserStatusActive; UserStatusSuspended; UserStatusDeleted].
Definition UserRoles := [UserRoleFan; UserRoleAdmin].
Definition scanUser : Scanner User :=
  scan id as into_uuid; scan email as into_string; scan phone as into_ptr into_string;
  scan passwordHash as into_ptr into_string; scan firstName as into_string; scan lastName as into_string;
  scan status as into_enum UserStatus_String UserStatuses; scan role as into_enum UserRole_String UserRoles;
  scan tenant as into_ptr into_uuid; scan verified as into_ptr into_time; scan created as into_time; scan updated as into_time;
  scanned (mkUser id email (or_empty phone) (or_empty passwordHash) firstName lastName status role tenant verified
             created updated).
Definition user_row (now : Time) (u : User) : list Col :=
  [CUuid (u_ID u); CText (u_Email u); CText (u_Phone u); CText (u_PasswordHash u); CText (u_FirstName u);
   CText (u_LastName u); CText (UserStatus_String (u_Status u)); CText (UserRole_String (u_Role u));
   nullable CUuid (u_TenantID u); CNull; CTime now; CTime now].

(** The branding of a club is a map; the model keeps texts in it. *)
Definition TenantStatuses := [TenantStatusActive; TenantStatusSuspended; TenantStatusInactive].
Definition text_value (v : JVal) : option string := match v with VStr s => Some s | _ => None end.
Definition scanTenant : Scanner Tenant :=
  scan id as into_uuid; scan slug as into_string; scan name as into_string; scan sport as into_string;
  scan status as into_enum TenantStatus_String TenantStatuses; scan email as into_ptr into_string;
  scan branding as into_json text_value; scan created as into_time; scan updated as into_time;
  scanned (mkTenant id slug name sport status (or_empty email) branding created updated).
Definition tenant_row (now : Time) (t : Tenant) : list Col :=
  [CUuid (t_ID t); CText (t_Slug t); CText (t_Name t); CText (t_Sport t); CText (TenantStatus_String (t_Status t));
   nullable CText (nullIfEmpty (t_ContactEmail t)); json_col VStr (t_Branding t); CTime now; CTime now].

(** So is the payload of a notification, with integers besides texts. *)
Definition NotificationStatuses := [NotificationStatusPending; NotificationStatusSent; NotificationStatusFailed].
Definition NotificationType_of (s : string) : NotificationType :=
  if String.eqb s "order_confirmation" then NotificationTypeOrderConfirmation else NotificationTypeOther s.
Definition payload_value (v : JVal) : option JSONValue :=
  match v with VStr s => Some (JString s) | VNum l => JNumber <$> ParseInt l | _ => None end.
Definition payload_json (x : JSONValue) : JVal := match x with JString s => VStr s | JNumber z => VNum (FormatInt z) end.
Definition scanNotification : Scanner Notification :=
  scan id as into_uuid; scan tenant as into_uuid; scan user as into_uuid; scan type as into_string;
  scan payload as into_json payload_value; scan status as into_enum NotificationStatus_String NotificationStatuses;
  scan attempts as into_int; scan lastError as into_ptr into_string; scan created as into_time; scan sent as into_ptr into_time;
  scanned (mkNotification id tenant user (NotificationType_of type) payload status attempts (or_empty lastError) created sent).
Definition notification_row (now : Time) (n : Notification) : list Col :=
  [CUuid (n_ID n); CUuid (n_TenantID n); CUuid (n_UserID n); CText (NotificationType_String (n_Type n));
   json_col payload_json (n_Payload n); CText (NotificationStatus_String (n_Status n)); CInt 0; CNull; CTime now; CNull].

(** The address column is NULL or an INET; a SELECT reads it through
    [COALESCE(host(ip_address), '')]. *)
Definition scan_token : Scanner RefreshToken :=
  scan id as into_uuid; scan user as into_uuid; scan hash as into_string; scan agent as into_string; scan ip as into_string;
  scan expires as into_time; scan revoked as into_ptr into_time; scan created as into_time;
  scanned (mkRefreshToken id user hash agent ip expires revoked created).
(** A row in any of its states: [ip] is the address as [host] prints it, [revoked]
    what [Revoke] has set. *)
Definition token_row (ip : string) (revoked : option Time) (created : Time) (rt : RefreshToken) : list Col :=
  [CUuid (rt_ID rt); CUuid (rt_UserID rt); CText (rt_TokenHash rt); CText (rt_UserAgent rt);
   CText ip; CTime (rt_ExpiresAt rt); nullable CTime revoked; CTime created].
End tables.

(** ** Reading back *)

Section read_back.
Context `{P : PgxScan}.

Lemma into_string_ptr s : into_ptr into_string (CText s) = Some (Some s).
Proof. by rewrite scan_value_ptr, scan_CText. Qed.

Lemma into_nullable {A} (f : Col -> option A) (col : A -> Col) (x : option A) :
  (forall a, f (col a) = Some a) -> (forall a, col a <> CNull) -> into_ptr f (nullable col x) = Some x.
Proof. intros Hf Hn. destruct x; simpl; [by rewrite scan_value_ptr, Hf|apply scan_null_ptr]. Qed.
Lemma into_uuid_nullable x : into_ptr into_uuid (nullable CUuid x) = Some x.
Proof. apply into_nullable; [apply scan_CUuid|done]. Qed.
Lemma into_time_nullable x : into_ptr into_time (nullable CTime x) = Some x.
Proof. apply into_nullable; [apply scan_CTime|done]. Qed.
Lemma into_int_nullable x : into_ptr into_int (nullable CInt x) = Some x.
Proof. apply into_nullable; [apply scan_CInt|done]. Qed.
Lemma into_float_nullable x : into_ptr into_float (nullable CNumeric x) = Some x.
Proof. apply into_nullable; [apply scan_CNumeric|done]. Qed.
Lemma into_string_nullable x : into_ptr into_string (nullable CText x) = Some x.
Proof. apply into_nullable; [apply scan_CText|done]. Qed.

Lemma or_empty_nullIfEmpty s : or_empty (nullIfEmpty s) = s.
Proof. unfold nullIfEmpty. by destruct (String.eqb_spec s ""). Qed.

Lemma into_enum_text {A} (text : A -> string) values a :
  (forall b, text b = text a -> b = a) -> a ∈ values -> into_enum text values (CText (text a)) = Some a.
Proof.
  intros Hinj Ha. unfold into_enum. rewrite scan_CText. destruct (List.find _ values) as [b|] eqn:Hf.
  - apply List.find_some in Hf as [_ Heq%String.eqb_eq]. by rewrite (Hinj b Heq).
  - apply List.find_none with (x := a) in Hf; [by rewrite String.eqb_refl in Hf|by apply list_elem_of_In].
Qed.

#[local] Ltac enumeration := intros x; apply into_enum_text; [intros []; by destruct x|destruct x; by repeat constructor].

Lemma into_InventoryStatus x : into_enum InventoryStatus_String InventoryStatuses (CText (InventoryStatus_String x)) = Some x.
Proof. revert x. enumeration. Qed.
Lemma into_OrderStatus x : into_enum OrderStatus_String OrderStatuses (CText (OrderStatus_String x)) = Some x.
Proof. revert x. enumeration. Qed.
Lemma into_PaymentProvider x : into_enum PaymentProvider_String PaymentProviders (CText (PaymentProvider_String x)) = Some x.
Proof. revert x. enumeration. Qed.
Lemma into_PaymentStatus x : into_enum PaymentStatus_String PaymentStatuses (CText (PaymentStatus_String x)) = Some x.
Proof. revert x. enumeration. Qed.
Lemma into_EventStatus x : into_enum EventStatus_String EventStatuses (CText (EventStatus_String x)) = Some x.
Proof. revert x. enumeration. Qed.
Lemma into_SeatingType x : into_enum SeatingType_String SeatingTypes (CText (SeatingType_String x)) = Some x.
Proof. revert x. enumeration. Qed.
Lemma into_UserStatus x : into_enum UserStatus_String UserStatuses (CText (UserStatus_String x)) = Some x.
Proof. revert x. enumeration. Qed.
Lemma into_UserRole x : into_enum UserRole_String UserRoles (CText (UserRole_String x)) = Some x.
Proof. revert x. enumeration. Qed.
Lemma into_TenantStatus x : into_enum TenantStatus_String TenantStatuses (CText (TenantStatus_String x)) = Some x.
Proof. revert x. enumeration. Qed.
Lemma into_NotificationStatus x :
  into_enum NotificationStatus_String NotificationStatuses (CText (NotificationStatus_String x)) = Some x.
Proof. revert x. enumeration. Qed.

Lemma mapM_Permutation {A B} (f : A -> option B) l1 l2 k2 :
  l1 ≡ₚ l2 -> mapM f l2 = Some k2 -> exists k1, mapM f l1 = Some k1 /\ k1 ≡ₚ k2.
Proof.
  intros Hl. revert k2. induction Hl as [|x l1 l2 _ IH|x y l|l1 l2 l3 _ IH1 _ IH2]; intros k2; simpl.
  - intros [= <-]. by exists [].
  - intros (y & Hy & (k & Hk & [= <-])%bind_Some)%bind_Some. destruct (IH k Hk) as (k1 & -> & Hp). rewrite Hy. exists (y :: k1). split; [done|by constructor].
  - intros (y' & Hx & (k & (x' & Hy & (k' & Hk & [= <-])%bind_Some)%bind_Some & [= <-])%bind_Some)%bind_Some.
    rewrite Hx, Hy, Hk. simpl. eexists. split; [done|]. constructor.
  - intros (k1 & Hk1 & Hp1)%IH2. apply IH1 in Hk1 as (k0 & Hk0 & Hp0). exists k0. split; [done|]. by rewrite Hp0.
Qed.

(** A map comes back from its column with the same members. *)
Lemma into_json_col {A} (read : JVal -> option A) (to : A -> JVal) (m : list (string * A)) :
  (forall kv, kv ∈ m -> read (to kv.2) = Some kv.2) -> flat_object ((fun kv => (kv.1, to kv.2)) <$> m) ->
  exists m', into_json read (json_col to m) = Some m' /\ m' ≡ₚ m.
Proof.
  intros Hof [Hnd Hflat]. set (kvs := (fun kv => (kv.1, to kv.2)) <$> m) in *.
  assert (Hs : flat_object (merge_sort by_name kvs)).
  { pose proof (merge_sort_Permutation by_name kvs) as Hp. split; [by rewrite Hp|].
    by rewrite (forallb_Permutation _ _ _ Hp). }
  destruct (scan_CJson _ _ (flat_printed _ Hs) Hs) as (text & kvs' & Ht & Hu & Hp). unfold into_json, json_col. fold kvs. rewrite Ht. simpl.
  destruct (String.eqb_spec text "") as [->|_]; [discriminate Hu|]. rewrite Hu.
  apply (mapM_Permutation _ _ kvs); [by rewrite Hp, merge_sort_Permutation|].
  apply mapM_Some. subst kvs. clear -Hof. induction m as [|[k a] m IH]; [constructor|]. rewrite fmap_cons. constructor.
  - simpl. pose proof (Hof (k, a) ltac:(apply elem_of_cons; by left)) as Hk. simpl in Hk. by rewrite Hk.
  - apply IH. intros kv Hkv. apply Hof, elem_of_cons. by right.
Qed.
End read_back.

Create Rewrite HintDb columns.
#[export] Hint Rewrite @scan_CUuid @scan_CText @scan_CTime @scan_CInt @scan_CBool @scan_null_ptr @into_string_ptr @into_uuid_nullable
  @into_time_nullable @into_int_nullable @into_float_nullable @into_string_nullable @or_empty_nullIfEmpty @into_InventoryStatus @into_OrderStatus
  @into_PaymentProvider @into_PaymentStatus @into_EventStatus @into_SeatingType @into_UserStatus @into_UserRole
  @into_TenantStatus @into_NotificationStatus : columns.

(** Scans a row destination by destination. *)
Ltac scan_row := unfold dest; repeat (progress (autorewrite with columns; cbn [scanned])); try done.

Section faithful.
Context `{P : PgxScan}.

Lemma read_inventory r : scanInventory (inventory_row r) = Some r.
Proof. unfold scanInventory, inventory_row. scan_row. by destruct r. Qed.
Lemma read_order now o : scanOrder (order_row now o) = Some (OrderRepo.stored now o).
Proof. unfold scanOrder, order_row. scan_row. by destruct o as [? ? ? ? ? ? ? [] ? ? ?]. Qed.
Lemma read_item now t oid id it : scan_item (item_row now t oid id it) = Some (OrderRepo.stored_item now t oid id it).
Proof. unfold scan_item, item_row. scan_row. by destruct it as [? ? ? ? ? [] ?]. Qed.
(** An answer of the provider that can be stored, and the texts it may be read
    back as: the members of the object, in some order. *)
Definition raw_json (raw : option string) : Prop :=
  match raw with Some text => exists kvs, Unmarshal text = Some (VObj kvs) /\ flat_object kvs | None => True end.
Definition same_raw (raw raw' : option string) : Prop :=
  match raw, raw' with
  | Some text, Some text' =>
      exists kvs kvs', Unmarshal text = Some (VObj kvs) /\ Unmarshal text' = Some (VObj kvs') /\ kvs' ≡ₚ kvs
  | None, None => True
  | _, _ => False
  end.
Definition with_raw (raw : option string) (p : Payment) : Payment :=
  mkPayment (p_ID p) (p_TenantID p) (p_OrderID p) (p_Provider p) (p_ProviderPaymentID p) (p_Status p) (p_Amount p)
    (p_IdempotencyKey p) raw (p_CreatedAt p) (p_UpdatedAt p).

Lemma into_bytes_nullable raw : raw_json raw -> exists raw', same_raw raw raw' /\ into_ptr into_bytes (nullable CJson raw) = Some raw'.
Proof.
  destruct raw as [text|]; simpl.
  - intros (kvs & Hu & Hf). destruct (scan_CJson _ _ Hu Hf) as (text' & kvs' & Ht & Hu' & Hp).
    exists (Some text'). split; [by exists kvs, kvs'|]. by rewrite scan_value_ptr, Ht.
  - intros _. exists None. split; [done|apply scan_null_ptr].
Qed.

Lemma read_payment created updated p : raw_json (p_RawResponse p) ->
  exists raw, same_raw (p_RawResponse p) raw /\ scanPayment (payment_row created updated p) =
    Some (mkPayment (p_ID p) (p_TenantID p) (p_OrderID p) (p_Provider p) (p_ProviderPaymentID p) (p_Status p) (p_Amount p)
            (p_IdempotencyKey p) raw created updated).
Proof.
  intros (raw & Hs & Hr)%into_bytes_nullable. exists raw. split; [done|]. unfold scanPayment, payment_row. scan_row.
  unfold dest. rewrite Hr. scan_row. by destruct p as [? ? ? ? ? ? [] ? ? ? ?].
Qed.
Lemma read_ticket_category now c : scan_ticket_category (ticket_category_row now c) = Some (EventRepo.stored_category now c).
Proof. unfold scan_ticket_category, ticket_category_row. scan_row. by destruct c as [? ? ? ? [] ? ? ?]. Qed.

Definition with_branding (b : list (string * string)) (t : Tenant) : Tenant :=
  mkTenant (t_ID t) (t_Slug t) (t_Name t) (t_Sport t) (t_Status t) (t_ContactEmail t) b (t_CreatedAt t) (t_UpdatedAt t).
Definition with_payload (p : list (string * JSONValue)) (n : Notification) : Notification :=
  mkNotification (n_ID n) (n_TenantID n) (n_UserID n) (n_Type n) p (n_Status n) (n_Attempts n) (n_LastError n) (n_CreatedAt n) (n_SentAt n).
Definition texts (m : list (string * string)) : list (string * JVal) := (fun kv => (kv.1, VStr kv.2)) <$> m.
Definition payload_members (m : list (string * JSONValue)) : list (string * JVal) := (fun kv => (kv.1, payload_json kv.2)) <$> m.

Lemma read_tenant now t : flat_object (texts (t_Branding t)) ->
  exists b, b ≡ₚ t_Branding t /\ scanTenant (tenant_row now t) =
    Some (mkTenant (t_ID t) (t_Slug t) (t_Name t) (t_Sport t) (t_Status t) (t_ContactEmail t) b now now).
Proof.
  intros Hf. destruct (into_json_col text_value VStr (t_Branding t) ltac:(done) Hf) as (b & Hb & Hp). exists b. split; [done|].
  unfold scanTenant, tenant_row. scan_row. unfold dest. rewrite Hb. scan_row.
Qed.

Lemma payload_read m kv : flat_object (payload_members m) -> kv ∈ m -> payload_value (payload_json kv.2) = Some kv.2.
Proof.
  intros [_ Hf] Hkv. destruct kv as [k [s|z]]; simpl; [done|].
  assert (Hz : flat_member (k, VNum (FormatInt z)) = true).
  { rewrite forallb_forall in Hf. apply Hf, list_elem_of_In, list_elem_of_fmap. by exists (k, JNumber z). }
  unfold flat_member in Hz. apply andb_true_iff in Hz as [_ Hz]. simpl in Hz. rewrite ParseInt_FormatInt_eq in *. by case_decide.
Qed.

Lemma read_notification now n : NotificationRepo.known_type (n_Type n) = true -> flat_object (payload_members (n_Payload n)) ->
  exists p, p ≡ₚ n_Payload n /\ scanNotification (notification_row now n) =
    Some (mkNotification (n_ID n) (n_TenantID n) (n_UserID n) (n_Type n) p (n_Status n) 0 "" now None).
Proof.
  intros Ht Hf. destruct (into_json_col payload_value payload_json (n_Payload n)) as (p & Hb & Hp); [by intros; eapply payload_read|done|].
  exists p. split; [done|]. unfold scanNotification, notification_row. scan_row. unfold dest. rewrite Hb. scan_row. by destruct (n_Type n).
Qed.

Lemma read_token ip revoked created rt :
  scan_token (token_row ip revoked created rt) =
    Some (mkRefreshToken (rt_ID rt) (rt_UserID rt) (rt_TokenHash rt) (rt_UserAgent rt) ip (rt_ExpiresAt rt) revoked created).
Proof. unfold scan_token, token_row. scan_row. Qed.

Lemma read_seat now id x y s :
  scan_seat (seat_row now id x y s) =
    Some (mkSeat id (s_TenantID s) (s_SectionID s) (s_RowLabel s) (s_SeatNumber s) (s_IsAccessible s) x y now).
Proof. unfold scan_seat, seat_row. scan_row. Qed.

(** A row that was inserted is in its table. *)
Lemma inserted_row {R} (tbl : DB -> gmap UUID R) put id r check clash fks now d x d' :
  (forall m d, tbl (put m d) = m) -> insert_into tbl put id r check clash fks now d = Ok (x, d') -> tbl d' !! id = Some r.
Proof. intros Hput (_ & _ & _ & -> & _)%insert_into_Ok. rewrite Hput. apply lookup_insert_eq. Qed.

(** C33: the tables of the model are faithful to the columns of the program.
    Whatever an INSERT of the program writes, a SELECT scans back exactly the
    struct that the model's table holds afterwards: empty texts that went through
    NULL come back empty, amounts come back with their currency, statuses come
    back as themselves, the client address and the coordinates of a seat as
    Postgres canonicalises them, JSON objects with the same members. A unit, a
    payment and a refresh token are read back in every state they can reach by
    UPDATE, a revoked token with its time of revocation. *)
Theorem inserts_read_back `{!RefreshTokenRepo.InetCast, !VenueRepo.NumericCast} now d x d' :
  (forall o, OrderRepo.insert_order o now d = Ok (x, d') -> scanOrder (order_row now o) = orders d' !! o_ID o) /\
  (forall t oid id it, OrderRepo.insert_item t oid id it now d = Ok (x, d') ->
     scan_item (item_row now t oid id it) = order_items d' !! id) /\
  (forall p, raw_json (p_RawResponse p) -> PaymentRepo.insert_payment p now d = Ok (x, d') ->
     exists raw, same_raw (p_RawResponse p) raw /\ scanPayment (payment_row now now p) = with_raw raw <$> payments d' !! p_ID p) /\
  (forall p i, raw_json (p_RawResponse p) -> payments d !! i = Some p ->
     exists raw, same_raw (p_RawResponse p) raw /\
       scanPayment (payment_row (p_CreatedAt p) (p_UpdatedAt p) p) = with_raw raw <$> payments d !! i) /\
  (forall e, EventRepo.insert_event e now d = Ok (x, d') -> scanEvent (event_row now e) = events d' !! e_ID e) /\
  (forall c, EventRepo.insert_category c now d = Ok (x, d') ->
     scan_ticket_category (ticket_category_row now c) = event_ticket_categories d' !! etc_ID c) /\
  (forall c, SeatCategoryRepo.insert_category c now d = Ok (x, d') ->
     scan_seat_category (seat_category_row now c) = seat_categories d' !! sc_ID c) /\
  (forall v, VenueRepo.insert_venue v now d = Ok (x, d') -> scanVenue (venue_row now v) = venues d' !! v_ID v) /\
  (forall s, VenueRepo.insert_section s now d = Ok (x, d') -> scan_section (section_row now s) = venue_sections d' !! vs_ID s) /\
  (forall id s, VenueRepo.insert_seat id s now d = Ok (x, d') ->
     exists px py, VenueRepo.numeric_column (s_PosX s) = Some px /\ VenueRepo.numeric_column (s_PosY s) = Some py /\
       scan_seat (seat_row now id px py s) = seats d' !! id) /\
  (forall u, UserRepo.insert_user u now d = Ok (x, d') -> scanUser (user_row now u) = users d' !! u_ID u) /\
  (forall r i, inventory d !! i = Some r -> scanInventory (inventory_row r) = inventory d !! i) /\
  (forall t, flat_object (texts (t_Branding t)) -> TenantRepo.insert_tenant t now d = Ok (x, d') ->
     exists b, b ≡ₚ t_Branding t /\ scanTenant (tenant_row now t) = with_branding b <$> tenants d' !! t_ID t) /\
  (forall n, flat_object (payload_members (n_Payload n)) -> NotificationRepo.insert_notification n now d = Ok (x, d') ->
     exists p, p ≡ₚ n_Payload n /\ scanNotification (notification_row now n) = with_payload p <$> notifications d' !! n_ID n) /\
  (forall rt, RefreshTokenRepo.insert_token rt now d = Ok (x, d') ->
     exists ip, RefreshTokenRepo.inet_column (rt_IPAddress rt) = Some ip /\
       scan_token (token_row ip None now rt) = refresh_tokens d' !! rt_ID rt) /\
  (forall r i, refresh_tokens d !! i = Some r ->
     scan_token (token_row (rt_IPAddress r) (rt_RevokedAt r) (rt_CreatedAt r) r) = refresh_tokens d !! i) /\
  (forall i r n, refresh_tokens d !! i = Some r -> RefreshTokenRepo.revoke_stmt i now d = Ok (n, d') -> n <> 0%Z ->
     scan_token (token_row (rt_IPAddress r) (Some now) (rt_CreatedAt r) r) = refresh_tokens d' !! i).
Proof.
  split_and!.
  - intros o Hi. rewrite (inserted_row orders set_orders _ _ _ _ _ _ _ _ _ (fun _ _ => eq_refl) Hi). apply read_order.
  - intros t oid id it Hi. rewrite (inserted_row order_items set_order_items _ _ _ _ _ _ _ _ _ (fun _ _ => eq_refl) Hi). apply read_item.
  - intros p Hr Hi. rewrite (inserted_row payments set_payments _ _ _ _ _ _ _ _ _ (fun _ _ => eq_refl) Hi). by apply read_payment.
  - intros p i Hr ->. by apply read_payment.
  - intros e Hi. rewrite (inserted_row events set_events _ _ _ _ _ _ _ _ _ (fun _ _ => eq_refl) Hi). unfold scanEvent, event_row. scan_row.
  - intros c Hi%encoded_Ok. rewrite (inserted_row event_ticket_categories set_event_ticket_categories _ _ _ _ _ _ _ _ _ (fun _ _ => eq_refl) Hi). apply read_ticket_category.
  - intros c Hi. rewrite (inserted_row seat_categories set_seat_categories _ _ _ _ _ _ _ _ _ (fun _ _ => eq_refl) Hi). unfold scan_seat_category, seat_category_row. scan_row.
  - intros v Hi%encoded_Ok. rewrite (inserted_row venues set_venues _ _ _ _ _ _ _ _ _ (fun _ _ => eq_refl) Hi). unfold scanVenue, venue_row. scan_row.
  - intros s Hi%encoded_Ok. rewrite (inserted_row venue_sections set_venue_sections _ _ _ _ _ _ _ _ _ (fun _ _ => eq_refl) Hi). unfold scan_section, section_row. scan_row.
  - intros id s Hi. unfold VenueRepo.insert_seat in Hi. destruct (VenueRepo.numeric_column (s_PosX s)) as [px|]; [|done].
    destruct (VenueRepo.numeric_column (s_PosY s)) as [py|]; [|done]. exists px, py. split; [done|]. split; [done|].
    rewrite (inserted_row seats set_seats _ _ _ _ _ _ _ _ _ (fun _ _ => eq_refl) Hi). apply read_seat.
  - intros u Hi. rewrite (inserted_row users set_users _ _ _ _ _ _ _ _ _ (fun _ _ => eq_refl) Hi). unfold scanUser, user_row. scan_row.
  - intros r i ->. apply read_inventory.
  - intros t Hf Hi. rewrite (inserted_row tenants set_tenants _ _ _ _ _ _ _ _ _ (fun _ _ => eq_refl) Hi). by apply read_tenant.
  - intros n Hf Hi. rewrite (inserted_row notifications set_notifications _ _ _ _ _ _ _ _ _ (fun _ _ => eq_refl) Hi).
    apply read_notification; [|done]. unfold NotificationRepo.insert_notification in Hi. by apply insert_into_Ok in Hi as (_ & ? & _).
  - intros rt Hi. unfold RefreshTokenRepo.insert_token in Hi. destruct (RefreshTokenRepo.inet_column _) as [ip|]; [|done].
    exists ip. split; [done|]. rewrite (inserted_row refresh_tokens set_refresh_tokens _ _ _ _ _ _ _ _ _ (fun _ _ => eq_refl) Hi). apply read_token.
  - intros r i ->. rewrite read_token. by destruct r.
  - intros i r n Hr Hs Hn. apply update_row_Ok in Hs as [[-> _]|(_ & r' & Hr' & _ & ->)]; [done|]. rewrite Hr in Hr'. injection Hr' as <-.
    rewrite read_token. cbn [refresh_tokens set_refresh_tokens]. by rewrite lookup_insert_eq.
Qed.

(** ** NULL

    An account without a phone number or a password can be read. *)
Lemma account_without_phone id email first last now :
  scanUser [CUuid id; CText email; CNull; CNull; CText first; CText last; CText "active"; CText "fan"; CNull; CNull; CTime now; CTime now]
  = Some (mkUser id email "" "" first last UserStatusActive UserRoleFan None None now now).
Proof.
  unfold scanUser. scan_row. change "active" with (UserStatus_String UserStatusActive). change "fan" with (UserRole_String UserRoleFan).
  scan_row.
Qed.

(** The columns address, city and country of [venues] are as nullable as those
    of an account, but are scanned into plain strings: one venue without an
    address makes every listing that contains it fail. *)
Lemma venue_without_address id t name rest : scanVenue (CUuid id :: CUuid t :: CText name :: CNull :: rest) = None.
Proof. unfold scanVenue. scan_row. by rewrite scan_null_string. Qed.

Lemma scan_rows_bad {A} (f : Scanner A) rows row : row ∈ rows -> f row = None -> scan_rows f rows = None.
Proof.
  intros Hin Hs. unfold scan_rows. induction Hin as [rows|row row' rows _ IH]; simpl; [by rewrite Hs|].
  destruct (f row'); simpl; [|done]. by rewrite IH.
Qed.

Lemma one_venue_without_address_hides_all rows id t name rest :
  (CUuid id :: CUuid t :: CText name :: CNull :: rest) ∈ rows -> scan_rows scanVenue rows = None.
Proof. intros Hin. eapply scan_rows_bad; [exact Hin|apply venue_without_address]. Qed.
End faithful.

(** ** Witness *)

(** A client library with the documented behaviour. *)
#[local] Instance fx_scan : PgxScan.
Proof.
  refine {|
    into_uuid c := match c with CUuid u => Some u | _ => None end;
    into_string c := match c with CText s => Some s | _ => None end;
    into_time c := match c with CTime t => Some t | _ => None end;
    into_int c := match c with CInt z => Some z | _ => None end;
    into_bool c := match c with CBool b => Some b | _ => None end;
    into_float c := match c with CNumeric x => Some x | _ => None end;
    into_bytes c := match c with CJson s => Some s | _ => None end;
    into_ptr A f c := match c with CNull => Some None | _ => Some <$> f c end |}; try done.
  - intros text kvs Hu Hf. by exists text, kvs.
  - by intros A f [].
Defined.
#[local] Instance fx_inet_cast : RefreshTokenRepo.InetCast := {| RefreshTokenRepo.inet_host := Some |}.
#[local] Instance fx_numeric_cast : VenueRepo.NumericCast := {| VenueRepo.numeric_8_2 := Some |}.

(** A cup match without a named home team. *)
Definition fx_cup : Event := mkEvent 77 1 15 "Final" "Cup" "" "Leopards" 9000000 (Some 8500000%Z) 0 8000000 EventStatusDraft 0 0.
(** A token whose owner logs out. *)
Definition fx_session : RefreshToken := mkRefreshToken 90 10 "hash" "browser" "10.0.0.1" 9000000 None 0.

Lemma inserts_read_back_witness :
  (exists d', EventRepo.insert_event fx_cup 5%Z fx_db = Ok (tt, d') /\
     scanEvent (event_row 5%Z fx_cup) = events d' !! 77%N /\ events d' !! 77%N <> None) /\
  let d := set_refresh_tokens {[90%N := fx_session]} fx_db in
  exists d', RefreshTokenRepo.revoke_stmt 90 7%Z d = Ok (1%Z, d') /\
    scan_token (token_row "10.0.0.1" (Some 7%Z) 0%Z fx_session) = refresh_tokens d' !! 90%N /\
    (rt_RevokedAt <$> refresh_tokens d' !! 90%N) = Some (Some 7%Z).
Proof.
  split.
  - destruct (EventRepo.insert_event fx_cup 5%Z fx_db) as [[[] d']|e] eqn:Hi; [|discriminate Hi].
    destruct (inserts_read_back 5%Z fx_db tt d') as (_ & _ & _ & _ & He & _). specialize (He fx_cup Hi). change (e_ID fx_cup) with 77%N in He.
    exists d'. split; [reflexivity|]. split; [exact He|]. rewrite <- He. vm_compute. discriminate.
  - intros d. destruct (RefreshTokenRepo.revoke_stmt 90 7%Z d) as [[n d']|e] eqn:Hi; [|discriminate Hi].
    assert (Hn : n = 1%Z) by (apply (f_equal (fun r => match r with Ok p => Some p.1 | Err _ => None end)) in Hi; vm_compute in Hi; congruence).
    subst n. destruct (inserts_read_back 7%Z d tt d') as (_ & _ & _ & _ & _ & _ & _ & _ & _ & _ & _ & _ & _ & _ & _ & _ & Ht).
    specialize (Ht 90%N fx_session 1%Z ltac:(reflexivity) Hi ltac:(discriminate)). change (rt_IPAddress fx_session) with "10.0.0.1" in Ht.
    exists d'. split; [reflexivity|]. split; [exact Ht|]. rewrite <- Ht. reflexivity.
Defined.
