(* ===== verification/PaymentGateways.v ===== *)
(** * The payment gateways ([src/internal/platform/payment])

    [MockGateway] and [StripeGateway], the two implementations of
    [domain.PaymentGateway], and Stripe's webhook signature scheme. *)
From Stdlib Require Import Ascii.
From S2P Require Import Prelude Crypto GoJson Domain Schema Redis Runtime Ports Fixtures.

(** hex(HMAC-SHA256(secret, payload)). *)
Definition signature (secret payload : string) : string :=
  hex_EncodeToString (hmac_sha256 (bytes_of secret) (bytes_of payload)).

(** ** MockGateway *)
Module MockGateway.
Section mock.
Context `{U : UuidPkg} `{E : Env} (secret : string).

Definition CreateIntent (amount : Money) (idempotencyKey : string) (metadata : list (string * string)) : M (string * string) :=
  u <- uuid_New;;
  let id := "pi_mock_" +:+ uuid_String u in
  (fun w => (Ok tt, set_intents ({[id]} ∪ w_intents w) w));;;
  v <- uuid_New;;
  ret (id, id +:+ "_secret_" +:+ uuid_String v).

Definition Refund (providerPaymentID : string) (amount : Money) (reason : string) : M string := fun w =>
  if bool_decide (providerPaymentID ∈ w_intents w)
  then (u <- uuid_New;; ret ("re_mock_" +:+ uuid_String u)) w
  else (Err (EText "payment: mock gateway: unknown payment intent"), w).

Definition VerifyWebhookSignature (payload signatureHeader : string) : result unit :=
  if String.eqb (signature secret payload) signatureHeader then Ok tt
  else Err (EText "payment: mock gateway: invalid webhook signature").

#[global] Instance gateway : PaymentGateway := {|
  gw_CreateIntent := CreateIntent; gw_Refund := Refund; gw_VerifyWebhookSignature := VerifyWebhookSignature |}.

#[global] Instance gateway_contract : GatewayContract gateway.
Proof.
  split; intros ** G HG rely.
  - intros w x w' Hw. cbn in Hw. injection Hw as <- <-. by split.
  - intros w x w' Hw. cbn in Hw. unfold Refund in Hw. case_bool_decide; cbn in Hw; injection Hw as <- <-; by split.
Qed.
End mock.
End MockGateway.

(** ** StripeGateway *)

(** [stripePaymentIntentResponse] and [stripeRefundResponse] (which has no
    client secret), with the message and type of the error object. *)
Record StripeReply := mkStripeReply {
  sr_ID : string; sr_ClientSecret : string; sr_Error : option (string * string) }.
Definition stripeErrorBody : list (Field (string * string)) :=
  [str_field "message" (fun x e => (x, snd e)); str_field "type" (fun x e => (fst e, x))].
Definition id_field : Field StripeReply := str_field "id" (fun x s => mkStripeReply x (sr_ClientSecret s) (sr_Error s)).
Definition error_field : Field StripeReply :=
  struct_ptr_field "error" stripeErrorBody ("", "") sr_Error (fun x s => mkStripeReply (sr_ID s) (sr_ClientSecret s) x).
Definition stripePaymentIntentResponse : list (Field StripeReply) :=
  [id_field; str_field "client_secret" (fun x s => mkStripeReply (sr_ID s) x (sr_Error s)); error_field].
Definition stripeRefundResponse : list (Field StripeReply) := [id_field; error_field].

Definition decode_reply (fields : list (Field StripeReply)) (body : string) : option StripeReply :=
  v ← Unmarshal body; decode_struct fields v (mkStripeReply "" "" None).

(** [form.Set(k, v)]. *)
Fixpoint form_Set (k v : string) (form : list (string * string)) : list (string * string) :=
  match form with
  | [] => [(k, v)]
  | (k', v') :: rest => if String.eqb k' k then (k, v) :: rest else (k', v') :: form_Set k v rest
  end.

(** One switch of [parseStripeSignatureHeader]. *)
Definition header_part (acc : string * list string) (part : string) : string * list string :=
  match strings_Cut "="%char part with
  | None => acc
  | Some (k, v) =>
      if String.eqb k "t" then (v, snd acc)
      else if String.eqb k "v1" then (fst acc, snd acc ++ [v])
      else acc
  end.

Definition parseStripeSignatureHeader (header : string) : result (string * list string) :=
  let '(timestamp, signatures) := foldl header_part (EmptyString, []) (strings_Split ","%char header) in
  if String.eqb timestamp "" || (length signatures =? 0)%nat
  then Err (EText "payment: malformed Stripe-Signature header")
  else Ok (timestamp, signatures).

Module StripeGateway.
Section stripe.
Context `{E : Env} (webhookSecret : string).

(** One POST to the API: it may not be sent, or its response may be lost. *)
Definition post (rq : HttpRequest) : M HttpResponse := fun w =>
  let w1 := interact w in
  match env_outcome (w_tick w) with
  | NotSent => (Err transport_error, w1)
  | ReplyLost => (Err transport_error, set_http (w_http w1 ++ [rq]) w1)
  | Delivered => (Ok (env_http (w_tick w) rq), set_http (w_http w1 ++ [rq]) w1)
  end.

Definition do (path : string) (form : list (string * string)) (idempotencyKey : string)
    (out : list (Field StripeReply)) : M StripeReply :=
  resp <- wrap "payment: stripe request"
            (post (mkRequest path form (if String.eqb idempotencyKey "" then None else Some idempotencyKey)));;
  match decode_reply out (rs_Body resp) with
  | None => throw (EWrap "payment: parse stripe response" (EText "json"))
  | Some reply =>
      match sr_Error reply with
      | Some _ => throw (EText "payment: stripe error")
      | None =>
          if negb (rs_Status resp =? 200)%Z then throw (EText "payment: stripe returned status") else ret reply
      end
  end.

Definition intent_form (amount : Money) (metadata : list (string * string)) : list (string * string) :=
  foldl (fun form kv => form_Set ("metadata[" +:+ fst kv +:+ "]") (snd kv) form)
    (form_Set "automatic_payment_methods[enabled]" "true"
       (form_Set "currency" (lower (Currency amount)) (form_Set "amount" (FormatInt (Cents amount)) [])))
    metadata.

Definition CreateIntent (amount : Money) (idempotencyKey : string) (metadata : list (string * string)) : M (string * string) :=
  parsed <- do "/v1/payment_intents" (intent_form amount metadata) idempotencyKey stripePaymentIntentResponse;;
  ret (sr_ID parsed, sr_ClientSecret parsed).

Definition refund_form (providerPaymentID : string) (amount : Money) (reason : string) : list (string * string) :=
  let form := form_Set "amount" (FormatInt (Cents amount)) (form_Set "payment_intent" providerPaymentID []) in
  if String.eqb reason "" then form else form_Set "metadata[reason]" reason form.

Definition Refund (providerPaymentID : string) (amount : Money) (reason : string) : M string :=
  parsed <- do "/v1/refunds" (refund_form providerPaymentID amount reason) "" stripeRefundResponse;;
  ret (sr_ID parsed).

Definition VerifyWebhookSignature (payload signatureHeader : string) : result unit :=
  match parseStripeSignatureHeader signatureHeader with
  | Err e => Err e
  | Ok (timestamp, signatures) =>
      let expected := signature webhookSecret (timestamp +:+ "." +:+ payload) in
      if existsb (fun sig => String.eqb sig expected) signatures then Ok tt
      else Err (EText "payment: stripe webhook signature mismatch")
  end.

#[global] Instance gateway : PaymentGateway := {|
  gw_CreateIntent := CreateIntent; gw_Refund := Refund; gw_VerifyWebhookSignature := VerifyWebhookSignature |}.

Lemma post_neutral rq : db_neutral (post rq).
Proof.
  intros G HG rely w r w' Hw. unfold post in Hw.
  pose proof (interact_upholds G rely w) as Hi. pose proof (interact_moves w) as Ht.
  destruct (env_outcome _); by injection Hw as <- <-.
Qed.

Lemma do_neutral path form key out : db_neutral (do path form key out).
Proof. intros G HG rely. unfold do. upholds_steps. by apply post_neutral. Qed.

#[global] Instance gateway_contract : GatewayContract gateway.
Proof.
  split; intros ** G HG rely; cbn; unfold CreateIntent, Refund; upholds_steps; by apply do_neutral.
Qed.
End stripe.
End StripeGateway.

(** ** The signature header *)

(** A header part [k=v] as the scheme allows it: no comma, no "=" in the key. *)
Definition part_ok (kv : string * string) : Prop :=
  has_char "="%char (fst kv) = false /\ has_char ","%char (fst kv +:+ String "="%char (snd kv)) = false.
Definition render_part (kv : string * string) : string := fst kv +:+ String "="%char (snd kv).
Definition render_header (parts : list (string * string)) : string := strings_Join ","%char (render_part <$> parts).

Definition values_of (k : string) (parts : list (string * string)) : list string :=
  snd <$> filter (fun kv => fst kv = k) parts.

Lemma header_parts parts acc :
  Forall part_ok parts ->
  foldl header_part acc (render_part <$> parts) =
    (List.last (values_of "t" parts) (fst acc), snd acc ++ values_of "v1" parts).
Proof.
  intros Hall. revert acc. induction Hall as [|[k v] parts [Hk Hc] Hall IH]; intros acc.
  { simpl. rewrite app_nil_r. by destruct acc. }
  rewrite fmap_cons. cbn [foldl]. rewrite IH. unfold header_part at 1 2. unfold render_part at 1 2. cbn [fst snd] in *.
  rewrite strings_Cut_app by done. unfold values_of. rewrite !filter_cons. cbn [fst].
  destruct (String.eqb_spec k "t") as [->|Ht].
  - rewrite decide_True, decide_False by done. cbn [fst snd fmap list_fmap]. f_equal.
    generalize (snd <$> filter (fun kv : string * string => kv.1 = "t") parts). intros l.
    destruct l as [|x l]; [done|]. cbn [List.last]. clear. revert x. induction l as [|y l IH]; intros x; [done|].
    apply IH.
  - rewrite (decide_False (P := k = "t")) by done. destruct (String.eqb_spec k "v1") as [->|Hv].
    + rewrite decide_True by done. cbn [fst snd fmap list_fmap]. by rewrite <- app_assoc.
    + by rewrite decide_False by done.
Qed.

(** The signature header parser inverts the header format. For any list of
    well-formed [k=v] parts that has a non-empty timestamp last and at least one
    v1 signature, parsing the rendered header yields that timestamp and all the
    v1 signatures in order, and unknown schemes are ignored; a header without
    them is rejected. *)
Theorem parseStripeSignatureHeader_render parts :
  parts <> [] -> Forall part_ok parts ->
  let t := List.last (values_of "t" parts) "" in
  let sigs := values_of "v1" parts in
  parseStripeSignatureHeader (render_header parts) =
    if decide (t <> "" /\ sigs <> []) then Ok (t, sigs)
    else Err (EText "payment: malformed Stripe-Signature header").
Proof.
  intros Hne Hok t sigs. unfold parseStripeSignatureHeader, render_header.
  rewrite strings_Split_Join.
  - rewrite header_parts by done. cbn [fst snd app]. fold t sigs.
    destruct (decide (t <> "" /\ sigs <> [])) as [[Ht Hs]|Hd].
    + rewrite (proj2 (String.eqb_neq t "") Ht). by destruct sigs.
    + destruct (String.eqb_spec t ""); [done|]. destruct sigs; [done|]. by destruct Hd.
  - by destruct parts.
  - apply Forall_fmap. eapply Forall_impl; [exact Hok|]. by intros kv [_ Hc].
Qed.

(** The switch, by the text of the part. *)
Lemma cut_part k part v : has_char "="%char k = false ->
  strings_Cut "="%char part = Some (k, v) <-> part = k +:+ "=" +:+ v.
Proof. intros Hk. split; [by intros [-> _]%strings_Cut_inv|intros ->]. by apply strings_Cut_app. Qed.

Lemma header_part_t acc part v : part = "t=" +:+ v -> header_part acc part = (v, snd acc).
Proof. intros Hp. unfold header_part. by rewrite (proj2 (cut_part "t" part v eq_refl) Hp). Qed.

Lemma header_part_other acc part : (forall v, part <> "t=" +:+ v) -> fst (header_part acc part) = fst acc.
Proof.
  intros Hno. unfold header_part. destruct (strings_Cut _ part) as [[k v]|] eqn:Hc; [|done].
  destruct (String.eqb_spec k "t") as [->|]; [|by destruct (String.eqb k "v1")].
  by apply (cut_part "t" part v eq_refl), Hno in Hc.
Qed.

Lemma header_part_sigs acc part sig : sig ∈ snd (header_part acc part) <-> sig ∈ snd acc \/ part = "v1=" +:+ sig.
Proof.
  rewrite <- (cut_part "v1" part sig eq_refl). unfold header_part.
  destruct (strings_Cut _ part) as [[k v]|] eqn:Hc; simpl; [|naive_solver].
  destruct (String.eqb_spec k "t") as [->|]; simpl; [naive_solver|].
  destruct (String.eqb_spec k "v1") as [->|]; simpl; [|naive_solver].
  rewrite elem_of_app, list_elem_of_singleton. naive_solver.
Qed.

(** The last timestamp of a header, and its v1 signatures. *)
Lemma header_sigs parts acc sig :
  sig ∈ snd (foldl header_part acc parts) <-> sig ∈ snd acc \/ ("v1=" +:+ sig) ∈ parts.
Proof.
  revert acc. induction parts as [|part parts IH]; intros acc; simpl; [rewrite elem_of_nil; naive_solver|].
  rewrite IH, header_part_sigs, elem_of_cons. naive_solver.
Qed.

Definition last_timestamp (t : string) (parts : list string) : Prop :=
  exists pre post, parts = pre ++ ("t=" +:+ t) :: post /\ forall t', ("t=" +:+ t') ∉ post.

Lemma last_timestamp_hit t v parts : last_timestamp t (parts ++ ["t=" +:+ v]) <-> v = t.
Proof.
  split.
  - intros (pre & post & Heq & Hno). destruct post as [|x post _] using rev_ind.
    + apply app_inj_tail in Heq as [_ ->%string_app_inj_l]. done.
    + rewrite app_comm_cons, app_assoc in Heq. apply app_inj_tail in Heq as [_ <-].
      destruct (Hno v). apply elem_of_app. right. by apply list_elem_of_singleton.
  - intros ->. exists parts, []. split; [done|]. intros t' ?%elem_of_nil. done.
Qed.

Lemma last_timestamp_miss t part parts : (forall v, part <> "t=" +:+ v) ->
  last_timestamp t (parts ++ [part]) <-> last_timestamp t parts.
Proof.
  intros Hp. split; intros (pre & post & Heq & Hno).
  - destruct post as [|x post _] using rev_ind.
    + apply app_inj_tail in Heq as [_ Heq]. by destruct (Hp t).
    + rewrite app_comm_cons, app_assoc in Heq. apply app_inj_tail in Heq as [-> <-]. exists pre, post. split; [done|].
      intros t' Ht'. apply (Hno t'), elem_of_app. by left.
  - exists pre, (post ++ [part]). split; [by rewrite Heq, <- app_assoc|].
    intros t' [Ht'|Ht'%list_elem_of_singleton]%elem_of_app; [by apply (Hno t')|by apply (Hp t')].
Qed.

Lemma header_timestamp parts sigs t : t <> "" ->
  fst (foldl header_part (EmptyString, sigs) parts) = t <-> last_timestamp t parts.
Proof.
  intros Ht. induction parts as [|part parts IH] using rev_ind.
  { simpl. split; [congruence|]. by intros ([] & ? & [=] & _). }
  rewrite foldl_snoc. destruct (strings_Cut "="%char part) as [[k v]|] eqn:Hc; [destruct (decide (k = "t")) as [->|Hk]|].
  - apply (cut_part "t" part v eq_refl) in Hc as Hp. change (part = "t=" +:+ v) in Hp.
    rewrite (header_part_t _ _ _ Hp), Hp, last_timestamp_hit. done.
  - assert (Hno : forall v', part <> "t=" +:+ v') by (intros v' Hp; apply (cut_part "t" part v' eq_refl) in Hp; congruence).
    by rewrite header_part_other, last_timestamp_miss.
  - assert (Hno : forall v', part <> "t=" +:+ v') by (intros v' Hp; apply (cut_part "t" part v' eq_refl) in Hp; congruence).
    by rewrite header_part_other, last_timestamp_miss.
Qed.

(** C40: a webhook is accepted exactly when it is signed. [VerifyWebhookSignature]
    returns nil if and only if the comma-separated parts of the header contain a
    timestamp, the last part of the form [t=...], that is not empty, and a part
    [v1=...] that is the HMAC-SHA256, under the webhook secret, of this
    timestamp, a dot and the exact payload. Signatures of other schemes and
    earlier timestamps do not count. *)
Theorem VerifyWebhookSignature_iff secret payload header :
  is_ok (StripeGateway.VerifyWebhookSignature secret payload header) = true <->
  let parts := strings_Split ","%char header in
  exists t, t <> "" /\ last_timestamp t parts /\
    ("v1=" +:+ hex_EncodeToString (hmac_sha256 (bytes_of secret) (bytes_of (t +:+ "." +:+ payload)))) ∈ parts.
Proof.
  unfold StripeGateway.VerifyWebhookSignature, parseStripeSignatureHeader. cbv zeta. fold (signature secret).
  set (parts := strings_Split _ header).
  assert (Hsig : forall sig, sig ∈ snd (foldl header_part (EmptyString, []) parts) <-> ("v1=" +:+ sig) ∈ parts)
    by (intros sig; rewrite header_sigs; simpl; rewrite elem_of_nil; naive_solver).
  setoid_rewrite <- Hsig. pose proof (header_timestamp parts []) as Htime. clear Hsig.
  destruct (foldl _ _ parts) as [ts sigs]. cbn [fst snd] in *.
  assert (Hin : forall t, existsb (fun sig => String.eqb sig (signature secret (t +:+ "." +:+ payload))) sigs = true <->
    signature secret (t +:+ "." +:+ payload) ∈ sigs).
  { intros t. rewrite existsb_exists, list_elem_of_In. setoid_rewrite String.eqb_eq. naive_solver. }
  destruct (String.eqb_spec ts "") as [->|Hts]; simpl.
  - split; [done|]. intros (t & Ht & Hl%Htime & _); [|done]. congruence.
  - destruct sigs as [|sig sigs]; [split; [done|]; by intros (t & _ & _ & ?%elem_of_nil)|].
    cbn [length Nat.eqb]. split.
    + intros Hok. exists ts. split; [done|]. split; [by apply Htime|]. apply Hin. by destruct (existsb _ _).
    + intros (t & Ht & Hl & Hs). apply Htime in Hl; [|done]. subst t. by rewrite (proj2 (Hin ts) Hs).
Qed.

Section requests.
Context `{E : Env}.

(** At most one charge request. Whatever the network does, [CreateIntent]
    sends Stripe at most one request, with the amount and the currency of the
    order and its idempotency key as [Idempotency-Key]; it sends one unless it
    fails, and it reports success only for a 200 reply without an error object,
    returning the id and client secret of that reply. *)
Theorem CreateIntent_request amount key md w r w' :
  key <> "" -> StripeGateway.CreateIntent amount key md w = (r, w') ->
  let rq := mkRequest "/v1/payment_intents" (StripeGateway.intent_form amount md) (Some key) in
  (w_http w' = w_http w \/ w_http w' = w_http w ++ [rq]) /\
  match r with
  | Ok (id, clientSecret) => w_http w' = w_http w ++ [rq] /\
      exists resp reply, resp = env_http (w_tick w) rq /\ rs_Status resp = 200%Z /\
        decode_reply stripePaymentIntentResponse (rs_Body resp) = Some reply /\ sr_Error reply = None /\
        id = sr_ID reply /\ clientSecret = sr_ClientSecret reply
  | Err _ => True
  end.
Proof.
  intros Hkey Hw rq. pose proof (interact_rest w) as (_ & Hhttp & _).
  unfold StripeGateway.CreateIntent, StripeGateway.do, bind, wrap, map_err, StripeGateway.post in Hw.
  rewrite (proj2 (String.eqb_neq _ _) Hkey) in Hw. fold rq in Hw.
  destruct (env_outcome (w_tick w)).
  2: { injection Hw as <- <-. rewrite Hhttp. auto. }
  2: { injection Hw as <- <-. simpl. rewrite Hhttp. auto. }
  destruct (decode_reply _ _) as [reply|] eqn:Hdec; [|injection Hw as <- <-; simpl; rewrite Hhttp; by auto].
  destruct (sr_Error reply) eqn:Herr; [injection Hw as <- <-; simpl; rewrite Hhttp; by auto|].
  destruct (Z.eqb_spec (rs_Status (env_http (w_tick w) rq)) 200); injection Hw as <- <-; simpl; rewrite Hhttp; [|by auto].
  split; [by right|]. split; [done|]. by exists (env_http (w_tick w) rq), reply.
Qed.

(** A refund that succeeds has sent Stripe exactly one request: for the payment,
    the amount and the reason given, without an idempotency key. *)
Theorem Refund_request ppid amount reason w rid w' :
  StripeGateway.Refund ppid amount reason w = (Ok rid, w') ->
  w_http w' = w_http w ++ [mkRequest "/v1/refunds" (StripeGateway.refund_form ppid amount reason) None].
Proof.
  intros Hw. pose proof (interact_rest w) as (_ & Hhttp & _).
  unfold StripeGateway.Refund, StripeGateway.do, bind, wrap, map_err, StripeGateway.post in Hw. simpl in Hw.
  destruct (env_outcome (w_tick w)); [|done..].
  destruct (decode_reply _ _) as [reply|]; [|done]. destruct (sr_Error reply); [done|].
  destruct (_ =? 200)%Z; [|done]. injection Hw as _ <-. simpl. by rewrite Hhttp.
Qed.
End requests.

(** ** Witnesses *)

Definition fx_parts : list (string * string) := [("t", "1614556800"); ("v0", "old"); ("v1", "aa"); ("v1", "bb")].

Lemma fx_parts_ok : Forall part_ok fx_parts.
Proof. repeat constructor. Qed.

Lemma parseStripeSignatureHeader_render_witness :
  parseStripeSignatureHeader "t=1614556800,v0=old,v1=aa,v1=bb" = Ok ("1614556800", ["aa"; "bb"]).
Proof. exact (parseStripeSignatureHeader_render fx_parts ltac:(discriminate) fx_parts_ok). Defined.

(** A signed payload passes and the same header with another payload does not. *)
Definition fx_signed (payload : string) : string :=
  render_header [("t", "1614556800"); ("v1", signature "whsec" ("1614556800." +:+ payload))].
Example fx_verify_ok : is_ok (StripeGateway.VerifyWebhookSignature "whsec" "{}" (fx_signed "{}")) = true.
Proof. vm_compute. reflexivity. Qed.
Example fx_verify_tampered : is_ok (StripeGateway.VerifyWebhookSignature "whsec" "{ }" (fx_signed "{}")) = false.
Proof. vm_compute. reflexivity. Qed.

Lemma CreateIntent_request_witness :
  let w' := snd (StripeGateway.CreateIntent (mkMoney 150000 "KES") "key-1" [("order_id", "7")] (fx_world fx_db)) in
  w_http w' = [mkRequest "/v1/payment_intents" [("amount", "150000"); ("currency", "kes");
     ("automatic_payment_methods[enabled]", "true"); ("metadata[order_id]", "7")] (Some "key-1")].
Proof.
  assert (H : fst (StripeGateway.CreateIntent (mkMoney 150000 "KES") "key-1" [("order_id", "7")] (fx_world fx_db))
              = Ok ("pi_1", "sec_1")) by (vm_compute; reflexivity).
  exact (proj1 (proj2 (CreateIntent_request (mkMoney 150000 "KES") "key-1" [("order_id", "7")] (fx_world fx_db) _ _
           ltac:(discriminate) (run_Ok _ _ H)))).
Defined.
