(* ===== verification/OrderService.v ===== *)
(** * The order service ([src/internal/service/order/service.go])

    Turning held seats into a paid order: [CreateOrder], [AuthorizePayment],
    [ConfirmPayment] and the compensating [refundAndFail], over the Postgres
    repositories and any payment gateway. *)
From S2P Require Import Prelude Crypto Domain Schema Redis Runtime Ports Fixtures InventoryRepo CheckoutRepos CatalogRepos.

Record HeldItem := mkHeldItem { hi_InventoryID : UUID; hi_HoldToken : UUID }.

(** The loop variables of [CreateOrder]. *)
Record Basket := mkBasket {
  bk_categoryCache : gmap UUID (list EventTicketCategory);
  bk_categoryCount : gmap UUID Z;
  bk_subtotal : Money;
  bk_tightestExpiry : option Time;
  bk_orderItems : list OrderItem }.

Definition empty_basket : Basket := mkBasket ∅ ∅ (mkMoney 0 "") None [].

Definition order_error (op : string) (s : DomainSentinel) (msg : string) : GoError :=
  NewError op (EWith (ESentinel (SDomain s)) msg).

Definition find_category (id : UUID) (l : list EventTicketCategory) : option EventTicketCategory :=
  find (fun c => (etc_ID c =? id)%N) l.

(** [if tightestExpiry == nil || (row.HoldExpiresAt != nil && ...Before(...))]. *)
Definition tighten (acc rowExp : option Time) : option Time :=
  match acc with
  | None => rowExp
  | Some t => match rowExp with
              | Some e => if Before e t then rowExp else acc
              | None => acc
              end
  end.

(** Go's [%q] on ASCII text: quotes, backslashes and control characters escaped. *)
Definition quote_char (c : Ascii.ascii) : string :=
  let n := Ascii.N_of_ascii c in
  if (n =? 34)%N then chr 92 +:+ chr 34
  else if (n =? 92)%N then chr 92 +:+ chr 92
  else if (n =? 7)%N then chr 92 +:+ "a"
  else if (n =? 8)%N then chr 92 +:+ "b"
  else if (n =? 9)%N then chr 92 +:+ "t"
  else if (n =? 10)%N then chr 92 +:+ "n"
  else if (n =? 11)%N then chr 92 +:+ "v"
  else if (n =? 12)%N then chr 92 +:+ "f"
  else if (n =? 13)%N then chr 92 +:+ "r"
  else if (n <? 32)%N || (n =? 127)%N then chr 92 +:+ "x" +:+ hex_EncodeToString [Z.of_N n]
  else String c EmptyString.
Fixpoint quote_body (s : string) : string :=
  match s with EmptyString => EmptyString | String c s' => quote_char c +:+ quote_body s' end.
Definition go_quote (s : string) : string := chr 34 +:+ quote_body s +:+ chr 34.

(** [fmt.Sprintf(`{"refund_id":%q}`, refundID)]. *)
Definition refund_json (refundID : string) : string :=
  "{" +:+ chr 34 +:+ "refund_id" +:+ chr 34 +:+ ":" +:+ go_quote refundID +:+ "}".

Section service.
Context `{U : UuidPkg} `{E : Env} `{G : !PaymentGateway}.

(** ** CreateOrder *)

(** The categories of an event, read once per order. *)
Definition categories_for (tenantID eventID : UUID) (cache : gmap UUID (list EventTicketCategory))
    : M (list EventTicketCategory * gmap UUID (list EventTicketCategory)) :=
  match cache !! eventID with
  | Some cs => ret (cs, cache)
  | None =>
      cs <- wrap "order: load ticket categories for event" (EventRepo.ListTicketCategories tenantID eventID);;
      ret (cs, <[eventID := cs]> cache)
  end.

(** The checks on a held row, in the order of the code. *)
Definition check_held (token : UUID) (row : EventSeatInventory) : M unit :=
  if negb (bool_decide (inv_Status row = InventoryStatusHeld)) || negb (bool_decide (inv_HoldToken row = Some token))
  then throw (order_error "order.CreateOrder" ErrExpired "item is not held by the supplied token")
  else
    match inv_HoldExpiresAt row with
    | None => ret tt
    | Some e =>
        now <- time_Now;;
        if Before e now then throw (order_error "order.CreateOrder" ErrExpired "item's hold has expired") else ret tt
    end.

(** One iteration over the supplied items. *)
Definition add_item (tenantID : UUID) (b : Basket) (ix : nat * HeldItem) : M Basket :=
  let '(i, item) := ix in
  row <- wrap "order: load held item" (InventoryRepo.GetByID tenantID (hi_InventoryID item));;
  check_held (hi_HoldToken item) row;;;
  let tightest := tighten (bk_tightestExpiry b) (inv_HoldExpiresAt row) in
  cc <- categories_for tenantID (inv_EventID row) (bk_categoryCache b);;
  let '(categories, cache) := cc in
  match find_category (inv_EventTicketCategoryID row) categories with
  | None => throw (EText "order: no ticket category found for event")
  | Some c =>
      let cat := inv_EventTicketCategoryID row in
      let n := (default 0 (bk_categoryCount b !! cat) + 1)%Z in
      if (etc_MaxPerOrder c <? n)%Z
      then throw (order_error "order.CreateOrder" ErrInvalidInput "exceeds max per order for this ticket category")
      else
        subtotal <- (if (i =? 0)%nat then ret (etc_Price c)
                     else wrap "order: sum prices" (of_result (MoneyAdd (bk_subtotal b) (etc_Price c))));;
        id <- uuid_New;;
        ret (mkBasket cache (<[cat := n]> (bk_categoryCount b)) subtotal tightest
               (bk_orderItems b ++ [mkOrderItem id tenantID uuid_Nil (inv_ID row) (hi_HoldToken item) (etc_Price c) time_Zero]))
  end.

Definition set_order_id (orderID : UUID) (it : OrderItem) : OrderItem :=
  mkOrderItem (oi_ID it) (oi_TenantID it) orderID (oi_EventSeatInventoryID it) (oi_HoldToken it) (oi_UnitPrice it) (oi_CreatedAt it).

(** The body of the transaction. *)
Definition create_order_tx (tenantID userID : UUID) (idempotencyKey : string) (items : list HeldItem) : M Order :=
  b <- fold_loop (add_item tenantID) empty_basket (imap pair items);;
  let subtotal := bk_subtotal b in
  let fees := mkMoney 0 (Currency subtotal) in
  total <- wrap "order: compute total" (of_result (MoneyAdd subtotal fees));;
  id <- uuid_New;;
  let order := mkOrder id tenantID userID OrderStatusPending idempotencyKey subtotal fees total
                 (bk_tightestExpiry b) time_Zero time_Zero in
  wrap "order: create with items" (OrderRepo.CreateWithItems order (set_order_id id <$> bk_orderItems b));;;
  ret order.

Definition CreateOrder (tenantID userID : UUID) (idempotencyKey : string) (items : list HeldItem) : M Order :=
  match items with
  | [] => throw (order_error "order.CreateOrder" ErrInvalidInput "at least one item is required")
  | _ =>
      existing <- attempt (OrderRepo.GetByIdempotencyKey tenantID idempotencyKey);;
      match existing with
      | Ok o => ret o
      | Err e =>
          if negb (errors_Is e (SDomain ErrNotFound)) then throw (EWrap "order: check idempotency" e)
          else WithTx (create_order_tx tenantID userID idempotencyKey items)
      end
  end.

(** ** AuthorizePayment *)

Definition AuthorizePayment (tenantID orderID : UUID) : M string :=
  order <- wrap "order: get order" (OrderRepo.GetByID tenantID orderID);;
  if negb (bool_decide (o_Status order = OrderStatusPending))
  then throw (order_error "order.AuthorizePayment" ErrInvalidInput "order is not pending")
  else
    intent <- wrap "order: create payment intent"
                (gw_CreateIntent (o_Total order) (o_IdempotencyKey order)
                   [("order_id", uuid_String (o_ID order)); ("tenant_id", uuid_String (o_TenantID order))]);;
    let '(providerPaymentID, clientSecret) := intent in
    id <- uuid_New;;
    let payment := mkPayment id tenantID (o_ID order) PaymentProviderStripe providerPaymentID PaymentStatusPending
                     (o_Total order) (o_IdempotencyKey order) None time_Zero time_Zero in
    wrap "order: record payment" (PaymentRepo.Create payment);;;
    wrap "order: update order status" (OrderRepo.UpdateStatus tenantID (o_ID order) OrderStatusAwaitingPayment);;;
    ret clientSecret.

(** ** ConfirmPayment *)

Definition refundAndFail (tenantID : UUID) (order : Order) (payment : Payment) : M unit :=
  refundID <- wrap "gateway refund"
                (gw_Refund (p_ProviderPaymentID payment) (p_Amount payment)
                   "inventory hold expired before fulfillment could be confirmed");;
  wrap "mark payment refunded"
    (PaymentRepo.UpdateStatus tenantID (p_ID payment) PaymentStatusRefunded "" (Some (refund_json refundID)));;;
  wrap "mark order expired" (OrderRepo.UpdateStatus tenantID (o_ID order) OrderStatusExpired).

Definition confirm_item (tenantID : UUID) (_ : unit) (item : OrderItem) : M unit :=
  ok <- wrap "order: confirm sale for item" (InventoryRepo.ConfirmSale tenantID (oi_EventSeatInventoryID item) (oi_HoldToken item));;
  if negb ok then throw (order_error "order.ConfirmPayment" ErrExpired "item's hold is no longer valid") else ret tt.

Definition confirmation_payload (order : Order) (item_count : Z) : list (string * JSONValue) :=
  [("order_id", JString (uuid_String (o_ID order))); ("item_count", JNumber item_count);
   ("total_cents", JNumber (Cents (o_Total order))); ("currency", JString (Currency (o_Total order)))].

(** The body of the transaction. *)
Definition confirm_tx (tenantID : UUID) (order : Order) (items : list OrderItem) : M unit :=
  fold_loop (confirm_item tenantID) tt items;;;
  wrap "order: mark order paid" (OrderRepo.UpdateStatus tenantID (o_ID order) OrderStatusPaid);;;
  wrap "order: enqueue confirmation notification"
    (NotificationRepo.Create uuid_Nil tenantID (o_UserID order) NotificationTypeOrderConfirmation
       (confirmation_payload order (Z.of_nat (length items))) None).

Definition ConfirmPayment (tenantID orderID paymentID : UUID) : M unit :=
  order <- wrap "order: get order" (OrderRepo.GetByID tenantID orderID);;
  if bool_decide (o_Status order = OrderStatusPaid) then ret tt
  else
    payment <- wrap "order: get payment" (PaymentRepo.GetByID tenantID paymentID);;
    if negb (p_OrderID payment =? o_ID order)%N
    then throw (order_error "order.ConfirmPayment" ErrInvalidInput "payment does not belong to order")
    else
      items <- wrap "order: list order items" (OrderRepo.ListItems tenantID (o_ID order));;
      tx <- attempt (WithTx (confirm_tx tenantID order items));;
      match tx with
      | Err txErr =>
          if errors_Is txErr (SDomain ErrExpired) then
            refund <- attempt (refundAndFail tenantID order payment);;
            match refund with
            | Err refundErr => throw (EWrap "order: confirm failed AND refund failed (needs manual intervention)" refundErr)
            | Ok _ => throw (EWrap "order: could not confirm sale, payment refunded" txErr)
            end
          else throw txErr
      | Ok _ =>
          wrap "order: mark payment captured"
            (PaymentRepo.UpdateStatus tenantID (p_ID payment) PaymentStatusCaptured "" None)
      end.

End service.
