(* ===== verification/OrderCreate.v ===== *)
(** * What [CreateOrder] guarantees

    The order it creates prices exactly the seats held under the presented tokens, and a
    retry never creates a second one.  The results hold in any environment:
    the transaction runs at Postgres' default isolation level, so each of its
    reads sees what other sessions have committed by then. *)
From S2P Require Import Prelude Domain Schema Redis Runtime Ports Fixtures InventoryRepo CheckoutRepos CatalogRepos OrderService.

Section create.
Context `{U : UuidPkg} `{E : Env} `{G : !PaymentGateway}.

(** ** One item *)

(** [P] held of the database at some instant between [d0] and [d]. *)
Definition read_during (d0 d : DB) (P : DB -> Prop) : Prop := exists dx, others d0 dx /\ others dx d /\ P dx.

Lemma read_now d0 d (P : DB -> Prop) : others d0 d -> P d -> read_during d0 d P.
Proof. exists d. split_and!; [done|reflexivity|done]. Qed.

Lemma read_later d0 d d' P : others d d' -> read_during d0 d P -> read_during d0 d' P.
Proof. intros Ho (dx & H1 & H2 & H3). exists dx. split_and!; [done|by etransitivity|done]. Qed.

(** The row and category behind an item, each as it was at some instant
    between [d0] and [d]. *)
Record priced (t : UUID) (d0 d : DB) (item : HeldItem) (row : EventSeatInventory) (c : EventTicketCategory) : Prop := {
  pr_row : read_during d0 d (fun dx => inventory dx !! hi_InventoryID item = Some row);
  pr_tenant : inv_TenantID row = t;
  pr_held : inv_Status row = InventoryStatusHeld;
  pr_token : inv_HoldToken row = Some (hi_HoldToken item);
  pr_category : read_during d0 d (fun dx =>
    find_category (inv_EventTicketCategoryID row) (EventRepo.categories_of t (inv_EventID row) dx) = Some c)
}.

Definition cache_ok (t : UUID) (d0 d : DB) (cache : gmap UUID (list EventTicketCategory)) : Prop :=
  forall ev cs, cache !! ev = Some cs -> read_during d0 d (fun dx => cs = EventRepo.categories_of t ev dx).

Lemma priced_later t d0 d d' item row c : others d d' -> priced t d0 d item row c -> priced t d0 d' item row c.
Proof. intros Ho []. split; eauto using read_later. Qed.

Lemma cache_later t d0 d d' cache : others d d' -> cache_ok t d0 d cache -> cache_ok t d0 d' cache.
Proof. intros Ho Hc ev cs Hev. by eapply read_later, Hc. Qed.

Lemma get_row_Ok t id w row w' :
  InventoryRepo.GetByID t id w = (Ok row, w') ->
  inventory (w_db w') !! id = Some row /\ inv_TenantID row = t /\ others (w_db w) (w_db w') /\ same_session w w'.
Proof.
  intros (o & w1 & (-> & Hd & Hs)%wrap_Ok%query_Ok & Hr)%bind_Ok.
  pose proof (interact_others w) as Ho. rewrite <- Hd in *.
  destruct (inventory (w_db w1) !! id) as [r|] eqn:Hi; [|done].
  destruct (N.eqb_spec (inv_TenantID r) t); [|done]. by injection Hr as <- <-.
Qed.

Lemma check_held_Ok tok row w u w' :
  check_held tok row w = (Ok u, w') ->
  inv_Status row = InventoryStatusHeld /\ inv_HoldToken row = Some tok /\
  (forall e, inv_HoldExpiresAt row = Some e -> (env_clock (w_tick w) <= e)%Z) /\
  w_db w' = w_db w /\ same_session w w'.
Proof.
  unfold check_held. destruct (bool_decide_reflect (inv_Status row = InventoryStatusHeld)); [|done].
  destruct (bool_decide_reflect (inv_HoldToken row = Some tok)); [|done]. simpl.
  destruct (inv_HoldExpiresAt row) as [ex|].
  - unfold bind, time_Now. simpl. unfold Before. destruct (Z.ltb_spec ex (env_clock (w_tick w))); [done|].
    intros [= _ <-]. split; [done|]. split; [done|]. split; [naive_solver|]. split; [done|].
    split; simpl; [reflexivity|lia].
  - intros [= _ <-]. do 4 (split; [done|]). apply same_session_refl.
Qed.

Lemma categories_for_Ok t ev cache d0 w cs cache' w' :
  categories_for t ev cache w = (Ok (cs, cache'), w') -> others d0 (w_db w) -> cache_ok t d0 (w_db w) cache ->
  read_during d0 (w_db w') (fun dx => cs = EventRepo.categories_of t ev dx) /\ cache_ok t d0 (w_db w') cache' /\
  others (w_db w) (w_db w') /\ same_session w w'.
Proof.
  unfold categories_for. intros Hw Hd0 Hc. destruct (cache !! ev) eqn:He.
  - injection Hw as <- <- <-. split; [by apply Hc|]. split; [done|]. split; [reflexivity|apply same_session_refl].
  - apply bind_Ok in Hw as (x & w1 & (-> & Hd & Hs)%wrap_Ok%wrap_Ok%query_Ok & [= <- <- <-]).
    pose proof (interact_others w) as Ho. rewrite <- Hd in *.
    assert (Hread : read_during d0 (w_db w1) (fun dx => EventRepo.categories_of t ev (w_db w1) = EventRepo.categories_of t ev dx))
      by (apply read_now; [by etransitivity|done]).
    split_and!; [done| |done..]. intros ev' cs'. destruct (decide (ev = ev')) as [->|].
    + rewrite lookup_insert_eq. by intros [= <-].
    + rewrite lookup_insert_ne by done. by apply cache_later with (w_db w).
Qed.

(** The basket after one more item. *)
Definition basket_step (b b' : Basket) (i : nat) (item : HeldItem) (row : EventSeatInventory) (c : EventTicketCategory)
    (t id : UUID) : Prop :=
  let cat := inv_EventTicketCategoryID row in
  let n := (default 0 (bk_categoryCount b !! cat) + 1)%Z in
  bk_categoryCount b' = <[cat := n]> (bk_categoryCount b) /\ (n <= etc_MaxPerOrder c)%Z /\
  bk_tightestExpiry b' = tighten (bk_tightestExpiry b) (inv_HoldExpiresAt row) /\
  (if (i =? 0)%nat then bk_subtotal b' = etc_Price c else MoneyAdd (bk_subtotal b) (etc_Price c) = Ok (bk_subtotal b')) /\
  bk_orderItems b' = bk_orderItems b ++
    [mkOrderItem id t uuid_Nil (inv_ID row) (hi_HoldToken item) (etc_Price c) time_Zero].

Lemma add_item_Ok t b i item d0 w b' w' :
  add_item t b (i, item) w = (Ok b', w') -> others d0 (w_db w) -> cache_ok t d0 (w_db w) (bk_categoryCache b) ->
  exists row c id k, priced t d0 (w_db w') item row c /\ basket_step b b' i item row c t id /\
    (w_tick w <= k)%nat /\ (forall e, inv_HoldExpiresAt row = Some e -> (env_clock k <= e)%Z) /\
    cache_ok t d0 (w_db w') (bk_categoryCache b') /\ others (w_db w) (w_db w') /\ same_session w w'.
Proof.
  intros (row & w1 & Hrow%wrap_Ok & Hw)%bind_Ok Hd0 Hc. apply get_row_Ok in Hrow as (H1 & H2 & O1 & S1).
  apply bind_Ok in Hw as (? & w2 & (H3 & H4 & H5 & D2 & S2)%check_held_Ok & Hw).
  apply bind_Ok in Hw as ([cs cache] & w3 & Hcs & Hw).
  assert (Hd1 : others d0 (w_db w1)) by (by etransitivity).
  apply (categories_for_Ok _ _ _ d0) in Hcs as (Hread & Hc' & O3 & S3); rewrite ?D2 in *; [|done|by apply (cache_later _ _ _ _ _ O1)].
  destruct (find_category _ _) as [c|] eqn:Hf; [|done]. cbv zeta in Hw.
  destruct (Z.ltb_spec (etc_MaxPerOrder c) (default 0 (bk_categoryCount b !! inv_EventTicketCategoryID row) + 1)%Z); [done|].
  apply bind_Ok in Hw as (sub & w4 & Hsub & Hw).
  apply bind_Ok in Hw as (id & w5 & [= <- <-] & [= <- <-]).
  assert (Hsub' : w4 = w3 /\ if (i =? 0)%nat then sub = etc_Price c else MoneyAdd (bk_subtotal b) (etc_Price c) = Ok sub).
  { destruct (i =? 0)%nat; [by injection Hsub as <- <-|]. apply wrap_Ok in Hsub. by injection Hsub as <- <-. }
  destruct Hsub' as [-> Hsub'].
  exists row, c, (env_uuid (w_tick w3)), (w_tick w1). cbn [w_db set_tick bk_categoryCache]. split.
  { split; [|done..|].
    - apply (read_later _ (w_db w1)); [done|]. by apply read_now.
    - destruct Hread as (dx & ? & ? & ->). by exists dx. }
  split; [by split_and!|]. split; [apply S1|]. split; [done|]. split; [done|]. split; [by etransitivity|].
  eapply same_session_trans; [exact S1|]. eapply same_session_trans; [exact S2|].
  eapply same_session_trans; [exact S3|]. split; simpl; [reflexivity|lia].
Qed.

(** ** All items *)

(** An item with the row and the category it was priced from. *)
Record Entry := mkEntry { en_item : HeldItem; en_row : EventSeatInventory; en_cat : EventTicketCategory }.

Definition in_category (cat : UUID) (l : list Entry) : Z :=
  Z.of_nat (length (filter (fun e => inv_EventTicketCategoryID (en_row e) = cat) l)).
Definition cents (l : list Entry) : Z := foldr Z.add 0%Z ((fun e => Cents (etc_Price (en_cat e))) <$> l).
Definition expiries (l : list Entry) : list (option Time) := (fun e => inv_HoldExpiresAt (en_row e)) <$> l.

Definition item_of (t : UUID) (e : Entry) (it : OrderItem) : Prop :=
  oi_TenantID it = t /\ oi_EventSeatInventoryID it = inv_ID (en_row e) /\
  oi_HoldToken it = hi_HoldToken (en_item e) /\ oi_UnitPrice it = etc_Price (en_cat e).

(** The entry's seat and price were read between [d0] and [d], at a moment
    (from tick [n0] on) when the hold had not expired. *)
Definition entry_ok (t : UUID) (d0 d : DB) (n0 : nat) (e : Entry) : Prop :=
  priced t d0 d (en_item e) (en_row e) (en_cat e) /\
  exists k, (n0 <= k)%nat /\ forall x, inv_HoldExpiresAt (en_row e) = Some x -> (env_clock k <= x)%Z.

(** What the basket contains after the entries [l], read between [d0] and [d]
    from tick [n0] on. *)
Record basket_ok (t : UUID) (d0 d : DB) (n0 : nat) (l : list Entry) (b : Basket) : Prop := {
  bo_cache : cache_ok t d0 d (bk_categoryCache b);
  bo_priced : Forall (entry_ok t d0 d n0) l;
  bo_items : Forall2 (item_of t) l (bk_orderItems b);
  bo_count : forall cat, default 0%Z (bk_categoryCount b !! cat) = in_category cat l;
  bo_max : forall e, e ∈ l -> exists e', e' ∈ l /\
    inv_EventTicketCategoryID (en_row e') = inv_EventTicketCategoryID (en_row e) /\
    (in_category (inv_EventTicketCategoryID (en_row e)) l <= etc_MaxPerOrder (en_cat e'))%Z;
  bo_currency : forall e, e ∈ l -> Currency (etc_Price (en_cat e)) = Currency (bk_subtotal b);
  bo_subtotal : wrap64 (Cents (bk_subtotal b)) = wrap64 (cents l);
  bo_expiry : bk_tightestExpiry b = foldl tighten None (expiries l)
}.

Lemma entry_later t d0 d d' n0 e : others d d' -> entry_ok t d0 d n0 e -> entry_ok t d0 d' n0 e.
Proof. intros Ho [Hp Hk]. split; [by eapply priced_later|done]. Qed.

Lemma in_category_snoc cat l e :
  in_category cat (l ++ [e]) = (in_category cat l + if decide (inv_EventTicketCategoryID (en_row e) = cat) then 1 else 0)%Z.
Proof. unfold in_category. rewrite filter_app, length_app, filter_cons. repeat case_decide; simpl; try done; lia. Qed.

Lemma cents_snoc l e : cents (l ++ [e]) = (cents l + Cents (etc_Price (en_cat e)))%Z.
Proof.
  unfold cents. induction l as [|x l IH]; [cbn; lia|].
  change ((x :: l) ++ [e]) with (x :: (l ++ [e])). rewrite !fmap_cons. cbn [foldr]. lia.
Qed.

Lemma basket_snoc t d0 d d' n0 l b b' item row c id k :
  basket_ok t d0 d n0 l b -> others d d' -> priced t d0 d' item row c -> basket_step b b' (length l) item row c t id ->
  (n0 <= k)%nat -> (forall x, inv_HoldExpiresAt row = Some x -> (env_clock k <= x)%Z) ->
  cache_ok t d0 d' (bk_categoryCache b') ->
  basket_ok t d0 d' n0 (l ++ [mkEntry item row c]) b'.
Proof.
  intros Hb Ho Hp (Hcount & Hmax & Hexp & Hsub & Hitems) Hk Hx Hc.
  assert (Hcat : forall cat, default 0%Z (bk_categoryCount b' !! cat) = in_category cat (l ++ [mkEntry item row c])).
  { intros cat. rewrite Hcount, in_category_snoc, <- (bo_count _ _ _ _ _ _ Hb cat). simpl.
    case_decide as Hd; [rewrite <- Hd, lookup_insert_eq; done|rewrite lookup_insert_ne by done; simpl; lia]. }
  split; [done| | |done| | | |].
  - apply Forall_app. split; [|apply Forall_singleton; split; simpl; eauto].
    eapply Forall_impl; [apply Hb|]. intros e He. by eapply entry_later.
  - rewrite Hitems. apply Forall2_app; [apply Hb|]. constructor; [|constructor]. by split_and!.
  - intros e [He|He%list_elem_of_singleton]%elem_of_app; [|subst e].
    + destruct (decide (inv_EventTicketCategoryID row = inv_EventTicketCategoryID (en_row e))) as [Heq|Hne].
      * exists (mkEntry item row c). split; [apply elem_of_app; right; by apply elem_of_cons; left|].
        split; [done|]. by rewrite <- Hcat, <- Heq, Hcount, lookup_insert_eq.
      * destruct (bo_max _ _ _ _ _ _ Hb e He) as (e' & He' & Hcc & Hle). exists e'. split; [apply elem_of_app; by left|].
        split; [done|]. rewrite in_category_snoc. simpl. rewrite decide_False by done. lia.
    + exists (mkEntry item row c). split; [apply elem_of_app; right; by apply elem_of_cons; left|].
      split; [done|]. rewrite <- Hcat. simpl. by rewrite Hcount, lookup_insert_eq.
  - intros e [He|He%list_elem_of_singleton]%elem_of_app; [|subst e].
    + destruct (Nat.eqb_spec (length l) 0) as [Hl|Hl]; [destruct l; [by apply elem_of_nil in He|simpl in Hl; lia]|].
      apply MoneyAdd_Ok in Hsub as [_ ->]. simpl. by apply (bo_currency _ _ _ _ _ _ Hb).
    + simpl. destruct (Nat.eqb_spec (length l) 0) as [Hl|Hl]; [by rewrite Hsub|].
      apply MoneyAdd_Ok in Hsub as [<- ->]. done.
  - rewrite cents_snoc. simpl. destruct (Nat.eqb_spec (length l) 0) as [Hl|Hl].
    + destruct l; [|done]. by rewrite Hsub.
    + apply MoneyAdd_Ok in Hsub as [_ ->]. simpl. rewrite (wrap64_id (wrap64 _)) by apply wrap64_in_int64.
      rewrite <- wrap64_add_l, (bo_subtotal _ _ _ _ _ _ Hb). by rewrite wrap64_add_l.
  - unfold expiries. rewrite fmap_app, foldl_app. simpl. rewrite Hexp. f_equal. apply Hb.
Qed.

Lemma add_items_Ok t d0 n0 items l b w b' w' :
  fold_loop (add_item t) b (imap (fun i x => ((length l + i)%nat, x)) items) w = (Ok b', w') ->
  others d0 (w_db w) -> (n0 <= w_tick w)%nat -> basket_ok t d0 (w_db w) n0 l b ->
  exists l', en_item <$> l' = items /\ basket_ok t d0 (w_db w') n0 (l ++ l') b' /\
    others (w_db w) (w_db w') /\ same_session w w'.
Proof.
  revert l b w. induction items as [|item items IH]; intros l b w Hw Hd0 Hn0 Hb.
  - injection Hw as <- <-. exists []. rewrite app_nil_r. split_and!; auto using same_session_refl; reflexivity.
  - cbn [imap fold_loop] in Hw. apply bind_Ok in Hw as (b1 & w1 & H1 & Hw). rewrite Nat.add_0_r in H1.
    apply (add_item_Ok _ _ _ _ d0) in H1 as (row & c & id & k & Hp & Hs & Hk & Hx & Hc & O1 & S1); [|done|apply Hb].
    pose proof (basket_snoc _ _ _ _ _ _ _ _ _ _ _ _ k Hb O1 Hp Hs ltac:(lia) Hx Hc) as Hb1.
    destruct (IH (l ++ [mkEntry item row c]) b1 w1) as (l' & Hl' & Hb' & O2 & S2); [| |destruct S1; lia|done|].
    + rewrite length_app. simpl. erewrite imap_ext; [exact Hw|]. intros i x _. simpl. f_equal. lia.
    + by etransitivity.
    + exists (mkEntry item row c :: l'). split; [by rewrite fmap_cons, Hl'|].
      rewrite <- app_assoc in Hb'. split; [done|]. split; [by etransitivity|]. by eapply same_session_trans.
Qed.

(** ** The rows written *)

Definition add_items (now : Time) (t oid : UUID) (batch : list (UUID * OrderItem)) (m : gmap UUID OrderItem) : gmap UUID OrderItem :=
  foldl (fun m x => <[x.1 := OrderRepo.stored_item now t oid x.1 x.2]> m) m batch.

(** The identifiers are new, each one. *)
Definition fresh_ids (d : DB) (ids : list UUID) : Prop := NoDup ids /\ Forall (fun i => order_items d !! i = None) ids.

Lemma insert_items_Ok t oid batch now d u d' :
  OrderRepo.insert_items t oid batch now d = Ok (u, d') ->
  d' = set_order_items (add_items now t oid batch (order_items d)) d /\ fresh_ids d batch.*1.
Proof.
  revert d. induction batch as [|[id it] batch IH]; intros d Hi; simpl in Hi.
  - injection Hi as _ <-. split; [by destruct d|]. split; constructor.
  - destruct (OrderRepo.insert_item t oid id it now d) as [[[] d1]|] eqn:Hit; [|done].
    unfold OrderRepo.insert_item in Hit. apply insert_into_Ok in Hit as (Hn & _ & _ & -> & _).
    apply IH in Hi as (-> & Hnd & Hf). split; [done|]. rewrite Forall_forall in Hf. simpl in Hf. split; simpl.
    + constructor; [|done]. intros Hin. specialize (Hf _ Hin). by rewrite lookup_insert_eq in Hf.
    + constructor; [done|]. apply Forall_forall. intros i Hin. specialize (Hf _ Hin). by apply lookup_insert_None in Hf as [? _].
Qed.

Lemma assign_ids_Ok items acc w batch w' :
  fold_loop (fun acc it => i <- fresh_if_nil (oi_ID it);; ret (acc ++ [(i, it)])) acc items w = (Ok batch, w') ->
  w_db w' = w_db w /\ same_session w w' /\ exists ids, batch = acc ++ zip ids items /\ length ids = length items.
Proof.
  revert acc w. induction items as [|it items IH]; intros acc w Hw.
  - injection Hw as <- <-. split_and!; auto using same_session_refl. exists []. by rewrite app_nil_r.
  - apply bind_Ok in Hw as (acc' & w1 & Hi & Hw). apply bind_Ok in Hi as (i & w2 & (D1 & S1 & _)%fresh_if_nil_Ok & [= <- <-]).
    apply IH in Hw as (D2 & S2 & ids & -> & Hlen). split; [congruence|]. split; [by eapply same_session_trans|].
    exists (i :: ids). rewrite <- app_assoc. simpl. auto.
Qed.

Lemma assign_ids_wrote items acc w batch w' :
  fold_loop (fun acc it => i <- fresh_if_nil (oi_ID it);; ret (acc ++ [(i, it)])) acc items w = (Ok batch, w') ->
  w_wrote w' = w_wrote w.
Proof.
  revert acc w. induction items as [|it items IH]; intros acc w Hw; [by injection Hw as <- <-|].
  apply bind_Ok in Hw as (acc' & w1 & (i & w2 & Hi & [= <- <-])%bind_Ok & Hw). rewrite (IH _ _ Hw).
  revert Hi. unfold fresh_if_nil, uuid_New, ret. destruct (_ =? _)%N; by intros [= _ <-].
Qed.

(** The order row goes in first; from then on the transaction reads only
    its own writes. *)
Lemma CreateWithItems_Ok order items w u w' :
  OrderRepo.CreateWithItems order items w = (Ok u, w') -> w_tx w <> None -> o_ID order <> uuid_Nil ->
  exists d, others (w_db w) d /\ orders d !! o_ID order = None /\
  (forall j o', orders d !! j = Some o' -> o_TenantID o' = o_TenantID order -> o_IdempotencyKey o' <> o_IdempotencyKey order) /\
  exists ids, length ids = length items /\ fresh_ids d ids /\
    w_db w' = set_order_items (add_items (db_now w) (o_TenantID order) (o_ID order) (zip ids items) (order_items d))
                (set_orders (<[o_ID order := OrderRepo.stored (db_now w) order]> (orders d)) d).
Proof.
  intros Hw Htx Hid.
  apply bind_Ok in Hw as (id & w1 & (D1 & S1 & Hi)%fresh_if_nil_Ok & Hw). rewrite (Hi Hid) in Hw. clear Hi id.
  assert (Hself : OrderRepo.with_ID (o_ID order) order = order) by (by destruct order). rewrite Hself in Hw. cbv zeta in Hw.
  apply bind_Ok in Hw as ([] & w2 & Hins%map_err_Ok & Hw).
  pose proof (exec_session _ _ _ _ _ Hins) as S2. apply sql_Ok in Hins as (d2 & Hs & ->).
  pose proof (same_session_trans _ _ _ S1 S2) as S12.
  pose proof (interact_others w1) as Ho. rewrite D1 in Ho. rewrite (same_session_now _ _ S1 Htx) in Hs.
  unfold OrderRepo.insert_order in Hs. apply insert_into_Ok in Hs as (Hnone & _ & _ & -> & Hcl).
  exists (w_db (interact w1)). split; [done|]. split; [done|]. split.
  { intros j o' Hj Ht Hk. specialize (Hcl j o' Hj). rewrite Ht, Hk, N.eqb_refl, String.eqb_refl in Hcl. done. }
  destruct items as [|it items].
  - injection Hw as <- <-. exists []. split; [done|]. split; [split; constructor|]. simpl. done.
  - apply bind_Ok in Hw as (batch & w4 & Hids & Hw).
    pose proof (assign_ids_wrote _ _ _ _ _ Hids) as Hwr. apply assign_ids_Ok in Hids as (D3 & S3 & ids & -> & Hlen).
    apply wrap_Ok, sql_Ok in Hw as (d5 & Hs & ->). exists ids. split; [done|]. cbn [app] in Hs.
    pose proof (same_session_trans _ _ _ S12 S3) as S4.
    rewrite interact_wrote in Hs by (by eauto using same_session_in_tx). rewrite D3, (same_session_now _ _ S4 Htx) in Hs.
    apply insert_items_Ok in Hs as (-> & Hfresh). rewrite fst_zip in Hfresh by lia. done.
Qed.

(** ** The created order *)

(** The deadline of an order is the earliest deadline among its holds. *)
Definition earliest (l : list (option Time)) (x : option Time) : Prop :=
  match x with
  | None => Forall (fun e => e = None) l
  | Some t => Some t ∈ l /\ forall e, Some e ∈ l -> (t <= e)%Z
  end.

Lemma foldl_tighten l : earliest l (foldl tighten None l).
Proof.
  induction l as [|e l IH] using rev_ind; [constructor|]. rewrite foldl_app. simpl.
  destruct (foldl tighten None l) as [t|]; simpl in *.
  - destruct IH as [Hin Hmin]. destruct e as [e|]; simpl.
    + unfold Before. destruct (Z.ltb_spec e t); simpl; (split; [apply elem_of_app; auto using list_elem_of_singleton|]).
      * right. by apply list_elem_of_singleton.
      * intros x [Hx|Hx%list_elem_of_singleton]%elem_of_app; [apply Hmin in Hx; lia|naive_solver lia].
      * intros x [Hx|Hx%list_elem_of_singleton]%elem_of_app; [by apply Hmin|naive_solver lia].
    + split; [apply elem_of_app; by left|]. intros x [Hx|Hx%list_elem_of_singleton]%elem_of_app; [by apply Hmin|done].
  - destruct e as [e|]; simpl.
    + split; [apply elem_of_app; right; by apply list_elem_of_singleton|].
      intros x [Hx|Hx%list_elem_of_singleton]%elem_of_app; [|naive_solver lia].
      rewrite Forall_forall in IH. by apply IH in Hx.
    + apply Forall_app. split; [done|]. by apply Forall_singleton.
Qed.

(** The order [o] and what was written for it, from the entries [l]. *)
Record order_from (t u : UUID) (key : string) (l : list Entry) (o : Order) (items : list OrderItem) : Prop := {
  of_owner : o_TenantID o = t /\ o_UserID o = u /\ o_IdempotencyKey o = key /\ o_Status o = OrderStatusPending;
  of_total : Cents (o_Total o) = wrap64 (cents l) /\ wrap64 (Cents (o_Subtotal o)) = Cents (o_Total o) /\ Cents (o_Fees o) = 0%Z;
  of_currency : forall e, e ∈ l -> Currency (etc_Price (en_cat e)) = Currency (o_Total o);
  of_expiry : earliest (expiries l) (o_ExpiresAt o);
  of_limit : forall e, e ∈ l -> exists e', e' ∈ l /\
    inv_EventTicketCategoryID (en_row e') = inv_EventTicketCategoryID (en_row e) /\
    (in_category (inv_EventTicketCategoryID (en_row e)) l <= etc_MaxPerOrder (en_cat e'))%Z;
  of_items : Forall2 (item_of t) l items
}.

Lemma create_order_tx_Ok `{!RandomUuids} t u key items w o w' :
  create_order_tx t u key items w = (Ok o, w') -> w_tx w <> None ->
  exists d l its, others (w_db w) d /\ en_item <$> l = items /\ order_from t u key l o its /\
    Forall (entry_ok t (w_db w) d (w_tick w)) l /\
    orders d !! o_ID o = None /\
    (forall j o', orders d !! j = Some o' -> o_TenantID o' = t -> o_IdempotencyKey o' <> key) /\
    exists ids, length ids = length its /\ fresh_ids d ids /\
      w_db w' = set_order_items (add_items (db_now w) t (o_ID o) (zip ids its) (order_items d))
                  (set_orders (<[o_ID o := OrderRepo.stored (db_now w) o]> (orders d)) d).
Proof.
  intros Hw Htx. unfold create_order_tx in Hw.
  apply bind_Ok in Hw as (b & w1 & Hf & Hw).
  destruct (add_items_Ok t (w_db w) (w_tick w) items [] empty_basket w b w1) as (l & Hl & Hb & O1 & S1);
    [exact Hf|reflexivity|done| |].
  { split; try done; by intros ? ?%elem_of_nil. }
  simpl in Hb. apply bind_Ok in Hw as (total & w2 & Ht%wrap_Ok & Hw). injection Ht as Ht <-.
  apply bind_Ok in Hw as (id & w3 & [= <- <-] & Hw). apply bind_Ok in Hw as ([] & w4 & Hc%wrap_Ok & [= <- <-]).
  apply CreateWithItems_Ok in Hc as (d & O2 & Hnone & Hkey & ids & Hlen & Hfr & Hd);
    [|by simpl; eauto using same_session_in_tx|apply uuid_New_not_nil].
  assert (Hn : db_now (set_tick (S (w_tick w1)) w1) = db_now w)
    by (apply same_session_now; [destruct S1; split; simpl; [done|lia]|done]).
  rewrite Hn in Hd. simpl in *. apply MoneyAdd_Ok in Ht as [_ ->]. simpl in *.
  exists d, l, (set_order_id (env_uuid (w_tick w1)) <$> bk_orderItems b).
  split; [by etransitivity|]. split; [done|]. split.
  { split; simpl.
    - done.
    - split_and!; [|by rewrite Z.add_0_r|done]. by rewrite Z.add_0_r, (bo_subtotal _ _ _ _ _ _ Hb).
    - apply Hb.
    - rewrite (bo_expiry _ _ _ _ _ _ Hb). apply foldl_tighten.
    - apply Hb.
    - apply Forall2_fmap_r. eapply Forall2_impl; [apply Hb|]. by intros e it (? & ? & ? & ?). }
  split; [eapply Forall_impl; [apply Hb|]; intros e; by apply entry_later|].
  split; [done|]. split; [done|]. exists ids. split; [done|]. split; [exact Hfr|done].
Qed.

Lemma create_order_tx_upholds t u key items : upholds (fun _ _ => True) (create_order_tx t u key items).
Proof.
  assert (Hrely : forall (n : nat) (d : DB), True) by done.
  unfold create_order_tx, add_item, check_held, categories_for, OrderRepo.CreateWithItems, fresh_if_nil,
    InventoryRepo.GetByID, EventRepo.ListTicketCategories.
  upholds_steps; done.
Qed.

Definition has_key (t : UUID) (key : string) (o : Order) : Prop := o_TenantID o = t /\ o_IdempotencyKey o = key.

(** The order a club stores under an idempotency key. *)
Definition order_under (t : UUID) (key : string) (d : DB) : option Order :=
  find_row (fun o => (o_TenantID o =? t)%N && String.eqb (o_IdempotencyKey o) key) (orders d).

Lemma order_under_Some t key d o :
  order_under t key d = Some o -> has_key t key o /\ exists id, orders d !! id = Some o.
Proof. intros [[Ht%N.eqb_eq Hk%String.eqb_eq]%andb_true_iff Hin]%find_row_Some. done. Qed.

Lemma lookup_key_inv t key w r w' :
  attempt (OrderRepo.GetByIdempotencyKey t key) w = (r, w') ->
  same_session w w' /\ w_db w' = w_db (interact w) /\
  match r with
  | Ok (Ok o) => order_under t key (w_db w') = Some o
  | Ok (Err e) => errors_Is e (SDomain ErrNotFound) = true -> order_under t key (w_db w') = None
  | Err _ => False
  end.
Proof.
  unfold attempt. destruct (OrderRepo.GetByIdempotencyKey t key w) as [x w1] eqn:Hs. intros [= <- <-].
  apply one_row_inv in Hs as (Hd & S1 & Hx). split; [done|]. split; [done|].
  destruct x as [o|e]; [done|]. by destruct Hx as [[_ Hx]| ->].
Qed.

(** A new order, made from exactly the [items]. *)
Definition placed_order (t u : UUID) (key : string) (items : list HeldItem) (w : World) (o : Order) (w' : World) : Prop :=
  exists d0 d l its now ids, others (w_db w) d0 /\ others d0 d /\
    en_item <$> l = items /\ order_from t u key l o its /\ Forall (entry_ok t d0 d (w_tick w)) l /\
    orders d !! o_ID o = None /\
    (forall j o', orders d !! j = Some o' -> ~ has_key t key o') /\ length ids = length its /\ fresh_ids d ids /\
    w_db w' = set_order_items (add_items now t (o_ID o) (zip ids its) (order_items d))
                (set_orders (<[o_ID o := OrderRepo.stored now o]> (orders d)) d).

(** What a successful call returns and leaves behind: the order that the club
    has under the key when it looks, if there is one, and a new one otherwise. *)
Definition created (t u : UUID) (key : string) (items : list HeldItem) (w : World) (o : Order) (w' : World) : Prop :=
  match order_under t key (w_db (interact w)) with
  | Some o1 => o = o1 /\ w_db w' = w_db (interact w)
  | None => placed_order t u key items w o w'
  end.

Lemma CreateOrder_post `{!RandomUuids} t u key items w o w' :
  CreateOrder t u key items w = (Ok o, w') -> w_tx w = None -> created t u key items w o w'.
Proof.
  unfold CreateOrder. destruct items as [|item items]; [done|]. intros Hw Htx.
  apply bind_Ok in Hw as (ex & w1 & ([_ Htick] & Hd1 & Hl)%lookup_key_inv & Hw). unfold created. rewrite <- Hd1.
  pose proof (interact_others w) as O1. rewrite <- Hd1 in O1. destruct ex as [o1|e].
  - injection Hw as -> <-. by rewrite Hl.
  - destruct (errors_Is e _) eqn:He; [simpl in Hw|done]. rewrite Hl by done.
    apply WithTx_inv in Hw as (_ & [(e' & ? & _)|(o' & w2 & Hf & Hd & Hr)]); [done| |apply create_order_tx_upholds].
    destruct Hr as [[= <-]|]; [|done].
    apply create_order_tx_Ok in Hf as (d & l & its & O2 & Hl1 & Hof & Hp & Hn & Hk & ids & Hlen & Hfr & Hw2); [|done].
    exists (w_db (open_tx w1)), d, l, its, (db_now (open_tx w1)), ids.
    split; [etransitivity; [exact O1|apply interact_others]|]. split; [done|]. split; [done|]. split; [done|]. split.
    { eapply Forall_impl; [exact Hp|]. intros x [Hx (k & Hk1 & Hx2)]. split; [done|]. exists k. split; [|done].
      simpl in Hk1. rewrite interact_tick in Hk1. lia. }
    split; [done|]. split; [intros j o'' Hj [? ?]; by eapply Hk|]. split; [done|]. split; [done|]. by rewrite Hd.
Qed.

(** C3: what a successful [CreateOrder] means, in any environment. If the club
    has an order under this idempotency key when the call looks, whoever placed
    it and for whatever, then exactly this order is returned and nothing is
    written. Otherwise every seat was seen, during the call, held under the
    presented token (the code compares tokens, not accounts) by a hold that had
    not expired when the call started, in this tenant and with a ticket category
    from which its price was taken, and the order returned is a new one of the
    caller, pending, under this key: its total is the int64 sum of those prices
    in their one currency, its deadline is the earliest of the holds' deadlines,
    no category exceeds its per-order limit, and exactly the order and one new
    item per seat were added. *)
Theorem CreateOrder_correct `{!RandomUuids} t u key items w o w' :
  CreateOrder t u key items w = (Ok o, w') -> w_tx w = None ->
  match order_under t key (w_db (interact w)) with
  | Some o1 => o = o1 /\ w_db w' = w_db (interact w)
  | None =>
      exists d0 d l its now ids, others (w_db w) d0 /\ others d0 d /\
        en_item <$> l = items /\ order_from t u key l o its /\ Forall (entry_ok t d0 d (w_tick w)) l /\
        orders d !! o_ID o = None /\
        (forall j o', orders d !! j = Some o' -> ~ has_key t key o') /\ length ids = length its /\ fresh_ids d ids /\
        w_db w' = set_order_items (add_items now t (o_ID o) (zip ids its) (order_items d))
                    (set_orders (<[o_ID o := OrderRepo.stored now o]> (orders d)) d)
  end.
Proof. apply CreateOrder_post. Qed.

Lemma CreateOrder_clean t u key items w e w' :
  CreateOrder t u key items w = (Err e, w') -> w_tx w = None -> e <> transport_error -> others (w_db w) (w_db w').
Proof.
  unfold CreateOrder. destruct items as [|item items]; [by intros [= _ <-]|]. intros Hw Htx He.
  apply bind_inv in Hw as [(ex & w1 & Hl & Hw)|(e' & Hl & _)].
  - apply lookup_key_inv in Hl as (T1 & Hd1 & Hl). destruct ex as [o1|e1]; [done|].
    pose proof (interact_others w) as O1. rewrite <- Hd1 in O1.
    destruct (errors_Is e1 _); simpl in Hw; [|by injection Hw as _ <-].
    apply WithTx_inv in Hw as (_ & [(e' & ? & Ho)|(o' & w2 & _ & _ & [?|[= ?]])]);
      [by etransitivity|done..|apply create_order_tx_upholds].
  - by apply lookup_key_inv in Hl as (_ & _ & ?).
Qed.

(** C36: [CreateOrder] either succeeds completely or leaves no trace: whenever
    it reports an error other than a lost connection, everything that changed
    in the database meanwhile was written by other sessions. *)
Theorem CreateOrder_atomic t u key items w e w' :
  CreateOrder t u key items w = (Err e, w') -> w_tx w = None -> e <> transport_error -> others (w_db w) (w_db w').
Proof. apply CreateOrder_clean. Qed.

End create.

Section retry.
Context `{U : UuidPkg} `{E : Env} `{G : !PaymentGateway} `{!Quiet, !RandomUuids}.

Lemma retry_found t u key items w o :
  items <> [] ->
  find_row (fun o => (o_TenantID o =? t)%N && String.eqb (o_IdempotencyKey o) key) (orders (w_db w)) = Some o ->
  CreateOrder t u key items w = (Ok o, set_tick (S (w_tick w)) w).
Proof.
  intros Hi Hf. unfold CreateOrder. destruct items as [|x items]; [done|].
  unfold bind at 1, attempt, OrderRepo.GetByIdempotencyKey, one_row, bind at 1, wrap, map_err.
  rewrite query_quiet, Hf. unfold ret. by destruct w.
Qed.

(** C16: a retry never creates a second order. Once [CreateOrder] has returned
    an order, calling it again with the same tenant and idempotency key, by
    anyone and for any seats, returns that order again and writes nothing. *)
Theorem CreateOrder_retry t u key items w o w' u2 items2 :
  CreateOrder t u key items w = (Ok o, w') -> w_tx w = None -> items2 <> [] ->
  exists o2 w2, CreateOrder t u2 key items2 w' = (Ok o2, w2) /\ o_ID o2 = o_ID o /\ o_Total o2 = o_Total o /\
    w_db w2 = w_db w'.
Proof.
  intros Hw Htx Hi2.
  assert (Hfind : exists o2, find_row (fun o => (o_TenantID o =? t)%N && String.eqb (o_IdempotencyKey o) key) (orders (w_db w')) = Some o2
                  /\ o_ID o2 = o_ID o /\ o_Total o2 = o_Total o).
  2: { destruct Hfind as (o2 & Hf & Hid & Htot). exists o2, (set_tick (S (w_tick w')) w').
       split; [by apply retry_found|]. by destruct w'. }
  unfold CreateOrder in Hw. destruct items as [|item items]; [done|].
  apply bind_Ok in Hw as (ex & w1 & Hl & Hw). apply lookup_key_inv in Hl as (T1 & Hd & Hl). destruct ex as [o1|e].
  - injection Hw as -> <-. by exists o.
  - destruct (errors_Is e _); [simpl in Hw|done].
    apply WithTx_inv in Hw as (_ & [(e' & ? & _)|(o' & w2 & Hf & Hd2 & Hr)]); [done| |apply create_order_tx_upholds].
    destruct Hr as [[= <-]|]; [|done].
    apply create_order_tx_Ok in Hf as (d & l & its & _ & _ & Hof & _ & Hn & Hk & ids & _ & _ & Hw2); [|done].
    exists (OrderRepo.stored (db_now (open_tx w1)) o). split; [|done].
    destruct (of_owner _ _ _ _ _ _ Hof) as (Ht & _ & Hkey & _). rewrite Hd2, Hw2. simpl.
    eapply find_row_unique; [apply lookup_insert_eq| |].
    + simpl. rewrite Ht, Hkey, N.eqb_refl. simpl. apply String.eqb_refl.
    + intros j o' Hj [Ht'%N.eqb_eq Hk'%String.eqb_eq]%andb_true_iff.
      apply lookup_insert_Some in Hj as [[_ <-]|[_ Hj]]; [done|]. by destruct (Hk j o' Hj Ht').
Qed.
End retry.

(** ** Witnesses *)

Definition fx_item : HeldItem := mkHeldItem 101 500.

Definition fx_created_order : Order :=
  mkOrder 1006 1 11 OrderStatusPending "key-1" (mkMoney 150000 "KES") (mkMoney 0 "KES") (mkMoney 150000 "KES")
    (Some 5000000%Z) time_Zero time_Zero.

Lemma fx_CreateOrder : fst (CreateOrder 1 11 "key-1" [fx_item] (fx_world fx_db)) = Ok fx_created_order.
Proof. vm_compute. reflexivity. Qed.

(** A token that does not match: the order is refused. *)
Lemma fx_CreateOrder_refused : fst (CreateOrder 1 11 "key-1" [mkHeldItem 101 501] (fx_world fx_db))
  = Err (order_error "order.CreateOrder" ErrExpired "item is not held by the supplied token").
Proof. vm_compute. reflexivity. Qed.

Lemma CreateOrder_correct_witness :
  exists l its, en_item <$> l = [fx_item] /\ order_from 1 11 "key-1" l fx_created_order its.
Proof.
  destruct (CreateOrder_correct 1 11 "key-1" [fx_item] (fx_world fx_db) _ _ (run_Ok _ _ fx_CreateOrder) eq_refl)
    as (d0 & d & l & its & now & ids & _ & _ & H1 & H2 & _).
  exists l, its. split; [exact H1|exact H2].
Defined.

Lemma CreateOrder_atomic_witness :
  others (w_db (fx_world fx_db)) (w_db (snd (CreateOrder 1 11 "key-1" [mkHeldItem 101 501] (fx_world fx_db)))).
Proof.
  refine (CreateOrder_atomic 1 11 "key-1" [mkHeldItem 101 501] (fx_world fx_db) _ _
            (run_Ok _ _ fx_CreateOrder_refused) eq_refl _).
  discriminate.
Defined.

Lemma CreateOrder_retry_witness : exists o2 w2,
  CreateOrder 1 12 "key-1" [mkHeldItem 103 501] (snd (CreateOrder 1 11 "key-1" [fx_item] (fx_world fx_db))) = (Ok o2, w2) /\
  o_ID o2 = 1006%N.
Proof.
  destruct (CreateOrder_retry 1 11 "key-1" [fx_item] (fx_world fx_db) _ _ 12 [mkHeldItem 103 501]
              (run_Ok _ _ fx_CreateOrder) eq_refl ltac:(discriminate)) as (o2 & w2 & H1 & H2 & _).
  exists o2, w2. split; [exact H1|exact H2].
Defined.
