(* ===== verification/OrderConfirm.v ===== *)
(** * What [ConfirmPayment] guarantees

    All-or-nothing fulfilment in any environment, and the exact outcome
    (fulfilled or refunded) when nobody interferes. *)
From S2P Require Import Prelude Crypto Domain Schema Redis Runtime Ports Fixtures InventoryRepo CheckoutRepos.
From S2P Require Import CatalogRepos PaymentGateways OrderService OrderCreate.

(** Selling every seat of an order, one compare-and-swap after the other. *)
Fixpoint sold_all (t : UUID) (items : list OrderItem) (d d' : DB) : Prop :=
  match items with
  | [] => d' = d
  | it :: rest => exists d1,
      swapped t (oi_EventSeatInventoryID it) (is_held_by (oi_HoldToken it)) InventoryStatusSold None None None d d1 /\
      sold_all t rest d1 d'
  end.

(** The one atomic step of a fulfilment: every seat sold, the order paid, the
    confirmation queued. *)
Definition fulfilled `{UuidPkg} (t : UUID) (order : Order) (items : list OrderItem) (d d' : DB) : Prop :=
  exists d1 o' now id n, sold_all t items d d1 /\
    orders d1 !! o_ID order = Some o' /\ o_TenantID o' = t /\
    n = mkNotification id t (o_UserID order) NotificationTypeOrderConfirmation
          (confirmation_payload order (Z.of_nat (length items))) NotificationStatusPending 0 "" now None /\
    notifications d1 !! id = None /\ is_Some (users d1 !! o_UserID order) /\
    d' = set_notifications (<[id := n]> (notifications d1))
           (set_orders (<[o_ID order := OrderRepo.set_status OrderStatusPaid now o']> (orders d1)) d1).

Section confirm.
Context `{U : UuidPkg} `{E : Env}.

(** Once one seat is sold the transaction sees no more of the others. *)
Lemma confirm_items_Ok t items w u w' :
  fold_loop (confirm_item t) tt items w = (Ok u, w') -> w_tx w <> None ->
  sold_all t items (w_db (interact w)) (w_db (interact w')) /\ same_session w w'.
Proof.
  revert w. induction items as [|it items IH]; intros w Hw Htx.
  - injection Hw as _ <-. split; [done|apply same_session_refl].
  - cbn [fold_loop] in Hw. apply bind_Ok in Hw as ([] & w1 & H1 & Hw).
    apply bind_Ok in H1 as (ok & w2 & H1%wrap_Ok & H2).
    pose proof (ir_ConfirmSale_cas t (oi_EventSeatInventoryID it) (oi_HoldToken it) w _ _ H1) as (T & K & _ & Hwr & Hsw).
    destruct ok; simpl in H2; [|done]. injection H2 as <-.
    assert (S2 : same_session w w2) by (split; [done|lia]). pose proof (same_session_in_tx _ _ S2 Htx) as Htx2.
    apply IH in Hw as [H3 S]; [|done]. rewrite interact_wrote in H3 by auto.
    split; [by exists (w_db w2)|]. by eapply same_session_trans.
Qed.

Lemma sold_all_frame t items d d' :
  sold_all t items d d' -> d' = set_inventory (inventory d') (audit_log d') d.
Proof.
  revert d. induction items as [|it items IH]; intros d Hs; simpl in Hs; [subst; by destruct d|].
  destruct Hs as (d1 & (r & now & _ & _ & _ & _ & Hd1) & Hs). apply IH in Hs. rewrite Hd1 in Hs. by rewrite Hs at 1.
Qed.

Lemma order_status_Ok t id st w u w' :
  OrderRepo.UpdateStatus t id st w = (Ok u, w') -> w_tx w <> None ->
  let d := w_db (interact w) in
  exists o, orders d !! id = Some o /\ o_TenantID o = t /\
    w_db w' = set_orders (<[id := OrderRepo.set_status st (db_now w) o]> (orders d)) d /\
    same_session w w' /\ w_wrote w' = true.
Proof.
  intros Hw Htx. pose proof (must_affect_wrote _ _ _ _ _ _ Hw). apply must_affect_Ok in Hw as (n & d & Hs & Hn & Hd & S).
  apply update_row_Ok in Hs as [[-> _]|(_ & o & Ho & Ht%N.eqb_eq & ->)]; [done|]. eauto 6.
Qed.

Lemma notify_Ok t u payload w x w' :
  NotificationRepo.Create uuid_Nil t u NotificationTypeOrderConfirmation payload None w = (Ok x, w') ->
  w_tx w <> None -> w_wrote w = true ->
  exists id, notifications (w_db w) !! id = None /\ is_Some (users (w_db w) !! u) /\
    w_db w' = set_notifications (<[id := mkNotification id t u NotificationTypeOrderConfirmation payload
                 NotificationStatusPending 0 "" (db_now w) None]> (notifications (w_db w))) (w_db w).
Proof.
  intros (id & w1 & [= <- <-] & Hw%wrap_Ok)%bind_Ok Htx Hwr. apply sql_Ok in Hw as (d & Hs & ->).
  rewrite interact_wrote in Hs by done. unfold NotificationRepo.insert_notification in Hs.
  apply insert_into_Ok in Hs as (Hn & _ & [_ Hu]%andb_true_iff & -> & _). exists (env_uuid (w_tick w)). split; [done|].
  split; [by apply fk_Some|]. simpl. unfold db_now. simpl. by destruct (w_tx w) as [[]|].
Qed.

Lemma confirm_tx_Ok t order items w u w' :
  confirm_tx t order items w = (Ok u, w') -> w_tx w <> None -> fulfilled t order items (w_db (interact w)) (w_db w').
Proof.
  intros ([] & w1 & Hf & Hw)%bind_Ok Htx. apply confirm_items_Ok in Hf as [Hsold S1]; [|done].
  pose proof (same_session_in_tx _ _ S1 Htx) as T1.
  apply bind_Ok in Hw as ([] & w2 & Ho%wrap_Ok & Hw%wrap_Ok).
  apply order_status_Ok in Ho as (o & Ho & Ht & D2 & S2 & Hwr); [|done].
  apply notify_Ok in Hw as (id & Hn & Hu & ->); [|by eapply same_session_in_tx|done].
  rewrite D2, (same_session_now _ _ S2 T1) in *. exists (w_db (interact w1)), o, (db_now w1), id. eexists. by split_and!.
Qed.

Lemma confirm_tx_upholds t order items : upholds (fun _ _ => True) (confirm_tx t order items).
Proof.
  assert (Hrely : forall (n : nat) (d : DB), True) by done.
  unfold confirm_tx, confirm_item, ConfirmSale, OrderRepo.UpdateStatus, must_affect, NotificationRepo.Create, fresh_if_nil.
  upholds_steps; done.
Qed.

End confirm.

(** ** Any environment, any gateway *)

Section all_or_nothing.
Context `{U : UuidPkg} `{E : Env} `{G : !PaymentGateway, !GatewayContract G}.

(** A write during [ConfirmPayment] that is not the fulfilment: by another
    session, to the payment's status, or moving the order to expired. *)
Inductive side_step (t oid pid : UUID) (d d' : DB) : Prop :=
| side_others n : d' = env_others n d -> side_step t oid pid d d'
| side_payment st raw now n :
    PaymentRepo.update_status_stmt t pid st "" raw now d = Ok (n, d') -> side_step t oid pid d d'
| side_expired now n :
    OrderRepo.update_status_stmt t oid OrderStatusExpired now d = Ok (n, d') -> side_step t oid pid d d'.

Definition side (t oid pid : UUID) : DB -> DB -> Prop := rtc (side_step t oid pid).

#[global] Instance side_preorder t oid pid : PreOrder (side t oid pid).
Proof. unfold side. apply _. Qed.

Section side.
Context (t oid pid : UUID).

Lemma side_rely n d : side t oid pid d (env_others n d).
Proof. apply rtc_once. by eapply side_others. Qed.

Lemma others_side d d' : others d d' -> side t oid pid d d'.
Proof. intros Ho. eapply rtc_subrel; [|exact Ho]. intros x y [n ->]. by eapply side_others. Qed.

Lemma one_row_side {R} op msg (q : DB -> option R) : upholds (side t oid pid) (one_row op msg q).
Proof. pose proof side_rely. unfold one_row. upholds_steps. Qed.

Lemma payment_side st raw : upholds (side t oid pid) (PaymentRepo.UpdateStatus t pid st "" raw).
Proof.
  pose proof side_rely. unfold PaymentRepo.UpdateStatus, must_affect. upholds_steps.
  intros Hs. apply rtc_once. by eapply side_payment.
Qed.

Lemma refund_side order payment :
  o_ID order = oid -> p_ID payment = pid -> upholds (side t oid pid) (refundAndFail t order payment).
Proof.
  intros Ho Hp. pose proof side_rely as rely. unfold refundAndFail. rewrite Ho, Hp.
  apply upholds_bind; [apply _|apply upholds_wrap, gw_Refund_neutral; [apply _|done]|intros rid].
  apply upholds_bind; [apply _|apply upholds_wrap, payment_side|intros _].
  apply upholds_wrap. unfold OrderRepo.UpdateStatus, must_affect. upholds_steps.
  intros Hs. apply rtc_once. by eapply side_expired.
Qed.
End side.

(** The outcome of a call: at most one fulfilment, surrounded by side steps. *)
Definition confirm_post (t oid pid : UUID) (w : World) (r : result unit) (w' : World) : Prop :=
  exists d1 d2, side t oid pid (w_db w) d1 /\ side t oid pid d2 (w_db w') /\
    ((d2 = d1 /\ (is_ok r = true -> exists o, orders d1 !! oid = Some o /\ o_Status o = OrderStatusPaid)) \/
     (exists dr dp d0 order p, orders dr !! oid = Some order /\ others dr dp /\
        payments dp !! pid = Some p /\ p_OrderID p = oid /\ others dp d0 /\ others d0 d1 /\ o_ID order = oid /\
        fulfilled t order (OrderRepo.items_of t oid d0) d1 d2)).

Lemma confirm_post_fail t oid pid w e w' : side t oid pid (w_db w) (w_db w') -> confirm_post t oid pid w (Err e) w'.
Proof. intros Hs. exists (w_db w'), (w_db w'). split; [done|]. split; [reflexivity|]. by left. Qed.

Lemma confirm_post_prefix t oid pid w w1 r w' :
  side t oid pid (w_db w) (w_db w1) -> confirm_post t oid pid w1 r w' -> confirm_post t oid pid w r w'.
Proof. intros Hs (d1 & d2 & H1 & H2). exists d1, d2. split; [by etransitivity|done]. Qed.

(** A lookup that fails ends the call; one that succeeds is a prefix of it. *)
Lemma confirm_post_lookup {R} t oid pid msg op msg' (q : DB -> option R) k w r w' :
  (forall x w1, q (w_db (interact w)) = Some x -> w_db w1 = w_db (interact w) -> tx_moves (w_tx w) (w_tx w1) ->
     k x w1 = (r, w') -> confirm_post t oid pid w1 r w') ->
  bind (wrap msg (one_row op msg' q)) k w = (r, w') -> confirm_post t oid pid w r w'.
Proof.
  intros Hk [(x & w1 & Hx%wrap_Ok & Hw)|(e & Hx & ->)]%bind_inv.
  - pose proof (proj2 (one_row_side t oid pid _ _ _ _ _ _ Hx)) as Hs. apply one_row_Ok in Hx as (Hq & Hd & [Ht _]).
    eapply confirm_post_prefix; [exact Hs|]. by eapply Hk.
  - apply confirm_post_fail. eapply (upholds_wrap (side t oid pid)); [|exact Hx]. apply one_row_side.
Qed.

(** What follows the transaction. *)
Lemma confirm_finish t pid order payment (tx : result unit) w r w' :
  p_ID payment = pid ->
  match tx with
  | Err txErr =>
      if errors_Is txErr (SDomain ErrExpired) then
        (refund <- attempt (refundAndFail t order payment);;
         match refund with
         | Err refundErr => throw (EWrap "order: confirm failed AND refund failed (needs manual intervention)" refundErr)
         | Ok _ => throw (EWrap "order: could not confirm sale, payment refunded" txErr)
         end) w
      else throw txErr w
  | Ok _ => wrap "order: mark payment captured" (PaymentRepo.UpdateStatus t (p_ID payment) PaymentStatusCaptured "" None) w
  end = (r, w') ->
  side t (o_ID order) pid (w_db w) (w_db w') /\ match tx with Err _ => exists e, r = Err e | Ok _ => True end.
Proof.
  intros Hp. destruct tx as [u|e].
  - intros Hw. split; [|done]. eapply (upholds_wrap (side t (o_ID order) pid)); [|exact Hw]. rewrite Hp. apply payment_side.
  - destruct (errors_Is e _); [|intros [= <- <-]; split; [reflexivity|eauto]].
    intros [(x & w1 & Hx & Hw)|(e' & Hx & _)]%bind_inv.
    + assert (Hs : side t (o_ID order) pid (w_db w) (w_db w1)).
      { eapply (upholds_attempt (side t (o_ID order) pid)); [|exact Hx]. by apply refund_side. }
      destruct x; injection Hw as <- <-; eauto.
    + unfold attempt in Hx. by destruct (refundAndFail t order payment w).
Qed.

Lemma ConfirmPayment_post t oid pid w r w' :
  ConfirmPayment t oid pid w = (r, w') -> confirm_post t oid pid w r w'.
Proof.
  unfold ConfirmPayment, OrderRepo.GetByID.
  apply confirm_post_lookup. intros o w1 (Ho & Hoid & _)%in_tenant_Some D1 T1. rewrite <- D1 in Ho.
  case_bool_decide as Hpaid.
  { intros [= <- <-]. exists (w_db w1), (w_db w1). split; [reflexivity|]. split; [reflexivity|]. left. eauto. }
  unfold PaymentRepo.GetByID.
  apply confirm_post_lookup. intros p w2 (Hp & Hpid & _)%in_tenant_Some D2 T2.
  destruct (N.eqb_spec (p_OrderID p) (o_ID o)) as [Hpo|]; cbn [negb]; [|intros [= <- <-]; by apply confirm_post_fail].
  intros [(items & w3 & Hi%wrap_Ok%wrap_Ok%query_Ok & Hw)|(e & Hi & ->)]%bind_inv.
  2: { apply confirm_post_fail. eapply (upholds_wrap (side t oid pid)); [|exact Hi].
       pose proof (side_rely t oid pid). unfold OrderRepo.ListItems. upholds_steps. }
  destruct Hi as (-> & D3 & [T3 _]). rewrite <- D3 in Hw.
  apply (confirm_post_prefix t oid pid w2 w3); [apply others_side; rewrite D3; apply interact_others|].
  rewrite bind_attempt in Hw. destruct (WithTx _ w3) as [tx w4] eqn:Htx3. 
  assert (Hfin : side t oid pid (w_db w4) (w_db w') /\ match tx with Err _ => exists e, r = Err e | Ok _ => True end).
  { rewrite <- Hoid. apply (confirm_finish t pid o p tx w4); [done|]. revert Hw.
    destruct tx as [|e]; [done|]. by destruct (errors_Is e _). }
  destruct Hfin as [Hside Hr].
  apply WithTx_inv in Htx3 as (_ & [(e & -> & D4)|(u & w5 & Hf & D4 & _)]); [| |apply confirm_tx_upholds].
  - destruct Hr as [e' ->]. apply confirm_post_fail. etransitivity; [by apply others_side|done].
  - apply confirm_tx_Ok in Hf; [|done]. rewrite <- D4, Hoid in Hf.
    assert (Ho3 : others (w_db w3) (w_db (interact (open_tx w3)))) by (etransitivity; [|apply interact_others]; apply (interact_others w3)).
    exists (w_db (interact (open_tx w3))), (w_db w4). split; [by apply others_side|]. split; [done|]. right.
    exists (w_db w1), (w_db w2), (w_db w3), o, p.
    assert (H12 : others (w_db w1) (w_db w2)) by (rewrite D2; apply interact_others).
    assert (H23 : others (w_db w2) (w_db w3)) by (rewrite D3; apply interact_others).
    split; [exact Ho|]. split; [exact H12|]. split; [by rewrite D2|]. split; [congruence|]. split; [exact H23|].
    split; [etransitivity; [apply (interact_others w3)|apply (interact_others (open_tx w3))]|]. split; [exact Hoid|exact Hf].
Qed.

(** C4: [ConfirmPayment] is all or nothing. In any environment its writes are
    at most one atomic fulfilment (all seats that were listed for the order,
    after it and its payment were read, sold under their tokens, the order paid,
    the confirmation queued), surrounded by writes of
    other sessions, updates of this payment's status and moving the order to
    expired; it reports success only after the fulfilment, or when it found the
    order already paid. *)
Theorem ConfirmPayment_all_or_nothing t oid pid w r w' :
  ConfirmPayment t oid pid w = (r, w') ->
  exists d1 d2, side t oid pid (w_db w) d1 /\ side t oid pid d2 (w_db w') /\
    ((d2 = d1 /\ (is_ok r = true -> exists o, orders d1 !! oid = Some o /\ o_Status o = OrderStatusPaid)) \/
     (exists dr dp d0 order p, orders dr !! oid = Some order /\ others dr dp /\
        payments dp !! pid = Some p /\ p_OrderID p = oid /\ others dp d0 /\ others d0 d1 /\ o_ID order = oid /\
        fulfilled t order (OrderRepo.items_of t oid d0) d1 d2)).
Proof. apply ConfirmPayment_post. Qed.

Lemma ConfirmPayment_moves t oid pid : upholds (fun _ _ => True) (ConfirmPayment t oid pid).
Proof.
  assert (Hrely : forall (n : nat) (d : DB), True) by done.
  unfold ConfirmPayment, refundAndFail, OrderRepo.GetByID, PaymentRepo.GetByID, OrderRepo.ListItems, PaymentRepo.UpdateStatus,
    OrderRepo.UpdateStatus, must_affect, one_row.
  repeat first [apply confirm_tx_upholds|apply gw_Refund_neutral; [apply _|done]|upholds_step; simpl]; done.
Qed.
End all_or_nothing.

(** ** Nobody interferes: fulfilled or refunded *)

Section outcome.
Context `{U : UuidPkg} `{E : Env} `{!Quiet}.

(** Every item's seat is still held under the token it was ordered with, and
    no seat is listed twice. *)
Definition seat_held (t : UUID) (d : DB) (it : OrderItem) : Prop :=
  exists r, inventory d !! oi_EventSeatInventoryID it = Some r /\ token_matches t (oi_HoldToken it) r = true.
Definition confirmable (t : UUID) (d : DB) (items : list OrderItem) : Prop :=
  NoDup (oi_EventSeatInventoryID <$> items) /\ forall it, it ∈ items -> seat_held t d it.

Definition expired_error : GoError := order_error "order.ConfirmPayment" ErrExpired "item's hold is no longer valid".

Lemma confirm_item_quiet t it w :
  exists w', w_tx w' = w_tx w /\
  match inventory (w_db w) !! oi_EventSeatInventoryID it with
  | Some r =>
      if token_matches t (oi_HoldToken it) r then
        exists now a, confirm_item t tt it w = (Ok tt, w') /\
          w_db w' = set_inventory (<[oi_EventSeatInventoryID it := set_hold InventoryStatusSold None None None now r]> (inventory (w_db w))) a (w_db w)
      else confirm_item t tt it w = (Err expired_error, w')
  | None => confirm_item t tt it w = (Err expired_error, w')
  end.
Proof.
  unfold confirm_item, ConfirmSale, bind, wrap, map_err, ret. rewrite sql_quiet.
  unfold confirm_sale_stmt, update_inventory.
  destruct (inventory (w_db w) !! oi_EventSeatInventoryID it) as [r|]; [|by eexists; split; [|reflexivity]].
  destruct (token_matches t (oi_HoldToken it) r); simpl; [|by eexists; split; [|reflexivity]].
  eexists. split; [|eexists _, _; split; reflexivity]. done.
Qed.

Lemma sold_not_held t tok now r : token_matches t tok (set_hold InventoryStatusSold None None None now r) = false.
Proof. unfold token_matches. simpl. by rewrite andb_false_r. Qed.

Lemma confirm_fold_quiet t items w :
  (confirmable t (w_db w) items ->
   exists w', fold_loop (confirm_item t) tt items w = (Ok tt, w') /\ w_tx w' = w_tx w /\
     (forall it, it ∈ items -> status_of (w_db w') (oi_EventSeatInventoryID it) = Some InventoryStatusSold) /\
     (forall i, i ∉ oi_EventSeatInventoryID <$> items -> inventory (w_db w') !! i = inventory (w_db w) !! i) /\
     w_db w' = set_inventory (inventory (w_db w')) (audit_log (w_db w')) (w_db w)) /\
  (~ confirmable t (w_db w) items ->
   exists w', fold_loop (confirm_item t) tt items w = (Err expired_error, w') /\ w_tx w' = w_tx w).
Proof.
  revert w. induction items as [|it items IH]; intros w.
  { split.
    - intros _. exists w. unfold ret. split_and!; try done; try (by destruct w as [? [] ? ? ? ? ? ?]); by intros ? ?%elem_of_nil.
    - intros Hn. destruct Hn. split; [constructor|by intros ? ?%elem_of_nil]. }
  destruct (confirm_item_quiet t it w) as (w1 & T1 & Hit). cbn [fold_loop]. unfold bind.
  destruct (inventory (w_db w) !! oi_EventSeatInventoryID it) as [r|] eqn:Hr.
  2: { rewrite Hit. split; [|eauto]. intros [_ Hh]. destruct (Hh it) as (r & Hr' & _); [apply elem_of_cons; by left|].
       congruence. }
  destruct (token_matches t (oi_HoldToken it) r) eqn:Hm.
  2: { rewrite Hit. split; [|eauto]. intros [_ Hh]. destruct (Hh it) as (r' & Hr' & Hm'); [apply elem_of_cons; by left|].
       congruence. }
  destruct Hit as (now & a & -> & D1). destruct (IH w1) as [IHok IHerr].
  assert (Hiff : confirmable t (w_db w) (it :: items) <-> confirmable t (w_db w1) items).
  { rewrite D1. unfold confirmable, seat_held. rewrite fmap_cons, NoDup_cons. cbn [inventory set_inventory]. split.
    - intros [[Hn Hnd] Hh]. split; [done|]. intros it' Hit'.
      destruct (Hh it') as (r' & Hr' & Hm'); [apply elem_of_cons; by right|]. exists r'. split; [|done].
      rewrite lookup_insert_ne; [done|]. intros Heq. apply Hn. rewrite Heq. by apply list_elem_of_fmap_2.
    - intros [Hnd Hh]. assert (Hn : oi_EventSeatInventoryID it ∉ oi_EventSeatInventoryID <$> items).
      { intros (it' & Heq & Hit')%list_elem_of_fmap. destruct (Hh it' Hit') as (r' & Hr' & Hm').
        rewrite <- Heq, lookup_insert_eq in Hr'. injection Hr' as <-. by rewrite sold_not_held in Hm'. }
      split; [done|]. intros it' [->|Hit']%elem_of_cons; [by exists r|].
      destruct (Hh it' Hit') as (r' & Hr' & Hm'). exists r'. split; [|done].
      rewrite lookup_insert_ne in Hr'; [done|]. intros Heq. apply Hn. rewrite Heq. by apply list_elem_of_fmap_2. }
  split.
  - intros Hc. apply Hiff in Hc as Hc1. destruct (IHok Hc1) as (w' & -> & T2 & H1 & H2 & H3). exists w'.
    destruct Hc as [[Hn _]%NoDup_cons _]. split; [done|]. split; [congruence|].
    assert (Hit : status_of (w_db w') (oi_EventSeatInventoryID it) = Some InventoryStatusSold).
    { unfold status_of. rewrite H2, D1 by done. simpl. by rewrite lookup_insert_eq. }
    split_and!.
    + intros it' [->|Hit']%elem_of_cons; auto.
    + intros i Hi. rewrite fmap_cons, not_elem_of_cons in Hi. destruct Hi. rewrite H2, D1 by done. simpl.
      by rewrite lookup_insert_ne.
    + rewrite H3, D1. simpl. done.
  - intros Hc. destruct IHerr as (w' & Hf & T2); [by rewrite <- Hiff|]. exists w'. split; [done|congruence].
Qed.

(** The order is there and not paid yet, the payment is this order's, and the
    payments table satisfies its unique indexes. *)
Record awaiting (t oid pid : UUID) (d : DB) (o : Order) (p : Payment) : Prop := {
  aw_order : orders d !! oid = Some o;
  aw_order_id : o_ID o = oid;
  aw_order_tenant : o_TenantID o = t;
  aw_unpaid : o_Status o <> OrderStatusPaid;
  aw_payment : payments d !! pid = Some p;
  aw_payment_id : p_ID p = pid;
  aw_payment_tenant : p_TenantID p = t;
  aw_payment_order : p_OrderID p = oid;
  aw_unique : forall j p', j <> pid -> payments d !! j = Some p' -> PaymentRepo.clash p p' = false
}.

Lemma payment_status_quiet t pid st raw p w :
  payments (w_db w) !! pid = Some p -> p_TenantID p = t ->
  (forall j p', j <> pid -> payments (w_db w) !! j = Some p' -> PaymentRepo.clash p p' = false) ->
  exists now, PaymentRepo.UpdateStatus t pid st "" raw w =
    (Ok tt, set_db (set_payments (<[pid := PaymentRepo.set_status st "" raw now p]> (payments (w_db w))) (w_db w))
              (set_wrote true (set_tick (S (w_tick w)) w))).
Proof.
  intros Hp Ht Hu. exists (db_now w). apply must_affect_quiet. unfold PaymentRepo.update_status_stmt.
  apply update_row_hit; [done|by apply N.eqb_eq|done|]. intros j p' Hj Hp'. by apply (Hu j p').
Qed.

Lemma order_status_quiet t oid st o w :
  orders (w_db w) !! oid = Some o -> o_TenantID o = t ->
  exists now, OrderRepo.UpdateStatus t oid st w =
    (Ok tt, set_db (set_orders (<[oid := OrderRepo.set_status st now o]> (orders (w_db w))) (w_db w))
              (set_wrote true (set_tick (S (w_tick w)) w))).
Proof.
  intros Ho Ht. exists (db_now w). apply must_affect_quiet. unfold OrderRepo.update_status_stmt.
  apply update_row_hit; [done|by apply N.eqb_eq|done|done].
Qed.

Context `{G : !PaymentGateway}.

(** The reads before the transaction. *)
Lemma confirm_reads t oid pid o p w :
  awaiting t oid pid (w_db w) o p ->
  exists w3, (w_db w3 = w_db w /\ w_tx w3 = w_tx w /\ same_outside w w3 /\ (w_tick w < w_tick w3)%nat) /\ ConfirmPayment t oid pid w =
    let '(tx, w4) := WithTx (confirm_tx t o (OrderRepo.items_of t oid (w_db w))) w3 in
    match tx with
    | Err txErr =>
        if errors_Is txErr (SDomain ErrExpired) then
          (refund <- attempt (refundAndFail t o p);;
           match refund with
           | Err refundErr => throw (EWrap "order: confirm failed AND refund failed (needs manual intervention)" refundErr)
           | Ok _ => throw (EWrap "order: could not confirm sale, payment refunded" txErr)
           end) w4
        else (Err txErr, w4)
    | Ok _ => wrap "order: mark payment captured" (PaymentRepo.UpdateStatus t pid PaymentStatusCaptured "" None) w4
    end.
Proof.
  intros [Ho Hoid Hot Hst Hp Hpid Hpt Hpo _].
  exists (set_tick (S (S (S (w_tick w)))) w). split; [split_and!; [done|done|done|simpl; lia]|].
  unfold ConfirmPayment, bind at 1, wrap at 1, map_err at 1, OrderRepo.GetByID.
  rewrite (one_row_quiet _ _ _ o) by (by apply in_tenant_Some). rewrite bool_decide_false by done.
  unfold bind at 1, wrap at 1, map_err at 1, PaymentRepo.GetByID.
  rewrite (one_row_quiet _ _ _ p) by (by apply in_tenant_Some). rewrite Hpo, Hoid, N.eqb_refl. cbn [negb].
  unfold bind at 1, wrap at 1 2, map_err at 1 2, OrderRepo.ListItems, wrap at 1, map_err at 1.
  rewrite query_quiet. rewrite bind_attempt. cbn [set_tick w_db w_tick]. rewrite Hpid.
  destruct (WithTx _ _) as [tx w4]. destruct tx as [|e]; [done|]. by destruct (errors_Is e _).
Qed.

(** The transaction of an order that cannot be fulfilled is rolled back. *)
Lemma confirm_tx_fails t o items w :
  ~ confirmable t (w_db w) items ->
  exists w', WithTx (confirm_tx t o items) w = (Err expired_error, w') /\ w_db w' = w_db w.
Proof.
  intros Hnc. rewrite WithTx_quiet. unfold confirm_tx, bind at 1.
  match goal with |- context [fold_loop (confirm_item t) tt items ?wx] =>
    destruct (proj2 (confirm_fold_quiet t items wx)) as (w4 & Hf & T4); [by simpl|] end.
  rewrite Hf. unfold committed. rewrite T4. by eexists.
Qed.

(** It sends nothing to the outside. *)
Lemma confirm_tx_along R `{!Frame R} t o items : along R (WithTx (confirm_tx t o items)).
Proof.
  unfold confirm_tx, confirm_item, ConfirmSale, OrderRepo.UpdateStatus, NotificationRepo.Create, fresh_if_nil, must_affect. along_steps.
Qed.

(** The payment refunded under the given refund id and the order expired. *)
Definition refunded (oid pid : UUID) (o : Order) (p : Payment) (rid : string) (now1 now2 : Time) (d : DB) : DB :=
  set_orders (<[oid := OrderRepo.set_status OrderStatusExpired now2 o]> (orders d))
    (set_payments (<[pid := PaymentRepo.set_status PaymentStatusRefunded "" (Some (refund_json rid)) now1 p]> (payments d)) d).

Definition refund_reason : string := "inventory hold expired before fulfillment could be confirmed".

(** Between [w] and [w'] the payment provider was asked once to refund [p], in
    full and before anything was written, and answered with [rid]; nothing else
    was sent to it, nor any mail. *)
Definition refund_requested (p : Payment) (rid : string) (w w' : World) : Prop :=
  exists w1 w2, gw_Refund (p_ProviderPaymentID p) (p_Amount p) refund_reason w1 = (Ok rid, w2) /\
    w_db w1 = w_db w /\ same_outside w w1 /\ (w_tick w < w_tick w1)%nat /\
    same_outside w2 w' /\ (w_tick w2 < w_tick w')%nat.

Lemma confirm_refunds t oid pid o p w `{!GatewayContract G} :
  awaiting t oid pid (w_db w) o p ->
  ~ confirmable t (w_db w) (OrderRepo.items_of t oid (w_db w)) ->
  (forall w1, exists rid w2, gw_Refund (p_ProviderPaymentID p) (p_Amount p) refund_reason w1 = (Ok rid, w2)) ->
  exists e w' rid now1 now2, ConfirmPayment t oid pid w = (Err e, w') /\ errors_Is e (SDomain ErrExpired) = true /\
    refund_requested p rid w w' /\ w_db w' = refunded oid pid o p rid now1 now2 (w_db w).
Proof.
  intros Haw Hnc Hgw. destruct (confirm_reads _ _ _ _ _ _ Haw) as (w3 & (D3 & T3 & O3 & K3) & ->).
  set (items := OrderRepo.items_of t oid (w_db w)) in *. rewrite <- D3 in Hnc.
  destruct (confirm_tx_fails t o items w3 Hnc) as (w4 & Htx & D4). rewrite D3 in D4.
  pose proof (confirm_tx_along same_outside _ _ _ _ _ _ Htx) as O4.
  pose proof (confirm_tx_along tick_le _ _ _ _ _ _ Htx) as K4. unfold tick_le in K4.
  rewrite Htx. cbn [errors_Is expired_error order_error NewError]. rewrite bool_decide_true by done.
  rewrite bind_attempt. unfold refundAndFail, bind at 1, wrap at 1, map_err at 1. fold refund_reason.
  destruct (Hgw w4) as (rid & w5 & Hr); rewrite Hr.
  pose proof (gw_Refund_neutral _ _ _ eq _ ltac:(intros; by rewrite quiet_others) w4 _ _ Hr) as [_ D5].
  rewrite D4 in D5. destruct Haw as [Ho Hoid Hot Hst Hp Hpid Hpt Hpo Hu].
  unfold bind at 1, wrap at 1, map_err at 1. rewrite Hpid.
  destruct (payment_status_quiet t pid PaymentStatusRefunded (Some (refund_json rid)) p w5) as [now1 ->]; [by rewrite <- D5|done|by rewrite <- D5|].
  unfold wrap at 1, map_err at 1. rewrite Hoid.
  match goal with |- context [OrderRepo.UpdateStatus t oid _ ?wx] =>
    destruct (order_status_quiet t oid OrderStatusExpired o wx) as [now2 Hs]; [simpl; by rewrite <- D5|done|rewrite Hs] end.
  eexists _, _, rid, now1, now2. split; [reflexivity|]. split; [done|]. split; [|simpl; by rewrite <- D5].
  exists w4, w5. split; [exact Hr|]. split; [done|]. split; [by etransitivity|]. split; [lia|].
  split; [done|]. simpl. lia.
Qed.

(** C6: a payment for an order that can no longer be fulfilled is refunded. If
    some seat of the order is not held under its token any more (or is listed
    twice), and the gateway performs refunds, [ConfirmPayment] asks the gateway
    once to refund the whole amount of the payment and reports "expired"; then
    the payment is refunded with the id the gateway answered on record, the
    order is expired, and nothing else has changed in the database or was sent
    to the provider. *)
Theorem ConfirmPayment_refunds t oid pid o p w `{!GatewayContract G} :
  awaiting t oid pid (w_db w) o p ->
  ~ confirmable t (w_db w) (OrderRepo.items_of t oid (w_db w)) ->
  (forall w1, exists rid w2, gw_Refund (p_ProviderPaymentID p) (p_Amount p) refund_reason w1 = (Ok rid, w2)) ->
  exists e w' rid now1 now2, ConfirmPayment t oid pid w = (Err e, w') /\ errors_Is e (SDomain ErrExpired) = true /\
    (exists w1 w2, gw_Refund (p_ProviderPaymentID p) (p_Amount p) refund_reason w1 = (Ok rid, w2) /\
       w_db w1 = w_db w /\ same_outside w w1 /\ (w_tick w < w_tick w1)%nat /\
       same_outside w2 w' /\ (w_tick w2 < w_tick w')%nat) /\
    w_db w' = set_orders (<[oid := OrderRepo.set_status OrderStatusExpired now2 o]> (orders (w_db w)))
               (set_payments (<[pid := PaymentRepo.set_status PaymentStatusRefunded "" (Some (refund_json rid)) now1 p]>
                                (payments (w_db w))) (w_db w)).
Proof. intros. by apply confirm_refunds. Qed.

Lemma notify_quiet t u payload w :
  fk (tenants (w_db w)) t = true -> fk (users (w_db w)) u = true ->
  notifications (w_db w) !! env_uuid (w_tick w) = None ->
  exists now w', NotificationRepo.Create uuid_Nil t u NotificationTypeOrderConfirmation payload None w = (Ok tt, w') /\ w_tx w' = w_tx w /\
    w_db w' = set_notifications (<[env_uuid (w_tick w) := mkNotification (env_uuid (w_tick w)) t u
                 NotificationTypeOrderConfirmation payload NotificationStatusPending 0 "" now None]>
                 (notifications (w_db w))) (w_db w).
Proof.
  intros Ht Hu Hn. unfold NotificationRepo.Create. change (fresh_if_nil uuid_Nil) with uuid_New. unfold bind, uuid_New, wrap, map_err. rewrite sql_quiet.
  unfold NotificationRepo.insert_notification. cbn [w_db w_tick set_tick n_ID n_TenantID n_UserID n_Type NotificationRepo.known_type].
  rewrite insert_into_hit; [|done..|by rewrite Ht, Hu]. eexists _, _. split_and!; reflexivity.
Qed.

(** A finished checkout: the seats of the order (and no other) sold, the order
    paid, the payment captured, the confirmation in the outbox. *)
Definition checked_out (t oid pid : UUID) (o : Order) (p : Payment) (items : list OrderItem) (d d' : DB) : Prop :=
  (forall it, it ∈ items -> status_of d' (oi_EventSeatInventoryID it) = Some InventoryStatusSold) /\
  (forall i, i ∉ oi_EventSeatInventoryID <$> items -> inventory d' !! i = inventory d !! i) /\
  (exists now, orders d' = <[oid := OrderRepo.set_status OrderStatusPaid now o]> (orders d)) /\
  (exists now, payments d' = <[pid := PaymentRepo.set_status PaymentStatusCaptured "" None now p]> (payments d)) /\
  (exists id now, notifications d' = <[id := mkNotification id t (o_UserID o) NotificationTypeOrderConfirmation
     (confirmation_payload o (Z.of_nat (length items))) NotificationStatusPending 0 "" now None]> (notifications d)).

Lemma confirm_fulfils t oid pid o p w :
  awaiting t oid pid (w_db w) o p ->
  let items := OrderRepo.items_of t oid (w_db w) in
  confirmable t (w_db w) items ->
  fk (tenants (w_db w)) t = true -> fk (users (w_db w)) (o_UserID o) = true ->
  (forall n, notifications (w_db w) !! env_uuid n = None) ->
  exists w', ConfirmPayment t oid pid w = (Ok tt, w') /\ checked_out t oid pid o p items (w_db w) (w_db w').
Proof.
  intros Haw items Hc Hft Hfu Hfresh. destruct (confirm_reads _ _ _ _ _ _ Haw) as (w3 & (D3 & T3 & _ & _) & ->). fold items.
  destruct Haw as [Ho Hoid Hot Hst Hp Hpid Hpt Hpo Hu].
  rewrite WithTx_quiet. unfold confirm_tx, bind at 1.
  match goal with |- context [fold_loop (confirm_item t) tt items ?wx] =>
    destruct (proj1 (confirm_fold_quiet t items wx)) as (w4 & Hf & T4 & S1 & S2 & D4); [by simpl; rewrite D3|] end.
  rewrite Hf. clear Hf. cbn [w_db w_tx set_tx set_tick set_wrote] in *. rewrite D3 in *.
  unfold bind at 1, wrap at 1, map_err at 1. rewrite Hoid.
  destruct (order_status_quiet t oid OrderStatusPaid o w4) as [now1 Hs]; [by rewrite D4|done|].
  rewrite Hs. clear Hs. unfold wrap at 1, map_err at 1.
  match goal with |- context [NotificationRepo.Create _ _ _ _ ?pl _ ?wx] =>
    destruct (notify_quiet t (o_UserID o) pl wx) as (now2 & w5 & Hn & T5 & D5); [by simpl; rewrite D4|by simpl; rewrite D4| |] end.
  { simpl. rewrite D4. simpl. apply Hfresh. }
  rewrite Hn. clear Hn. cbn [w_db set_db set_tick set_wrote] in D5. unfold wrap at 1, map_err at 1.
  match goal with |- context [PaymentRepo.UpdateStatus t pid _ _ _ ?wx] =>
    destruct (payment_status_quiet t pid PaymentStatusCaptured None p wx) as [now3 Hs]; [|done| |rewrite Hs] end.
  { simpl. rewrite D5. simpl. by rewrite D4. }
  { simpl. rewrite D5. simpl. by rewrite D4. }
  eexists. split; [reflexivity|]. simpl. rewrite D5. simpl. unfold status_of in *. simpl.
  split; [exact S1|]. split; [exact S2|]. split; [exists now1; by rewrite D4|].
  split; [exists now3; by rewrite D4|]. eexists _, now2. by rewrite D4.
Qed.

(** C5: a payment for an order whose seats are all still held is fulfilled:
    [ConfirmPayment] succeeds, every seat of the order is sold, the order is
    paid, the payment captured and one pending confirmation for the buyer is in
    the outbox; no other seat has changed. *)
Theorem ConfirmPayment_fulfils t oid pid o p w :
  awaiting t oid pid (w_db w) o p ->
  let items := OrderRepo.items_of t oid (w_db w) in
  confirmable t (w_db w) items ->
  fk (tenants (w_db w)) t = true -> fk (users (w_db w)) (o_UserID o) = true ->
  (forall n, notifications (w_db w) !! env_uuid n = None) ->
  exists w', ConfirmPayment t oid pid w = (Ok tt, w') /\
    let d' := w_db w' in
    (forall it, it ∈ items -> status_of d' (oi_EventSeatInventoryID it) = Some InventoryStatusSold) /\
    (forall i, i ∉ oi_EventSeatInventoryID <$> items -> inventory d' !! i = inventory (w_db w) !! i) /\
    (exists now, orders d' = <[oid := OrderRepo.set_status OrderStatusPaid now o]> (orders (w_db w))) /\
    (exists now, payments d' = <[pid := PaymentRepo.set_status PaymentStatusCaptured "" None now p]> (payments (w_db w))) /\
    (exists id now, notifications d' = <[id := mkNotification id t (o_UserID o) NotificationTypeOrderConfirmation
       (confirmation_payload o (Z.of_nat (length items))) NotificationStatusPending 0 "" now None]> (notifications (w_db w))).
Proof. apply confirm_fulfils. Qed.

End outcome.

Section replay.
Context `{U : UuidPkg} `{E : Env} `{!Quiet} `{G : !PaymentGateway}.

Lemma confirm_replay t oid pid o w :
  orders (w_db w) !! oid = Some o -> o_ID o = oid -> o_TenantID o = t -> o_Status o = OrderStatusPaid ->
  exists w', ConfirmPayment t oid pid w = (Ok tt, w') /\ w_db w' = w_db w.
Proof.
  intros Ho Hid Ht Hst. exists (set_tick (S (w_tick w)) w). split; [|done].
  unfold ConfirmPayment, bind at 1, wrap at 1, map_err at 1, OrderRepo.GetByID.
  rewrite (one_row_quiet _ _ _ o) by (by apply in_tenant_Some). by rewrite bool_decide_true by done.
Qed.

(** Replaying a webhook for a paid order changes nothing and succeeds,
    whatever payment it names. *)
Theorem ConfirmPayment_replay t oid pid o w :
  orders (w_db w) !! oid = Some o -> o_ID o = oid -> o_TenantID o = t -> o_Status o = OrderStatusPaid ->
  exists w', ConfirmPayment t oid pid w = (Ok tt, w') /\ w_db w' = w_db w.
Proof. apply confirm_replay. Qed.
End replay.

(** ** A concrete checkout *)

#[export] Instance fx_gateway : PaymentGateway := MockGateway.gateway (E := fx_env) "whsec".

#[export] Instance fx_gateway_contract : GatewayContract (E := fx_env) fx_gateway := MockGateway.gateway_contract "whsec".

Definition fx_checkout (items : list HeldItem) : M string :=
  o <- CreateOrder 1 11 "key-1" items;; AuthorizePayment 1 (o_ID o).

Definition fx_awaiting : World (H := ref_redis) := snd (fx_checkout [fx_item] (fx_world fx_db)).

Definition fx_order : Order :=
  mkOrder 1006 1 11 OrderStatusAwaitingPayment "key-1" (mkMoney 150000 "KES") (mkMoney 0 "KES") (mkMoney 150000 "KES")
    (Some 5000000%Z) 1001000 1015000.
Definition fx_payment : Payment :=
  mkPayment 1013 1 1006 PaymentProviderStripe "pi_mock_1011" PaymentStatusPending (mkMoney 150000 "KES") "key-1" None 1014000 1014000.
Definition fx_order_item : OrderItem := mkOrderItem 1005 1 1006 101 500 (mkMoney 150000 "KES") 1001000.

Lemma fx_payments : payments (w_db fx_awaiting) = {[1013%N := fx_payment]}.
Proof. vm_compute. reflexivity. Qed.

Lemma fx_is_awaiting : awaiting 1 1006 1013 (w_db fx_awaiting) fx_order fx_payment.
Proof.
  split; [vm_compute; reflexivity|done|done|done|by rewrite fx_payments|done|done|done|].
  intros j p' Hj Hp'. rewrite fx_payments in Hp'. by apply lookup_singleton_Some in Hp' as [<- _].
Qed.

Lemma fx_items : OrderRepo.items_of 1 1006 (w_db fx_awaiting) = [fx_order_item].
Proof. vm_compute. reflexivity. Qed.

Lemma fx_confirmable : confirmable 1 (w_db fx_awaiting) (OrderRepo.items_of 1 1006 (w_db fx_awaiting)).
Proof.
  rewrite fx_items. split; [apply NoDup_singleton|]. intros it ->%list_elem_of_singleton.
  eexists. split; vm_compute; reflexivity.
Qed.

(** The same checkout after the hold has been swept and the seat taken by somebody else. *)
Definition fx_swept : World (H := ref_redis) :=
  snd ((_ <- Release 1 101 500;; Hold 1 101 777 12 9000000) fx_awaiting).

Lemma fx_swept_payments : payments (w_db fx_swept) = {[1013%N := fx_payment]}.
Proof. vm_compute. reflexivity. Qed.

Lemma fx_is_awaiting_swept : awaiting 1 1006 1013 (w_db fx_swept) fx_order fx_payment.
Proof.
  split; [vm_compute; reflexivity|done|done|done|by rewrite fx_swept_payments|done|done|done|].
  intros j p' Hj Hp'. rewrite fx_swept_payments in Hp'. by apply lookup_singleton_Some in Hp' as [<- _].
Qed.

Lemma fx_not_confirmable : ~ confirmable 1 (w_db fx_swept) (OrderRepo.items_of 1 1006 (w_db fx_swept)).
Proof.
  assert (Hi : OrderRepo.items_of 1 1006 (w_db fx_swept) = [fx_order_item]) by (vm_compute; reflexivity).
  rewrite Hi. intros [_ Hh]. destruct (Hh fx_order_item) as (r & Hr & Ht); [by apply list_elem_of_singleton|].
  assert (Hr' : (fun r => token_matches 1 500 r) <$> inventory (w_db fx_swept) !! 101%N = Some false) by (vm_compute; reflexivity).
  simpl in Hr. rewrite Hr in Hr'. simpl in *. congruence.
Qed.

(** Stripe, as the fixture environment answers it, performs every refund. *)
Lemma fx_refund w1 : exists rid w2,
  gw_Refund (PaymentGateway := StripeGateway.gateway (E := fx_env) "whsec") (p_ProviderPaymentID fx_payment)
    (p_Amount fx_payment) refund_reason w1 = (Ok rid, w2).
Proof. eexists _, _. reflexivity. Qed.

(** One request goes to Stripe. *)
Lemma ConfirmPayment_refunds_witness : exists e w',
  ConfirmPayment (G := StripeGateway.gateway (E := fx_env) "whsec") 1 1006 1013 fx_swept = (Err e, w') /\
  errors_Is e (SDomain ErrExpired) = true /\
  w_http w' = w_http fx_swept ++ [mkRequest "/v1/refunds"
    [("payment_intent", "pi_mock_1011"); ("amount", "150000"); ("metadata[reason]", refund_reason)] None].
Proof.
  destruct (ConfirmPayment_refunds (G := StripeGateway.gateway (E := fx_env) "whsec") 1 1006 1013 fx_order fx_payment fx_swept
              fx_is_awaiting_swept fx_not_confirmable fx_refund)
    as (e & w' & rid & _ & _ & H1 & H2 & (w1 & w2 & Hr & _ & (_ & Hw1 & _) & _ & (_ & Hw' & _) & _) & _).
  exists e, w'. split; [exact H1|]. split; [exact H2|]. rewrite Hw', (Refund_request _ _ _ _ _ _ Hr), Hw1. reflexivity.
Defined.

Lemma fx_awaiting_tx : w_tx fx_awaiting = None.
Proof. vm_compute. reflexivity. Qed.

Lemma ConfirmPayment_all_or_nothing_witness : exists d1 d2,
  side 1 1006 1013 (w_db fx_awaiting) d1 /\ side 1 1006 1013 d2 (w_db (snd (ConfirmPayment 1 1006 1013 fx_awaiting))).
Proof.
  pose proof (ConfirmPayment_all_or_nothing 1 1006 1013 fx_awaiting _ _
                (surjective_pairing (ConfirmPayment 1 1006 1013 fx_awaiting))) as HH.
  destruct HH as (d1 & d2 & H1 & H2 & _). exists d1, d2. split; [exact H1|exact H2].
Defined.

Lemma fx_awaiting_tenant : fk (tenants (w_db fx_awaiting)) 1 = true.
Proof. vm_compute. reflexivity. Qed.

Lemma fx_awaiting_user : fk (users (w_db fx_awaiting)) (o_UserID fx_order) = true.
Proof. vm_compute. reflexivity. Qed.

Lemma fx_awaiting_notifications : notifications (w_db fx_awaiting) = ∅.
Proof. vm_compute. reflexivity. Qed.

Lemma fx_awaiting_fresh n : notifications (w_db fx_awaiting) !! env_uuid n = None.
Proof. by rewrite fx_awaiting_notifications. Qed.

Lemma ConfirmPayment_fulfils_witness : exists w',
  ConfirmPayment 1 1006 1013 fx_awaiting = (Ok tt, w') /\ status_of (w_db w') 101 = Some InventoryStatusSold.
Proof.
  pose proof (ConfirmPayment_fulfils 1 1006 1013 fx_order fx_payment fx_awaiting fx_is_awaiting fx_confirmable
                fx_awaiting_tenant fx_awaiting_user fx_awaiting_fresh) as HH.
  destruct HH as (w' & H1 & H2 & _). exists w'. split; [exact H1|].
  rewrite fx_items in H2. apply (H2 fx_order_item). by apply list_elem_of_singleton.
Defined.

Lemma fx_paid :
  orders (w_db (snd (ConfirmPayment 1 1006 1013 fx_awaiting))) !! 1006%N =
  Some (OrderRepo.set_status OrderStatusPaid 1019000 fx_order).
Proof. vm_compute. reflexivity. Qed.

Lemma ConfirmPayment_replay_witness :
  exists w', ConfirmPayment 1 1006 1013 (snd (ConfirmPayment 1 1006 1013 fx_awaiting)) = (Ok tt, w').
Proof.
  pose proof (ConfirmPayment_replay 1 1006 1013 (OrderRepo.set_status OrderStatusPaid 1019000 fx_order)
                (snd (ConfirmPayment 1 1006 1013 fx_awaiting)) fx_paid eq_refl eq_refl eq_refl) as HH.
  destruct HH as (w' & H & _). exists w'. exact H.
Defined.
