(* ===== verification/Sales.v ===== *)
(** * The books of the shop

    What the tables of units, orders, items, payments and notifications say together, as
    an invariant of the database, and the steps the program can take from one
    consistent database to the next. The walk through the handlers and the
    worker that shows the program takes no other steps is in [SalesSafety]. *)
From S2P Require Import Prelude Domain Schema Redis Runtime Ports Fixtures InventoryRepo CheckoutRepos CatalogRepos.
From S2P Require Import OrderService OrderCreate OrderConfirm.

(** ** The invariant *)

(** The prices of the items of an order, added up. *)
Definition add_price (orderID _ : UUID) (it : OrderItem) (acc : Z) : Z :=
  ((if (oi_OrderID it =? orderID)%N then Cents (oi_UnitPrice it) else 0) + acc)%Z.
Definition basket_cents (orderID : UUID) (items : gmap UUID OrderItem) : Z := map_fold (add_price orderID) 0%Z items.

(** A queued or sent confirmation of the order. *)
Definition confirms `{UuidPkg} (orderID : UUID) (o : Order) (n : Notification) : Prop :=
  n_Type n = NotificationTypeOrderConfirmation /\ n_TenantID n = o_TenantID o /\ n_UserID n = o_UserID o /\
  ("order_id", JString (uuid_String orderID)) ∈ n_Payload n.

(** A payment of the order's club over its whole total. *)
Definition pays (p : Payment) (o : Order) : Prop := p_TenantID p = o_TenantID o /\ p_Amount p = o_Total o.

Definition is_paid (d : DB) (orderID : UUID) : Prop :=
  exists o, orders d !! orderID = Some o /\ o_Status o = OrderStatusPaid.

Record books `{UuidPkg} (d : DB) : Prop := {
  (** Rows sit under their own id, and an item belongs to an order of its club. *)
  books_order_id : forall i o, orders d !! i = Some o -> o_ID o = i;
  books_item_id : forall j it, order_items d !! j = Some it -> oi_ID it = j;
  books_item_order : forall j it, order_items d !! j = Some it ->
    exists o, orders d !! oi_OrderID it = Some o /\ o_TenantID o = oi_TenantID it;
  (** An order costs what its items cost. *)
  books_total : forall i o, orders d !! i = Some o -> Cents (o_Total o) = wrap64 (basket_cents i (order_items d));
  (** What has been paid for has been sold. *)
  books_paid_sold : forall j it, order_items d !! j = Some it -> is_paid d (oi_OrderID it) ->
    status_of d (oi_EventSeatInventoryID it) = Some InventoryStatusSold;
  (** No unit is paid for twice: not by two orders, and not twice by one. *)
  books_paid_once : forall j1 j2 it1 it2, order_items d !! j1 = Some it1 -> order_items d !! j2 = Some it2 ->
    is_paid d (oi_OrderID it1) -> is_paid d (oi_OrderID it2) ->
    oi_EventSeatInventoryID it1 = oi_EventSeatInventoryID it2 -> j1 = j2;
  (** What has been sold was ordered. *)
  books_sold_ordered : forall i, status_of d i = Some InventoryStatusSold ->
    exists j it, order_items d !! j = Some it /\ oi_EventSeatInventoryID it = i;
  (** Whoever paid gets a confirmation. *)
  books_paid_confirmed : forall i o, orders d !! i = Some o -> o_Status o = OrderStatusPaid ->
    exists k n, notifications d !! k = Some n /\ confirms i o n;
  (** A payment is for the whole total of an order of its club, and no order is
      paid without one. *)
  books_payment : forall k p, payments d !! k = Some p ->
    exists o, orders d !! p_OrderID p = Some o /\ pays p o;
  books_paid_payment : forall i, is_paid d i -> exists k p, payments d !! k = Some p /\ p_OrderID p = i;
  (** Every unit is well formed, and the audit log accounts for its state. *)
  books_units : inventory_wf d;
  books_audit : forall i, audit_explains d i;
  books_mail_id : forall k n, notifications d !! k = Some n -> n_ID n = k;
  (** Every mail has somebody to go to. *)
  books_recipient : forall k n, notifications d !! k = Some n -> is_Some (users d !! n_UserID n) }.

(** A shop that has not opened yet. *)
Lemma books_empty `{UuidPkg} : books empty_DB.
Proof. split; try done. by intros i (o & ? & _). Qed.

(** ** The steps *)

(** Rows that are the same but for their progress. *)
Definition same_order (o o' : Order) : Prop := o' = OrderRepo.set_status (o_Status o') (o_UpdatedAt o') o.
Definition same_mail (n n' : Notification) : Prop :=
  n_ID n' = n_ID n /\ n_TenantID n' = n_TenantID n /\ n_UserID n' = n_UserID n /\ n_Type n' = n_Type n /\ n_Payload n' = n_Payload n.
Definition same_payment (p p' : Payment) : Prop :=
  p_ID p' = p_ID p /\ p_TenantID p' = p_TenantID p /\ p_OrderID p' = p_OrderID p /\ p_Amount p' = p_Amount p.

(** Between two databases nothing is lost or rewritten: orders, payments and
    notifications only progress, items stay and are added only together with their order, sold
    stays sold; and the books stay in order. *)
Record sales_step `{UuidPkg} (d d' : DB) : Prop := {
  sl_orders : forall i o, orders d !! i = Some o -> exists o', orders d' !! i = Some o' /\ same_order o o';
  sl_mails : forall i n, notifications d !! i = Some n -> exists n', notifications d' !! i = Some n' /\ same_mail n n';
  sl_payments : forall i p, payments d !! i = Some p -> exists p', payments d' !! i = Some p' /\ same_payment p p';
  sl_items : order_items d ⊆ order_items d';
  sl_new_items : forall j it, order_items d' !! j = Some it -> order_items d !! j = None -> orders d !! oi_OrderID it = None;
  sl_sold : forall i, status_of d i = Some InventoryStatusSold -> status_of d' i = Some InventoryStatusSold;
  sl_users : forall i, is_Some (users d !! i) -> is_Some (users d' !! i);
  sl_books : books d -> books d' }.

Lemma same_order_refl o : same_order o o.
Proof. by destruct o. Qed.
Lemma same_order_trans o1 o2 o3 : same_order o1 o2 -> same_order o2 o3 -> same_order o1 o3.
Proof. unfold same_order. intros -> ->. done. Qed.
Lemma same_order_fields o o' : same_order o o' ->
  o_ID o' = o_ID o /\ o_TenantID o' = o_TenantID o /\ o_UserID o' = o_UserID o /\ o_Total o' = o_Total o.
Proof. by intros ->. Qed.
Lemma same_mail_trans n1 n2 n3 : same_mail n1 n2 -> same_mail n2 n3 -> same_mail n1 n3.
Proof. unfold same_mail. naive_solver congruence. Qed.
Lemma same_payment_trans p1 p2 p3 : same_payment p1 p2 -> same_payment p2 p3 -> same_payment p1 p3.
Proof. unfold same_payment. naive_solver congruence. Qed.
Lemma pays_same p p' o o' : same_payment p p' -> same_order o o' -> pays p o -> pays p' o'.
Proof. unfold pays, same_payment. intros (_ & -> & _ & ->) (_ & -> & _ & ->)%same_order_fields. done. Qed.

Section steps.
Context `{U : UuidPkg}.

Lemma confirms_same i o o' n n' : same_order o o' -> same_mail n n' -> confirms i o n -> confirms i o' n'.
Proof.
  intros (_ & Ht & Hu & _)%same_order_fields (_ & Hnt & Hnu & Hty & Hp) (H1 & H2 & H3 & H4).
  unfold confirms. rewrite Hp. split_and!; congruence.
Qed.

#[global] Instance sales_step_preorder : PreOrder sales_step.
Proof.
  split.
  - intros d. split; try done; [intros i o Ho; exists o; by auto using same_order_refl|intros i n Hn; by exists n|intros i p Hp; by exists p|].
    intros j it -> [=].
  - intros d1 d2 d3 H1 H2. split.
    + intros i o (o' & Ho' & S1)%H1. apply H2 in Ho' as (o'' & Ho'' & S2). exists o''. split; [done|by eapply same_order_trans].
    + intros i n (n' & Hn' & S1)%H1. apply H2 in Hn' as (n'' & Hn'' & S2). exists n''. split; [done|by eapply same_mail_trans].
    + intros i p (p' & Hp' & S1)%H1. apply H2 in Hp' as (p'' & Hp'' & S2). exists p''. split; [done|by eapply same_payment_trans].
    + etransitivity; [apply H1|apply H2].
    + intros j it H3 Hn. destruct (order_items d2 !! j) as [it'|] eqn:Hj.
      * pose proof (lookup_weaken _ _ _ _ Hj (sl_items _ _ H2)). simplify_eq. by eapply H1.
      * pose proof (sl_new_items _ _ H2 j it H3 Hj) as Hnone. destruct (orders d1 !! _) eqn:Ho; [|done].
        apply H1 in Ho as (o' & Ho' & _). congruence.
    + intros i Hi. by apply H2, H1.
    + intros i Hi. by apply H2, H1.
    + intros Hb. by apply H2, H1.
Qed.

(** *** Writes to other tables *)

(** The tables of the books are the same. *)
Definition same_books (d d' : DB) : Prop :=
  orders d' = orders d /\ order_items d' = order_items d /\ inventory d' = inventory d /\ notifications d' = notifications d /\
  payments d' = payments d /\ audit_log d' = audit_log d /\ forall i, is_Some (users d !! i) -> is_Some (users d' !! i).

Lemma step_same d d' : same_books d d' -> sales_step d d'.
Proof.
  intros (Ho & Hi & Hv & Hn & Hp & Hl & Hu). split; rewrite ?Ho, ?Hi, ?Hn, ?Hp; try done.
  - intros i o H. exists o. by auto using same_order_refl.
  - intros i n H. by exists n.
  - intros i p H. by exists p.
  - intros j it -> [=].
  - intros i. unfold status_of. by rewrite Hv.
  - intros [B1 B2 B3 B4 B5 B6 B7 B8 B9 B10 B11 B12 B13 B14]. unfold is_paid, audit_explains, inventory_wf, status_of in *. split;
    unfold is_paid, audit_explains, inventory_wf, status_of; rewrite ?Ho, ?Hi, ?Hv, ?Hn, ?Hp, ?Hl; eauto.
Qed.

(** *** Writes to the units *)

(** Units change hands without being sold, and none that was sold is touched. *)
Lemma step_units inv a d :
  (forall i, status_of d i = Some InventoryStatusSold <-> inv_Status <$> inv !! i = Some InventoryStatusSold) ->
  (inventory_wf d -> inventory_wf (set_inventory inv a d) /\
     forall i, audit_explains d i -> audit_explains (set_inventory inv a d) i) ->
  sales_step d (set_inventory inv a d).
Proof.
  intros Hinv Hwf. split; try done; cbn [orders order_items notifications payments set_inventory].
  - intros i o H. exists o. by auto using same_order_refl.
  - intros i n H. by exists n.
  - intros i p H. by exists p.
  - intros j it -> [=].
  - intros i. apply Hinv.
  - intros [B1 B2 B3 B4 B5 B6 B7 B8 B9 B10 B11 B12 B13 B14]. split; try done; unfold status_of in *; cbn [inventory set_inventory order_items].
    + intros j it Hj Hp. apply Hinv. by eapply B5.
    + intros i Hs. by apply B7, Hinv.
    + by apply Hwf.
    + intros i. by apply Hwf.
Qed.

Lemma step_unit i r r' now d :
  inventory d !! i = Some r -> inv_ID r' = inv_ID r -> inventory_check r' = true ->
  allowed (Some (inv_Status r)) (inv_Status r') = true ->
  inv_Status r <> InventoryStatusSold -> inv_Status r' <> InventoryStatusSold ->
  sales_step d (set_inventory (<[i := r']> (inventory d)) (audit_log d ++ log_inventory_status_change now (Some r) r') d).
Proof.
  intros Hr Hid Hc Ha Hs Hs'. apply step_units.
  - intros k. unfold status_of. destruct (decide (k = i)) as [->|Hne].
    + rewrite lookup_insert_eq, Hr. simpl. split; intros [=]; done.
    + by rewrite lookup_insert_ne.
  - intros Hwf. apply unit_step; auto.
Qed.

Lemma step_swapped t i guard st tok u e d d' :
  swapped t i guard st tok u e d d' -> (forall r, guard r -> inv_Status r <> InventoryStatusSold) ->
  (forall r, guard r -> allowed (Some (inv_Status r)) st = true) -> st <> InventoryStatusSold -> sales_step d d'.
Proof. intros (r & now & Hr & _ & Hg & Hc & ->) Hns Hal Hst. apply step_unit; auto. Qed.

Lemma step_bulk rows now d u d' : bulk_stmt rows now d = Ok (u, d') -> sales_step d d'.
Proof.
  revert d. induction rows as [|[id row] rows IH]; intros d Hs; simpl in Hs; [by injection Hs as _ <-|].
  destruct (insert_inventory _ now d) as [[[] d1]|] eqn:Hi; [|done].
  etransitivity; [|by eapply IH]. pose proof Hi as (Hn & _ & ->)%insert_inventory_inv. apply step_units.
  - intros k. unfold status_of. destruct (decide (k = id)) as [->|Hne].
    + simpl in *. by rewrite lookup_insert_eq, Hn.
    + simpl. by rewrite lookup_insert_ne.
  - intros Hwf. by eapply insert_step.
Qed.

(** *** Progress of an order or a notification *)

Lemma lookup_progress {R} (same : R -> R -> Prop) (m : gmap UUID R) i x y :
  (forall z, same z z) -> m !! i = Some x -> same x y ->
  forall k z, m !! k = Some z -> exists z', <[i := y]> m !! k = Some z' /\ same z z'.
Proof.
  intros Hrefl Hi Hs k z Hz. destruct (decide (k = i)) as [->|Hne].
  - rewrite lookup_insert_eq. exists y. split; [done|]. by simplify_eq.
  - rewrite lookup_insert_ne by done. by exists z.
Qed.

(** An order moves to a status other than paid. *)
Lemma step_status t id st now d n d' :
  st <> OrderStatusPaid -> OrderRepo.update_status_stmt t id st now d = Ok (n, d') -> sales_step d d'.
Proof.
  intros Hst [(_ & -> & _)|(_ & o & Ho & _ & ->)]%update_row_Ok; [done|].
  assert (Hpaid : forall i, is_paid (set_orders (<[id := OrderRepo.set_status st now o]> (orders d)) d) i -> is_paid d i).
  { intros i (o' & Ho' & Hp). cbn in Ho'. apply lookup_insert_Some in Ho' as [[<- <-]|[_ Ho']]; [done|by exists o']. }
  pose proof (lookup_progress same_order (orders d) id o (OrderRepo.set_status st now o) same_order_refl Ho eq_refl) as Hprog.
  split; try done; cbn [orders order_items notifications payments set_orders].
  - intros i m H. by exists m.
  - intros i p H. by exists p.
  - intros j it -> [=].
  - intros [B1 B2 B3 B4 B5 B6 B7 B8 B9 B10 B11 B12 B13 B14]. split; cbn [orders order_items notifications payments set_orders].
    + intros i o' [[<- <-]|[_ Ho']]%lookup_insert_Some; [exact (B1 _ _ Ho)|by apply B1].
    + done.
    + intros j it Hj. destruct (B3 j it Hj) as (o' & Ho' & Ht). apply Hprog in Ho' as (o'' & Ho'' & Hs).
      exists o''. split; [done|]. by apply same_order_fields in Hs as (_ & -> & _).
    + intros i o' [[<- <-]|[_ Ho']]%lookup_insert_Some; [by apply (B4 id o)|by apply B4].
    + intros j it Hj Hp. apply (B5 j it Hj). by apply Hpaid.
    + intros j1 j2 it1 it2 H1 H2 P1 P2. apply (B6 j1 j2 it1 it2 H1 H2); by apply Hpaid.
    + done.
    + intros i o' [[<- <-]|[_ Ho']]%lookup_insert_Some; [done|by apply B8].
    + intros k p Hp. destruct (B9 k p Hp) as (o' & Ho' & Hpay). apply Hprog in Ho' as (o'' & Ho'' & Hs).
      exists o''. split; [done|]. by eapply pays_same.
    + intros i Hp. by apply B10, Hpaid.
    + exact B11.
    + exact B12.
    + exact B13.
    + exact B14.
Qed.

(** A notification is marked. *)
Lemma step_mark id upd now d n d' :
  (forall now n, same_mail n (upd now n)) -> NotificationRepo.mark_stmt id upd now d = Ok (n, d') -> sales_step d d'.
Proof.
  intros Hupd [(_ & -> & _)|(_ & m & Hm & _ & ->)]%update_row_Ok; [done|].
  assert (Hrefl : forall n, same_mail n n) by done.
  pose proof (lookup_progress same_mail (notifications d) id m (upd now m) Hrefl Hm (Hupd now m)) as Hprog.
  split; try done; cbn [orders order_items notifications payments set_notifications].
  - intros i o H. exists o. by auto using same_order_refl.
  - intros i p H. by exists p.
  - intros j it -> [=].
  - intros [B1 B2 B3 B4 B5 B6 B7 B8 B9 B10 B11 B12 B13 B14]. split; try done; cbn [notifications set_notifications orders] in *.
    + intros i o Ho Hp. destruct (B8 i o Ho Hp) as (k & x & Hk & Hc). apply Hprog in Hk as (x' & Hx' & Hs).
      exists k, x'. split; [done|]. eapply confirms_same; [apply same_order_refl|done..].
    + intros k x [[<- <-]|[_ Hx]]%lookup_insert_Some; [rewrite (proj1 (Hupd now m)); by apply B13|by apply B13].
    + intros k x [[<- <-]|[_ Hx]]%lookup_insert_Some; [|by apply (B14 k)].
      destruct (Hupd now m) as (_ & _ & -> & _). by apply (B14 id).
Qed.

(** *** Payments *)

Lemma step_payment_status t id st ppid raw now d n d' :
  PaymentRepo.update_status_stmt t id st ppid raw now d = Ok (n, d') -> sales_step d d'.
Proof.
  intros [(_ & -> & _)|(_ & p & Hp & _ & ->)]%update_row_Ok; [done|].
  assert (Hrefl : forall p, same_payment p p) by done. set (p' := PaymentRepo.set_status _ _ _ _ _).
  pose proof (lookup_progress same_payment (payments d) id p p' Hrefl Hp ltac:(done)) as Hprog.
  split; try done; cbn [orders order_items notifications payments set_payments].
  - intros i o H. exists o. by auto using same_order_refl.
  - intros i m H. by exists m.
  - intros j it -> [=].
  - intros [B1 B2 B3 B4 B5 B6 B7 B8 B9 B10 B11 B12 B13 B14]. split; try done; cbn [orders payments set_payments].
    + intros k q [[<- <-]|[_ Hq]]%lookup_insert_Some; [exact (B9 _ _ Hp)|by apply (B9 k)].
    + intros i (k & q & Hk & Hq)%B10. apply Hprog in Hk as (q' & Hq' & (_ & _ & Hs & _)). exists k, q'. split; [done|congruence].
Qed.

(** A payment is recorded for the total of an order read before. *)
Lemma step_payment_new p o dr now d u d' :
  sales_step dr d -> orders dr !! p_OrderID p = Some o -> pays p o ->
  PaymentRepo.insert_payment p now d = Ok (u, d') -> sales_step d d'.
Proof.
  unfold PaymentRepo.insert_payment. intros Hdr Ho Hpay (Hn & _ & _ & -> & _)%insert_into_Ok.
  set (p' := PaymentRepo.stored now p). apply (sl_orders _ _ Hdr) in Ho as (o' & Ho & Hs).
  split; try done; cbn [orders order_items notifications payments set_payments].
  - intros i x H. exists x. by auto using same_order_refl.
  - intros i m H. by exists m.
  - intros i q Hq. exists q. split; [|done]. rewrite lookup_insert_ne; [done|congruence].
  - intros j it -> [=].
  - intros [B1 B2 B3 B4 B5 B6 B7 B8 B9 B10 B11 B12 B13 B14]. split; try done; cbn [orders payments set_payments].
    + intros k q [[<- <-]|[_ Hq]]%lookup_insert_Some; [|by apply (B9 k)]. exists o'. split; [done|].
      by eapply (pays_same p p'); [|exact Hs|].
    + intros i (k & q & Hk & Hq)%B10. exists k, q. split; [|done]. rewrite lookup_insert_ne; [done|congruence].
Qed.
End steps.

(** ** A new order *)

Lemma basket_insert oid j it (m : gmap UUID OrderItem) :
  m !! j = None ->
  basket_cents oid (<[j := it]> m) = ((if (oi_OrderID it =? oid)%N then Cents (oi_UnitPrice it) else 0) + basket_cents oid m)%Z.
Proof. intros Hn. unfold basket_cents. rewrite map_fold_insert_L; [done|unfold add_price; intros; lia|done]. Qed.

Lemma basket_none oid (m : gmap UUID OrderItem) :
  (forall j it, m !! j = Some it -> oi_OrderID it <> oid) -> basket_cents oid m = 0%Z.
Proof.
  induction m as [|j it m Hn IH] using map_ind; intros Hm; [done|]. rewrite basket_insert by done.
  rewrite (proj2 (N.eqb_neq _ _)) by (apply (Hm j); apply lookup_insert_eq). rewrite IH; [done|].
  intros k it' Hk. apply (Hm k). rewrite lookup_insert_ne; [done|congruence].
Qed.

(** What the items added for an order are, and what they cost. *)
Lemma add_items_spec now t oid batch (m : gmap UUID OrderItem) :
  NoDup batch.*1 -> Forall (fun i => m !! i = None) batch.*1 ->
  m ⊆ add_items now t oid batch m /\
  (forall j it, add_items now t oid batch m !! j = Some it -> m !! j = Some it \/
     (m !! j = None /\ oi_ID it = j /\ oi_TenantID it = t /\ oi_OrderID it = oid)) /\
  (forall i, basket_cents i (add_items now t oid batch m) =
     ((if (i =? oid)%N then foldr Z.add 0 ((fun x => Cents (oi_UnitPrice x.2)) <$> batch) else 0) + basket_cents i m)%Z).
Proof.
  revert m. induction batch as [|[id it] batch IH]; intros m Hnd Hf; [|rewrite fmap_cons; cbn [foldr snd]; simpl in Hnd, Hf; cbn [add_items foldl fst snd]].
  { simpl. split_and!; [done|by left|]. intros i. by destruct (i =? oid)%N. }
  apply NoDup_cons in Hnd as [Hid Hnd]. inversion_clear Hf as [|? ? Hn Hf'].
  set (row := OrderRepo.stored_item now t oid id it).
  destruct (IH (<[id := row]> m) Hnd) as (Hsub & Hin & Hsum).
  { rewrite Forall_forall in Hf' |- *. intros i Hi. rewrite lookup_insert_ne; [by apply Hf'|]. by intros ->. }
  split_and!.
  - etransitivity; [by apply insert_subseteq|exact Hsub].
  - intros j x [Hj|(Hj & Hrest)]%Hin.
    + apply lookup_insert_Some in Hj as [[<- <-]|[_ Hj]]; [by right|by left].
    + right. split; [|done]. by apply lookup_insert_None in Hj as [? _].
  - intros i. rewrite Hsum, (basket_insert i id row m Hn). cbn [foldr oi_OrderID oi_UnitPrice row OrderRepo.stored_item snd]. rewrite (N.eqb_sym oid i). destruct (i =? oid)%N; lia.
Qed.

Section created.
Context `{U : UuidPkg}.

Lemma step_created t u key l o its now ids d :
  order_from t u key l o its -> orders d !! o_ID o = None -> length ids = length its -> fresh_ids d ids ->
  sales_step d (set_order_items (add_items now t (o_ID o) (zip ids its) (order_items d))
                  (set_orders (<[o_ID o := OrderRepo.stored now o]> (orders d)) d)).
Proof.
  intros [(Ht & _ & _ & Hst) (Htot & _) _ _ _ Hits] Hnone Hlen [Hnd Hfr].
  destruct (add_items_spec now t (o_ID o) (zip ids its) (order_items d)) as (Hsub & Hin & Hsum); [by rewrite fst_zip by lia..|].
  assert (Hcents : foldr Z.add 0%Z ((fun x => Cents (oi_UnitPrice x.2)) <$> zip ids its) = cents l).
  { transitivity (foldr Z.add 0%Z ((fun it => Cents (oi_UnitPrice it)) <$> (zip ids its).*2)); [by rewrite <- list_fmap_compose|].
    rewrite snd_zip by lia. unfold cents. clear -Hits. induction Hits as [|e it l its (_ & _ & _ & Hp) _ IH]; [done|]. rewrite !fmap_cons. cbn [foldr]. by rewrite IH, Hp. }
  assert (Hpaid : forall i, is_paid (set_order_items (add_items now t (o_ID o) (zip ids its) (order_items d))
                  (set_orders (<[o_ID o := OrderRepo.stored now o]> (orders d)) d)) i -> is_paid d i).
  { intros i (o' & Ho' & Hp). cbn in Ho'. apply lookup_insert_Some in Ho' as [[<- <-]|[_ Ho']]; [simpl in Hp; congruence|by exists o']. }
  split; cbn [orders order_items notifications payments set_orders set_order_items]; try done.
  - intros i o' Ho'. exists o'. split; [|apply same_order_refl]. rewrite lookup_insert_ne; [done|congruence].
  - intros i n Hn. by exists n.
  - intros i p Hp. by exists p.
  - intros j it [Hj|(_ & _ & _ & ->)]%Hin Hn; [congruence|done].
  - intros [B1 B2 B3 B4 B5 B6 B7 B8 B9 B10 B11 B12 B13 B14]. split; cbn [orders order_items notifications payments set_orders set_order_items].
    + intros i o' [[<- <-]|[_ Ho']]%lookup_insert_Some; [done|by apply B1].
    + intros j it [Hj|(_ & Hid & _)]%Hin; [by apply B2|done].
    + intros j it [Hj|(_ & _ & Htn & ->)]%Hin.
      * destruct (B3 j it Hj) as (o' & Ho' & Hto). exists o'. split; [|done]. rewrite lookup_insert_ne; [done|congruence].
      * exists (OrderRepo.stored now o). split; [apply lookup_insert_eq|]. simpl. congruence.
    + intros i o' [[<- <-]|[Hne Ho']]%lookup_insert_Some.
      * simpl. rewrite Htot, Hsum, N.eqb_refl, Hcents, basket_none; [by rewrite Z.add_0_r|].
        intros j it Hj Heq. destruct (B3 j it Hj) as (o' & Ho' & _). congruence.
      * rewrite Hsum, (proj2 (N.eqb_neq i (o_ID o))) by done. by apply B4.
    + intros j it [Hj|(_ & _ & _ & Ho)]%Hin Hp; [apply (B5 j it Hj); by apply Hpaid|].
      destruct (Hpaid _ Hp) as (o' & Ho' & _). congruence.
    + intros j1 j2 it1 it2 H1 H2 P1 P2. apply Hpaid in P1, P2.
      apply Hin in H1 as [H1|(_ & _ & _ & E1)]; [|destruct P1 as (o' & Ho' & _); congruence].
      apply Hin in H2 as [H2|(_ & _ & _ & E2)]; [|destruct P2 as (o' & Ho' & _); congruence].
      by apply (B6 j1 j2 it1 it2).
    + intros i Hi. destruct (B7 i Hi) as (j & it & Hj & He). exists j, it. split; [|done]. by eapply lookup_weaken.
    + intros i o' [[<- <-]|[_ Ho']]%lookup_insert_Some Hp; [simpl in Hp; congruence|by apply B8].
    + intros k p Hp. destruct (B9 k p Hp) as (o' & Ho' & Hpay). exists o'. split; [|done]. rewrite lookup_insert_ne; [done|congruence].
    + intros i Hp. by apply B10, Hpaid.
    + exact B11.
    + exact B12.
    + exact B13.
    + exact B14.
Qed.
End created.

(** ** A fulfilment *)

Definition units (items : list OrderItem) : list UUID := oi_EventSeatInventoryID <$> items.

Lemma sold_all_spec t items d d' :
  sold_all t items d d' ->
  NoDup (units items) /\ (forall i, i ∈ units items -> status_of d i = Some InventoryStatusHeld) /\
  (forall i, status_of d' i = if decide (i ∈ units items) then Some InventoryStatusSold else status_of d i) /\
  (inventory_wf d -> inventory_wf d' /\ forall i, audit_explains d i -> audit_explains d' i) /\
  d' = set_inventory (inventory d') (audit_log d') d.
Proof.
  intros Hs. pose proof (sold_all_frame _ _ _ _ Hs) as Hfr. 
  cut (NoDup (units items) /\ (forall i, i ∈ units items -> status_of d i = Some InventoryStatusHeld) /\
    (forall i, status_of d' i = if decide (i ∈ units items) then Some InventoryStatusSold else status_of d i) /\
    (inventory_wf d -> inventory_wf d' /\ forall i, audit_explains d i -> audit_explains d' i)); [tauto|]. clear Hfr.
  revert d Hs. induction items as [|it items IH]; intros d Hs; simpl in Hs.
  { subst d'. split_and!; [constructor|by intros i ?%elem_of_nil|done..]. }
  destruct Hs as (d1 & (r & now & Hr & _ & [Hheld _] & Hc & Hi) & Hs). set (u := oi_EventSeatInventoryID it) in *.
  assert (Hst : forall i, status_of d1 i = if decide (i = u) then Some InventoryStatusSold else status_of d i).
  { intros i. unfold status_of. rewrite Hi. cbn [inventory set_inventory]. case_decide as Hu; [by rewrite Hu, lookup_insert_eq|by rewrite lookup_insert_ne]. }
  destruct (IH d1 Hs) as (Hnd & Hh & Hs' & Hwf). assert (Hn : u ∉ units items).
  { intros Hin. specialize (Hh _ Hin). rewrite Hst, decide_True in Hh; done. }
  unfold units in *. rewrite fmap_cons. fold u. split_and!.
  - by constructor.
  - intros i [->|Hin]%elem_of_cons; [unfold status_of; rewrite Hr; simpl; by rewrite Hheld|].
    specialize (Hh _ Hin). rewrite Hst, decide_False in Hh; [done|congruence].
  - intros i. rewrite Hs', Hst. destruct (decide (i ∈ oi_EventSeatInventoryID <$> items)) as [Hin|Hin].
    + rewrite decide_True; [done|]. apply elem_of_cons. by right.
    + destruct (decide (i = u)) as [Hu|Hu].
      * rewrite decide_True; [done|]. apply elem_of_cons. by left.
      * rewrite decide_False; [done|]. rewrite elem_of_cons. tauto.
  - intros Hwfd. destruct (unit_step u r (set_hold InventoryStatusSold None None None now r) now d Hwfd Hr eq_refl Hc) as [Hwf1 Ha1]; [right; by rewrite Hheld|].
    rewrite <- Hi in Hwf1, Ha1. destruct (Hwf Hwf1) as [Hwf2 Ha2]. eauto.
Qed.

Section fulfilment.
Context `{U : UuidPkg}.

(** The items of an order are those listed at any time after it was read. *)
Lemma items_stable t oid order dr d0 d1 j it :
  sales_step dr d0 -> sales_step d0 d1 -> orders dr !! oid = Some order ->
  order_items d1 !! j = Some it -> oi_OrderID it = oid -> oi_TenantID it = t -> it ∈ OrderRepo.items_of t oid d0.
Proof.
  intros S1 S2 Ho Hj Hoid Ht. unfold OrderRepo.items_of. rewrite elem_of_order_by, elem_of_rows_where.
  split; [by rewrite Hoid, Ht, !N.eqb_refl|]. exists j. destruct (order_items d0 !! j) as [it'|] eqn:H0.
  - pose proof (lookup_weaken _ _ _ _ H0 (sl_items _ _ S2)). congruence.
  - apply (sl_orders _ _ S1) in Ho as (o' & Ho' & _). pose proof (sl_new_items _ _ S2 j it Hj H0). congruence.
Qed.

Lemma items_of_elem t oid d it : it ∈ OrderRepo.items_of t oid d ->
  oi_OrderID it = oid /\ oi_TenantID it = t /\ exists j, order_items d !! j = Some it.
Proof.
  unfold OrderRepo.items_of. rewrite elem_of_order_by, elem_of_rows_where.
  intros [[Ht%N.eqb_eq Ho%N.eqb_eq]%andb_true_iff [j Hj]]. eauto.
Qed.

(** Two rows of a list whose units are distinct are the same when their units are. *)
Lemma same_unit_same_item items x y : NoDup (units items) -> x ∈ items -> y ∈ items ->
  oi_EventSeatInventoryID x = oi_EventSeatInventoryID y -> x = y.
Proof.
  intros Hnd (i & Hi)%list_elem_of_lookup_1 (j & Hj)%list_elem_of_lookup_1 He.
  assert (i = j); [|congruence]. eapply (NoDup_lookup (units items)); [done|..]; unfold units;
    rewrite list_lookup_fmap, ?Hi, ?Hj; simpl; [done|by rewrite He].
Qed.

Lemma step_fulfilled t oid order k p dr d0 d1 d2 :
  sales_step dr d0 -> sales_step d0 d1 -> orders dr !! oid = Some order -> o_ID order = oid ->
  payments d0 !! k = Some p -> p_OrderID p = oid ->
  fulfilled t order (OrderRepo.items_of t oid d0) d1 d2 -> sales_step d1 d2.
Proof.
  intros S1 S2 Hor Hoid Hpay Hpo (ds & o' & now & nid & n & Hsold & Ho & Htn & Hn & Hnew & Huser & ->).
  destruct (sold_all_spec _ _ _ _ Hsold) as (Hnd & Hheld & Hst & Hunits & Hfr). set (its := OrderRepo.items_of t oid d0) in *.
  assert (Hsame : orders ds = orders d1 /\ order_items ds = order_items d1 /\ notifications ds = notifications d1 /\
    payments ds = payments d1 /\ users ds = users d1) by (by rewrite Hfr).
  destruct Hsame as (Eo & Ei & En & Ep & Eu). clear Hfr. rewrite Hoid, Eo in *. rewrite Eu in Huser. rewrite En in Hnew |- *.
  set (paid := OrderRepo.set_status OrderStatusPaid now o') in *.
  assert (Hprog := lookup_progress same_order (orders d1) oid o' paid same_order_refl Ho eq_refl).
  assert (Hsd : forall i, status_of d1 i = Some InventoryStatusSold -> status_of ds i = Some InventoryStatusSold).
  { intros i Hi. rewrite Hst. by case_decide. }
  set (d2 := set_notifications _ _).
  assert (Hs2 : forall i, status_of d2 i = status_of ds i) by done.
  split; cbn [users orders order_items notifications payments set_orders set_notifications set_inventory d2]; rewrite ?Ei, ?Ep, ?Eu; [done| | |done| | |done|].
  - intros i m Hm. exists m. split; [|done]. rewrite lookup_insert_ne; [done|congruence].
  - intros i q Hq. by exists q.
  - intros j it -> [=].
  - intros i. rewrite Hs2. apply Hsd.
  - intros [B1 B2 B3 B4 B5 B6 B7 B8 B9 B10 B11 B12 B13 B14].
    assert (Hmine : forall j it, order_items d1 !! j = Some it -> oi_OrderID it = oid -> it ∈ its).
    { intros j it Hj Hoi. eapply items_stable; [exact S1|exact S2|done..|]. destruct (B3 j it Hj) as (o1 & Ho1 & Ht1). congruence. }
    assert (Hpaid : forall i, is_paid d2 i -> i = oid \/ is_paid d1 i).
    { intros i (o1 & Ho1 & Hp). cbn in Ho1. apply lookup_insert_Some in Ho1 as [[<- _]|[_ Ho1]]; [by left|right; by exists o1]. }
    assert (Hother : forall j1 j2 it1 it2, order_items d1 !! j1 = Some it1 -> order_items d1 !! j2 = Some it2 ->
      it1 ∈ its -> is_paid d1 (oi_OrderID it2) -> oi_EventSeatInventoryID it1 <> oi_EventSeatInventoryID it2).
    { intros j1 j2 it1 it2 H1 H2 Hin Hp He. assert (Hh := Hheld (oi_EventSeatInventoryID it1)).
      rewrite He, (B5 j2 it2 H2 Hp) in Hh. rewrite <- He in Hh. by specialize (Hh (list_elem_of_fmap_2 _ _ _ Hin)). }
    split; cbn [users orders order_items notifications payments set_orders set_notifications set_inventory d2]; rewrite ?Ei, ?Ep; [|done|..].
    + intros i x [[<- <-]|[_ Hx]]%lookup_insert_Some; [exact (B1 _ _ Ho)|by apply B1].
    + intros j it Hj. destruct (B3 j it Hj) as (x & Hx & Ht). apply Hprog in Hx as (x' & Hx' & Hs).
      exists x'. split; [done|]. by apply same_order_fields in Hs as (_ & -> & _).
    + intros i x [[<- <-]|[_ Hx]]%lookup_insert_Some; [exact (B4 _ _ Ho)|by apply B4].
    + intros j it Hj Hp. rewrite Hs2. apply Hpaid in Hp as [Hp|Hp]; [|apply Hsd; by eapply B5].
      rewrite Hst, decide_True; [done|]. apply list_elem_of_fmap_2. by eapply Hmine.
    + intros j1 j2 it1 it2 H1 H2 P1 P2 He. apply Hpaid in P1, P2.
      destruct P1 as [P1|P1], P2 as [P2|P2].
      * pose proof (same_unit_same_item _ _ _ Hnd (Hmine _ _ H1 P1) (Hmine _ _ H2 P2) He) as ->.
        rewrite <- (B2 _ _ H1). by apply B2.
      * destruct (Hother j1 j2 it1 it2); eauto.
      * destruct (Hother j2 j1 it2 it1); eauto.
      * by apply (B6 j1 j2 it1 it2).
    + intros i. rewrite Hs2, Hst. case_decide as Hin; [|apply B7]. intros _.
      apply list_elem_of_fmap in Hin as (it & -> & Hin). apply items_of_elem in Hin as (_ & _ & j & Hj).
      exists j, it. split; [|done]. eapply lookup_weaken; [exact Hj|apply S2].
    + intros i x Hx Hp. destruct (decide (i = oid)) as [->|Hne].
      * exists nid, n. split; [apply lookup_insert_eq|]. rewrite lookup_insert_eq in Hx. injection Hx as <-.
        apply (sl_orders _ _ S1) in Hor as (o1 & Ho1 & Q1). apply (sl_orders _ _ S2) in Ho1 as (o2 & Ho2 & Q2).
        pose proof (same_order_trans _ _ _ Q1 Q2) as (Q & Qt & Qu & _)%same_order_fields. simplify_eq.
        unfold confirms, paid. simpl. split_and!; [done|congruence|congruence|].
        unfold confirmation_payload. apply elem_of_cons. by left.
      * rewrite lookup_insert_ne in Hx by done. destruct (B8 i x Hx Hp) as (k' & m & Hk & Hc). exists k', m.
        split; [|done]. rewrite lookup_insert_ne; [done|congruence].
    + intros k' q Hq. destruct (B9 k' q Hq) as (x & Hx & Hpx). apply Hprog in Hx as (x' & Hx' & Hs).
      exists x'. split; [done|]. by eapply pays_same.
    + intros i [->|Hp]%Hpaid; [|by apply B10]. apply (sl_payments _ _ S2) in Hpay as (q & Hq & (_ & _ & Hqo & _)).
      exists k, q. split; [done|congruence].
    + by apply Hunits.
    + intros i. by apply Hunits.
    + intros k' m [[<- <-]|[_ Hm]]%lookup_insert_Some; [by subst n|by apply B13].
    + intros k' m [[<- <-]|[_ Hm]]%lookup_insert_Some; rewrite Eu; [by subst n|by apply (B14 k')].
Qed.
End fulfilment.

(** ** The two transactions of the shop *)

Section transactions.
Context `{U : UuidPkg} `{E : Env} (rely : forall n d, sales_step d (env_others n d)).

Lemma step_others d d' : others d d' -> sales_step d d'.
Proof. apply others_upholds; [apply _|exact rely]. Qed.

Lemma sales_create_tx `{!RandomUuids} t u key items : upholds sales_step (WithTx (create_order_tx t u key items)).
Proof.
  intros w r w' Hw. apply WithTx_inv in Hw as [Hm Hw]; [|apply create_order_tx_upholds]. split; [done|].
  destruct Hw as [(e & _ & Ho)|(o & w1 & Hf & -> & _)]; [by apply step_others|].
  apply create_order_tx_Ok in Hf as (d & l & its & Ho & _ & Hof & _ & Hn & _ & ids & Hlen & Hfr & ->); [|done].
  etransitivity; [apply step_others; etransitivity; [apply interact_others|exact Ho]|]. by eapply step_created.
Qed.

Lemma sales_CreateOrder `{!RandomUuids} t u key items : upholds sales_step (CreateOrder t u key items).
Proof.
  unfold CreateOrder, OrderRepo.GetByIdempotencyKey, one_row. destruct items as [|item items]; [apply upholds_throw; apply _|].
  apply upholds_bind; [apply _|upholds_steps|]. intros [o|e]; [apply upholds_ret; apply _|].
  destruct (negb _); [apply upholds_throw; apply _|apply sales_create_tx].
Qed.

Context `{G : !PaymentGateway, !GatewayContract G}.

Lemma sales_side t oid pid d d' : side t oid pid d d' -> sales_step d d'.
Proof.
  induction 1 as [|d1 d2 d3 Hs _ IH]; [reflexivity|]. etransitivity; [|exact IH].
  destruct Hs as [n ->|st raw now n Hs|now n Hs]; [apply rely| |by eapply step_status; [|exact Hs]].
  by eapply step_payment_status.
Qed.

Lemma sales_confirm_post t oid pid w r w' : confirm_post t oid pid w r w' -> sales_step (w_db w) (w_db w').
Proof.
  intros (d1 & d2 & S1 & S2 & Hpost). apply sales_side in S1, S2. etransitivity; [exact S1|]. etransitivity; [|exact S2].
  destruct Hpost as [[-> _]|(dr & dp & d0 & order & p & Hor & H1 & Hp & Hpo & H2 & H3 & Hoid & Hful)]; [reflexivity|].
  apply step_others in H1, H2, H3. pose proof (sl_payments _ _ H2 _ _ Hp) as (q & Hq & (_ & _ & Hqo & _)).
  eapply (step_fulfilled t oid order pid q dr d0); [by etransitivity|done|done|done|done|congruence|done].
Qed.

Lemma sales_ConfirmPayment t oid pid : upholds sales_step (ConfirmPayment t oid pid).
Proof.
  intros w r w' Hw. split; [by apply ConfirmPayment_moves in Hw as [Hm _]|]. by eapply sales_confirm_post, ConfirmPayment_post.
Qed.

(** Steps taken after the shop was seen as in [dr]. *)
Definition sales_after (dr d d' : DB) : Prop := sales_step dr d -> sales_step d d'.

#[local] Instance sales_after_preorder dr : PreOrder (sales_after dr).
Proof.
  split; [intros d _; reflexivity|]. intros d1 d2 d3 H1 H2 H0. specialize (H1 H0).
  etransitivity; [exact H1|]. apply H2. by etransitivity.
Qed.

Lemma sales_one_row {R} op msg (q : DB -> option R) : upholds sales_step (one_row op msg q).
Proof. unfold one_row. upholds_steps. Qed.

Lemma sales_AuthorizePayment t oid : upholds sales_step (AuthorizePayment t oid).
Proof.
  unfold AuthorizePayment, OrderRepo.GetByID. intros w r w' [(o & w1 & Hx & Hw)|(e & Hx & _)]%bind_inv.
  2: { eapply (upholds_wrap sales_step); [apply sales_one_row|exact Hx]. }
  apply wrap_Ok in Hx. pose proof (sales_one_row _ _ _ _ _ _ Hx) as H1.
  apply one_row_Ok in Hx as ((Ho & Hoid & Ht)%in_tenant_Some & D1 & _). rewrite <- D1, <- Hoid in Ho. cbv beta in Hw.
  match type of Hw with ?m w1 = _ => assert (Hrest : upholds (sales_after (w_db w1)) m) end.
  { assert (Hrely : forall n d, sales_after (w_db w1) d (env_others n d)) by (intros n d _; apply rely).
    unfold PaymentRepo.Create, OrderRepo.UpdateStatus, must_affect, fresh_if_nil.
    upholds_steps; try (apply gw_CreateIntent_neutral; [apply _|exact Hrely]).
    - intros Hs Hdr. by eapply (step_payment_new _ o); [exact Hdr| |split|exact Hs].
    - intros Hs _. eapply step_status; [|exact Hs]; done. }
  apply Hrest in Hw as [M2 H2]. destruct H1 as [M1 H1]. split; [by etransitivity|].
  etransitivity; [exact H1|]. by apply H2.
Qed.
End transactions.
