(* ===== verification/OrderRaces.v ===== *)
(** * Two ways a charged order ends refunded although nobody lost a seat

    Concrete runs of the order service: the same webhook delivered twice at
    the same time, and a cart that lists one held unit twice. *)
From S2P Require Import Prelude Crypto Domain Schema Redis Runtime Ports Fixtures InventoryRepo CheckoutRepos.
From S2P Require Import CatalogRepos PaymentGateways OrderService OrderCreate OrderConfirm.

(** What a reader of the database sees of a checkout. *)
Definition checkout_view (w : World (H := ref_redis)) : option InventoryStatus * option OrderStatus * option PaymentStatus :=
  (status_of (w_db w) 101, o_Status <$> orders (w_db w) !! 1006%N, p_Status <$> payments (w_db w) !! 1013%N).

(** Another replica handles the same delivery, from start to end, just before
    interaction [k] of this one. *)
Definition fx_duplicate (k : nat) : Env (H := ref_redis) := {|
  env_uuid n := (1000 + N.of_nat n)%N;
  env_clock n := (1000000 + 1000 * Z.of_nat n)%Z;
  env_outcome _ := Delivered;
  env_others n d :=
    if (n =? k)%nat
    then w_db (snd (ConfirmPayment (G := MockGateway.gateway (E := fx_env) "whsec") 1 1006 1013
                      (set_tick 500 (set_intents {["pi_mock_1011"]} (fx_world d)))))
    else d;
  env_redis_others _ s := s;
  env_http _ _ := mkResponse 200 "{}"
|}.

Definition confirm_twice (k : nat) : result unit * World (H := ref_redis) :=
  ConfirmPayment (E := fx_duplicate k) (G := MockGateway.gateway (E := fx_duplicate k) "whsec") 1 1006 1013 fx_awaiting.

Definition delivery_view (p : result unit * World (H := ref_redis)) :=
  (is_ok (fst p), checkout_view (snd p)).

(** Two simultaneous deliveries of one webhook can refund a paid order. If
    the other delivery runs between this one's read of the order and its first
    write (interactions 17 to 20, which include the start of its transaction),
    the order was paid and its seat sold by the other delivery, and this one
    then refunds the payment and marks the order expired; before that window or
    once this one has committed (from 25 on) the result is one sale. *)
Theorem duplicate_delivery_refunds_paid_order :
  (delivery_view ∘ confirm_twice <$> [17; 18; 19; 20]) =
    replicate 4 (false, (Some InventoryStatusSold, Some OrderStatusExpired, Some PaymentStatusRefunded)) /\
  (delivery_view ∘ confirm_twice <$> [15; 16; 25; 26]) =
    replicate 4 (true, (Some InventoryStatusSold, Some OrderStatusPaid, Some PaymentStatusCaptured)).
Proof. split; vm_compute; reflexivity. Qed.

(** The cart [fx_item; fx_item], charged, and its payment confirmed. *)
Definition checkout_same_seat_twice : World (H := ref_redis) := snd (fx_checkout [fx_item; fx_item] (fx_world fx_db)).

(** A cart that lists one held unit twice is accepted and charged for two
    seats (300000 cents for a 150000-cent seat), and confirming the payment
    fails, refunds it and leaves the seat with its holder. *)
Theorem same_seat_twice_is_charged_and_refunded :
  (o_Total <$> orders (w_db checkout_same_seat_twice) !! 1009%N) = Some (mkMoney 300000 "KES") /\
  (p_Amount <$> payments (w_db checkout_same_seat_twice) !! 1016%N) = Some (mkMoney 300000 "KES") /\
  let p := ConfirmPayment 1 1009 1016 checkout_same_seat_twice in
  is_ok (fst p) = false /\
  (p_Status <$> payments (w_db (snd p)) !! 1016%N) = Some PaymentStatusRefunded /\
  status_of (w_db (snd p)) 101 = Some InventoryStatusHeld.
Proof. cbv zeta. split_and!; vm_compute; reflexivity. Qed.

Definition refunds_sent (w : World (H := ref_redis)) : nat :=
  length (List.filter (fun rq => String.eqb (rq_Path rq) "/v1/refunds") (w_http w)).

(** Redelivering the webhook of an order that was already refunded asks the
    provider for the refund again, without an idempotency key: an expired order
    is not treated as settled, only a paid one is. *)
Theorem redelivery_refunds_again :
  let confirm := ConfirmPayment (G := StripeGateway.gateway (E := fx_env) "whsec") 1 1006 1013 in
  let w1 := snd (confirm fx_swept) in
  let w2 := snd (confirm w1) in
  (o_Status <$> orders (w_db w1) !! 1006%N, p_Status <$> payments (w_db w1) !! 1013%N) =
    (Some OrderStatusExpired, Some PaymentStatusRefunded) /\
  refunds_sent w1 = 1%nat /\ refunds_sent w2 = 2%nat /\ Forall (fun rq => rq_IdempotencyKey rq = None) (w_http w2).
Proof. cbv zeta. split_and!; [vm_compute; reflexivity..|]. vm_compute. repeat constructor. Qed.
