(* ===== verification/Http.v ===== *)
(** * Requests and replies ([src/internal/pkg/response/response.go], [src/internal/handler/middleware])

    The part of a request a handler looks at, the JSON envelope of every
    reply, and the middleware that fills the request context. *)
From S2P Require Import Prelude Domain Schema Redis Runtime.

(** What [json.NewEncoder] is given; a [time.Time] is shown in the zone it
    carries, so it stays an instant here. [JsObj] is a Go map, [JsStruct] a struct. *)
Inductive Json :=
| JsNull
| JsBool (b : bool)
| JsInt (z : Z)
| JsStr (s : string)
| JsTime (t : Time)
| JsArr (l : list Json)
| JsObj (fields : list (string * Json))
| JsStruct (fields : list (string * Json)).

(** The payload of an access token ([auth.Claims] with the registered claims
    the service sets). *)
Record Claims := mkClaims {
  cl_Subject : string; cl_IssuedAt : Time; cl_ExpiresAt : Time; cl_Role : string; cl_TenantID : string }.

(** [rq_Header] is [r.Header.Get] (empty when absent), [rq_URLParam] is
    [chi.URLParam]; the body reads to [None] when the connection breaks. The
    last two fields are the context values the middleware sets. *)
Record Request := mkReq {
  rq_Header : string -> string;
  rq_URLParam : string -> string;
  rq_Body : option string;
  rq_RemoteAddr : string;
  rq_Claims : option Claims;
  rq_Tenant : option UUID }.

Inductive Envelope := EnvData (data : Json) | EnvError (code message : string).
Record Response := mkResp { rsp_Status : Z; rsp_Envelope : Envelope }.

Definition Handler `{RedisServer} : Type := Request -> M Response.

Section response.
Context `{RedisServer}.
Definition JSON (status : Z) (data : Json) : M Response := ret (mkResp status (EnvData data)).
Definition Error (status : Z) (code message : string) : M Response := ret (mkResp status (EnvError code message)).
End response.

(** ** Middleware *)

Definition with_claims (c : Claims) (r : Request) : Request :=
  mkReq (rq_Header r) (rq_URLParam r) (rq_Body r) (rq_RemoteAddr r) (Some c) (rq_Tenant r).
Definition with_tenant (t : UUID) (r : Request) : Request :=
  mkReq (rq_Header r) (rq_URLParam r) (rq_Body r) (rq_RemoteAddr r) (rq_Claims r) (Some t).

(** [strings.CutPrefix]. *)
Fixpoint strings_CutPrefix (s pre : string) : option string :=
  match pre, s with
  | EmptyString, _ => Some s
  | String a pre', String b s' => if Ascii.eqb a b then strings_CutPrefix s' pre' else None
  | String _ _, EmptyString => None
  end.

Section middleware.
Context `{UuidPkg} `{RedisServer}.

(** [ParseAccessToken] is the auth service's. *)
Definition RequireAuth (ParseAccessToken : string -> M Claims) (next : Handler) : Handler := fun r =>
  match strings_CutPrefix (rq_Header r "Authorization") "Bearer " with
  | None => Error 401 "missing-token" "Authorization: Bearer <token> header is required"
  | Some token =>
      if String.eqb token "" then Error 401 "missing-token" "Authorization: Bearer <token> header is required"
      else
        claims <- attempt (ParseAccessToken token);;
        match claims with
        | Err _ => Error 401 "invalid-token" "access token is invalid or expired"
        | Ok c => next (with_claims c r)
        end
  end.

Definition UserIDFromContext (r : Request) : option UUID :=
  match rq_Claims r with Some c => uuid_Parse (cl_Subject c) | None => None end.

Definition RoleFromContext (r : Request) : option string := cl_Role <$> rq_Claims r.

Definition TenantIDFromContext (r : Request) : option UUID :=
  match rq_Claims r with
  | Some c => if String.eqb (cl_TenantID c) "" then None else uuid_Parse (cl_TenantID c)
  | None => None
  end.

Definition RequireAdmin (next : Handler) : Handler := fun r =>
  match RoleFromContext r with
  | Some role => if String.eqb role "admin" then next r else Error 403 "forbidden" "admin role required"
  | None => Error 403 "forbidden" "admin role required"
  end.

Definition RequireTenantHeader (next : Handler) : Handler := fun r =>
  let raw := rq_Header r "X-Tenant-ID" in
  if String.eqb raw "" then Error 400 "missing-tenant" "X-Tenant-ID header is required"
  else match uuid_Parse raw with
       | None => Error 400 "invalid-tenant" "X-Tenant-ID must be a valid UUID"
       | Some t => next (with_tenant t r)
       end.

Definition ResolvedTenantIDFromContext (r : Request) : option UUID := rq_Tenant r.
End middleware.
