(* ===== verification/Webhook.v ===== *)
(** * The payment webhook ([src/internal/handler/http/webhook.go])

    From a signed provider event to [ConfirmPayment]: authentication of the
    raw body, lookup of the order and its payment, and the status codes that
    make the provider retry or stop. *)
From S2P Require Import Prelude Crypto GoJson Domain Schema Redis Runtime Ports Fixtures InventoryRepo CheckoutRepos.
From S2P Require Import CatalogRepos PaymentGateways OrderService OrderCreate OrderConfirm Http.

Record stripeWebhookEvent := mkEvent { ev_Type : string; ev_ObjectID : string; ev_Metadata : gmap string string }.

(** The nested anonymous structs of [stripeWebhookEvent]. *)
Definition object_fields : list (Field stripeWebhookEvent) :=
  [str_field "id" (fun x e => mkEvent (ev_Type e) x (ev_Metadata e));
   string_map_field "metadata" ev_Metadata (fun m e => mkEvent (ev_Type e) (ev_ObjectID e) m)].
Definition data_fields : list (Field stripeWebhookEvent) :=
  [struct_field "object" object_fields (fun e => e) (fun e _ => e)].
Definition event_fields : list (Field stripeWebhookEvent) :=
  [str_field "type" (fun x e => mkEvent x (ev_ObjectID e) (ev_Metadata e));
   struct_field "data" data_fields (fun e => e) (fun e _ => e)].

(** [json.Unmarshal] into a [stripeWebhookEvent]. *)
Definition decode_event (body : string) : option stripeWebhookEvent :=
  v ← Unmarshal body; decode_struct event_fields v (mkEvent "" "" ∅).

Definition maxWebhookBodyBytes : N := 1048576.

(** [io.LimitReader(r.Body, n)]. *)
Fixpoint limit_bytes (n : N) (s : string) : string :=
  match s with
  | EmptyString => EmptyString
  | String c s' => if (n =? 0)%N then EmptyString else String c (limit_bytes (n - 1) s')
  end.

Definition metadata (evt : stripeWebhookEvent) (k : string) : string := default "" (ev_Metadata evt !! k).

Definition status (s : string) : Json := JsObj [("status", JsStr s)].

Section handler.
Context `{U : UuidPkg} `{E : Env} `{G : !PaymentGateway}.

(** The part after the event is known to be a successful capture. *)
Definition confirm_event (tenantID orderID : UUID) : M Response :=
  order <- attempt (OrderRepo.GetByID tenantID orderID);;
  match order with
  | Err e =>
      if errors_Is e (SDomain ErrNotFound) then Error 409 "order-not-found-yet" "order not found, please retry"
      else Error 500 "internal-error" "failed to look up order"
  | Ok order =>
      payment <- attempt (PaymentRepo.GetByIdempotencyKey tenantID (o_IdempotencyKey order));;
      match payment with
      | Err _ => Error 500 "internal-error" "failed to look up payment"
      | Ok payment =>
          confirmed <- attempt (ConfirmPayment tenantID orderID (p_ID payment));;
          match confirmed with
          | Err e =>
              if errors_Is e (SDomain ErrExpired) then JSON 200 (status "refunded")
              else Error 500 "internal-error" "failed to confirm payment"
          | Ok _ => JSON 200 (status "confirmed")
          end
      end
  end.

Definition Stripe : Handler := fun r =>
  match limit_bytes maxWebhookBodyBytes <$> rq_Body r with
  | None => Error 400 "invalid-body" "could not read request body"
  | Some body =>
      match gw_VerifyWebhookSignature body (rq_Header r "Stripe-Signature") with
      | Err _ => Error 400 "invalid-signature" "webhook signature verification failed"
      | Ok _ =>
          match decode_event body with
          | None => Error 400 "invalid-payload" "could not parse webhook payload"
          | Some evt =>
              if negb (String.eqb (ev_Type evt) "payment_intent.succeeded") then JSON 200 (status "ignored")
              else
                match uuid_Parse (metadata evt "tenant_id") with
                | None => Error 400 "invalid-metadata" "missing or invalid tenant_id in payment intent metadata"
                | Some tenantID =>
                    match uuid_Parse (metadata evt "order_id") with
                    | None => Error 400 "invalid-metadata" "missing or invalid order_id in payment intent metadata"
                    | Some orderID => confirm_event tenantID orderID
                    end
                end
          end
      end
  end.

(** The request carries a signed capture event for this order. *)
Definition capture_of (r : Request) (tenantID orderID : UUID) : Prop :=
  exists raw evt, rq_Body r = Some raw /\
    gw_VerifyWebhookSignature (limit_bytes maxWebhookBodyBytes raw) (rq_Header r "Stripe-Signature") = Ok tt /\
    decode_event (limit_bytes maxWebhookBodyBytes raw) = Some evt /\
    ev_Type evt = "payment_intent.succeeded" /\
    uuid_Parse (metadata evt "tenant_id") = Some tenantID /\ uuid_Parse (metadata evt "order_id") = Some orderID.

Lemma Stripe_capture r t oid : capture_of r t oid -> Stripe r = confirm_event t oid.
Proof.
  intros (raw & evt & Hb & Hs & Hd & Ht & H1 & H2). unfold Stripe. rewrite Hb. cbn [fmap option_fmap option_map].
  by rewrite Hs, Hd, Ht, H1, H2.
Qed.

(** Every other request is answered without touching anything. *)
Lemma Stripe_cases r w :
  (exists t oid, capture_of r t oid) \/
  exists rep, Stripe r w = (Ok rep, w) /\
    (rsp_Status rep = 400%Z \/ rep = mkResp 200 (EnvData (status "ignored"))).
Proof.
  unfold Stripe, capture_of. destruct (rq_Body r) as [raw|]; cbn [fmap option_fmap option_map]; [|right; eexists; split; [done|by left]].
  destruct (gw_VerifyWebhookSignature _ _) as [[]|] eqn:Hs; [|right; eexists; split; [done|by left]].
  destruct (decode_event _) as [evt|] eqn:Hd; [|right; eexists; split; [done|by left]].
  destruct (String.eqb_spec (ev_Type evt) "payment_intent.succeeded"); cbn [negb]; [|right; eexists; split; [done|by right]].
  destruct (uuid_Parse (metadata evt "tenant_id")) as [t|] eqn:H1; [|right; eexists; split; [done|by left]].
  destruct (uuid_Parse (metadata evt "order_id")) as [oid|] eqn:H2; [|right; eexists; split; [done|by left]].
  left. exists t, oid, raw, evt. by split_and!.
Qed.

End handler.

Definition confirmed : Response := mkResp 200 (EnvData (status "confirmed")).
Definition refunded_reply : Response := mkResp 200 (EnvData (status "refunded")).

(** ** Any environment *)

Section safety.
Context `{U : UuidPkg} `{E : Env} `{G : !PaymentGateway, !GatewayContract G}.

(** What the reply says about the call behind it. *)
Definition call_of (rep : Response) (r : result unit) : Prop := rep = confirmed -> is_ok r = true.

Lemma confirm_event_post t oid w rep w' :
  confirm_event t oid w = (rep, w') -> w_tx w = None ->
  exists pid r rep', rep = Ok rep' /\ call_of rep' r /\ confirm_post t oid pid w r w'.
Proof.
  intros Hw Htx. unfold confirm_event in Hw. rewrite bind_attempt in Hw.
  destruct (OrderRepo.GetByID t oid w) as [ro w1] eqn:Ho.
  pose proof (one_row_side t oid uuid_Nil _ _ _ _ _ _ Ho) as [T1 S1].
  destruct ro as [o|e]; cycle 1.
  { assert (Hrep : exists rep', rep = Ok rep' /\ rep' <> confirmed /\ w' = w1).
    { destruct (errors_Is e _); injection Hw as <- <-; eexists; by split_and!. }
    destruct Hrep as (rep' & -> & Hne & ->). exists uuid_Nil, (Err e), rep'. split; [done|]. split; [by intros ?|].
    by apply confirm_post_fail. }
  rewrite bind_attempt in Hw. destruct (PaymentRepo.GetByIdempotencyKey t _ w1) as [rp w2] eqn:Hp.
  pose proof (one_row_side t oid uuid_Nil _ _ _ _ _ _ Hp) as [T2 S2].
  destruct rp as [p|e]; cycle 1.
  { injection Hw as <- <-. exists uuid_Nil, (Err e). eexists. split; [done|]. split; [by intros ?|].
    apply confirm_post_fail. by etransitivity. }
  pose proof (one_row_side t oid (p_ID p) _ _ _ _ _ _ Ho) as [_ S1'].
  pose proof (one_row_side t oid (p_ID p) _ _ _ _ _ _ Hp) as [_ S2'].
  rewrite bind_attempt in Hw. destruct (ConfirmPayment t oid (p_ID p) w2) as [rc w3] eqn:Hc.
  rewrite Htx in T1. apply tx_moves_None in T1. rewrite T1 in T2. apply tx_moves_None in T2.
  apply ConfirmPayment_post in Hc.
  exists (p_ID p), rc. assert (Hrep : exists rep', rep = Ok rep' /\ call_of rep' rc /\ w' = w3).
  { destruct rc as [|e]; [|destruct (errors_Is e _)]; injection Hw as <- <-; eexists; split_and!; done. }
  destruct Hrep as (rep' & -> & Hcall & ->). exists rep'. split; [done|]. split; [done|].
  eapply confirm_post_prefix; [|exact Hc]. by etransitivity.
Qed.

(** C8: the webhook endpoint is safe against anyone and in any environment. A
    request that is not a signed capture event is answered 400 or "ignored"
    and touches nothing; a signed one causes at most one atomic fulfilment of
    its own order, and the provider is told "confirmed" only if that
    fulfilment took place or the order had been paid before. *)
Theorem Stripe_safe r w rep w' :
  Stripe r w = (rep, w') -> w_tx w = None ->
  exists rep', rep = Ok rep' /\
  ((w' = w /\ (rsp_Status rep' = 400%Z \/ rep' = mkResp 200 (EnvData (status "ignored")))) \/
   exists t oid pid d1 d2, capture_of r t oid /\
     side t oid pid (w_db w) d1 /\ side t oid pid d2 (w_db w') /\
     ((d2 = d1 /\ (rep' = confirmed -> exists o, orders d1 !! oid = Some o /\ o_Status o = OrderStatusPaid)) \/
      (exists dr dp d0 order p, orders dr !! oid = Some order /\ others dr dp /\
         payments dp !! pid = Some p /\ p_OrderID p = oid /\ others dp d0 /\ others d0 d1 /\ o_ID order = oid /\
         fulfilled t order (OrderRepo.items_of t oid d0) d1 d2))).
Proof.
  intros Hw Htx. destruct (Stripe_cases r w) as [(t & oid & Hcap)|(rep' & Hrep & Hst)].
  - rewrite (Stripe_capture _ _ _ Hcap) in Hw.
    apply confirm_event_post in Hw as (pid & rc & rep' & -> & Hcall & d1 & d2 & S1 & S2 & Hpost); [|done].
    exists rep'. split; [done|]. right. exists t, oid, pid, d1, d2. split_and!; [done..|].
    destruct Hpost as [[-> Hok]|Hful]; [left|by right]. split; [done|]. intros Hc. by apply Hok, Hcall.
  - rewrite Hrep in Hw. injection Hw as <- <-. exists rep'. split; [done|]. by left.
Qed.
End safety.

(** ** Nobody interferes *)

Section outcome.
Context `{U : UuidPkg} `{E : Env} `{!Quiet} `{G : !PaymentGateway, !GatewayContract G}.

Lemma confirm_event_quiet t oid pid o p w :
  awaiting t oid pid (w_db w) o p -> p_IdempotencyKey p = o_IdempotencyKey o ->
  exists w2, (w_db w2 = w_db w /\ same_outside w w2 /\ (w_tick w <= w_tick w2)%nat) /\
    confirm_event t oid w =
      (confirmed' <- attempt (ConfirmPayment t oid pid);;
       match confirmed' with
       | Err e => if errors_Is e (SDomain ErrExpired) then JSON 200 (status "refunded")
                  else Error 500 "internal-error" "failed to confirm payment"
       | Ok _ => JSON 200 (status "confirmed")
       end) w2.
Proof.
  intros Haw Hkey. exists (set_tick (S (S (w_tick w))) w). split; [split_and!; [done|done|simpl; lia]|].
  destruct Haw as [Ho Hoid Hot _ Hp Hpid Hpt _ Hu].
  unfold confirm_event. rewrite bind_attempt. unfold OrderRepo.GetByID.
  rewrite (one_row_quiet _ _ _ o) by (by apply in_tenant_Some). rewrite bind_attempt.
  unfold PaymentRepo.GetByIdempotencyKey. rewrite (one_row_quiet _ _ _ p); [by rewrite Hpid|].
  cbn [w_db set_tick]. eapply find_row_unique; [exact Hp| |].
  - by rewrite Hpt, Hkey, N.eqb_refl, String.eqb_refl.
  - intros j p' Hp' [Ht Hk]%andb_true_iff. destruct (decide (j = pid)) as [->|Hj]; [congruence|].
    apply N.eqb_eq in Ht. apply String.eqb_eq in Hk. specialize (Hu j p' Hj Hp').
    unfold PaymentRepo.clash in Hu. rewrite Ht, Hk, Hpt, Hkey, N.eqb_refl, String.eqb_refl in Hu. done.
Qed.

(** C9: a signed capture event resolves its order. Undisturbed and with a
    gateway that refunds, the event of an order awaiting payment is answered
    200 either way: "confirmed" with the checkout finished when every seat is
    still held for the order, and "refunded" when some seat is not. Then the
    provider was asked, once, to refund the whole amount of the payment, and the
    payment is recorded as refunded under the id it answered and the order as
    expired. *)
Theorem Stripe_resolves r t oid pid o p w :
  capture_of r t oid -> awaiting t oid pid (w_db w) o p -> p_IdempotencyKey p = o_IdempotencyKey o ->
  let items := OrderRepo.items_of t oid (w_db w) in
  (confirmable t (w_db w) items ->
   fk (tenants (w_db w)) t = true -> fk (users (w_db w)) (o_UserID o) = true ->
   (forall n, notifications (w_db w) !! env_uuid n = None) ->
   exists w', Stripe r w = (Ok confirmed, w') /\ checked_out t oid pid o p items (w_db w) (w_db w')) /\
  (~ confirmable t (w_db w) items ->
   (forall w1, exists rid w2, gw_Refund (p_ProviderPaymentID p) (p_Amount p) refund_reason w1 = (Ok rid, w2)) ->
   exists w' rid now1 now2, Stripe r w = (Ok refunded_reply, w') /\ refund_requested p rid w w' /\
     w_db w' = refunded oid pid o p rid now1 now2 (w_db w)).
Proof.
  intros Hcap Haw Hkey items. rewrite (Stripe_capture _ _ _ Hcap).
  destruct (confirm_event_quiet _ _ _ _ _ _ Haw Hkey) as (w2 & (D2 & O2 & K2) & ->). unfold items. rewrite <- D2 in *.
  rewrite bind_attempt. split.
  - intros Hc Ht Hu Hn. destruct (confirm_fulfils t oid pid o p w2) as (w' & -> & Hco); [done..|].
    exists w'. by split.
  - intros Hc Hg. destruct (confirm_refunds t oid pid o p w2) as (e & w' & rid & n1 & n2 & -> & He & Hr & Hd); [done..|].
    rewrite He. exists w', rid, n1, n2. split; [done|]. split; [|done].
    destruct Hr as (w3 & w4 & Hr & D3 & O3 & K3 & Hr'). exists w3, w4. split; [done|]. split; [congruence|].
    split; [by etransitivity|]. split; [lia|done].
Qed.
End outcome.

(** ** Witnesses *)

(** A capture event for the fixture order, as the provider writes it. *)
Definition capture_body (tenantID orderID paymentIntent : string) : string :=
  Marshal (VObj [("id", VStr "evt_1"); ("type", VStr "payment_intent.succeeded");
    ("data", VObj [("object", VObj [("id", VStr paymentIntent); ("amount", VNum "150000");
      ("metadata", VObj [("order_id", VStr orderID); ("tenant_id", VStr tenantID)])])])]).
Definition fx_capture_body : string := capture_body "1" "1006" "pi_mock_1011".

Definition fx_request (body : string) : Request :=
  mkReq (fun h => if String.eqb h "Stripe-Signature" then fx_signed body else "") (fun _ => "") (Some body) "" None None.

Definition fx_stripe : PaymentGateway := StripeGateway.gateway (E := fx_env) "whsec".

#[export] Instance fx_stripe_contract : GatewayContract (E := fx_env) fx_stripe := StripeGateway.gateway_contract "whsec".

Lemma fx_capture : capture_of (G := fx_stripe) (fx_request fx_capture_body) 1 1006.
Proof.
  eexists fx_capture_body, _. split; [reflexivity|]. split; [vm_compute; reflexivity|].
  split; [reflexivity|]. split_and!; vm_compute; reflexivity.
Qed.

(** The seat is still held, or it has been swept and taken by somebody else. *)
Lemma Stripe_resolves_witness :
  (exists w', Stripe (G := fx_stripe) (fx_request fx_capture_body) fx_awaiting = (Ok confirmed, w') /\
     status_of (w_db w') 101 = Some InventoryStatusSold) /\
  (exists w', Stripe (G := fx_stripe) (fx_request fx_capture_body) fx_swept = (Ok refunded_reply, w') /\
     w_http w' = w_http fx_swept ++ [mkRequest "/v1/refunds"
       [("payment_intent", "pi_mock_1011"); ("amount", "150000"); ("metadata[reason]", refund_reason)] None]).
Proof.
  split.
  - pose proof (Stripe_resolves (G := fx_stripe) (fx_request fx_capture_body) 1 1006 1013 fx_order fx_payment fx_awaiting
                  fx_capture fx_is_awaiting eq_refl) as [HH _].
    pose proof (HH fx_confirmable fx_awaiting_tenant fx_awaiting_user fx_awaiting_fresh) as H2.
    destruct H2 as (w' & H1 & H2 & _). exists w'. split; [exact H1|].
    rewrite fx_items in H2. apply (H2 fx_order_item). by apply list_elem_of_singleton.
  - pose proof (Stripe_resolves (G := fx_stripe) (fx_request fx_capture_body) 1 1006 1013 fx_order fx_payment fx_swept
                  fx_capture fx_is_awaiting_swept eq_refl) as [_ HH].
    destruct (HH fx_not_confirmable fx_refund)
      as (w' & rid & _ & _ & H1 & (w1 & w2 & Hr & _ & (_ & Hw1 & _) & _ & (_ & Hw' & _) & _) & _).
    exists w'. split; [exact H1|]. rewrite Hw', (Refund_request _ _ _ _ _ _ Hr), Hw1. reflexivity.
Defined.

(** Tampering with the signed body is noticed. *)
Lemma Stripe_safe_witness : exists rep,
  fst (Stripe (G := fx_stripe) (mkReq (rq_Header (fx_request "other")) (fun _ => "") (Some fx_capture_body) "" None None) fx_awaiting) = Ok rep.
Proof.
  pose proof (Stripe_safe (G := fx_stripe)
                (mkReq (rq_Header (fx_request "other")) (fun _ => "") (Some fx_capture_body) "" None None) fx_awaiting
                _ _ (surjective_pairing _) fx_awaiting_tx) as HH.
  destruct HH as (rep & H & _). exists rep. exact H.
Defined.
