(* ===== verification/Checkout.v ===== *)
(** * From a pending order to a paid one

    [AuthorizePayment] ([src/internal/service/order/service.go]) puts an order
    into the state the webhook handler ([src/internal/handler/http/webhook.go])
    resolves, and the metadata it sends with the payment intent is what the
    handler finds the order by. *)
From S2P Require Import Prelude Crypto Domain Schema Redis Runtime Ports Fixtures InventoryRepo CheckoutRepos.
From S2P Require Import CatalogRepos PaymentGateways OrderService OrderCreate OrderConfirm Http Webhook.

(** The metadata of the payment intent of an order. *)
Definition intent_metadata `{UuidPkg} (o : Order) : list (string * string) :=
  [("order_id", uuid_String (o_ID o)); ("tenant_id", uuid_String (o_TenantID o))].

(** The payment [AuthorizePayment] records. *)
Definition payment_of (pid : UUID) (o : Order) (ppid : string) (now : Time) : Payment :=
  mkPayment pid (o_TenantID o) (o_ID o) PaymentProviderStripe ppid PaymentStatusPending (o_Total o) (o_IdempotencyKey o) None now now.

(** A stored order waiting to be authorized, whose payment will not collide
    with an existing one. *)
Record payable (t oid : UUID) (d : DB) (o : Order) (ppid : string) : Prop := {
  pa_order : orders d !! oid = Some o;
  pa_order_id : o_ID o = oid;
  pa_order_tenant : o_TenantID o = t;
  pa_pending : o_Status o = OrderStatusPending;
  pa_amount : (0 <= Cents (o_Total o))%Z;
  pa_unique : forall pid now j p', payments d !! j = Some p' -> PaymentRepo.clash (payment_of pid o ppid now) p' = false
}.

Section checkout.
Context `{U : UuidPkg} `{E : Env} `{!Quiet, !RandomUuids} `{G : !PaymentGateway, !GatewayContract G}.

(** The gateway answers a request for this order's intent. *)
Definition charges (o : Order) (ppid secret : string) : Prop :=
  forall w1, exists w2, gw_CreateIntent (o_Total o) (o_IdempotencyKey o) (intent_metadata o) w1 = (Ok (ppid, secret), w2).

Lemma create_payment_quiet o ppid pid w :
  fk_tenant o_TenantID (orders (w_db w)) (o_ID o) (o_TenantID o) = true ->
  (0 <= Cents (o_Total o))%Z -> pid <> uuid_Nil -> payments (w_db w) !! pid = None ->
  (forall now j p', payments (w_db w) !! j = Some p' -> PaymentRepo.clash (payment_of pid o ppid now) p' = false) ->
  exists now w', PaymentRepo.Create (mkPayment pid (o_TenantID o) (o_ID o) PaymentProviderStripe ppid PaymentStatusPending
                   (o_Total o) (o_IdempotencyKey o) None time_Zero time_Zero) w = (Ok tt, w') /\
    w_db w' = set_payments (<[pid := payment_of pid o ppid now]> (payments (w_db w))) (w_db w).
Proof.
  intros Hfk Ha Hn Hf Hu. exists (db_now w). unfold PaymentRepo.Create, fresh_if_nil, bind, map_err.
  cbn [p_ID]. rewrite (proj2 (N.eqb_neq pid uuid_Nil)) by done. cbn [ret]. unfold ret. rewrite sql_quiet.
  unfold PaymentRepo.insert_payment. cbn [p_Amount]. rewrite (proj2 (Z.leb_le _ _) Ha).
  rewrite insert_into_hit; [eexists; split; reflexivity|done| |done].
  intros j p' Hp'. by apply (Hu time_Zero j p').
Qed.

Lemma AuthorizePayment_quiet t oid o ppid secret w :
  payable t oid (w_db w) o ppid -> charges o ppid secret ->
  (forall n, payments (w_db w) !! env_uuid n = None) ->
  exists w' pid now1 now2, AuthorizePayment t oid w = (Ok secret, w') /\
    w_db w' = set_orders (<[oid := OrderRepo.set_status OrderStatusAwaitingPayment now2 o]> (orders (w_db w)))
                (set_payments (<[pid := payment_of pid o ppid now1]> (payments (w_db w))) (w_db w)).
Proof.
  intros [Ho Hoid Hot Hst Ha Hu] Hg Hf. unfold AuthorizePayment, bind at 1, wrap at 1, map_err at 1, OrderRepo.GetByID.
  rewrite (one_row_quiet _ _ _ o) by (by apply in_tenant_Some). rewrite bool_decide_true by done. cbn [negb].
  unfold bind at 1, wrap at 1, map_err at 1. fold (intent_metadata o).
  match goal with |- context [gw_CreateIntent _ _ _ ?wx] => destruct (Hg wx) as (w2 & Hi); rewrite Hi;
    pose proof (gw_CreateIntent_neutral _ _ _ eq _ ltac:(intros; by rewrite quiet_others) wx _ _ Hi) as [_ D2] end.
  cbn [w_db set_tick] in D2. unfold bind at 1, uuid_New. unfold bind at 1, wrap at 1, map_err at 1.
  destruct (create_payment_quiet o ppid (env_uuid (w_tick w2)) (set_tick (S (w_tick w2)) w2)) as (now1 & w3 & Hc & D3).
  - cbn [w_db set_tick]. rewrite <- D2. unfold fk_tenant. by rewrite Hoid, Ho, N.eqb_refl.
  - done.
  - apply uuid_New_not_nil.
  - cbn [w_db set_tick]. rewrite <- D2. apply Hf.
  - cbn [w_db set_tick]. rewrite <- D2. intros now. apply Hu.
  - rewrite Hot in Hc. rewrite Hc. cbn [w_db set_tick] in D3. rewrite <- D2 in D3.
    unfold bind, wrap, map_err, ret. rewrite Hoid.
    destruct (order_status_quiet t oid OrderStatusAwaitingPayment o w3) as [now2 ->]; [by rewrite D3|done|].
    eexists _, _, now1, now2. split; [reflexivity|]. cbn [w_db set_db]. by rewrite D3.
Qed.

(** The order now waits for exactly this payment. *)
Lemma authorized_awaiting t oid o ppid pid now1 now2 d d' :
  payable t oid d o ppid ->
  d' = set_orders (<[oid := OrderRepo.set_status OrderStatusAwaitingPayment now2 o]> (orders d))
         (set_payments (<[pid := payment_of pid o ppid now1]> (payments d)) d) ->
  awaiting t oid pid d' (OrderRepo.set_status OrderStatusAwaitingPayment now2 o) (payment_of pid o ppid now1).
Proof.
  intros [Ho Hoid Hot Hst Ha Hu] ->. split; try done; simpl.
  - by rewrite lookup_insert_eq.
  - by rewrite lookup_insert_eq.
  - intros j p' Hj. rewrite lookup_insert_ne by done. apply Hu.
Qed.

Lemma checked_out_summary t oid pid o p items d d' :
  checked_out t oid pid o p items d d' ->
  (forall it, it ∈ items -> status_of d' (oi_EventSeatInventoryID it) = Some InventoryStatusSold) /\
  (o_Status <$> orders d' !! oid) = Some OrderStatusPaid /\
  exists p', payments d' !! pid = Some p' /\ p_Status p' = PaymentStatusCaptured /\ p_OrderID p' = p_OrderID p /\
    p_Amount p' = p_Amount p /\ p_ProviderPaymentID p' = p_ProviderPaymentID p.
Proof.
  intros (Hs & _ & [now1 ->] & [now2 ->] & _). split; [done|]. rewrite !lookup_insert_eq. split; [done|].
  eexists. split; [reflexivity|]. by destruct p.
Qed.

(** C7: a checkout runs to completion. For a pending order whose seats stay
    held, with a gateway that creates the intent: [AuthorizePayment] succeeds,
    and a signed capture event that carries the metadata sent with that intent
    is answered "confirmed", after which every seat of the order is sold, the
    order is paid and the captured payment is for the order's total and the
    provider's payment id. *)
Theorem checkout_completes `{!UuidLaws U} t oid o ppid secret w r raw :
  payable t oid (w_db w) o ppid -> charges o ppid secret ->
  (forall n, payments (w_db w) !! env_uuid n = None) -> (forall n, notifications (w_db w) !! env_uuid n = None) ->
  fk (tenants (w_db w)) t = true -> fk (users (w_db w)) (o_UserID o) = true ->
  let items := OrderRepo.items_of t oid (w_db w) in
  confirmable t (w_db w) items ->
  rq_Body r = Some raw ->
  gw_VerifyWebhookSignature (limit_bytes maxWebhookBodyBytes raw) (rq_Header r "Stripe-Signature") = Ok tt ->
  decode_event (limit_bytes maxWebhookBodyBytes raw) =
    Some (mkEvent "payment_intent.succeeded" ppid (list_to_map (intent_metadata o))) ->
  exists w1 w2, AuthorizePayment t oid w = (Ok secret, w1) /\ Stripe r w1 = (Ok confirmed, w2) /\
    (forall it, it ∈ items -> status_of (w_db w2) (oi_EventSeatInventoryID it) = Some InventoryStatusSold) /\
    (o_Status <$> orders (w_db w2) !! oid) = Some OrderStatusPaid /\
    exists pid p, payments (w_db w2) !! pid = Some p /\ p_Status p = PaymentStatusCaptured /\ p_OrderID p = oid /\
      p_Amount p = o_Total o /\ p_ProviderPaymentID p = ppid.
Proof.
  intros Hpay Hch Hfp Hfn Ht Hu items Hc Hb Hsig Hdec.
  destruct (AuthorizePayment_quiet t oid o ppid secret w) as (w1 & pid & now1 & now2 & Hauth & D1); [done..|].
  pose proof (authorized_awaiting _ _ _ _ _ _ _ _ _ Hpay D1) as Haw.
  destruct (confirm_event_quiet t oid pid _ _ w1 Haw eq_refl) as (w2 & (D2 & _) & Hev).
  assert (Haw2 := Haw). rewrite <- D2 in Haw2. assert (D12 := D1). rewrite <- D2 in D12.
  assert (Hitems : OrderRepo.items_of t oid (w_db w2) = items) by (by rewrite D12).
  destruct (confirm_fulfils t oid pid _ _ w2 Haw2) as (w3 & Hcp & Hco).
  { rewrite Hitems, D12. exact Hc. }
  1-3: by rewrite D12.
  rewrite Hitems in Hco. exists w1, w3. split; [done|].
  rewrite (Stripe_capture r t oid).
  - rewrite Hev, bind_attempt, Hcp. split; [done|]. apply checked_out_summary in Hco as (Hsold & Hpaid & p' & Hp).
    split; [done|]. split; [done|]. exists pid, p'. destruct Hp as (? & ? & Ho & ? & ?). split_and!; try done.
    rewrite Ho. apply Hpay.
  - eexists raw, _. split; [done|]. split; [done|]. split; [exact Hdec|]. destruct Hpay as [_ Hoid Hot _ _ _].
    split; [done|]. unfold metadata, intent_metadata. cbn [ev_Metadata list_to_map foldr uncurry fst snd].
    rewrite lookup_insert_ne, lookup_insert_eq, lookup_insert_eq by done. cbn [default].
    rewrite Hoid, Hot. split; apply uuid_Parse_String.
Qed.

End checkout.

(** ** Witness: the fixture order, placed, authorized and paid *)

Definition fx_placed : World (H := ref_redis) := snd (CreateOrder 1 11 "key-1" [fx_item] (fx_world fx_db)).
Definition fx_pending : Order :=
  mkOrder 1006 1 11 OrderStatusPending "key-1" (mkMoney 150000 "KES") (mkMoney 0 "KES") (mkMoney 150000 "KES")
    (Some 5000000%Z) 1001000 1001000.

(** A provider with one fixed intent. *)
Definition fx_fixed : PaymentGateway (H := ref_redis) := {|
  gw_CreateIntent a k md := ret ("pi_1", "sec_1");
  gw_Refund p a reason := ret "re_1";
  gw_VerifyWebhookSignature := StripeGateway.VerifyWebhookSignature "whsec" |}.

#[export] Instance fx_fixed_contract : GatewayContract (E := fx_env) fx_fixed.
Proof. split; intros ** G HG rely w x w' Hw; injection Hw as <- <-; by split. Qed.

Definition fx_checkout_body : string := capture_body "1" "1006" "pi_1".

Lemma fx_placed_payments : payments (w_db fx_placed) = ∅.
Proof. vm_compute. reflexivity. Qed.
Lemma fx_placed_notifications : notifications (w_db fx_placed) = ∅.
Proof. vm_compute. reflexivity. Qed.
Lemma fx_placed_items : OrderRepo.items_of 1 1006 (w_db fx_placed) = [fx_order_item].
Proof. vm_compute. reflexivity. Qed.
Lemma fx_placed_order : orders (w_db fx_placed) !! 1006%N = Some fx_pending.
Proof. vm_compute. reflexivity. Qed.
Lemma fx_placed_refs : fk (tenants (w_db fx_placed)) 1 && fk (users (w_db fx_placed)) 11 = true.
Proof. vm_compute. reflexivity. Qed.

Lemma fx_payable : payable 1 1006 (w_db fx_placed) fx_pending "pi_1".
Proof.
  split; [exact fx_placed_order|done..|]. intros pid now j p'. rewrite fx_placed_payments. by rewrite lookup_empty.
Qed.

Lemma fx_placed_confirmable : confirmable 1 (w_db fx_placed) (OrderRepo.items_of 1 1006 (w_db fx_placed)).
Proof.
  rewrite fx_placed_items. split; [apply NoDup_singleton|]. intros it ->%list_elem_of_singleton.
  eexists. split; vm_compute; reflexivity.
Qed.

Lemma checkout_completes_witness : exists w1 w2,
  AuthorizePayment (G := fx_fixed) 1 1006 fx_placed = (Ok "sec_1", w1) /\
  Stripe (G := fx_fixed) (fx_request fx_checkout_body) w1 = (Ok confirmed, w2).
Proof.
  pose proof (checkout_completes (G := fx_fixed) 1 1006 fx_pending "pi_1" "sec_1" fx_placed
                (fx_request fx_checkout_body) fx_checkout_body fx_payable
                ltac:(intros w1; exists w1; reflexivity)
                ltac:(intros n; rewrite fx_placed_payments; apply lookup_empty)
                ltac:(intros n; rewrite fx_placed_notifications; apply lookup_empty)
                (proj1 (andb_prop _ _ fx_placed_refs)) (proj2 (andb_prop _ _ fx_placed_refs))
                fx_placed_confirmable eq_refl ltac:(vm_compute; reflexivity) ltac:(vm_compute; reflexivity)) as HH.
  destruct HH as (w1 & w2 & H1 & H2 & _). exists w1, w2. split; [exact H1|exact H2].
Defined.
