(* ===== verification/GoFloat.v ===== *)
(** * The floating-point arithmetic of [render]

    [float64] on the magnitudes of a price: conversion of an integer, division
    and the [%.2f] verb, all correctly rounded (ties to even), with the range
    in which the printed amount is exact. *)
From S2P Require Import Prelude.

(** The value [mant * 2^expo]. *)
Record float64 := mkFloat { mant : Z; expo : Z }.

(** [n / d] rounded to the nearest integer, ties to even. *)
Definition round_div (n d : Z) : Z :=
  let q := (n / d)%Z in
  match Z.compare (2 * (n mod d)) d with
  | Lt => q
  | Gt => (q + 1)%Z
  | Eq => if Z.even q then q else (q + 1)%Z
  end.

(** [num / (den * 2^e)] for any sign of [e], as numerator and denominator. *)
Definition scale (num den e : Z) : Z * Z :=
  if (e <? 0)%Z then ((num * 2 ^ (- e))%Z, den) else (num, (den * 2 ^ e)%Z).

(** The exponent that leaves 53 bits before the point. *)
Definition float_expo (num den : Z) : Z :=
  let e := (Z.log2 num - Z.log2 den - 53)%Z in
  let '(n, d) := scale num den e in
  if (n / d <? 2 ^ 53)%Z then e else (e + 1)%Z.

(** The float nearest to [num / den], for [den > 0]. *)
Definition float_round (num den : Z) : float64 :=
  if (num =? 0)%Z then mkFloat 0 0
  else
    let e := float_expo (Z.abs num) den in
    let '(n, d) := scale (Z.abs num) den e in
    mkFloat (Z.sgn num * round_div n d) e.

Definition float_of_int (z : Z) : float64 := float_round z 1.

Definition float_num (x : float64) : Z := if (expo x <? 0)%Z then mant x else (mant x * 2 ^ expo x)%Z.
Definition float_den (x : float64) : Z := if (expo x <? 0)%Z then (2 ^ (- expo x))%Z else 1%Z.

(** [x / z] for a positive integer constant [z]. *)
Definition float_div_const (x : float64) (z : Z) : float64 := float_round (float_num x) (float_den x * z).

(** Hundredths, as [%.2f] rounds them. *)
Definition hundredths (x : float64) : Z := round_div (100 * Z.abs (float_num x)) (float_den x).

Definition two_digits (n : Z) : string := (if (n <? 10)%Z then "0" else "") +:+ FormatInt n.
Definition decimal2 (n : Z) : string := FormatInt (n / 100) +:+ "." +:+ two_digits (n mod 100).

(** [fmt.Sprintf("%.2f", x)]. *)
Definition Sprintf_2f (x : float64) : string :=
  (if (mant x <? 0)%Z then "-" else "") +:+ decimal2 (hundredths x).

Example Sprintf_2f_vectors :
  Sprintf_2f (float_div_const (float_of_int 150000) 100) = "1500.00" /\
  Sprintf_2f (float_div_const (float_of_int 29) 100) = "0.29" /\
  Sprintf_2f (float_div_const (float_of_int 0) 100) = "0.00" /\
  Sprintf_2f (float_div_const (float_of_int 1999999999999999) 100) = "19999999999999.99" /\
  Sprintf_2f (float_div_const (float_of_int 9007199254740993) 100) = "90071992547409.92" /\
  Sprintf_2f (mkFloat 1 (-3)) = "0.12" /\ Sprintf_2f (mkFloat 3 (-3)) = "0.38".
Proof. vm_compute. done. Qed.

(** ** Facts *)

Lemma round_div_near n d : (0 < d)%Z -> (2 * Z.abs (round_div n d * d - n) <= d)%Z.
Proof.
  intros Hd. unfold round_div. pose proof (Z.div_mod n d ltac:(lia)). pose proof (Z.mod_pos_bound n d Hd).
  destruct (Z.compare_spec (2 * (n mod d)) d); [destruct (Z.even _)|..]; nia.
Qed.

Lemma round_div_exact n d k : (0 < d)%Z -> (2 * Z.abs (k * d - n) < d)%Z -> round_div n d = k.
Proof. intros Hd Hk. pose proof (round_div_near n d Hd). nia. Qed.

Lemma scale_pos num den e : (0 < num)%Z -> (0 < den)%Z -> (0 < fst (scale num den e))%Z /\ (0 < snd (scale num den e))%Z.
Proof.
  intros Hn Hd. unfold scale. destruct (Z.ltb_spec e 0); simpl.
  - pose proof (Z.pow_pos_nonneg 2 (- e) ltac:(lia) ltac:(lia)). nia.
  - pose proof (Z.pow_pos_nonneg 2 e ltac:(lia) ltac:(lia)). nia.
Qed.

(** One more in the exponent halves the scaled quotient. *)
Lemma scale_succ num den e :
  let '(n0, d0) := scale num den e in let '(n1, d1) := scale num den (e + 1) in
  (n0 = 2 * n1 /\ d0 = d1)%Z \/ (n0 = n1 /\ d1 = 2 * d0)%Z.
Proof.
  unfold scale. destruct (Z.ltb_spec e 0), (Z.ltb_spec (e + 1) 0); try lia.
  - left. split; [|done]. replace (- e)%Z with (Z.succ (- (e + 1))) by lia. rewrite Z.pow_succ_r by lia. lia.
  - assert (e = (-1)%Z) as -> by lia. left. simpl. lia.
  - right. split; [done|]. rewrite Z.add_1_r, Z.pow_succ_r by lia. lia.
Qed.

(** The first guess is at least [2^52]. *)
Lemma scale_guess num den : (0 < num)%Z -> (0 < den)%Z ->
  let '(n, d) := scale num den (Z.log2 num - Z.log2 den - 53) in (2 ^ 52 * d <= n)%Z.
Proof.
  intros Hn Hd. pose proof (Z.log2_spec num Hn) as [Hln _]. pose proof (Z.log2_spec den Hd) as [_ Hld].
  pose proof (Z.log2_nonneg num). pose proof (Z.log2_nonneg den). rewrite Z.pow_succ_r in Hld by lia.
  set (a := Z.log2 num) in *. set (b := Z.log2 den) in *. unfold scale.
  destruct (Z.ltb_spec (a - b - 53) 0) as [He|He].
  - assert (Hp : (2 ^ a * 2 ^ (- (a - b - 53)) = 2 ^ 53 * 2 ^ b)%Z) by (rewrite <- !Z.pow_add_r by lia; f_equal; lia).
    pose proof (Z.pow_pos_nonneg 2 (- (a - b - 53)) ltac:(lia) ltac:(lia)).
    change (2 ^ 53)%Z with (2 * 2 ^ 52)%Z in Hp. nia.
  - assert (Hp : (2 ^ a = 2 ^ 53 * (2 ^ b * 2 ^ (a - b - 53)))%Z) by (rewrite <- !Z.pow_add_r by lia; f_equal; lia).
    pose proof (Z.pow_pos_nonneg 2 (a - b - 53) ltac:(lia) ltac:(lia)).
    change (2 ^ 53)%Z with (2 * 2 ^ 52)%Z in Hp. nia.
Qed.

Lemma float_expo_bound num den : (0 < num)%Z -> (0 < den)%Z ->
  let '(n, d) := scale num den (float_expo num den) in (2 ^ 52 * d <= n)%Z.
Proof.
  intros Hn Hd. unfold float_expo. pose proof (scale_guess num den Hn Hd) as Hg.
  set (e := (Z.log2 num - Z.log2 den - 53)%Z) in *. pose proof (scale_succ num den e) as Hs.
  pose proof (scale_pos num den e Hn Hd) as [_ Hdp].
  destruct (scale num den e) as [n0 d0] eqn:He. simpl in Hdp.
  destruct (Z.ltb_spec (n0 / d0) (2 ^ 53)) as [_|Hge]; [by rewrite He|].
  destruct (scale num den (e + 1)) as [n1 d1].
  pose proof (Z.mul_div_le n0 d0 Hdp). change (2 ^ 53)%Z with (2 * 2 ^ 52)%Z in Hge.
  destruct Hs as [[-> ->]|[-> ->]]; nia.
Qed.

Lemma float_of_int_exact c : (0 < c < 2 ^ 53)%Z ->
  let x := float_of_int c in (0 < float_den x)%Z /\ float_num x = (c * float_den x)%Z /\ (0 <= mant x)%Z.
Proof.
  intros [Hc Hmax]. unfold float_of_int, float_round. rewrite (proj2 (Z.eqb_neq c 0)) by lia.
  rewrite Z.abs_eq, Z.sgn_pos by lia. pose proof (float_expo_bound c 1 Hc ltac:(lia)) as Hb.
  set (e := float_expo c 1) in *. unfold scale in *. unfold float_num, float_den.
  assert (H1 : forall n, round_div n 1 = n) by (intros n; apply round_div_exact; lia).
  destruct (Z.ltb_spec e 0) as [He|He]; cbn [mant expo].
  - rewrite (proj2 (Z.ltb_lt e 0)), H1 by lia. pose proof (Z.pow_pos_nonneg 2 (- e) ltac:(lia) ltac:(lia)).
    split; [done|]. split; lia.
  - assert (e = 0%Z) as ->.
    { destruct (Z.eq_dec e 0%Z); [done|]. pose proof (Z.pow_le_mono_r 2 1 e ltac:(lia) ltac:(lia)). lia. }
    simpl. rewrite H1. destruct c; lia.
Qed.

(** Any price below 17 million million is printed to the cent. *)
Lemma Sprintf_2f_exact c : (0 <= c < 100 * 2 ^ 44)%Z ->
  Sprintf_2f (float_div_const (float_of_int c) 100) = decimal2 c.
Proof.
  intros [Hc0 Hmax]. destruct (Z.eq_dec c 0%Z) as [->|Hc]; [done|].
  destruct (float_of_int_exact c) as (HD & Hnum & _); [lia|].
  unfold float_div_const. rewrite Hnum. set (D := float_den (float_of_int c)) in *. clearbody D. clear Hnum.
  unfold float_round. rewrite (proj2 (Z.eqb_neq _ 0)) by nia. rewrite Z.abs_eq, Z.sgn_pos by nia.
  pose proof (float_expo_bound (c * D) (D * 100) ltac:(nia) ltac:(nia)) as Hb.
  set (e := float_expo (c * D) (D * 100)) in *. unfold scale in *.
  destruct (Z.ltb_spec e 0) as [He|He].
  2: { pose proof (Z.pow_pos_nonneg 2 e ltac:(lia) ltac:(lia)). nia. }
  pose proof (Z.pow_pos_nonneg 2 (- e) ltac:(lia) ltac:(lia)) as Hk.
  pose proof (round_div_near (c * D * 2 ^ (- e)) (D * 100) ltac:(nia)) as Hr.
  set (m := round_div (c * D * 2 ^ (- e)) (D * 100)) in *. set (k := (2 ^ (- e))%Z) in *.
  assert (Hm : (2 * Z.abs (100 * m - c * k) <= 100)%Z).
  { replace (m * (D * 100) - c * D * k)%Z with (D * (100 * m - c * k))%Z in Hr by lia.
    rewrite Z.abs_mul, (Z.abs_eq D) in Hr by lia. nia. }
  assert (Hck : (2 ^ 52 * 100 <= c * k)%Z) by (apply (Z.mul_le_mono_pos_l _ _ D); lia).
  assert (Hbig : (2 ^ 8 < k)%Z).
  { apply Z.nle_gt. intros Hle. pose proof (Z.mul_le_mono_nonneg_l k (2 ^ 8) c ltac:(lia) Hle). lia. }
  assert (Hm0 : (0 <= m)%Z) by nia.
  unfold Sprintf_2f, hundredths, float_num, float_den. cbn [mant expo].
  rewrite (proj2 (Z.ltb_lt e 0)) by lia. rewrite (proj2 (Z.ltb_ge (1 * m) 0)) by lia.
  rewrite Z.abs_eq by lia. fold k. rewrite (round_div_exact _ _ c); [done|lia|]. lia.
Qed.
