(* ===== verification/NotificationService.v ===== *)
(** * Sending the outbox ([src/internal/service/notification/service.go],
    [src/internal/platform/email])

    The worker half of the transactional outbox: pending rows are rendered,
    handed to the mail transport and marked, one bad row never blocking the
    rest; the console and SMTP transports. *)
From S2P Require Import Prelude Crypto GoFloat Domain Schema Redis Runtime Ports Fixtures CheckoutRepos CatalogRepos AccountRepos Rows.
From S2P Require Import InventoryRepo PaymentGateways OrderService OrderCreate OrderConfirm.

(** ** Transports *)

(** [net/smtp.SendMail]: address, sender, recipients and message of the n-th
    interaction, and the error it ends with, if any. *)
Class SmtpPkg := { smtp_SendMail : nat -> string -> string -> list string -> string -> option GoError }.

Definition crlf : string := chr 13 +:+ chr 10.

(** The message of [SMTPSender.Send]. *)
Definition smtp_text (fromAddress : string) (msg : EmailMessage) : string :=
  "From: " +:+ fromAddress +:+ crlf +:+ "To: " +:+ em_To msg +:+ crlf +:+ "Subject: " +:+ em_Subject msg +:+ crlf +:+
  "MIME-Version: 1.0" +:+ crlf +:+ "Content-Type: text/plain; charset=" +:+ chr 34 +:+ "UTF-8" +:+ chr 34 +:+ crlf +:+
  crlf +:+ em_Body msg.

(** What a transport records of a message it accepted. *)
Class MailLaws `{RedisServer} (S : EmailSender) : Prop := {
  em_Send_Ok : forall msg w w', em_Send msg w = (Ok tt, w') -> w_mail w' = w_mail w ++ [msg];
  em_Send_mail : forall msg w r w', em_Send msg w = (r, w') -> exists l, w_mail w' = w_mail w ++ l }.

Section transports.
Context `{RedisServer}.

Definition deliver (msg : EmailMessage) : M unit := fun w => (Ok tt, set_mail (w_mail w ++ [msg]) w).

Definition console_Send (msg : EmailMessage) : M unit := deliver msg.

Definition smtp_Send `{SmtpPkg} (host port fromAddress : string) (msg : EmailMessage) : M unit := fun w =>
  let w1 := set_tick (S (w_tick w)) w in
  match smtp_SendMail (w_tick w) (host +:+ ":" +:+ port) fromAddress [em_To msg] (smtp_text fromAddress msg) with
  | Some e => (Err (EWrap "email: smtp send" e), w1)
  | None => deliver msg w1
  end.

(** [ConsoleSender.Sent]: a copy of what was handed to it so far. *)
Definition Sent : M (list EmailMessage) := fun w => (Ok (w_mail w), w).

Definition ConsoleSender : EmailSender := {| em_Send := console_Send |}.
Definition SMTPSender `{SmtpPkg} (host port fromAddress : string) : EmailSender := {| em_Send := smtp_Send host port fromAddress |}.

#[export] Instance ConsoleSender_laws : MailLaws ConsoleSender.
Proof. split; [by intros msg w w' [= <-]|]. intros msg w r w' [= _ <-]. by exists [msg]. Qed.

#[export] Instance SMTPSender_laws `{SmtpPkg} host port from : MailLaws (SMTPSender host port from).
Proof.
  split; intros msg w; cbn [em_Send SMTPSender]; unfold smtp_Send; destruct (smtp_SendMail _ _ _ _ _).
  - done.
  - by intros w' [= <-].
  - intros r w' [= _ <-]. exists []. by rewrite app_nil_r.
  - intros r w' [= _ <-]. by exists [msg].
Qed.
End transports.

(** ** Rendering *)

Definition payload_at (k : string) (payload : list (string * JSONValue)) : option JSONValue :=
  snd <$> find (fun kv => String.eqb (fst kv) k) payload.
Definition payload_string (k : string) (payload : list (string * JSONValue)) : string :=
  match payload_at k payload with Some (JString s) => s | _ => "" end.
(** JSON numbers decode as float64. *)
Definition payload_float (k : string) (payload : list (string * JSONValue)) : float64 :=
  match payload_at k payload with Some (JNumber z) => float_of_int z | _ => mkFloat 0 0 end.

Definition newline : string := chr 10.

Definition render (n : Notification) (recipientEmail : string) : result EmailMessage :=
  match n_Type n with
  | NotificationTypeOther _ => Err (EText "unknown notification type")
  | NotificationTypeOrderConfirmation =>
      let orderID := payload_string "order_id" (n_Payload n) in
      let totalCents := payload_float "total_cents" (n_Payload n) in
      let currency := payload_string "currency" (n_Payload n) in
      Ok (mkEmail recipientEmail "Your order is confirmed"
        ("Thanks for your order!" +:+ newline +:+ newline +:+ "Order: " +:+ orderID +:+ newline +:+
         "Total: " +:+ Sprintf_2f (float_div_const totalCents 100) +:+ " " +:+ currency +:+ newline +:+ newline +:+
         "See you at the match."))
  end.

(** *** The payload through its column

    The worker reads the payload back from JSONB, where the order of its members
    is lost: the mail is the same. *)

Lemma payload_at_Permutation k p q : NoDup p.*1 -> p ≡ₚ q -> payload_at k p = payload_at k q.
Proof.
  intros Hnd Hp. unfold payload_at. f_equal. induction Hp as [|x p q Hp IH|x y p|p q r Hp1 IH1 Hp2 IH2]; [done|..].
  - simpl. case_match; [done|]. apply IH. by apply NoDup_cons in Hnd as [_ ?].
  - simpl. destruct (String.eqb_spec (fst x) k) as [E1|], (String.eqb_spec (fst y) k) as [E2|]; try done.
    exfalso. rewrite !fmap_cons in Hnd. apply NoDup_cons in Hnd as [Hn _]. apply Hn. apply elem_of_cons. left. congruence.
  - rewrite IH1 by done. apply IH2. by rewrite <- Hp1.
Qed.

Lemma render_payload p n e : NoDup (n_Payload n).*1 -> p ≡ₚ n_Payload n -> render (with_payload p n) e = render n e.
Proof.
  intros Hnd Hp. assert (Hk : forall k, payload_at k p = payload_at k (n_Payload n)).
  { intros k. symmetry. by apply payload_at_Permutation. }
  unfold render, payload_string, payload_float. simpl. by rewrite !Hk.
Qed.

Lemma mail_through_columns `{P : PgxScan} now n e :
  NotificationRepo.known_type (n_Type n) = true -> flat_object (payload_members (n_Payload n)) ->
  exists n', scanNotification (notification_row now n) = Some n' /\ render n' e = render n e.
Proof.
  intros Ht Hf. destruct (read_notification now n Ht Hf) as (p & Hp & Hs). eexists. split; [exact Hs|].
  pose proof (render_payload p n e) as Hr. unfold with_payload, render in *. simpl in *. apply Hr; [|done].
  destruct Hf as [Hnd _]. unfold payload_members in Hnd. by rewrite <- list_fmap_compose in Hnd.
Qed.

(** ** The service *)

Section service.
Context `{U : UuidPkg, T : ErrorText} `{E : Env} `{Mailer : !EmailSender}.

Definition processOne (n : Notification) : M unit :=
  user <- wrap "look up recipient" (UserRepo.GetByID (n_UserID n));;
  msg <- wrap "render" (of_result (render n (u_Email user)));;
  wrap "send" (em_Send msg).

(** One iteration; [sent] counts the messages sent and marked. *)
Definition process_row (sent : Z) (n : Notification) : M Z :=
  one <- attempt (processOne n);;
  match one with
  | Err e => attempt (NotificationRepo.MarkFailed (n_ID n) (error_Error e));;; ret sent
  | Ok _ =>
      marked <- attempt (NotificationRepo.MarkSent (n_ID n));;
      match marked with
      | Err _ => ret sent
      | Ok _ => ret (sent + 1)%Z
      end
  end.

Definition ProcessPending (batchSize : Z) : M Z :=
  pending <- wrap "notification: list pending" (NotificationRepo.ListPending batchSize);;
  fold_loop process_row 0%Z pending.

End service.

(** ** Nobody interferes: every row of the batch is settled *)

Section outcome.
Context `{U : UuidPkg, T : ErrorText} `{E : Env} `{!Quiet} `{Mailer : !EmailSender}.

(** A transport that accepts exactly the messages [accepts] selects and leaves
    the database alone. *)
Definition transport (accepts : EmailMessage -> bool) : Prop :=
  forall msg w, exists r w', em_Send msg w = (r, w') /\ is_ok r = accepts msg /\ w_db w' = w_db w /\
    w_mail w' = w_mail w ++ (if accepts msg then [msg] else []).

(** The message of a row: its recipient exists and its type can be rendered. *)
Definition mail_of (d : DB) (n : Notification) : option EmailMessage :=
  match users d !! n_UserID n with
  | Some u => match render n (u_Email u) with Ok m => Some m | Err _ => None end
  | None => None
  end.
(** What the transport will be given of a row and accept. *)
Definition accepted (accepts : EmailMessage -> bool) (d : DB) (n : Notification) : list EmailMessage :=
  match mail_of d n with Some m => if accepts m then [m] else [] | None => [] end.

(** The row after the run: marked once, as its delivery went. *)
Definition settled (acc : list EmailMessage) (n : Notification) (o : option Notification) : Prop :=
  exists now, match acc with
              | [] => exists txt, o = Some (NotificationRepo.failed txt now n)
              | _ => o = Some (NotificationRepo.sent now n)
              end.

Context (accepts : EmailMessage -> bool) (Htr : transport accepts).

Lemma mark_quiet op msg id upd n w :
  notifications (w_db w) !! id = Some n ->
  exists now, must_affect op msg (NotificationRepo.mark_stmt id upd) w =
    (Ok tt, set_db (set_notifications (<[id := upd now n]> (notifications (w_db w))) (w_db w)) (set_wrote true (set_tick (S (w_tick w)) w))).
Proof.
  intros Hn. exists (db_now w). apply must_affect_quiet. unfold NotificationRepo.mark_stmt. by apply update_row_hit.
Qed.

Lemma processOne_quiet n w : exists r w', processOne n w = (r, w') /\ w_db w' = w_db w /\
  w_mail w' = w_mail w ++ accepted accepts (w_db w) n /\
  is_ok r = match accepted accepts (w_db w) n with [] => false | _ => true end.
Proof.
  unfold processOne, accepted, mail_of, bind, wrap, map_err, UserRepo.GetByID, of_result.
  destruct (users (w_db w) !! n_UserID n) as [u|] eqn:Hu; simpl.
  - rewrite (one_row_quiet _ _ _ u) by done. set (w1 := set_tick _ w).
    destruct (render n (u_Email u)) as [m|e].
    + destruct (Htr m w1) as (r & w' & -> & Hr & Hd & Hm).
      destruct r as [[]|e]; eexists _, w'; (split; [reflexivity|]); destruct (accepts _); by split_and!.
    + eexists _, w1. split; [reflexivity|]. simpl. by rewrite app_nil_r.
  - unfold one_row, bind, wrap, map_err. rewrite query_quiet, Hu. eexists _, _. split; [reflexivity|].
    simpl. by rewrite app_nil_r.
Qed.

Lemma process_row_quiet n w k :
  notifications (w_db w) !! n_ID n = Some n ->
  exists w' o, let acc := accepted accepts (w_db w) n in
    process_row k n w = (Ok (k + Z.of_nat (length acc))%Z, w') /\ w_mail w' = w_mail w ++ acc /\
    w_db w' = set_notifications (<[n_ID n := o]> (notifications (w_db w))) (w_db w) /\ settled acc n (Some o).
Proof.
  intros Hn. destruct (processOne_quiet n w) as (r & w1 & Hp & D1 & M1 & Hr).
  unfold process_row. rewrite bind_attempt, Hp. rewrite <- D1 in Hn.
  destruct (accepted accepts (w_db w) n) as [|m l] eqn:Hacc; destruct r as [[]|e]; try done.
  - destruct (mark_quiet "postgres.NotificationRepo.MarkFailed" "postgres: mark notification failed" (n_ID n)
                (NotificationRepo.failed (error_Error e)) n w1 Hn) as [now Hm].
    eexists _, _. rewrite bind_attempt. unfold NotificationRepo.MarkFailed. rewrite Hm. split; [by rewrite Z.add_0_r|].
    simpl. rewrite D1. split; [done|]. split; [done|]. by exists now, (error_Error e).
  - destruct (mark_quiet "postgres.NotificationRepo.MarkSent" "postgres: mark notification sent" (n_ID n)
                NotificationRepo.sent n w1 Hn) as [now Hm].
    eexists _, _. rewrite bind_attempt. unfold NotificationRepo.MarkSent. rewrite Hm.
    assert (l = []) as ->.
    { unfold accepted in Hacc. destruct (mail_of _ _); [|done]. destruct (accepts _); congruence. }
    split; [done|]. simpl. rewrite D1. split; [done|]. split; [done|]. by exists now.
Qed.

Lemma process_fold l w k :
  NoDup (n_ID <$> l) -> (forall n, n ∈ l -> notifications (w_db w) !! n_ID n = Some n) ->
  exists w', let mails := l ≫= accepted accepts (w_db w) in
    fold_loop process_row k l w = (Ok (k + Z.of_nat (length mails))%Z, w') /\ w_mail w' = w_mail w ++ mails /\
    (forall n, n ∈ l -> settled (accepted accepts (w_db w) n) n (notifications (w_db w') !! n_ID n)) /\
    (forall i, i ∉ n_ID <$> l -> notifications (w_db w') !! i = notifications (w_db w) !! i) /\
    w_db w' = set_notifications (notifications (w_db w')) (w_db w).
Proof.
  revert w k. induction l as [|n l IH]; intros w k Hnd Hl; cbn [fold_loop].
  { exists w. unfold ret. simpl. rewrite Z.add_0_r, app_nil_r. split_and!; [done..|by intros ? ?%elem_of_nil|done|by destruct (w_db w)]. }
  apply NoDup_cons in Hnd as [Hnin Hnd].
  destruct (process_row_quiet n w k) as (w1 & o & Hp & M1 & D1 & S1); [by apply Hl, elem_of_cons; left|].
  assert (Hacc : forall n', accepted accepts (w_db w1) n' = accepted accepts (w_db w) n') by (intros; by rewrite D1).
  assert (Hmap : forall (l : list Notification), l ≫= accepted accepts (w_db w1) = l ≫= accepted accepts (w_db w)).
  { intros l'. induction l' as [|x l' IHl]; [done|]. rewrite !bind_cons, Hacc. by f_equal. }
  destruct (IH w1 (k + Z.of_nat (length (accepted accepts (w_db w) n)))%Z Hnd) as (w' & Hf & M2 & H1 & H2 & H3).
  { intros n' Hn'. rewrite D1. simpl. rewrite lookup_insert_ne; [by apply Hl, elem_of_cons; right|].
    intros Heq. apply Hnin. rewrite Heq. by apply list_elem_of_fmap_2. }
  rewrite Hmap in Hf, M2. exists w'. unfold bind at 1. rewrite Hp, Hf, bind_cons. split_and!.
  - do 2 f_equal. rewrite length_app. lia.
  - by rewrite M2, M1, app_assoc.
  - intros n' [->|Hn']%elem_of_cons; [|rewrite <- Hacc; by apply H1].
    rewrite H2 by done. rewrite D1. simpl. by rewrite lookup_insert_eq.
  - intros i [Hne Hi]%not_elem_of_cons. rewrite H2, D1 by done. simpl. by rewrite lookup_insert_ne.
  - rewrite H3, D1. simpl. done.
Qed.

(** The batch of a run: the oldest pending rows. *)
Definition batch_of (size : Z) (d : DB) : list Notification :=
  limit size (order_by n_CreatedAt (rows_where NotificationRepo.is_pending (notifications d))).

Lemma ProcessPending_post size w :
  (forall i n, notifications (w_db w) !! i = Some n -> n_ID n = i) -> (0 <= size)%Z ->
  let batch := batch_of size (w_db w) in
  exists w', let mails := batch ≫= accepted accepts (w_db w) in
    ProcessPending size w = (Ok (Z.of_nat (length mails)), w') /\ w_mail w' = w_mail w ++ mails /\
    (forall n, n ∈ batch -> settled (accepted accepts (w_db w) n) n (notifications (w_db w') !! n_ID n)) /\
    (forall i, i ∉ n_ID <$> batch -> notifications (w_db w') !! i = notifications (w_db w) !! i) /\
    w_db w' = set_notifications (notifications (w_db w')) (w_db w).
Proof.
  intros Hid Hsize batch. set (w1 := set_tick (S (w_tick w)) w).
  destruct (process_fold batch w1 0) as (w' & Hf & M & H1 & H2 & H3).
  - by apply batch_ids.
  - intros n Hn%elem_of_limit. rewrite elem_of_order_by in Hn. apply elem_of_rows_where in Hn as (_ & i & Hi).
    simpl. by rewrite (Hid _ _ Hi).
  - exists w'. split_and!; [|done..]. unfold ProcessPending, bind, wrap, map_err, NotificationRepo.ListPending, wrap, map_err.
    rewrite select_quiet. unfold NotificationRepo.list_pending_stmt. rewrite (proj2 (Z.ltb_ge size 0)) by done.
    replace (set_db (w_db w) _) with w1 by (by destruct w). exact Hf.
Qed.

(** One run of the dispatcher settles its batch. It hands the transport the
    messages of the oldest pending rows in order, marks every row of the batch
    exactly once, as sent when its message was accepted and as failed
    otherwise (an unknown recipient or type or a refused message never stops
    the rest), reports the number sent, and touches nothing else. *)
Theorem ProcessPending_settles size w :
  (forall i n, notifications (w_db w) !! i = Some n -> n_ID n = i) -> (0 <= size)%Z ->
  let batch := batch_of size (w_db w) in
  exists w', let mails := batch ≫= accepted accepts (w_db w) in
    ProcessPending size w = (Ok (Z.of_nat (length mails)), w') /\ w_mail w' = w_mail w ++ mails /\
    (forall n, n ∈ batch -> settled (accepted accepts (w_db w) n) n (notifications (w_db w') !! n_ID n)) /\
    (forall i, i ∉ n_ID <$> batch -> notifications (w_db w') !! i = notifications (w_db w) !! i) /\
    w_db w' = set_notifications (notifications (w_db w')) (w_db w).
Proof. apply ProcessPending_post. Qed.

End outcome.

(** C39: the confirmation names the order and its exact price. For the payload
    [ConfirmPayment] queues and any total up to seventeen million million, the
    detour of the amount through float64 loses nothing: the message shows the
    total to the cent. *)
Theorem confirmation_mail_exact `{U : UuidPkg} (o : Order) count n email :
  n_Type n = NotificationTypeOrderConfirmation -> n_Payload n = confirmation_payload o count -> (0 <= Cents (o_Total o) < 100 * 2 ^ 44)%Z ->
  render n email = Ok (mkEmail email "Your order is confirmed"
    ("Thanks for your order!" +:+ newline +:+ newline +:+ "Order: " +:+ uuid_String (o_ID o) +:+ newline +:+
     "Total: " +:+ decimal2 (Cents (o_Total o)) +:+ " " +:+ Currency (o_Total o) +:+ newline +:+ newline +:+
     "See you at the match.")).
Proof.
  intros Ht Hp Hc. unfold render. rewrite Ht, Hp.
  change (payload_float "total_cents" (confirmation_payload o count)) with (float_of_int (Cents (o_Total o))).
  by rewrite Sprintf_2f_exact.
Qed.

(** ** Witnesses *)


(** The outbox after the fixture checkout. *)
Definition fx_paid_world : World (H := ref_redis) := snd (ConfirmPayment 1 1006 1013 fx_awaiting).

Definition fx_notification : Notification :=
  mkNotification 1022 1 11 NotificationTypeOrderConfirmation (confirmation_payload fx_order 1)
    NotificationStatusPending 0 "" 1019000 None.

Lemma fx_outbox : notifications (w_db fx_paid_world) = {[1022%N := fx_notification]}.
Proof. vm_compute. reflexivity. Qed.

Lemma fx_console_transport : transport (H := ref_redis) (Mailer := ConsoleSender) (fun _ => true).
Proof. intros msg w. eexists _, _. split; [reflexivity|]. done. Qed.

Lemma fx_outbox_keys i n : notifications (w_db fx_paid_world) !! i = Some n -> n_ID n = i.
Proof. rewrite fx_outbox. by intros [<- <-]%lookup_singleton_Some. Qed.

Lemma fx_batch : batch_of 100 (w_db fx_paid_world) = [fx_notification].
Proof. unfold batch_of. rewrite fx_outbox. vm_compute. reflexivity. Qed.

Lemma ProcessPending_settles_witness : exists w',
  w_mail w' = w_mail fx_paid_world ++ (batch_of 100 (w_db fx_paid_world) ≫= accepted (fun _ => true) (w_db fx_paid_world)) /\
  settled (accepted (fun _ => true) (w_db fx_paid_world) fx_notification) fx_notification
    (notifications (w_db w') !! 1022%N).
Proof.
  pose proof (ProcessPending_settles (Mailer := ConsoleSender) (fun _ => true) fx_console_transport 100 fx_paid_world
                fx_outbox_keys ltac:(discriminate)) as HH.
  destruct HH as (w' & _ & H1 & H2 & _). exists w'. split; [exact H1|]. apply (H2 fx_notification).
  rewrite fx_batch. by apply list_elem_of_singleton.
Defined.

Lemma confirmation_mail_exact_witness : em_Body <$> (match render fx_notification "fan@mail.ke" with Ok m => Some m | Err _ => None end) =
  Some ("Thanks for your order!" +:+ newline +:+ newline +:+ "Order: 1006" +:+ newline +:+
        "Total: 1500.00 KES" +:+ newline +:+ newline +:+ "See you at the match.").
Proof.
  rewrite (confirmation_mail_exact fx_order 1 fx_notification "fan@mail.ke" eq_refl eq_refl ltac:(split; vm_compute; congruence)).
  vm_compute. reflexivity.
Defined.
