(* ===== verification/AuthService.v ===== *)
(** * The auth service ([src/internal/service/auth/service.go])

    Registration, login, rotation of refresh tokens, and access tokens.
    bcrypt, the JWT library and the random source are interfaces with the
    laws the service relies on. *)
From S2P Require Import Prelude Crypto Domain Schema Redis Runtime Ports Fixtures CheckoutRepos CatalogRepos AccountRepos Http.

(** [golang.org/x/crypto/bcrypt]; the first argument numbers the salts. *)
Class BcryptPkg := {
  bcrypt_Generate : nat -> string -> result string;
  bcrypt_Compare : string -> string -> bool }.
Class BcryptLaws (B : BcryptPkg) : Prop :=
  bcrypt_Generate_Compare : forall n p h, bcrypt_Generate n p = Ok h -> bcrypt_Compare h p = true.

(** [golang-jwt]: HS256 signing, and parsing with the check of signature,
    method and expiry against the given time. *)
Class JwtPkg := {
  jwt_Sign : string -> Claims -> result string;
  jwt_Parse : string -> Time -> string -> result Claims }.
Class JwtLaws (J : JwtPkg) : Prop := {
  jwt_Parse_Sign : forall secret c tok now,
    jwt_Sign secret c = Ok tok -> (now < cl_ExpiresAt c)%Z -> jwt_Parse secret now tok = Ok c;
  jwt_Parse_expired : forall secret c tok now,
    jwt_Sign secret c = Ok tok -> (cl_ExpiresAt c <= now)%Z -> is_ok (jwt_Parse secret now tok) = false }.

(** [crypto/rand.Read]: the bytes of the n-th interaction, or a failure. *)
Class RandPkg := { rand_Read : nat -> nat -> option (list Z) }.

(** [config.JWTConfig]. *)
Record JWTConfig := mkJWTConfig { jc_Secret : string; jc_AccessTTL : Duration; jc_RefreshTTL : Duration }.

Record TokenPair := mkTokenPair {
  tp_AccessToken : string; tp_AccessTokenExpiresAt : Time; tp_RefreshToken : string; tp_RefreshTokenExpiresAt : Time }.

Definition minPasswordLength : nat := 8.
Definition dummyHashForTiming : string := "$2a$10$CwTycUXWue0Thq9StjUM0uJ8Q0nOtIY6Ck6vE6iZbSJn7O.HxTHwK".

Definition auth_error (s : AuthSentinel) : GoError := ESentinel (SAuth s).

(** [strings.TrimSpace] on ASCII text. *)
Definition is_space (c : Ascii.ascii) : bool :=
  let n := Ascii.N_of_ascii c in ((9 <=? n)%N && (n <=? 13)%N) || (n =? 32)%N.
Fixpoint trim_left (s : string) : string :=
  match s with EmptyString => EmptyString | String c s' => if is_space c then trim_left s' else s end.
Fixpoint trim_right (s : string) : string :=
  match s with
  | EmptyString => EmptyString
  | String c s' => match trim_right s' with
                   | EmptyString => if is_space c then EmptyString else String c EmptyString
                   | t => String c t
                   end
  end.
Definition strings_TrimSpace (s : string) : string := trim_right (trim_left s).

Definition normalizeEmail (email : string) : string := lower (strings_TrimSpace email).

Definition hashToken (raw : string) : string := hex_EncodeToString (sha256 (bytes_of raw)).

(** [jwt.NewNumericDate]: whole seconds. *)
Definition NumericDate (t : Time) : Time := (t / Second * Second)%Z.

Definition role_String (r : UserRole) : string := match r with UserRoleFan => "fan" | UserRoleAdmin => "admin" end.

Definition set_PasswordHash (h : string) (u : User) : User :=
  mkUser (u_ID u) (u_Email u) (u_Phone u) h (u_FirstName u) (u_LastName u) (u_Status u) (u_Role u) (u_TenantID u)
    (u_EmailVerifiedAt u) (u_CreatedAt u) (u_UpdatedAt u).

Section service.
Context `{U : UuidPkg, B : BcryptPkg, J : JwtPkg, R : RandPkg} `{E : Env, I : !RefreshTokenRepo.InetCast} (jwtCfg : JWTConfig).

Definition rand_bytes (n : nat) : M (list Z) := fun w =>
  (match rand_Read (w_tick w) n with Some bs => Ok bs | None => Err (EText "crypto/rand") end, set_tick (S (w_tick w)) w).

Definition generateRefreshToken : M string :=
  b <- rand_bytes 32;; ret (base64url b).

Definition hashPassword (password : string) : M string := fun w =>
  (bcrypt_Generate (w_tick w) password, set_tick (S (w_tick w)) w).

(** The common part of [Register] and [RegisterAdmin]. *)
Definition register (role : UserRole) (tenantID : option UUID) (msg email password firstName lastName : string) : M User :=
  let email := normalizeEmail email in
  if (String.length password <? minPasswordLength)%nat then throw (auth_error ErrWeakPassword)
  else
    hash <- wrap "auth: hash password" (hashPassword password);;
    id <- uuid_New;;
    let user := mkUser id email "" hash firstName lastName UserStatusActive role tenantID None time_Zero time_Zero in
    wrap msg (UserRepo.Create user);;;
    ret (set_PasswordHash "" user).

Definition Register (email password firstName lastName : string) : M User :=
  register UserRoleFan None "auth: create user" email password firstName lastName.

Definition RegisterAdmin (tenantID : UUID) (email password firstName lastName : string) : M User :=
  register UserRoleAdmin (Some tenantID) "auth: create admin user" email password firstName lastName.

Definition claims_of (user : User) (now : Time) : Claims :=
  mkClaims (uuid_String (u_ID user)) (NumericDate now) (NumericDate (TimeAdd now (jc_AccessTTL jwtCfg)))
    (role_String (u_Role user)) (match u_TenantID user with Some t => uuid_String t | None => "" end).

Definition issueTokenPair (user : User) (userAgent ipAddress : string) : M TokenPair :=
  now <- time_Now;;
  let accessExpiresAt := TimeAdd now (jc_AccessTTL jwtCfg) in
  accessToken <- wrap "auth: sign access token" (of_result (jwt_Sign (jc_Secret jwtCfg) (claims_of user now)));;
  rawRefresh <- wrap "auth: generate refresh token" generateRefreshToken;;
  let refreshExpiresAt := TimeAdd now (jc_RefreshTTL jwtCfg) in
  id <- uuid_New;;
  wrap "auth: store refresh token"
    (RefreshTokenRepo.Create (mkRefreshToken id (u_ID user) (hashToken rawRefresh) userAgent ipAddress refreshExpiresAt None time_Zero));;;
  ret (mkTokenPair accessToken accessExpiresAt rawRefresh refreshExpiresAt).

(** The comparison with the dummy hash only takes time. *)
Definition Login (email password userAgent ipAddress : string) : M TokenPair :=
  user <- attempt (UserRepo.GetByEmail (normalizeEmail email));;
  match user with
  | Err e =>
      if errors_Is e (SDomain ErrNotFound)
      then let _ := bcrypt_Compare dummyHashForTiming password in throw (auth_error ErrInvalidCredentials)
      else throw (EWrap "auth: look up user" e)
  | Ok user =>
      if negb (bool_decide (u_Status user = UserStatusActive)) then throw (auth_error ErrAccountInactive)
      else if negb (bcrypt_Compare (u_PasswordHash user) password) then throw (auth_error ErrInvalidCredentials)
      else issueTokenPair user userAgent ipAddress
  end.

Definition RefreshAccessToken (rawToken userAgent ipAddress : string) : M TokenPair :=
  stored <- attempt (RefreshTokenRepo.GetByTokenHash (hashToken rawToken));;
  match stored with
  | Err e =>
      if errors_Is e (SDomain ErrNotFound) then throw (auth_error ErrInvalidCredentials)
      else throw (EWrap "auth: look up refresh token" e)
  | Ok stored =>
      match rt_RevokedAt stored with
      | Some _ => throw (auth_error ErrRefreshRevoked)
      | None =>
          now <- time_Now;;
          if Before (rt_ExpiresAt stored) now then throw (auth_error ErrRefreshExpired)
          else
            user <- wrap "auth: look up user for refresh" (UserRepo.GetByID (rt_UserID stored));;
            if negb (bool_decide (u_Status user = UserStatusActive)) then throw (auth_error ErrAccountInactive)
            else
              wrap "auth: revoke used refresh token" (RefreshTokenRepo.Revoke (rt_ID stored));;;
              issueTokenPair user userAgent ipAddress
      end
  end.

Definition Logout (rawToken : string) : M unit :=
  stored <- attempt (RefreshTokenRepo.GetByTokenHash (hashToken rawToken));;
  match stored with
  | Err e =>
      if errors_Is e (SDomain ErrNotFound) then ret tt else throw (EWrap "auth: look up refresh token" e)
  | Ok stored =>
      match rt_RevokedAt stored with
      | Some _ => ret tt
      | None => wrap "auth: revoke refresh token" (RefreshTokenRepo.Revoke (rt_ID stored))
      end
  end.

Definition ParseAccessToken (tokenString : string) : M Claims :=
  now <- time_Now;;
  wrap "auth: parse access token" (of_result (jwt_Parse (jc_Secret jwtCfg) now tokenString)).

End service.
