(* ===== verification/AuthTokens.v ===== *)
(** * Refresh tokens are single-use, and what a session's tokens say

    Rotation of refresh tokens under any interleaving, the outcome of a login
    and of a registration ([src/internal/service/auth/service.go]). *)
From Stdlib Require Import Ascii.
From S2P Require Import Prelude Crypto Domain Schema Redis Runtime Ports Fixtures CheckoutRepos CatalogRepos AccountRepos.
From S2P Require Import Http AuthService.

(** The unique index on [token_hash] and the primary key. *)
Definition tokens_ok (d : DB) : Prop :=
  (forall id r, refresh_tokens d !! id = Some r -> rt_ID r = id) /\
  (forall i j r r', refresh_tokens d !! i = Some r -> refresh_tokens d !! j = Some r' -> rt_TokenHash r = rt_TokenHash r' -> i = j).

(** What every session does to the table: rows stay, keep their hash and
    owner, and a revoked one stays revoked. *)
Definition token_kept (r r' : RefreshToken) : Prop :=
  rt_TokenHash r' = rt_TokenHash r /\ rt_UserID r' = rt_UserID r /\ (rt_RevokedAt r <> None -> rt_RevokedAt r' <> None).
Definition tokens_advance (d d' : DB) : Prop :=
  tokens_ok d -> tokens_ok d' /\ forall id r, refresh_tokens d !! id = Some r ->
    exists r', refresh_tokens d' !! id = Some r' /\ token_kept r r'.

#[global] Instance tokens_advance_preorder : PreOrder tokens_advance.
Proof.
  split.
  - intros d Hd. split; [done|]. intros id r Hr. exists r. by split_and!.
  - intros d1 d2 d3 H12 H23 Hd. destruct (H12 Hd) as [Hd2 K12]. destruct (H23 Hd2) as [Hd3 K23]. split; [done|].
    intros id r Hr. destruct (K12 _ _ Hr) as (r2 & Hr2 & ? & ? & ?). destruct (K23 _ _ Hr2) as (r3 & Hr3 & ? & ? & ?).
    exists r3. split; [done|]. split; [congruence|]. split; [congruence|auto].
Qed.

(** The token has been used. *)
Definition spent (raw : string) (d : DB) : Prop :=
  exists id r, refresh_tokens d !! id = Some r /\ rt_TokenHash r = hashToken raw /\ rt_RevokedAt r <> None.

Lemma spent_advance raw d d' : tokens_advance d d' -> tokens_ok d -> spent raw d -> spent raw d'.
Proof.
  intros Ha Hd (id & r & Hr & Hh & Hv). destruct (Ha Hd) as [_ K]. destruct (K _ _ Hr) as (r' & Hr' & Hh' & _ & Hv').
  exists id, r'. split; [done|]. split; [congruence|auto].
Qed.

Lemma revoke_advance id now d n d' : RefreshTokenRepo.revoke_stmt id now d = Ok (n, d') -> tokens_advance d d'.
Proof.
  intros [(_ & -> & _)|(_ & r & Hr & Hc & ->)]%update_row_Ok; [reflexivity|]. intros [Hid Hu]. split; [split|].
  - intros j r'. simpl. intros [[<- <-]|[Hj Hr']]%lookup_insert_Some; [by apply (Hid _ _ Hr)|by apply Hid].
  - intros i j r1 r2. simpl.
    intros [[<- <-]|[Hi H1]]%lookup_insert_Some [[<- <-]|[Hj H2]]%lookup_insert_Some Hh; [done|..|by eapply Hu].
    + by eapply (Hu _ _ r).
    + by eapply (Hu _ _ r1 r).
  - intros j r' Hr'. simpl. destruct (decide (j = id)) as [->|Hj].
    + rewrite lookup_insert_eq. eexists. split; [reflexivity|]. replace r' with r by congruence. by split_and!.
    + rewrite lookup_insert_ne by done. exists r'. by split_and!.
Qed.

Lemma insert_token_advance `{RefreshTokenRepo.InetCast} rt now d u d' :
  RefreshTokenRepo.insert_token rt now d = Ok (u, d') -> tokens_advance d d'.
Proof.
  unfold RefreshTokenRepo.insert_token. destruct (RefreshTokenRepo.inet_column _); [|done].
  intros (Hn & _ & _ & -> & Hcl)%insert_into_Ok [Hid Hu].
  assert (Hfresh : forall j r, refresh_tokens d !! j = Some r -> rt_TokenHash r <> rt_TokenHash rt).
  { intros j r Hj. by apply String.eqb_neq, (Hcl j). }
  split; [split|].
  - intros j r'. simpl. intros [[<- <-]|[Hj Hr']]%lookup_insert_Some; [done|by apply Hid].
  - intros i j r1 r2. simpl.
    intros [[<- <-]|[Hi H1]]%lookup_insert_Some [[<- <-]|[Hj H2]]%lookup_insert_Some Hh; [done|..|by eapply Hu].
    + by destruct (Hfresh _ _ H2).
    + by destruct (Hfresh _ _ H1).
  - intros j r' Hr'. simpl. rewrite lookup_insert_ne by congruence. exists r'. by split_and!.
Qed.

Section rotation.
Context `{U : UuidPkg, B : BcryptPkg, J : JwtPkg, R : RandPkg} `{E : Env, I : !RefreshTokenRepo.InetCast} (jwtCfg : JWTConfig).
Context (rely : forall n d, tokens_advance d (env_others n d)).

Lemma lookup_advance {A} op msg (q : DB -> option A) : upholds tokens_advance (one_row op msg q).
Proof. unfold one_row. upholds_steps. Qed.

Lemma revoke_upholds id : upholds tokens_advance (RefreshTokenRepo.Revoke id).
Proof. unfold RefreshTokenRepo.Revoke, must_affect. upholds_steps. apply revoke_advance. Qed.

Lemma tick_upholds {A} (f : nat -> result A) :
  upholds tokens_advance (fun w => (f (w_tick w), set_tick (S (w_tick w)) w)).
Proof. intros w r w' [= <- <-]. by split. Qed.

Lemma issue_upholds user ua ip : upholds tokens_advance (issueTokenPair jwtCfg user ua ip).
Proof.
  unfold issueTokenPair, generateRefreshToken, RefreshTokenRepo.Create, fresh_if_nil. upholds_steps.
  - apply (tick_upholds (fun n => match rand_Read n 32 with Some bs => Ok bs | None => Err (EText "crypto/rand") end)).
  - intros Hs. by eapply insert_token_advance.
Qed.

(** The instant at which a token is used up: live before, spent after. *)
Definition used_up (raw : string) (d d' : DB) : Prop :=
  exists id now d0 d1, tokens_advance d d0 /\ tokens_ok d0 /\ ~ spent raw d0 /\
    RefreshTokenRepo.revoke_stmt id now d0 = Ok (1%Z, d1) /\ spent raw d1 /\ tokens_advance d1 d'.

Lemma lookup_by_hash raw d r :
  tokens_ok d -> find_row (fun r => String.eqb (rt_TokenHash r) (hashToken raw)) (refresh_tokens d) = Some r ->
  refresh_tokens d !! rt_ID r = Some r /\ rt_TokenHash r = hashToken raw.
Proof.
  intros [Hid _] (Hh%String.eqb_eq & id & Hr)%find_row_Some. by rewrite (Hid _ _ Hr).
Qed.

(** Revoking a row that had the token's hash uses the token up. *)
Lemma revoke_uses_up raw r w u w' dr :
  tokens_ok dr -> refresh_tokens dr !! rt_ID r = Some r -> rt_TokenHash r = hashToken raw ->
  tokens_advance dr (w_db w) -> RefreshTokenRepo.Revoke (rt_ID r) w = (Ok u, w') -> used_up raw dr (w_db w').
Proof.
  intros Hok Hr Hh Hadv (n & d & Hs & Hn & Hd & _)%must_affect_Ok. rewrite Hd. clear Hd.
  assert (Hadv' : tokens_advance dr (w_db (interact w))) by (etransitivity; [done|by apply interact_upholds; [apply _|]]).
  destruct (Hadv' Hok) as [Hok' K]. destruct (K _ _ Hr) as (r' & Hr' & Hh' & _ & _). destruct Hok' as [Hid Hu].
  pose proof Hs as [[-> _]|(-> & r2 & Hr2 & Hc & ->)]%update_row_Ok; [done|]. simplify_eq.
  exists (rt_ID r), (db_now w), (w_db (interact w)). eexists. split; [done|]. split; [done|]. split; [|split; [exact Hs|split; [|reflexivity]]].
  - intros (j & rj & Hj & Hhj & Hv). assert (j = rt_ID r) as -> by (eapply Hu; [exact Hj|exact Hr'|congruence]).
    simplify_eq. unfold RefreshTokenRepo.unrevoked in Hc. by destruct (rt_RevokedAt _).
  - exists (rt_ID r). eexists. simpl. rewrite lookup_insert_eq. split; [reflexivity|]. split; [simpl; congruence|done].
Qed.

Lemma refresh_post raw ua ip w r w' :
  tokens_ok (w_db w) -> RefreshAccessToken jwtCfg raw ua ip w = (r, w') ->
  tokens_advance (w_db w) (w_db w') /\
  (is_ok r = true -> used_up raw (w_db w) (w_db w')).
Proof.
  intros Hok Hw. unfold RefreshAccessToken in Hw. rewrite bind_attempt in Hw.
  destruct (RefreshTokenRepo.GetByTokenHash _ w) as [rs w1] eqn:Hs.
  pose proof (lookup_advance _ _ _ _ _ _ Hs) as [_ A1]. destruct (A1 Hok) as [Hok1 _].
  destruct rs as [stored|e]; [|by destruct (errors_Is e _); injection Hw as <- <-].
  apply one_row_Ok in Hs as (Hf & D1 & _). rewrite <- D1 in Hf. apply lookup_by_hash in Hf as [Hr Hh]; [|done].
  destruct (rt_RevokedAt stored); [by injection Hw as <- <-|].
  apply bind_inv in Hw as [(now & w2 & [= <- <-] & Hw)|(e & [=] & _)].
  destruct (Before _ _); [by injection Hw as <- <-|].
  apply bind_inv in Hw as [(user & w3 & Hu%wrap_Ok & Hw)|(e & Hu & ->)].
  2: { apply (upholds_wrap tokens_advance) in Hu as [_ Hu]; [|apply lookup_advance]. by split; [etransitivity|]. }
  pose proof (lookup_advance _ _ _ _ _ _ Hu) as [_ A3]. simpl in A3.
  destruct (negb _); [injection Hw as <- <-; split; [by etransitivity|done]|].
  apply bind_inv in Hw as [([] & w4 & Hv%wrap_Ok & Hw)|(e & Hv & ->)].
  2: { apply (upholds_wrap tokens_advance) in Hv as [_ Hv]; [|apply revoke_upholds]. split; [|done].
       etransitivity; [exact A1|]. by etransitivity. }
  pose proof (revoke_upholds _ _ _ _ Hv) as [_ A4]. pose proof (issue_upholds _ _ _ _ _ _ Hw) as [_ A5].
  split; [etransitivity; [exact A1|]; etransitivity; [exact A3|]; by etransitivity|]. intros _.
  apply (revoke_uses_up raw stored w3 _ w4 (w_db w1)) in Hv; [|done..].
  destruct Hv as (id & now & d0 & d1 & H1 & H2 & H3 & H4 & H5 & H6). exists id, now, d0, d1.
  split; [by etransitivity|]. split_and!; try done. by etransitivity.
Qed.

(** C22: a refresh token is good for one use, under any interleaving. A
    successful refresh has a single instant, its UPDATE of the token's row, at
    which the token goes from live to spent; no session ever undoes that, and
    a refresh with a spent token fails. So of any number of concurrent
    refreshes with one token at most one succeeds. *)
Theorem refresh_token_single_use raw ua ip w r w' :
  tokens_ok (w_db w) -> RefreshAccessToken jwtCfg raw ua ip w = (r, w') ->
  tokens_ok (w_db w') /\ (spent raw (w_db w) -> spent raw (w_db w') /\ is_ok r = false) /\
  (is_ok r = true -> spent raw (w_db w') /\ exists id now d0 d1, tokens_advance (w_db w) d0 /\ ~ spent raw d0 /\
     RefreshTokenRepo.revoke_stmt id now d0 = Ok (1%Z, d1) /\ spent raw d1 /\ tokens_advance d1 (w_db w')).
Proof.
  intros Hok Hw. apply refresh_post in Hw as [Ha Hu]; [|done]. split; [by apply Ha|]. split.
  - intros Hs. split; [by eapply spent_advance|]. destruct (is_ok r); [|done].
    destruct (Hu eq_refl) as (id & now & d0 & d1 & A0 & _ & Hn & _). destruct Hn. by eapply spent_advance.
  - intros Hr. destruct (Hu Hr) as (id & now & d0 & d1 & A0 & Hok0 & Hn & Hs & Hsp & A1). split.
    + eapply spent_advance; [exact A1| |exact Hsp]. by apply (revoke_advance _ _ _ _ _ Hs).
    + by exists id, now, d0, d1.
Qed.

End rotation.

(** ** What a login and a registration leave behind *)

Section sessions.
Context `{U : UuidPkg, B : BcryptPkg, J : JwtPkg, R : RandPkg} `{E : Env, I : !RefreshTokenRepo.InetCast} (jwtCfg : JWTConfig).
Context `{!RandomUuids}.

(** A token pair issued to [user] at time [now]: a signed access token and a
    fresh refresh token of which only the hash is stored. *)
Definition issued (user : User) (ua ip : string) (pair : TokenPair) (d : DB) : Prop :=
  exists now id bytes ip' created, RefreshTokenRepo.inet_column ip = Some ip' /\
    jwt_Sign (jc_Secret jwtCfg) (claims_of jwtCfg user now) = Ok (tp_AccessToken pair) /\
    tp_AccessTokenExpiresAt pair = TimeAdd now (jc_AccessTTL jwtCfg) /\
    tp_RefreshTokenExpiresAt pair = TimeAdd now (jc_RefreshTTL jwtCfg) /\
    tp_RefreshToken pair = base64url bytes /\
    refresh_tokens d !! id = Some (mkRefreshToken id (u_ID user) (hashToken (tp_RefreshToken pair)) ua ip'
                                     (tp_RefreshTokenExpiresAt pair) None created).

Lemma issueTokenPair_Ok user ua ip w pair w' :
  issueTokenPair jwtCfg user ua ip w = (Ok pair, w') -> issued user ua ip pair (w_db w').
Proof.
  intros (now & w1 & [= <- <-] & Hw)%bind_Ok. apply bind_Ok in Hw as (tok & w2 & Hj%wrap_Ok & Hw).
  injection Hj as Hj <-. apply bind_Ok in Hw as (raw & w3 & Hr%wrap_Ok & Hw).
  apply bind_Ok in Hr as (bs & w4 & Hbs & [= <- <-]). apply bind_Ok in Hw as (id & w5 & [= <- <-] & Hw).
  apply bind_Ok in Hw as (id' & w6 & Hc%wrap_Ok & [= <- <-]).
  apply bind_Ok in Hc as (i & w7 & Hi & Hc). apply fresh_if_nil_Ok in Hi as (_ & _ & Hi).
  rewrite Hi in Hc by apply uuid_New_not_nil. clear Hi.
  apply bind_Ok in Hc as ([] & w8 & Hs%map_err_Ok & [= <- <-]). apply sql_Ok in Hs as (d & Hs & ->).
  unfold RefreshTokenRepo.insert_token in Hs. cbn [rt_IPAddress] in Hs.
  destruct (RefreshTokenRepo.inet_column _) as [ip'|] eqn:Hip; [|done]. apply insert_into_Ok in Hs as (_ & _ & _ & -> & _).
  exists (env_clock (w_tick w)). eexists _, bs, ip', _. split; [exact Hip|]. split; [exact Hj|]. split_and!; try done. simpl. by rewrite lookup_insert_eq.
Qed.

(** C23: a login means what it says. In any environment a successful [Login]
    found an active account with that address (up to case and surrounding
    space) whose stored hash matches the password; the access token is
    accepted until it expires, and not after, and carries the account's id,
    role and club; the refresh token is stored for that account as a hash. *)
Theorem Login_sound `{!JwtLaws J} email password ua ip w pair w' :
  Login jwtCfg email password ua ip w = (Ok pair, w') ->
  exists user uid, users (w_db (interact w)) !! uid = Some user /\
    citext_eqb (u_Email user) (normalizeEmail email) = true /\ u_Status user = UserStatusActive /\
    bcrypt_Compare (u_PasswordHash user) password = true /\ issued user ua ip pair (w_db w') /\
    exists now, tp_AccessTokenExpiresAt pair = TimeAdd now (jc_AccessTTL jwtCfg) /\
      forall w1, let '(r, _) := ParseAccessToken jwtCfg (tp_AccessToken pair) w1 in
        if (env_clock (w_tick w1) <? NumericDate (tp_AccessTokenExpiresAt pair))%Z
        then r = Ok (claims_of jwtCfg user now) else is_ok r = false.
Proof.
  intros Hw. unfold Login in Hw. rewrite bind_attempt in Hw.
  destruct (UserRepo.GetByEmail _ w) as [ru w1] eqn:Hu.
  destruct ru as [user|e]; [|by destruct (errors_Is e _)].
  apply one_row_Ok in Hu as ((Hce & uid & Hu)%find_row_Some & _ & _).
  case_bool_decide as Hact; [|done]. cbn [negb] in Hw. destruct (bcrypt_Compare _ _) eqn:Hpw; [|done].
  apply issueTokenPair_Ok in Hw as Hiss. exists user, uid. split_and!; try done.
  destruct Hiss as (now & id & bs & ip' & cr & _ & Hj & Hexp & _). exists now. split; [done|]. intros w2.
  unfold ParseAccessToken, bind, time_Now, wrap, map_err, of_result. rewrite Hexp.
  destruct (Z.ltb_spec (env_clock (w_tick w2)) (NumericDate (TimeAdd now (jc_AccessTTL jwtCfg)))) as [Hlt|Hge].
  - by rewrite (jwt_Parse_Sign _ _ _ _ Hj Hlt).
  - pose proof (jwt_Parse_expired _ _ _ _ Hj Hge) as Hp. by destruct (jwt_Parse _ _ _).
Qed.

Lemma create_named u w : u_ID u <> uuid_Nil ->
  UserRepo.Create u w = match sql (UserRepo.insert_user u) w with
    | (Ok _, w') => (Ok (u_ID u), w')
    | (Err e, w') => (Err (conflict_or "postgres.UserRepo.Create" "postgres: create user" e), w')
    end.
Proof.
  intros Hu. unfold UserRepo.Create, fresh_if_nil, bind at 1. rewrite (proj2 (N.eqb_neq _ _) Hu). unfold ret at 1, bind, map_err.
  replace (mkUser _ _ _ _ _ _ _ _ _ _ _ _) with u by (by destruct u).
  by destruct (sql (UserRepo.insert_user u) w) as [[]].
Qed.

(** Public registration only makes fans. In any environment [Register]
    writes at most one new account, with the role fan and no club; when it
    succeeds that account has the normalized address, a password of at least 8
    bytes that its hash accepts, and the caller is not shown the hash. *)
Theorem Register_makes_fans `{!BcryptLaws B} email password first last w r w' :
  Register email password first last w = (r, w') ->
  exists d, others (w_db w) d /\
    (w_db w' = d \/ exists u, users d !! u_ID u = None /\ u_Role u = UserRoleFan /\ u_TenantID u = None /\
       u_Email u = normalizeEmail email /\ (minPasswordLength <= String.length password)%nat /\
       bcrypt_Compare (u_PasswordHash u) password = true /\
       w_db w' = set_users (<[u_ID u := u]> (users d)) d) /\
    forall shown, r = Ok shown -> u_PasswordHash shown = "" /\ u_Role shown = UserRoleFan /\
      exists u, users (w_db w') !! u_ID shown = Some u /\ u_Role u = UserRoleFan /\ u_Email u = u_Email shown.
Proof.
  intros Hw. unfold Register, register in Hw.
  destruct (Nat.ltb_spec (String.length password) minPasswordLength) as [_|Hlen].
  { injection Hw as <- <-. exists (w_db w). split; [reflexivity|]. split; [by left|done]. }
  apply bind_inv in Hw as [(hash & w1 & Hh%wrap_Ok & Hw)|(e & Hh & ->)].
  2: { unfold wrap, map_err, hashPassword in Hh. destruct (bcrypt_Generate _ _); [done|].
       injection Hh as _ <-. exists (w_db w). split; [reflexivity|]. split; [by left|done]. }
  injection Hh as Hh <-. apply bcrypt_Generate_Compare in Hh.
  apply bind_inv in Hw as [(id & w2 & [= <- <-] & Hw)|(e & [=] & _)].
  match type of Hw with bind (wrap _ (UserRepo.Create ?u)) _ ?wx = _ => set (user := u) in *; set (wx' := wx) in * end.
  set (sw := sql (UserRepo.insert_user user) wx').
  unfold bind, wrap, map_err in Hw. rewrite create_named in Hw by apply uuid_New_not_nil. fold sw in Hw.
  exists (w_db (interact wx')). split; [apply (interact_others wx')|].
  destruct sw as [rs w3] eqn:Hsw. subst sw. apply exec_inv in Hsw as [(u & d & Hs & -> & Hr)|(e & x & -> & -> & _)].
  2: { injection Hw as <- <-. split; [by left|done]. }
  unfold UserRepo.insert_user in Hs. apply insert_into_Ok in Hs as (Hn & _ & _ & -> & _).
  match type of Hw with context [set_users (<[_ := ?x]> _)] => set (row := x) in * end.
  assert (Hdb : w_db w' = set_users (<[u_ID user := row]> (users (w_db (interact wx')))) (w_db (interact wx'))).
  { destruct Hr as [-> | ->]; by injection Hw as <- <-. }
  rewrite Hdb. split.
  - right. exists row. by split_and!.
  - intros shown ->. destruct Hr as [-> | ->]; [|done]. injection Hw as <- _. split; [done|]. split; [done|].
    exists row. simpl. by rewrite lookup_insert_eq.
Qed.

End sessions.

(** ** Concrete instances and witnesses *)

#[export] Instance fx_bcrypt : BcryptPkg := {|
  bcrypt_Generate _ p := Ok ("hash-" +:+ p); bcrypt_Compare h p := String.eqb h ("hash-" +:+ p) |}.
#[export] Instance fx_bcrypt_laws : BcryptLaws fx_bcrypt.
Proof. intros n p h [= <-]. apply String.eqb_refl. Qed.

(** Tokens that list the secret and the claims, separated by bars. *)
Definition fx_parts_of (secret : string) (c : Claims) : list string :=
  let time t := [if (t <? 0)%Z then "-" else "+"; dec_String (Z.abs_N t)] in
  [secret; cl_Subject c; cl_Role c; cl_TenantID c] ++ time (cl_IssuedAt c) ++ time (cl_ExpiresAt c).
Definition fx_time (sign digits : string) : option Time :=
  (fun n => if String.eqb sign "-" then - Z.of_N n else Z.of_N n)%Z <$> dec_Parse digits.
#[export] Instance fx_jwt : JwtPkg := {|
  jwt_Sign secret c :=
    if existsb (has_char "|"%char) (fx_parts_of secret c) then Err (EText "jwt")
    else Ok (strings_Join "|"%char (fx_parts_of secret c));
  jwt_Parse secret now tok :=
    match strings_Split "|"%char tok with
    | [secret'; sub; role; tenant; s1; d1; s2; d2] =>
        match fx_time s1 d1, fx_time s2 d2 with
        | Some iat, Some exp =>
            if String.eqb secret' secret && (now <? exp)%Z then Ok (mkClaims sub iat exp role tenant) else Err (EText "jwt")
        | _, _ => Err (EText "jwt")
        end
    | _ => Err (EText "jwt")
    end |}.

Lemma fx_time_of t : fx_time (if (t <? 0)%Z then "-" else "+") (dec_String (Z.abs_N t)) = Some t.
Proof.
  unfold fx_time. change (dec_Parse (dec_String ?n)) with (uuid_Parse (uuid_String n)). rewrite uuid_Parse_String. simpl.
  destruct (Z.ltb_spec t 0); simpl; f_equal; lia.
Qed.

Lemma fx_jwt_parse secret c tok now :
  jwt_Sign secret c = Ok tok ->
  jwt_Parse secret now tok = if (now <? cl_ExpiresAt c)%Z then Ok c else Err (EText "jwt").
Proof.
  unfold jwt_Sign, jwt_Parse, fx_jwt. destruct (existsb _ _) eqn:Hx; [done|]. intros Hs.
  assert (tok = strings_Join "|"%char (fx_parts_of secret c)) as -> by congruence.
  rewrite strings_Split_Join; [|done|].
  - cbn [fx_parts_of app]. rewrite !fx_time_of, String.eqb_refl. cbn [andb]. by destruct c, (now <? _)%Z.
  - apply Forall_forall. intros p Hp. destruct (has_char _ p) eqn:Hc; [|done].
    apply list_elem_of_In in Hp. assert (existsb (has_char "|"%char) (fx_parts_of secret c) = true); [|congruence].
    apply existsb_exists. eauto.
Qed.

#[export] Instance fx_jwt_laws : JwtLaws fx_jwt.
Proof.
  split; intros secret c tok now Hs Hn; rewrite (fx_jwt_parse _ _ _ _ Hs).
  - by apply Z.ltb_lt in Hn as ->.
  - by apply Z.ltb_ge in Hn as ->.
Qed.

#[export] Instance fx_rand : RandPkg := {| rand_Read n k := Some (repeat (Z.of_nat (n mod 256)) k) |}.
#[export] Instance fx_inet : RefreshTokenRepo.InetCast := {| RefreshTokenRepo.inet_host := Some |}.
Definition fx_jwt_config : JWTConfig := mkJWTConfig "0123456789abcdef" (15 * Minute) (720 * Hour).

(** The fan logs in, and refreshes twice with the token of the login. *)
Definition fx_login : M TokenPair := Login fx_jwt_config " Fan@Mail.ke " "fan" "ua" "10.0.0.1".
Definition fx_session : World (H := ref_redis) := snd (fx_login (fx_world fx_db)).
Definition fx_raw : string := base64url (repeat 2%Z 32).

Lemma fx_login_ok : is_ok (fst (fx_login (fx_world fx_db))) = true.
Proof. vm_compute. reflexivity. Qed.

Lemma Login_sound_witness : exists user uid, users fx_db !! uid = Some user /\ u_Status user = UserStatusActive.
Proof.
  destruct (fx_login (fx_world fx_db)) as [[pair|e] w'] eqn:Hl; [|pose proof fx_login_ok as Hok; rewrite Hl in Hok; discriminate Hok].
  pose proof (Login_sound fx_jwt_config " Fan@Mail.ke " "fan" "ua" "10.0.0.1" (fx_world fx_db) pair w' Hl) as HH.
  destruct HH as (user & uid & H1 & _ & H2 & _). exists user, uid. split; [exact H1|exact H2].
Defined.

Lemma Register_makes_fans_witness : exists d,
  others (w_db (fx_world fx_db)) d.
Proof.
  destruct (Register_makes_fans "New@Fan.ke" "long enough" "New" "Fan" (fx_world fx_db) _ _ (surjective_pairing _)) as (d & Hd & _).
  exists d. exact Hd.
Defined.

Definition fx_token : RefreshToken := mkRefreshToken 1003 11 (hashToken fx_raw) "ua" "10.0.0.1" 2592001001000 None 1004000.

Lemma fx_session_tokens : refresh_tokens (w_db fx_session) = {[1003%N := fx_token]}.
Proof. vm_compute. reflexivity. Qed.

Lemma fx_session_ok : tokens_ok (w_db fx_session).
Proof.
  unfold tokens_ok. rewrite fx_session_tokens. split.
  - intros id r Hr%lookup_singleton_Some. by destruct Hr as [<- <-].
  - intros i j r r' [<- _]%lookup_singleton_Some [<- _]%lookup_singleton_Some. done.
Qed.

Lemma fx_quiet_rely n d : tokens_advance d (env_others n d).
Proof. reflexivity. Qed.

Definition fx_refresh : M TokenPair := RefreshAccessToken fx_jwt_config fx_raw "ua" "10.0.0.1".

Lemma fx_refresh_ok : is_ok (fst (fx_refresh fx_session)) = true.
Proof. vm_compute. reflexivity. Qed.

(** The second use of the token fails. *)
Lemma refresh_token_single_use_witness : is_ok (fst (fx_refresh (snd (fx_refresh fx_session)))) = false.
Proof.
  assert (Hgen : forall w, tokens_ok (w_db w) -> is_ok (fst (fx_refresh w)) = true ->
                   is_ok (fst (fx_refresh (snd (fx_refresh w)))) = false).
  { intros w Hok Hr. unfold fx_refresh in *.
    destruct (RefreshAccessToken fx_jwt_config fx_raw "ua" "10.0.0.1" w) as [r1 w1] eqn:H1. cbn [fst snd] in *.
    destruct (RefreshAccessToken fx_jwt_config fx_raw "ua" "10.0.0.1" w1) as [r2 w2] eqn:H2. cbn [fst snd] in *.
    destruct (refresh_token_single_use fx_jwt_config fx_quiet_rely _ _ _ _ _ _ Hok H1) as (Hok1 & _ & Hu).
    destruct (refresh_token_single_use fx_jwt_config fx_quiet_rely _ _ _ _ _ _ Hok1 H2) as (_ & Hsp & _).
    exact (proj2 (Hsp (proj1 (Hu Hr)))). }
  exact (Hgen fx_session fx_session_ok fx_refresh_ok).
Defined.
