(* ===== verification/AdmissionService.v ===== *)
(** * The admission service ([src/internal/service/admission/service.go])

    The worker's policy for the waiting rooms: for every on-sale event of
    every active club, let in as many waiting fans as there are units left, up
    to a cap, one failing event never holding up the others. *)
From S2P Require Import Prelude Domain Schema Redis Runtime Ports Fixtures InventoryRepo RedisRepo.
From S2P Require Import InventoryService CheckoutRepos CatalogRepos AccountRepos.

(** [for _, c := range counts { totalAvailable += int64(c.Available) }]. *)
Definition total_available (counts : gmap UUID InventoryCounts) : Z :=
  foldr Z.add 0%Z ((fun kc => c_Available kc.2) <$> map_to_list counts).

(** [min64] of a non-empty argument list. *)
Definition min64 (v : Z) (vals : list Z) : Z := foldl (fun m v => if (v <? m)%Z then v else m) v vals.

Section service.
Context `{U : UuidPkg, C : Collation} `{E : Env}.
Context `{R : !InventoryRepository, W : !waitingRoom} (cfg : Config) (maxAdmitPerTick : Z).

Definition admitForEvent (tenantID eventID : UUID) : M Z :=
  queueLen <- wrap "queue length" (QueueLength eventID);;
  if (queueLen =? 0)%Z then ret 0%Z
  else
    counts <- wrap "count by status" (ir_CountByStatus tenantID eventID);;
    let totalAvailable := total_available counts in
    if (totalAvailable =? 0)%Z then ret 0%Z
    else
      let admitCount := min64 queueLen [totalAvailable; maxAdmitPerTick] in
      if (admitCount <=? 0)%Z then ret 0%Z
      else
        admitted <- wrap "admit next" (AdmitNext cfg eventID admitCount);;
        ret (Z.of_nat (length admitted)).

(** One event and one tenant of the loops; a failure is logged and skipped. *)
Definition admit_event (tenantID : UUID) (admittedTotal : Z) (event : Event) : M Z :=
  admitted <- attempt (admitForEvent tenantID (e_ID event));;
  match admitted with
  | Err _ => ret admittedTotal
  | Ok n => ret (admittedTotal + n)%Z
  end.

Definition on_sale (tenantID : UUID) : EventFilter := mkEventFilter tenantID (Some EventStatusOnSale) None None None.

Definition admit_tenant (admittedTotal : Z) (tenant : Tenant) : M Z :=
  events <- attempt (EventRepo.List (on_sale (t_ID tenant)) 1000 0);;
  match events with
  | Err _ => ret admittedTotal
  | Ok l => fold_loop (admit_event (t_ID tenant)) admittedTotal l
  end.

Definition RunOnce : M Z :=
  tenants <- wrap "admission: list tenants" (TenantRepo.List TenantStatusActive 1000 0);;
  fold_loop admit_tenant 0%Z tenants.

End service.

(** ** The total of the counts is the number of units left *)

Lemma total_insert k c (m : gmap UUID InventoryCounts) :
  total_available (<[k := c]> m) = (total_available m - c_Available (default (mkCounts 0 0 0 0) (m !! k)) + c_Available c)%Z.
Proof.
  assert (Hperm : forall l l' : list (UUID * InventoryCounts), l ≡ₚ l' ->
    foldr Z.add 0%Z ((fun kc => c_Available kc.2) <$> l) = foldr Z.add 0%Z ((fun kc => c_Available kc.2) <$> l')).
  { intros l l'. induction 1; cbn [fmap list_fmap foldr]; lia. }
  assert (Hnew : forall c (m : gmap UUID InventoryCounts), m !! k = None ->
    total_available (<[k := c]> m) = (c_Available c + total_available m)%Z).
  { intros c' m' Hn. unfold total_available. by rewrite (Hperm _ _ (map_to_list_insert m' k c' Hn)). }
  rewrite <- insert_delete_eq, Hnew by apply lookup_delete_eq.
  destruct (m !! k) as [c0|] eqn:Hk; simpl.
  - rewrite <- (insert_delete_id m k c0 Hk) at 2. rewrite Hnew by apply lookup_delete_eq. lia.
  - rewrite (delete_id _ _ Hk). lia.
Qed.

Definition available_groups (gs : list (UUID * InventoryStatus * Z)) : Z :=
  foldr Z.add 0%Z ((fun g => if decide (g.1.2 = InventoryStatusAvailable) then g.2 else 0%Z) <$> gs).

Lemma total_groups gs res :
  NoDup gs.*1 ->
  (forall g, g ∈ gs -> g.1.2 = InventoryStatusAvailable -> c_Available (default (mkCounts 0 0 0 0) (res !! g.1.1)) = 0%Z) ->
  total_available (foldl add_count res gs) = (total_available res + available_groups gs)%Z.
Proof.
  revert res. induction gs as [|g gs IH]; intros res Hnd Hz; cbn [foldl]; [unfold available_groups; simpl; lia|].
  apply NoDup_cons in Hnd as [Hg Hnd]. rewrite IH; [|done|].
  - assert (Hg0 := Hz g ltac:(apply elem_of_cons; by left)). destruct g as [[cat st] n].
    cbn [add_count fst snd] in *. rewrite total_insert. unfold available_groups. cbn [fmap list_fmap foldr fst snd].
    destruct st; cbn [c_Available]; case_decide; try done; try lia. rewrite Hg0 by done. lia.
  - intros g' Hg' Hst. etransitivity; [|by apply (Hz g'); [apply elem_of_cons; right|]].
    pose proof (add_count_field g'.1.1 InventoryStatusAvailable res g) as Hf. cbn [field_of] in Hf. rewrite Hf.
    rewrite decide_False; [done|]. intros Heq. apply Hg. rewrite Heq, <- Hst, <- surjective_pairing.
    by apply list_elem_of_fmap_2.
Qed.

(** Summing the sizes of the classes of [f] over any list of keys that covers them. *)
Lemma sum_classes {A K} `{EqDecision K} (f : A -> K) (P : K -> Prop) `{!forall k, Decision (P k)} (ks : list K) l :
  NoDup ks -> (forall x, x ∈ l -> f x ∈ ks) ->
  foldr Z.add 0%Z ((fun k => if decide (P k) then Z.of_nat (length (filter (fun x => f x = k) l)) else 0%Z) <$> ks)
  = Z.of_nat (length (filter (fun x => P (f x)) l)).
Proof.
  intros Hnd. induction l as [|x l IH]; intros Hl.
  - clear. induction ks as [|k ks IH]; [done|]. cbn [fmap list_fmap foldr]. rewrite IH. by case_decide.
  - assert (Hadd : forall ks', NoDup ks' ->
      foldr Z.add 0%Z ((fun k => if decide (P k) then Z.of_nat (length (filter (fun y => f y = k) (x :: l))) else 0%Z) <$> ks')
      = ((if decide (f x ∈ ks' /\ P (f x)) then 1 else 0) +
         foldr Z.add 0%Z ((fun k => if decide (P k) then Z.of_nat (length (filter (fun y => f y = k) l)) else 0%Z) <$> ks'))%Z).
    { clear. induction 1 as [|k ks' Hk Hnd IH]; cbn [fmap list_fmap foldr].
      - rewrite decide_False; [done|]. by intros [?%elem_of_nil _].
      - rewrite IH, filter_cons. destruct (decide (f x = k)) as [<-|Hne].
        + rewrite (decide_False (P := f x ∈ ks' /\ P (f x))) by naive_solver.
          destruct (decide (P (f x))) as [HP|HP].
          * rewrite decide_True by (split; [apply elem_of_cons; by left|done]).
            cbn [length]. lia.
          * rewrite (decide_False (P := _ /\ _)) by naive_solver. lia.
        + rewrite (decide_ext (f x ∈ k :: ks' /\ P (f x)) (f x ∈ ks' /\ P (f x))) by (rewrite elem_of_cons; naive_solver).
          lia. }
    rewrite Hadd by done. rewrite IH by (intros y Hy; apply Hl, elem_of_cons; by right).
    assert (Hx := Hl x ltac:(apply elem_of_cons; by left)). rewrite filter_cons.
    destruct (decide (P (f x))) as [HP|HP].
    + rewrite decide_True by done. cbn [length]. lia.
    + rewrite decide_False by naive_solver. lia.
Qed.

Lemma units_left rows :
  total_available (foldl add_count ∅ (group_counts rows)) =
  Z.of_nat (length (filter (fun r => inv_Status r = InventoryStatusAvailable) rows)).
Proof.
  rewrite total_groups.
  - replace (total_available ∅) with 0%Z by done. rewrite Z.add_0_l. unfold available_groups, group_counts.
    rewrite <- list_fmap_compose.
    pose proof (sum_classes count_key (fun k => k.2 = InventoryStatusAvailable) (remove_dups (count_key <$> rows)) rows) as Hs.
    transitivity (Z.of_nat (length (filter (fun r => (count_key r).2 = InventoryStatusAvailable) rows)));
      [|do 2 f_equal; by apply list_filter_iff].
    etransitivity; [|apply Hs].
    + reflexivity.
    + apply NoDup_remove_dups.
    + intros r Hr. apply elem_of_remove_dups. by apply list_elem_of_fmap_2.
  - unfold group_counts. rewrite <- list_fmap_compose. apply NoDup_fmap_2; [by intros ??|apply NoDup_remove_dups].
  - intros g _ _. by rewrite lookup_empty.
Qed.

(** ** The policy, against Redis and Postgres *)

Section policy.
Context `{U : UuidPkg, !UuidLaws U} `{Rs : RedisServer, !RedisLaws Rs} `{E : !Env, !Quiet, !SteadyClock}.
Context (cfg : Config) (maxAdmitPerTick : Z).

Definition units_available (tenantID eventID : UUID) (d : DB) : Z :=
  Z.of_nat (length (filter (fun r => inv_Status r = InventoryStatusAvailable) (count_rows tenantID eventID d))).

(** How many fans a tick lets in. *)
Definition quota (waiting available : Z) : Z := Z.max 0 (Z.min (Z.min waiting available) maxAdmitPerTick).

Lemma QueueLength_quiet e n q w :
  line_is (env_clock (w_tick w)) e (w_redis w) n q ->
  QueueLength e w = (Ok (Z.of_nat (length q)), set_tick (S (w_tick w)) w).
Proof.
  intros [_ (z & Hz & Hq & _) _ _]. unfold QueueLength, wrap, map_err. cbn [wr_QueueLength WaitingRoom].
  unfold RedisRepo.QueueLength, wrap, map_err. rewrite redis_quiet.
  assert (Hc : r_zcard (env_clock (w_tick w)) (queueKey e) (w_redis w) = Some (Z.of_nat (length z))).
  { destruct z; [by rewrite r_zcard_none|]. by erewrite r_zcard_zset. }
  rewrite Hc. apply (f_equal length) in Hq. rewrite !length_fmap in Hq. rewrite Hq. simpl. by destruct w.
Qed.

Lemma min64_three a b c : min64 a [b; c] = Z.min (Z.min a b) c.
Proof.
  unfold min64. simpl. destruct (Z.ltb_spec b a); [destruct (Z.ltb_spec c b)|destruct (Z.ltb_spec c a)]; lia.
Qed.

(** C29: one tick of the waiting room. With [q] fans in line for an event,
    [admitForEvent] lets in exactly the first min(fans, units still available,
    cap) of them, in order of arrival: they leave the line, their admission
    windows open, and the rest of the line and the database stay as they are. *)
Theorem admitForEvent_policy t e n q w :
  line_is (env_clock (w_tick w)) e (w_redis w) n q -> (0 < AdmissionTTL cfg)%Z ->
  let k := Z.to_nat (quota (Z.of_nat (length q)) (units_available t e (w_db w))) in
  exists w', admitForEvent cfg maxAdmitPerTick t e w = (Ok (Z.of_nat k), w') /\
    line_is (env_clock (w_tick w')) e (w_redis w') n (drop k q) /\
    (forall u t', u ∈ take k q -> (env_clock (w_tick w') <= t' < env_clock (S (S (w_tick w))) + AdmissionTTL cfg)%Z ->
       r_exists t' (admittedKey e u) (w_redis w') = 1%Z) /\
    w_db w' = w_db w.
Proof.
  intros Hline Httl k. subst k. unfold admitForEvent, bind at 1, wrap at 1, map_err at 1.
  rewrite (QueueLength_quiet _ _ _ _ Hline). set (w1 := set_tick (S (w_tick w)) w).
  assert (Hline1 : line_is (env_clock (w_tick w1)) e (w_redis w1) n q) by (eapply line_later; [exact Hline|apply clock_mono; simpl; lia]).
  assert (Hnone : forall w1 : World, w_db w1 = w_db w -> line_is (env_clock (w_tick w1)) e (w_redis w1) n q ->
    quota (Z.of_nat (length q)) (units_available t e (w_db w)) = 0%Z ->
    exists w', ret 0%Z w1 = (Ok (Z.of_nat (Z.to_nat (quota (Z.of_nat (length q)) (units_available t e (w_db w))))), w') /\
      line_is (env_clock (w_tick w')) e (w_redis w') n (drop (Z.to_nat (quota (Z.of_nat (length q)) (units_available t e (w_db w)))) q) /\
      (forall u t', u ∈ take (Z.to_nat (quota (Z.of_nat (length q)) (units_available t e (w_db w)))) q ->
         (env_clock (w_tick w') <= t' < env_clock (S (S (w_tick w))) + AdmissionTTL cfg)%Z ->
         r_exists t' (admittedKey e u) (w_redis w') = 1%Z) /\ w_db w' = w_db w).
  { intros w2 Hd Hl ->. exists w2. split; [done|]. split; [done|]. split; [|done]. by intros u ? ?%elem_of_nil. }
  destruct (Z.eqb_spec (Z.of_nat (length q)) 0); [apply Hnone; [done|done|unfold quota; lia]|].
  unfold bind at 1, wrap at 1, map_err at 1. cbn [ir_CountByStatus InventoryRepo]. unfold CountByStatus, bind at 1, wrap at 1, map_err at 1.
  rewrite query_quiet. unfold ret at 1. rewrite units_left. fold (units_available t e (w_db w1)). change (w_db w1) with (w_db w).
  set (w2 := set_tick (S (w_tick w1)) w1).
  assert (Hline2 : line_is (env_clock (w_tick w2)) e (w_redis w2) n q) by (eapply line_later; [exact Hline1|apply clock_mono; simpl; lia]).
  destruct (Z.eqb_spec (units_available t e (w_db w)) 0); [apply Hnone; [done|done|unfold quota; lia]|].
  rewrite min64_three. destruct (Z.leb_spec (Z.min (Z.min (Z.of_nat (length q)) (units_available t e (w_db w))) maxAdmitPerTick) 0);
    [apply Hnone; [done|done|unfold quota; lia]|].
  replace (quota _ _) with (Z.min (Z.min (Z.of_nat (length q)) (units_available t e (w_db w))) maxAdmitPerTick)
    by (unfold quota; lia).
  set (m := Z.min _ maxAdmitPerTick) in *. unfold bind, wrap, map_err, AdmitNext, wrap, map_err. cbn [wr_Admit WaitingRoom].
  destruct (admit_line e m (AdmissionTTL cfg) n q w2 Hline2) as (w' & -> & Hl & Hadm & _ & Hd); [lia|done|].
  exists w'. split; [|split; [done|split; [|done]]].
  - rewrite length_take. unfold ret. do 3 f_equal. subst m. lia.
  - exact Hadm.
Qed.

End policy.

(** ** One failure never stops the run *)

Section isolation.
Context `{U : UuidPkg, C : Collation} `{E : Env} (cfg : Config) (maxAdmitPerTick : Z).

(** A step that always succeeds and never lowers the count. *)
Definition never_fails {A} (body : Z -> A -> M Z) : Prop :=
  forall k a w, exists k' w', body k a w = (Ok k', w') /\ (k <= k')%Z.

Lemma fold_never_fails {A} (body : Z -> A -> M Z) l : never_fails body -> never_fails (fun k (_ : unit) => fold_loop body k l).
Proof.
  intros Hb. induction l as [|a l IH]; intros k u w; cbn [fold_loop]; [by exists k, w|].
  destruct (Hb k a w) as (k1 & w1 & H1 & L1). destruct (IH k1 u w1) as (k2 & w2 & H2 & L2).
  exists k2, w2. unfold bind. rewrite H1. split; [done|lia].
Qed.

Lemma admitForEvent_nonneg t e w k w' : admitForEvent cfg maxAdmitPerTick t e w = (Ok k, w') -> (0 <= k)%Z.
Proof.
  intros (len & w1 & _ & Hw)%bind_Ok. destruct (_ =? 0)%Z; [injection Hw as <- _; lia|].
  apply bind_Ok in Hw as (cs & w2 & _ & Hw). cbv zeta in Hw.
  destruct (total_available cs =? 0)%Z; [injection Hw as <- _; lia|].
  destruct (min64 len _ <=? 0)%Z; [injection Hw as <- _; lia|]. apply bind_Ok in Hw as (l & w3 & _ & [= <- _]). lia.
Qed.

Lemma admit_event_never_fails t : never_fails (admit_event cfg maxAdmitPerTick t).
Proof.
  intros k e w. unfold admit_event. rewrite bind_attempt. destruct (admitForEvent _ _ _ _ w) as [[n|err] w1] eqn:Ha.
  - apply admitForEvent_nonneg in Ha. eexists _, _. split; [done|lia].
  - eexists _, _. split; [done|lia].
Qed.

Lemma admit_tenant_never_fails : never_fails (admit_tenant cfg maxAdmitPerTick).
Proof.
  intros k t w. unfold admit_tenant. rewrite bind_attempt. destruct (EventRepo.List _ _ _ w) as [[l|err] w1].
  - apply (fold_never_fails _ l (admit_event_never_fails (t_ID t)) k tt w1).
  - eexists _, _. split; [done|lia].
Qed.

(** An admission run is isolated and harmless. In any environment, whatever
    fails for an event or a club, the run goes on and reports a count; it
    fails only when the clubs themselves cannot be listed; and it never writes
    the database. *)
Theorem RunOnce_isolated w r w' :
  RunOnce cfg maxAdmitPerTick w = (r, w') ->
  others (w_db w) (w_db w') /\
  match r with
  | Ok k => (0 <= k)%Z
  | Err e => exists e', fst (TenantRepo.List TenantStatusActive 1000 0 w) = Err e' /\ e = EWrap "admission: list tenants" e'
  end.
Proof.
  intros Hw. split.
  - pose proof others_step as rely. assert (Hup : upholds others (RunOnce cfg maxAdmitPerTick)); [|exact (proj2 (Hup _ _ _ Hw))].
    unfold RunOnce, admit_tenant, admit_event, admitForEvent, QueueLength, AdmitNext, TenantRepo.List, EventRepo.List, page_stmt.
    cbn [ir_CountByStatus InventoryRepo wr_QueueLength wr_Admit WaitingRoom].
    unfold CountByStatus, RedisRepo.QueueLength, Admit, mark_admitted. upholds_steps;
      intros Hs; injection Hs as _ <-; reflexivity.
  - unfold RunOnce in Hw. apply bind_inv in Hw as [(ts & w1 & _ & Hw)|(e & He & ->)].
    + destruct (fold_never_fails _ ts admit_tenant_never_fails 0%Z tt w1) as (k & w2 & Hf & Hk). rewrite Hf in Hw.
      by injection Hw as <- _.
    + apply wrap_inv in He as [(a & [=] & _)|(e' & [= ->] & He)]. exists e'. by rewrite He.
Qed.
End isolation.

(** ** Witnesses: two fans wait for the fixture event, one unit is left *)

Definition fx_waiting : World (H := ref_redis) := snd ((_ <- Join 20 11;; Join 20 12) (fx_world fx_db)).

Lemma fx_line : line_is (R := ref_redis) (env_clock (w_tick fx_waiting)) 20 (w_redis fx_waiting) 2 [11%N; 12%N].
Proof.
  split; [vm_compute; reflexivity| |repeat constructor; set_solver|done].
  eexists [("11", 1%Z); ("12", 2%Z)]. split; [vm_compute; reflexivity|]. split; [vm_compute; reflexivity|].
  repeat constructor; done.
Qed.

Lemma fx_units : units_available 1 20 (w_db fx_waiting) = 1%Z.
Proof. vm_compute. reflexivity. Qed.

Lemma admitForEvent_policy_witness : exists w',
  admitForEvent DefaultConfig 200 1 20 fx_waiting = (Ok 1%Z, w') /\
  line_is (R := ref_redis) (env_clock (w_tick w')) 20 (w_redis w') 2 [12%N].
Proof.
  pose proof (admitForEvent_policy DefaultConfig 200 1 20 2 [11%N; 12%N] fx_waiting fx_line ltac:(done)) as HH.
  cbv zeta in HH. rewrite fx_units in HH. destruct HH as (w' & H1 & H2 & _).
  exists w'. split; [exact H1|exact H2].
Defined.

Lemma RunOnce_isolated_witness :
  others (w_db fx_waiting) (w_db (snd (RunOnce DefaultConfig 200 fx_waiting))).
Proof.
  exact (proj1 (RunOnce_isolated DefaultConfig 200 fx_waiting _ _ (surjective_pairing (RunOnce DefaultConfig 200 fx_waiting)))).
Defined.
