(* ===== verification/Requests.v ===== *)
(** * Request bodies and the helpers of the handlers ([src/internal/handler/http])

    Decoding and validating a JSON body ([auth.go], [admin_venue.go]), the
    common precondition of the purchase endpoints ([inventory.go]) and the
    client address ([auth.go]). *)
From Stdlib Require Import Ascii.
From S2P Require Import Prelude GoJson Domain Schema Redis Runtime Http AuthService.

(** ** github.com/go-playground/validator

    A struct is given to [Struct] as its fields: Go name, [validate] tag and
    value. The package is a parameter; its laws are the documented meaning of
    the tags the program uses. *)
Inductive FieldValue := FString (s : string) | FInt (z : Z) | FTime (t : Time).
Definition TaggedField : Type := string * string * FieldValue.

(** [validate_rule] decides one rule of a tag; [validate_Struct] returns the
    text of the error, if any. *)
Class ValidatorPkg := {
  validate_rule : string -> FieldValue -> bool;
  validate_Struct : list TaggedField -> option string }.

Definition is_zero (v : FieldValue) : bool :=
  match v with
  | FString s => String.eqb s ""
  | FInt z => (z =? 0)%Z
  | FTime t => (t =? time_Zero)%Z
  end.

Class ValidatorLaws (V : ValidatorPkg) : Prop := {
  validate_Struct_spec : forall fields,
    validate_Struct fields = None <->
    Forall (fun '(_, tag, v) => Forall (fun rule => validate_rule rule v = true) (strings_Split ","%char tag)) fields;
  validate_required : forall v, validate_rule "required" v = negb (is_zero v);
  validate_gt : forall z, validate_rule "gt=0" (FInt z) = (0 <? z)%Z;
  validate_gte : forall z, validate_rule "gte=0" (FInt z) = (0 <=? z)%Z;
  validate_lte : forall z, validate_rule "lte=100000" (FInt z) = (z <=? 100000)%Z;
  validate_min0 : forall z, validate_rule "min=0" (FInt z) = (0 <=? z)%Z;
  validate_min1 : forall z, validate_rule "min=1" (FInt z) = (1 <=? z)%Z;
  validate_max : forall z, validate_rule "max=65535" (FInt z) = (z <=? 65535)%Z;
  (** The length of a string is counted in characters, each at least one byte. *)
  validate_min16 : forall s, validate_rule "min=16" (FString s) = true -> (16 <= String.length s)%nat;
  (** The alternatives of [oneof] are separated by spaces. *)
  validate_oneof : forall values s, validate_rule ("oneof=" +:+ values) (FString s) = true ->
    In s (strings_Split " "%char values) }.

Section helpers.
Context `{V : ValidatorPkg} `{RedisServer}.

(** [json.NewDecoder(r.Body).Decode(dst)] into a zero struct. *)
Definition decode_body {S} (fields : list (Field S)) (zero : S) (r : Request) : option S :=
  body ← rq_Body r; v ← Decode body; decode_struct fields v zero.

(** The handler goes on with the decoded request. *)
Definition decodeJSONBody {S} (fields : list (Field S)) (zero : S) (r : Request) (k : S -> M Response) : M Response :=
  match decode_body fields zero r with
  | None => Error 400 "invalid-body" "could not parse request body"
  | Some req => k req
  end.

Definition decodeAndValidate {S} (fields : list (Field S)) (zero : S) (tags : S -> list TaggedField) (r : Request)
    (k : S -> M Response) : M Response :=
  match decode_body fields zero r with
  | None => Error 400 "invalid-body" "could not parse request body"
  | Some req =>
      match validate_Struct (tags req) with
      | Some msg => Error 400 "validation-failed" msg
      | None => k req
      end
  end.

(** [uuid.Parse] with the reply of a failure. *)
Definition parse_uuid `{UuidPkg} (s code message : string) (k : UUID -> M Response) : M Response :=
  match uuid_Parse s with
  | None => Error 400 code message
  | Some id => k id
  end.

Definition userAndTenant `{UuidPkg} (r : Request) (k : UUID -> UUID -> M Response) : M Response :=
  match UserIDFromContext r with
  | None => Error 401 "missing-token" "not authenticated"
  | Some userID =>
      match ResolvedTenantIDFromContext r with
      | None => Error 400 "missing-tenant" "X-Tenant-ID header is required"
      | Some tenantID => k userID tenantID
      end
  end.

(** The tenant an admin acts for: the one in the token. *)
Definition adminTenant `{UuidPkg} (r : Request) (k : UUID -> M Response) : M Response :=
  match TenantIDFromContext r with
  | None => Error 403 "no-tenant" "admin account has no associated tenant"
  | Some tenantID => k tenantID
  end.

End helpers.

(** ** The client's address *)

(** The part before the last colon, and the text after it. *)
Fixpoint cut_last_colon (s : string) : option (string * string) :=
  match s with
  | EmptyString => None
  | String c s' =>
      match cut_last_colon s' with
      | Some (h, p) => Some (String c h, p)
      | None => if Ascii.eqb c ":" then Some (EmptyString, s') else None
      end
  end.

(** [net.SplitHostPort]: the last colon separates the port; a host with a colon
    must be in brackets, and brackets must not occur anywhere else. *)
Definition SplitHostPort (hostport : string) : option string :=
  match cut_last_colon hostport with
  | None => None
  | Some (before, port) =>
      match before with
      | String c rest =>
          if Ascii.eqb c "[" then
            match strings_Cut "]"%char rest with
            | Some (host, EmptyString) =>
                if has_char "[" host || has_char "[" port || has_char "]" port then None else Some host
            | _ => None
            end
          else if has_char ":" before || has_char "[" before || has_char "]" before || has_char "[" port || has_char "]" port
          then None else Some before
      | EmptyString => if has_char "[" port || has_char "]" port then None else Some EmptyString
      end
  end.

Definition clientIP (r : Request) : string :=
  let fwd := rq_Header r "X-Forwarded-For" in
  if negb (String.eqb fwd "") then
    strings_TrimSpace (match strings_Cut ","%char fwd with Some (first, _) => first | None => fwd end)
  else default "" (SplitHostPort (rq_RemoteAddr r)).

Example clientIP_forwarded remote :
  clientIP (mkReq (fun h => if String.eqb h "X-Forwarded-For" then " 203.0.113.7 , 10.0.0.1" else "") (fun _ => "") None remote None None)
  = "203.0.113.7".
Proof. reflexivity. Qed.
Example clientIP_v6 : clientIP (mkReq (fun _ => "") (fun _ => "") None "[2001:db8::1]:443" None None) = "2001:db8::1".
Proof. reflexivity. Qed.

(** ** Facts *)

Section facts.
Context `{V : ValidatorPkg, !ValidatorLaws V}.

(** Every rule of every tag holds of a struct that passed. *)
Lemma validated fields name tag v rule :
  validate_Struct fields = None -> In (name, tag, v) fields -> In rule (strings_Split ","%char tag) ->
  validate_rule rule v = true.
Proof.
  intros Hv%validate_Struct_spec Hin Hr. rewrite Forall_forall in Hv.
  specialize (Hv (name, tag, v)). simpl in Hv. rewrite Forall_forall in Hv. apply Hv; by apply list_elem_of_In.
Qed.
End facts.

(** A request turned away before anything is done. *)
Lemma gated `{RedisServer} (codes : list Z) st code msg w rep w' (P : Prop) :
  st ∈ codes -> Error st code msg w = (rep, w') ->
  (w' = w /\ exists rsp, rep = Ok rsp /\ rsp_Status rsp ∈ codes) \/ P.
Proof. intros Hst [= <- <-]. left. split; [done|]. by eexists. Qed.

Lemma decode_body_read {S} (fields : list (Field S)) (zero : S) r body v :
  rq_Body r = Some body -> Decode body = Some v -> decode_body fields zero r = decode_struct fields v zero.
Proof. intros Hb Hv. unfold decode_body. rewrite Hb. cbn [mbind option_bind]. by rewrite Hv. Qed.

(** Reading a request body always comes to an end. Whatever the client sends
    (nested as deep as it likes, cut off, or no JSON at all), the decoder that
    may recurse [fuel_for body] times, twice the length of the body, never runs
    out, any larger allowance gives the same answer, and that answer is the one
    the handler acts on. *)
Theorem decode_body_terminates {S} (fields : list (Field S)) (zero : S) r body n :
  rq_Body r = Some body -> (fuel_for body <= n)%nat ->
  value n 0 body <> OutOfFuel /\
  decode_body fields zero r = match value n 0 body with Done v _ => decode_struct fields v zero | _ => None end.
Proof.
  intros Hb Hn. destruct (value_settles 0 body n Hn) as [Hv Hf]. split; [done|].
  unfold decode_body, Decode. rewrite Hb, Hv. cbn [mbind option_bind]. by destruct (value (fuel_for body) 0 body).
Qed.

(** A body cut off in the middle. *)
Definition fx_cut_off : string := "[[[[[[".
Lemma decode_body_terminates_witness : value 14 0 fx_cut_off <> OutOfFuel.
Proof.
  assert (Hn : (fuel_for fx_cut_off <= 14)%nat) by (vm_compute; lia).
  exact (proj1 (decode_body_terminates [] tt (mkReq (fun _ => "") (fun _ => "") (Some fx_cut_off) "" None None) fx_cut_off 14 eq_refl Hn)).
Defined.

(** ** A concrete validator, used by the witnesses *)

Definition fx_rule (rule : string) (v : FieldValue) : bool :=
  if String.eqb rule "required" then negb (is_zero v)
  else match v with
       | FInt z =>
           if String.eqb rule "gt=0" then (0 <? z)%Z
           else if String.eqb rule "gte=0" then (0 <=? z)%Z
           else if String.eqb rule "lte=100000" then (z <=? 100000)%Z
           else if String.eqb rule "min=0" then (0 <=? z)%Z
           else if String.eqb rule "min=1" then (1 <=? z)%Z
           else if String.eqb rule "max=65535" then (z <=? 65535)%Z
           else true
       | FString s =>
           if String.eqb rule "min=16" then (16 <=? String.length s)%nat
           else match strings_CutPrefix rule "oneof=" with
                | Some values => existsb (String.eqb s) (strings_Split " "%char values)
                | None => true
                end
       | _ => true
       end.

Definition fx_field_ok (f : TaggedField) : bool :=
  let '(_, tag, v) := f in forallb (fun rule => fx_rule rule v) (strings_Split ","%char tag).

#[export] Instance fx_validator : ValidatorPkg := {|
  validate_rule := fx_rule;
  validate_Struct fields := if forallb fx_field_ok fields then None else Some "validation failed" |}.

#[export] Instance fx_validator_laws : ValidatorLaws fx_validator.
Proof.
  split; try done.
  2: { intros s. exact (proj1 (Nat.leb_le 16 (String.length s))). }
  2: { intros values s. unfold validate_rule, fx_validator, fx_rule.
    replace (strings_CutPrefix ("oneof=" +:+ values) "oneof=") with (Some values) by (by destruct values).
    intros Hr. change (existsb (String.eqb s) (strings_Split " "%char values) = true) in Hr.
    apply existsb_exists in Hr as (x & Hx & ->%String.eqb_eq). exact Hx. }
  intros fields. cbn [validate_Struct validate_rule fx_validator].
  transitivity (forallb fx_field_ok fields = true); [by destruct (forallb _ _)|].
  rewrite forallb_forall, Forall_forall. unfold fx_field_ok. split; intros Hf [[n tag] v] Hin.
  - specialize (Hf (n, tag, v) (proj1 (list_elem_of_In _ _) Hin)). simpl in Hf. rewrite forallb_forall in Hf.
    rewrite Forall_forall. intros rule Hr. by apply Hf, list_elem_of_In.
  - specialize (Hf (n, tag, v) (proj2 (list_elem_of_In _ _) Hin)). simpl in Hf. rewrite Forall_forall in Hf.
    apply forallb_forall. intros rule Hr. by apply Hf, list_elem_of_In.
Qed.
