(* ===== verification/Walk.v ===== *)
(** * Walking the text of the handlers

    The rules of [Runtime] for the helpers every handler is written with: to
    show that a handler moves the database along a preorder [G] which the
    interference respects, walk its text and prove [G] of the statements it
    sends. *)
From S2P Require Import Prelude GoJson Domain Schema Redis Runtime Ports CheckoutRepos CatalogRepos AccountRepos Http AuthService Requests.

Section walk.
Context `{B : BcryptPkg, Rn : RandPkg} `{V : ValidatorPkg} `{U : UuidPkg} `{E : Env}.
Context (G : DB -> DB -> Prop) `{!PreOrder G}.
#[local] Abbreviation keeps := (upholds G).

Lemma walk_reply st code msg : keeps (Error st code msg).
Proof. apply upholds_ret; apply _. Qed.
Lemma walk_tick {A} (f : nat -> result A) : keeps (fun w => (f (w_tick w), set_tick (S (w_tick w)) w)).
Proof. intros w r w' [= <- <-]. split; reflexivity. Qed.
Lemma walk_rand : keeps (rand_bytes 32).
Proof. apply (walk_tick (fun n => match rand_Read n 32 with Some bs => Ok bs | None => Err (EText "crypto/rand") end)). Qed.
Lemma walk_hash p : keeps (hashPassword p).
Proof. apply (walk_tick (fun n => bcrypt_Generate n p)). Qed.
Lemma walk_fresh id : keeps (fresh_if_nil id).
Proof. unfold fresh_if_nil. case_match; [apply upholds_uuid|apply upholds_ret]; apply _. Qed.

Lemma walk_decodeJSON {S} (fields : list (Field S)) zero r k : (forall req, keeps (k req)) -> keeps (decodeJSONBody fields zero r k).
Proof. intros Hk. unfold decodeJSONBody. case_match; auto using walk_reply. Qed.
Lemma walk_decode {S} (fields : list (Field S)) zero tags r k :
  (forall req, keeps (k req)) -> keeps (decodeAndValidate fields zero tags r k).
Proof. intros Hk. unfold decodeAndValidate. repeat case_match; auto using walk_reply. Qed.
Lemma walk_parse s code msg k : (forall id, keeps (k id)) -> keeps (parse_uuid s code msg k).
Proof. intros Hk. unfold parse_uuid. case_match; auto using walk_reply. Qed.
Lemma walk_user r k : (forall u t, keeps (k u t)) -> keeps (userAndTenant r k).
Proof. intros Hk. unfold userAndTenant. repeat case_match; auto using walk_reply. Qed.
Lemma walk_admin r k : (forall t, keeps (k t)) -> keeps (adminTenant r k).
Proof. intros Hk. unfold adminTenant. case_match; auto using walk_reply. Qed.

Context (rely : forall n d, G d (env_others n d)).

Lemma walk_neutral {A} (m : M A) : db_neutral m -> keeps m.
Proof. intros Hm. apply Hm; [apply _|exact rely]. Qed.

(** A page of rows is only read. *)
Lemma walk_page {A} lim off (f : DB -> list A) : keeps (select (page_stmt lim off f)).
Proof.
  apply upholds_exec; [apply _|exact rely|]. intros now d a d'. unfold page_stmt.
  destruct (page _ _ _); [|done]. intros [= _ <-]. reflexivity.
Qed.
Lemma walk_orders t u lim off : keeps (OrderRepo.ListByUser t u lim off).
Proof.
  unfold OrderRepo.ListByUser. apply upholds_wrap, upholds_exec; [apply _|exact rely|].
  intros now d a d'. destruct (page _ _ _); [|done]. intros [= _ <-]. reflexivity.
Qed.
End walk.

(** One step of the walk; the statements that write are left, as are the calls
    with lemmas of their own. *)
Ltac walk_step :=
  match goal with
  | |- upholds _ (decodeAndValidate _ _ _ _ _) => apply walk_decode; [apply _..|intros ?]
  | |- upholds _ (decodeJSONBody _ _ _ _) => apply walk_decodeJSON; [apply _..|intros ?]
  | |- upholds _ (parse_uuid _ _ _ _) => apply walk_parse; [apply _..|intros ?]
  | |- upholds _ (userAndTenant _ _) => apply walk_user; [apply _..|intros ? ?]
  | |- upholds _ (adminTenant _ _) => apply walk_admin; [apply _..|intros ?]
  | |- upholds _ (Error _ _ _) => apply walk_reply; apply _
  | |- upholds _ (fresh_if_nil _) => apply walk_fresh; apply _
  | |- upholds _ (rand_bytes _) => apply walk_rand; apply _
  | |- upholds _ (hashPassword _) => apply walk_hash; apply _
  | |- upholds _ (exec _ (page_stmt _ _ _)) => apply walk_page; [apply _|assumption]
  | |- upholds _ (OrderRepo.ListByUser _ _ _ _) => apply walk_orders; [apply _|assumption]
  | |- _ => upholds_step; cbv beta iota
  end.
Ltac walk_steps := repeat walk_step.

(** A call of the Redis layer or of the payment provider. *)
Ltac walk_neutral_call :=
  solve [apply walk_neutral; [apply _|assumption|];
         first [apply wr_IsAdmitted_neutral|apply wr_Join_neutral|apply wr_Position_neutral|apply rl_Allow_neutral
               |apply lk_Acquire_neutral|apply lk_Release_neutral|apply gw_CreateIntent_neutral]].

(** ** The account service

    A session writes refresh tokens, a registration one account. *)
Section accounts.
Context `{U : UuidPkg, B : BcryptPkg, J : JwtPkg, Rn : RandPkg} `{E : Env, I : !RefreshTokenRepo.InetCast}.
Context (G : DB -> DB -> Prop) `{!PreOrder G} (rely : forall n d, G d (env_others n d)) (cfg : JWTConfig).
Context (issues : forall rt now d u d', RefreshTokenRepo.insert_token rt now d = Ok (u, d') -> G d d').
Context (revokes : forall id now d n d', RefreshTokenRepo.revoke_stmt id now d = Ok (n, d') -> G d d').
#[local] Abbreviation keeps := (upholds G).

Lemma walk_issue user ua ip : keeps (issueTokenPair cfg user ua ip).
Proof. unfold issueTokenPair, generateRefreshToken, RefreshTokenRepo.Create. walk_steps. apply issues. Qed.

Lemma walk_Login email pw ua ip : keeps (Login cfg email pw ua ip).
Proof. unfold Login, UserRepo.GetByEmail, one_row. repeat first [apply walk_issue|walk_step]. Qed.

Lemma walk_Refresh raw ua ip : keeps (RefreshAccessToken cfg raw ua ip).
Proof.
  unfold RefreshAccessToken, RefreshTokenRepo.GetByTokenHash, UserRepo.GetByID, RefreshTokenRepo.Revoke, must_affect, one_row.
  repeat first [apply walk_issue|walk_step]. apply revokes.
Qed.

Lemma walk_Logout raw : keeps (Logout raw).
Proof.
  unfold Logout, RefreshTokenRepo.GetByTokenHash, RefreshTokenRepo.Revoke, must_affect, one_row. walk_steps. apply revokes.
Qed.

(** The statement is [INSERT INTO users] of an account with this role and club. *)
Lemma walk_register role tenant msg email pw first last :
  (forall u now d x d', u_Role u = role -> u_TenantID u = tenant -> UserRepo.insert_user u now d = Ok (x, d') -> G d d') ->
  keeps (register role tenant msg email pw first last).
Proof. intros HG. unfold register, UserRepo.Create. walk_steps; by apply HG. Qed.
End accounts.
