(* ===== verification/Config.v ===== *)
(** * Configuration ([src/internal/config/config.go])

    The settings of the processes, loading them from the environment, and what
    their validation guarantees to the rest of the program. *)
From Stdlib Require Import Ascii.
From S2P Require Import Prelude GoJson Domain Schema Redis Runtime Ports Http AuthService Requests.

Record AppConfig := mkAppConfig { app_Env : string; app_Name : string; app_LogLevel : string }.
Definition IsProduction (a : AppConfig) : bool := String.eqb (app_Env a) "production".

Record HTTPConfig := mkHTTPConfig {
  http_Port : Z; http_ReadTimeout : Duration; http_WriteTimeout : Duration; http_IdleTimeout : Duration;
  http_ShutdownTimeout : Duration }.
Record PostgresConfig := mkPostgresConfig {
  pg_DSN : string; pg_MaxOpenConns : Z; pg_MaxIdleConns : Z; pg_ConnMaxLifetime : Duration }.
Record RedisConfig := mkRedisConfig { red_Addr : string; red_Password : string; red_DB : Z; red_PoolSize : Z }.
Record KafkaConfig := mkKafkaConfig { kafka_Brokers : list string; kafka_ConsumerGroup : string }.
Record StripeConfig := mkStripeConfig { stripe_SecretKey : string; stripe_WebhookSecret : string }.
Record AdyenConfig := mkAdyenConfig { adyen_APIKey : string; adyen_MerchantAccount : string }.
Record BootstrapConfig := mkBootstrapConfig { bs_Secret : string }.
Record WorkerConfig := mkWorkerConfig {
  wk_SweepInterval : Duration; wk_SweepBatchSize : Z; wk_AdmissionInterval : Duration; wk_AdmissionMaxPerTick : Z;
  wk_NotificationInterval : Duration; wk_NotificationBatchSize : Z }.
Record EmailConfig := mkEmailConfig {
  mail_Host : string; mail_Port : string; mail_Username : string; mail_Password : string; mail_From : string }.

(** [JWTConfig] is the auth service's; the refresh secret, which no code reads,
    is kept beside it. *)
Record Settings := mkSettings {
  cf_App : AppConfig; cf_HTTP : HTTPConfig; cf_Postgres : PostgresConfig; cf_Redis : RedisConfig; cf_Kafka : KafkaConfig;
  cf_JWT : JWTConfig; cf_JWTRefreshSecret : string; cf_Stripe : StripeConfig; cf_Adyen : AdyenConfig;
  cf_Bootstrap : BootstrapConfig; cf_Worker : WorkerConfig; cf_Email : EmailConfig }.

(** The fields that carry a [validate] tag. *)
Definition settings_tags (c : Settings) : list TaggedField :=
  [("Env", "oneof=development staging production", FString (app_Env (cf_App c)));
   ("LogLevel", "oneof=debug info warn error", FString (app_LogLevel (cf_App c)));
   ("Port", "required,min=1,max=65535", FInt (http_Port (cf_HTTP c)));
   ("DSN", "required", FString (pg_DSN (cf_Postgres c)));
   ("MaxOpenConns", "min=1", FInt (pg_MaxOpenConns (cf_Postgres c)));
   ("MaxIdleConns", "min=0", FInt (pg_MaxIdleConns (cf_Postgres c)));
   ("Addr", "required", FString (red_Addr (cf_Redis c)));
   ("PoolSize", "min=1", FInt (red_PoolSize (cf_Redis c)));
   ("Secret", "required,min=16", FString (jc_Secret (cf_JWT c)));
   ("RefreshSecret", "required,min=16", FString (cf_JWTRefreshSecret c));
   ("SweepBatchSize", "min=1", FInt (wk_SweepBatchSize (cf_Worker c)));
   ("AdmissionMaxPerTick", "min=1", FInt (wk_AdmissionMaxPerTick (cf_Worker c)));
   ("NotificationBatchSize", "min=1", FInt (wk_NotificationBatchSize (cf_Worker c)))].

(** The process environment; [godotenv.Load] adds the variables of a [.env]
    file, [env.Parse] fills the struct by its [env] and [envDefault] tags. *)
Definition Environment : Type := string -> option string.
Class EnvPkg := {
  godotenv_Load : Environment -> Environment;
  env_Parse : Environment -> result Settings }.

Definition Load `{ValidatorPkg, EnvPkg} (vars : Environment) : result Settings :=
  match env_Parse (godotenv_Load vars) with
  | Err e => Err (EWrap "config: parse env" e)
  | Ok cfg =>
      match validate_Struct (settings_tags cfg) with
      | Some msg => Err (EWrap "config: validate" (EText msg))
      | None => Ok cfg
      end
  end.

(** What the rest of the program may rely on. *)
Record well_configured (c : Settings) : Prop := {
  wc_env : In (app_Env (cf_App c)) ["development"; "staging"; "production"];
  wc_port : (1 <= http_Port (cf_HTTP c) <= 65535)%Z;
  wc_dsn : pg_DSN (cf_Postgres c) <> "";
  wc_open : (1 <= pg_MaxOpenConns (cf_Postgres c))%Z;
  wc_idle : (0 <= pg_MaxIdleConns (cf_Postgres c))%Z;
  wc_addr : red_Addr (cf_Redis c) <> "";
  wc_pool : (1 <= red_PoolSize (cf_Redis c))%Z;
  wc_secret : (16 <= String.length (jc_Secret (cf_JWT c)))%nat;
  wc_refresh_secret : (16 <= String.length (cf_JWTRefreshSecret c))%nat;
  wc_sweep : (1 <= wk_SweepBatchSize (cf_Worker c))%Z;
  wc_admission : (1 <= wk_AdmissionMaxPerTick (cf_Worker c))%Z;
  wc_notification : (1 <= wk_NotificationBatchSize (cf_Worker c))%Z }.

Section load.
Context `{V : ValidatorPkg, !ValidatorLaws V} `{P : EnvPkg}.

(** The rule [n] of the tagged field [i] of validated settings holds. *)
Lemma settings_rule c i n name tag v rule :
  validate_Struct (settings_tags c) = None -> nth_error (settings_tags c) i = Some (name, tag, v) ->
  nth_error (strings_Split ","%char tag) n = Some rule -> validate_rule rule v = true.
Proof. intros Hv Hf Hr. eapply validated; [exact Hv|by eapply nth_error_In|by eapply nth_error_In]. Qed.

Lemma required_string s : validate_rule "required" (FString s) = true -> s <> "".
Proof. rewrite validate_required. simpl. by intros ?%negb_true_iff ->. Qed.

Lemma load_checked vars c : Load vars = Ok c -> well_configured c.
Proof.
  unfold Load. destruct (env_Parse _) as [cfg|]; [|done]. destruct (validate_Struct _) eqn:Hv; [done|].
  intros [= ->].
  pose proof (fun i n name tag v rule => settings_rule c i n name tag v rule Hv) as Hr.
  pose proof (Hr 0 0 _ _ _ _ eq_refl eq_refl) as Henv%(validate_oneof "development staging production").
  pose proof (Hr 2 1 _ _ _ _ eq_refl eq_refl) as Hlo. pose proof (Hr 2 2 _ _ _ _ eq_refl eq_refl) as Hhi.
  pose proof (Hr 3 0 _ _ _ _ eq_refl eq_refl) as Hdsn%required_string.
  pose proof (Hr 4 0 _ _ _ _ eq_refl eq_refl) as Hopen. pose proof (Hr 5 0 _ _ _ _ eq_refl eq_refl) as Hidle.
  pose proof (Hr 6 0 _ _ _ _ eq_refl eq_refl) as Haddr%required_string.
  pose proof (Hr 7 0 _ _ _ _ eq_refl eq_refl) as Hpool.
  pose proof (Hr 8 1 _ _ _ _ eq_refl eq_refl) as Hs%validate_min16.
  pose proof (Hr 9 1 _ _ _ _ eq_refl eq_refl) as Hrs%validate_min16.
  pose proof (Hr 10 0 _ _ _ _ eq_refl eq_refl) as Hsw. pose proof (Hr 11 0 _ _ _ _ eq_refl eq_refl) as Had.
  pose proof (Hr 12 0 _ _ _ _ eq_refl eq_refl) as Hno. clear Hr.
  rewrite validate_min1 in *. rewrite validate_max in Hhi. rewrite validate_min0 in Hidle.
  split; try done; lia.
Qed.

(** No process starts misconfigured. Whatever the environment, [Load]
    either fails or yields settings within their bounds: a known deployment
    name, a TCP port, a database and a Redis address, positive pool and batch
    sizes, and signing secrets of at least 16 bytes. *)
Theorem Load_well_configured vars : match Load vars with Ok c => well_configured c | Err _ => True end.
Proof. destruct (Load vars) eqn:Hl; [by apply load_checked in Hl|done]. Qed.
End load.

(** ** Concrete settings, used by the witnesses *)

Definition fx_settings (sweepInterval : Duration) : Settings :=
  mkSettings (mkAppConfig "development" "ticketing-backend" "info")
    (mkHTTPConfig 8080 (10 * Second) (15 * Second) (60 * Second) (15 * Second))
    (mkPostgresConfig "postgres://localhost/ticketing" 25 10 (30 * Minute)) (mkRedisConfig "localhost:6379" "" 0 50)
    (mkKafkaConfig ["localhost:9092"] "ticketing-worker") (mkJWTConfig "0123456789abcdef" (15 * Minute) (720 * Hour))
    "fedcba9876543210" (mkStripeConfig "" "whsec") (mkAdyenConfig "" "") (mkBootstrapConfig "")
    (mkWorkerConfig sweepInterval 500 (5 * Second) 200 (5 * Second) 100)
    (mkEmailConfig "" "587" "" "" "noreply@ticketing.example").

(** An environment that says nothing, but how often to sweep. *)
#[export] Instance fx_env_pkg : EnvPkg := {|
  godotenv_Load vars := vars;
  env_Parse vars := Ok (fx_settings (match vars "WORKER_SWEEP_INTERVAL" with Some _ => 0 | None => 10 * Second end)) |}.

Lemma Load_well_configured_witness : Load (fun _ => None) = Ok (fx_settings (10 * Second)) /\ well_configured (fx_settings (10 * Second)).
Proof.
  pose proof (Load_well_configured (fun _ => None)) as HH.
  assert (Hl : Load (fun _ => None) = Ok (fx_settings (10 * Second))) by (vm_compute; reflexivity).
  rewrite Hl in HH. split; [exact Hl|exact HH].
Defined.
