(* ===== verification/Worker.v ===== *)
(** * The worker process ([src/cmd/worker/main.go])

    Three loops driven by tickers: sweeping expired holds, admitting fans and
    sending notifications. They run as goroutines of one process; a run of the
    process is the sequence of their ticks, in any order. *)
From S2P Require Import Prelude GoJson Crypto Domain Schema Redis Runtime Ports Fixtures InventoryRepo RedisRepo InventoryService.
From S2P Require Import CheckoutRepos CatalogRepos AccountRepos AuthService NotificationService AdmissionService Requests Config.

Inductive Loop := SweepLoop | AdmissionLoop | NotificationLoop.
#[global] Instance Loop_dec : EqDecision Loop. Proof. solve_decision. Defined.

Section worker.
Context `{U : UuidPkg, C : Collation, T : ErrorText, Smtp : SmtpPkg} `{E : Env}.
Context (cfg : Settings).

(** SMTP when a host is configured, the console otherwise. *)
Definition sender : EmailSender :=
  if String.eqb (mail_Host (cf_Email cfg)) "" then ConsoleSender
  else SMTPSender (mail_Host (cf_Email cfg)) (mail_Port (cf_Email cfg)) (mail_From (cf_Email cfg)).

(** One tick; the outcome is only logged. *)
Definition tick (loop : Loop) : M unit :=
  match loop with
  | SweepLoop => attempt (SweepExpiredHolds (wk_SweepBatchSize (cf_Worker cfg)));;; ret tt
  | AdmissionLoop => attempt (RunOnce DefaultConfig (wk_AdmissionMaxPerTick (cf_Worker cfg)));;; ret tt
  | NotificationLoop =>
      attempt (ProcessPending (Mailer := sender) (wk_NotificationBatchSize (cf_Worker cfg)));;; ret tt
  end.

Definition interval (loop : Loop) : Duration :=
  match loop with
  | SweepLoop => wk_SweepInterval (cf_Worker cfg)
  | AdmissionLoop => wk_AdmissionInterval (cf_Worker cfg)
  | NotificationLoop => wk_NotificationInterval (cf_Worker cfg)
  end.

(** [time.NewTicker] panics when the interval is not positive, which ends the
    process; otherwise the loops run until they are told to stop. *)
Definition NewTicker_panics (loop : Loop) : bool := (interval loop <=? 0)%Z.

Definition run (ticks : list Loop) : M unit :=
  if existsb NewTicker_panics [SweepLoop; AdmissionLoop; NotificationLoop]
  then throw (EText "panic: non-positive interval for NewTicker")
  else fold_loop (fun _ => tick) tt ticks.

End worker.

(** ** The sweep loop empties the backlog *)

Definition held_units (d : DB) : nat := size (filter (fun kv => inv_Status kv.2 = InventoryStatusHeld) (inventory d)).

Definition sweeps (ticks : list Loop) : nat := length (filter (fun l => l = SweepLoop) ticks).

(** Every unit is as it was, or was held, had expired at an instant of the run
    (between its interactions [n] and [m]) and is on sale again. *)
Definition only_released `{Env} (n m : nat) (d d' : DB) : Prop :=
  forall i r, inventory d !! i = Some r -> inventory d' !! i = Some r \/
    ((exists k, (n <= k < m)%nat /\ expired_at (env_clock k) r = true) /\
     exists t, inventory d' !! i = Some (set_hold InventoryStatusAvailable None None None t r)).

Lemma only_released_refl `{Env} n m d : only_released n m d d.
Proof. by left. Qed.
Lemma only_released_trans `{Env} n m p d1 d2 d3 : (n <= m <= p)%nat ->
  only_released n m d1 d2 -> only_released m p d2 d3 -> only_released n p d1 d3.
Proof.
  intros Hle H1 H2 i r Hr. destruct (H1 i r Hr) as [Hi|((k & Hk & He) & t & Hi)].
  - destruct (H2 i r Hi) as [?|((k & Hk & He) & Hx)]; [by left|]. right. split; [|done]. exists k. split; [lia|done].
  - right. split; [exists k; split; [lia|done]|]. destruct (H2 _ _ Hi) as [?|((k' & _ & He') & _)]; [by exists t|].
    unfold expired_at in He'. done.
Qed.

Definition held_map (d : DB) : gmap UUID EventSeatInventory := filter (fun kv => inv_Status kv.2 = InventoryStatusHeld) (inventory d).

(** No hold that had expired by [t] is left. *)
Definition swept (t : Time) (d : DB) : Prop := forall i r, inventory d !! i = Some r -> expired_at t r = false.

Lemma expired_is_held t r : expired_at t r = true -> inv_Status r = InventoryStatusHeld.
Proof. unfold expired_at. by intros [H%bool_decide_eq_true _]%andb_true_iff. Qed.

Lemma expired_later t t' r : (t <= t')%Z -> expired_at t r = true -> expired_at t' r = true.
Proof. unfold expired_at. rewrite !andb_true_iff. intros Ht [-> Hx]. split; [done|]. destruct (inv_HoldExpiresAt r); [lia|done]. Qed.

Lemma swept_subset t d d' : held_map d' ⊆ held_map d -> swept t d -> swept t d'.
Proof.
  intros Hsub Hs i r Hr. destruct (expired_at t r) eqn:He; [|done]. rewrite <- He. apply (Hs i).
  assert (Hh : held_map d' !! i = Some r) by (apply map_lookup_filter_Some; split; [done|by eapply expired_is_held]).
  by eapply lookup_weaken, map_lookup_filter_Some in Hh as [? _].
Qed.

Lemma none_held_swept t d : held_units d = 0%nat -> swept t d.
Proof.
  intros H0%map_size_empty_inv i r Hr. destruct (expired_at t r) eqn:He; [|done].
  apply expired_is_held in He. by apply map_filter_empty_not_lookup with (i := i) (x := r) in H0; [destruct H0|].
Qed.

(** ** What the two other loops write *)

Section others_loops.
Context `{U : UuidPkg, C : Collation, T : ErrorText, Smtp : SmtpPkg} `{E : Env}.

(** An admission tick only reads the database. *)
Lemma admission_neutral cfg n : db_neutral (RunOnce cfg n).
Proof.
  intros G HG rely.
  unfold RunOnce, admit_tenant, admit_event, admitForEvent, QueueLength, AdmitNext, TenantRepo.List, EventRepo.List, page_stmt.
  cbn [ir_CountByStatus InventoryRepo wr_QueueLength wr_Admit WaitingRoom].
  unfold CountByStatus, RedisRepo.QueueLength, Admit, mark_admitted. upholds_steps;
    intros Hs; injection Hs as _ <-; reflexivity.
Qed.

#[export] Instance sender_contract cfg : EmailContract (sender cfg).
Proof.
  split. intros msg G HG rely w r w'. unfold sender. destruct (String.eqb _ _); cbn; unfold console_Send, smtp_Send, deliver.
  - intros [= _ <-]. by split.
  - destruct (smtp_SendMail _ _ _ _ _); intros [= _ <-]; by split.
Qed.

(** A notification tick marks notifications sent or failed. *)
Lemma notification_upholds (G : DB -> DB -> Prop) `{!PreOrder G} cfg n :
  (forall k d, G d (env_others k d)) ->
  (forall id upd now d m d', upd = NotificationRepo.sent \/ (exists e, upd = NotificationRepo.failed e) ->
     NotificationRepo.mark_stmt id upd now d = Ok (m, d') -> G d d') ->
  upholds G (ProcessPending (Mailer := sender cfg) n).
Proof.
  intros rely Hmark.
  unfold ProcessPending, process_row, processOne, NotificationRepo.ListPending, NotificationRepo.MarkFailed,
    NotificationRepo.MarkSent, UserRepo.GetByID, one_row, must_affect.
  upholds_steps; try (by apply em_Send_neutral); try (apply Hmark; eauto).
  unfold NotificationRepo.list_pending_stmt. destruct (_ <? _)%Z; [done|]. intros Hs. injection Hs as _ <-. reflexivity.
Qed.
End others_loops.

(** ** Time passes *)

Section ticks.
Context `{U : UuidPkg, C : Collation, T : ErrorText, Smtp : SmtpPkg} `{E : Env}.

Lemma sender_ticks cfg msg : along tick_le (em_Send (EmailSender := sender cfg) msg).
Proof.
  intros w r w'. unfold sender. destruct (String.eqb _ _); cbn; unfold console_Send, smtp_Send, deliver.
  - intros [= _ <-]. unfold tick_le. simpl. lia.
  - destruct (smtp_SendMail _ _ _ _ _); intros [= _ <-]; unfold tick_le; simpl; lia.
Qed.

Lemma sweep_ticks batch w r w' : SweepExpiredHolds batch w = (r, w') -> (w_tick w < w_tick w')%nat.
Proof.
  unfold SweepExpiredHolds. intros [(now & w0 & [= <- <-] & Hw)|(? & [=] & _)]%bind_inv.
  assert (Ha : along tick_le (expired <- wrap "inventory: list expired holds" (ir_ListExpiredHolds (env_clock (w_tick w)) batch);;
    fold_loop sweep_row 0%Z expired)).
  { unfold sweep_row. cbn [ir_ListExpiredHolds ir_Release InventoryRepo]. unfold ListExpiredHolds, Release. along_steps. }
  apply Ha in Hw. unfold tick_le in Hw. simpl in Hw. lia.
Qed.

Lemma admission_ticks cfg n : along tick_le (RunOnce cfg n).
Proof.
  unfold RunOnce, admit_tenant, admit_event, admitForEvent, QueueLength, AdmitNext, TenantRepo.List, EventRepo.List.
  cbn [ir_CountByStatus InventoryRepo wr_QueueLength wr_Admit WaitingRoom].
  unfold CountByStatus, RedisRepo.QueueLength, Admit, mark_admitted. along_steps.
Qed.

Lemma notification_ticks cfg n : along tick_le (ProcessPending (Mailer := sender cfg) n).
Proof.
  unfold ProcessPending, process_row, processOne, NotificationRepo.ListPending, NotificationRepo.MarkFailed,
    NotificationRepo.MarkSent, UserRepo.GetByID, one_row, must_affect.
  along_steps; apply sender_ticks.
Qed.
End ticks.

Section drains.
Context `{U : UuidPkg, C : Collation, T : ErrorText, Smtp : SmtpPkg} `{E : Env} `{!Quiet}.

(** One sweep: either nothing expired is left, or a full batch was released. *)
Lemma sweep_once batch t w :
  inventory_wf (w_db w) -> (0 <= batch)%Z -> (t <= env_clock (w_tick w))%Z ->
  exists r w', SweepExpiredHolds batch w = (r, w') /\ inventory_wf (w_db w') /\
    (w_tick w < w_tick w')%nat /\ only_released (w_tick w) (w_tick w') (w_db w) (w_db w') /\
    held_map (w_db w') ⊆ held_map (w_db w) /\
    (swept t (w_db w') \/ (held_units (w_db w') + Z.to_nat batch = held_units (w_db w))%nat).
Proof.
  intros Hwf Hb Ht. destruct (Sweep_post batch w Hwf Hb) as (w' & l & Hs & Hnd & Hrel & Hrest & Hfull & _).
  exists (Ok (Z.of_nat (length l))), w'. split; [done|]. pose proof (sweep_ticks _ _ _ _ Hs) as Hlt.
  assert (Hrow : forall i, i ∈ inv_ID <$> l -> exists r x, inventory (w_db w) !! i = Some r /\
      expired_at (env_clock (w_tick w)) r = true /\ inventory (w_db w') !! i = Some (set_hold InventoryStatusAvailable None None None x r)).
  { intros i (r & -> & Hr)%list_elem_of_fmap. destruct (Hrel r Hr) as (He & Hi & x & Hx). eauto 6. }
  assert (Hheld : forall i, held_map (w_db w') !! i = if decide (i ∈ inv_ID <$> l) then None else held_map (w_db w) !! i).
  { intros i. apply option_eq. intros r. unfold held_map. rewrite map_lookup_filter_Some. case_decide as Hi.
    - destruct (Hrow i Hi) as (r0 & x & _ & _ & ->). split; [by intros [[= <-] [=]]|done].
    - rewrite Hrest by done. by rewrite map_lookup_filter_Some. }
  assert (Hcount : (held_units (w_db w') + length l = held_units (w_db w))%nat).
  { rewrite <- (length_fmap inv_ID l). apply (size_removed (inv_ID <$> l) (held_map (w_db w))); [done| |done].
    intros i Hi. destruct (Hrow i Hi) as (r & x & Hr & He & _). exists r.
    apply map_lookup_filter_Some. split; [done|by eapply expired_is_held]. }
  split_and!; [|done|..].
  - intros i r Hi. destruct (decide (i ∈ inv_ID <$> l)) as [Hin|Hn].
    + destruct (Hrow i Hin) as (r0 & x & Hr & _ & Hi'). rewrite Hi in Hi'. injection Hi' as ->.
      destruct (Hwf _ _ Hr) as [Hid _]. by split.
    + rewrite Hrest in Hi by done. by apply Hwf.
  - intros i r Hi. destruct (decide (i ∈ inv_ID <$> l)) as [Hin|Hn].
    + destruct (Hrow i Hin) as (r0 & x & Hr & He & Hi'). right. rewrite Hi in Hr. injection Hr as ->.
      split; [|by exists x]. exists (w_tick w). by split.
    + left. by rewrite Hrest.
  - apply map_subseteq_spec. intros i r. rewrite Hheld. by case_decide.
  - destruct (decide (Z.of_nat (length l) = batch)) as [<-|Hnot]; [right; by rewrite Nat2Z.id|left].
    intros i r Hi. destruct (expired_at t r) eqn:He; [|done]. apply (expired_later t _ _ Ht) in He. destruct Hnot. by eapply Hfull.
Qed.

Definition same_inventory (d d' : DB) : Prop := inventory d' = inventory d.
#[global] Instance same_inventory_preorder : PreOrder same_inventory.
Proof. unfold same_inventory. split; [done|intros d1 d2 d3 H1 H2; congruence]. Qed.
Lemma same_inventory_rely n d : same_inventory d (env_others n d).
Proof. unfold same_inventory. by rewrite quiet_others. Qed.

Lemma admission_keeps cfg n : upholds same_inventory (RunOnce cfg n).
Proof. apply admission_neutral; [apply _|exact same_inventory_rely]. Qed.

Lemma notification_keeps cfg n : upholds same_inventory (ProcessPending (Mailer := sender cfg) n).
Proof.
  apply notification_upholds; [apply _|exact same_inventory_rely|].
  intros id upd now d m d' _. by intros [(_ & -> & _)|(_ & r & _ & _ & ->)]%update_row_Ok.
Qed.

Lemma drain cfg t ticks w :
  (forall n, (t <= env_clock n)%Z) -> (1 <= wk_SweepBatchSize (cf_Worker cfg))%Z -> inventory_wf (w_db w) ->
  (swept t (w_db w) \/ (held_units (w_db w) <= sweeps ticks * Z.to_nat (wk_SweepBatchSize (cf_Worker cfg)))%nat) ->
  exists w', fold_loop (fun _ => tick cfg) tt ticks w = (Ok tt, w') /\ swept t (w_db w') /\
    (w_tick w <= w_tick w')%nat /\ only_released (w_tick w) (w_tick w') (w_db w) (w_db w').
Proof.
  intros Ht Hb. set (b := Z.to_nat (wk_SweepBatchSize (cf_Worker cfg))).
  revert w. induction ticks as [|l ticks IH]; intros w Hwf Hd.
  { exists w. split; [done|]. split; [|split; [done|apply only_released_refl]]. destruct Hd as [|Hd]; [done|].
    apply none_held_swept. unfold sweeps in Hd. simpl in Hd. lia. }
  assert (Hkeep : forall (m : M unit), upholds same_inventory m -> along tick_le m -> (forall w, is_ok (fst (m w)) = true) ->
    tick cfg l = m -> l <> SweepLoop ->
    exists w', fold_loop (fun _ => tick cfg) tt (l :: ticks) w = (Ok tt, w') /\ swept t (w_db w') /\
      (w_tick w <= w_tick w')%nat /\ only_released (w_tick w) (w_tick w') (w_db w) (w_db w')).
  { intros m Hm Hk Hok Htick Hl. cbn [fold_loop]. unfold bind at 1. rewrite Htick. specialize (Hok w).
    destruct (m w) as [[[]|] w1] eqn:Hw; [|done]. apply Hk in Hw as K1. unfold tick_le in K1. apply Hm in Hw as [_ Hi].
    destruct (IH w1) as (w' & Hf & Hs & K2 & Ho).
    - intros i r. rewrite Hi. apply Hwf.
    - unfold sweeps in Hd. rewrite filter_cons, decide_False in Hd by done.
      destruct Hd as [Hd|Hd]; [left|right; unfold held_units in *; by rewrite Hi].
      intros i r. rewrite Hi. apply Hd.
    - exists w'. split; [done|]. split; [done|]. split; [lia|].
      apply (only_released_trans _ (w_tick w1) _ _ (w_db w1)); [lia| |done]. intros i r Hr. left. by rewrite Hi. }
  assert (Hattempt : forall {A} (m : M A) w, is_ok (fst ((attempt m;;; ret tt) w)) = true).
  { intros A m w0. unfold bind, attempt. by destruct (m w0). }
  destruct l.
  - cbn [fold_loop]. unfold bind at 1. cbn [tick]. rewrite bind_attempt.
    destruct (sweep_once (wk_SweepBatchSize (cf_Worker cfg)) t w Hwf ltac:(lia) (Ht _)) as (r & w1 & -> & Hwf1 & K1 & Ho1 & Hsub & Hs1).
    unfold ret at 1. destruct (IH w1 Hwf1) as (w' & Hf & Hs & K2 & Ho).
    { destruct Hs1 as [Hs1|Hs1]; [by left|]. destruct Hd as [Hd|Hd]; [left; by eapply swept_subset|right].
      unfold sweeps in Hd. rewrite filter_cons, decide_True in Hd by done. unfold sweeps. simpl in Hd. fold b in Hs1. lia. }
    exists w'. split; [done|]. split; [done|]. split; [lia|]. eapply only_released_trans; [|done..]. lia.
  - eapply Hkeep; [| |apply Hattempt|done|done].
    + apply upholds_bind; [apply _|apply upholds_attempt, admission_keeps|intros; apply upholds_ret; apply _].
    + along_steps. apply admission_ticks.
  - eapply Hkeep; [| |apply Hattempt|done|done].
    + apply upholds_bind; [apply _|apply upholds_attempt, notification_keeps|intros; apply upholds_ret; apply _].
    + along_steps. apply notification_ticks.
Qed.

(** C21: the worker empties the backlog. With positive intervals and nobody else
    writing, however the ticks of the three loops interleave, the run goes on to
    the end, and once enough sweeps have ticked for the units that were held
    ([batch] per sweep) no hold that had expired when the worker started is
    left: each such unit is on sale again. The only other units that change are
    holds that expired at some instant of the run and are on sale again too. *)
Theorem worker_drains_backlog cfg t ticks w :
  existsb (NewTicker_panics cfg) [SweepLoop; AdmissionLoop; NotificationLoop] = false ->
  (1 <= wk_SweepBatchSize (cf_Worker cfg))%Z -> inventory_wf (w_db w) -> (forall n, (t <= env_clock n)%Z) ->
  (held_units (w_db w) <= sweeps ticks * Z.to_nat (wk_SweepBatchSize (cf_Worker cfg)))%nat ->
  exists w', run cfg ticks w = (Ok tt, w') /\ only_released (w_tick w) (w_tick w') (w_db w) (w_db w') /\
    forall i r, inventory (w_db w) !! i = Some r -> expired_at t r = true ->
      exists x, inventory (w_db w') !! i = Some (set_hold InventoryStatusAvailable None None None x r).
Proof.
  intros Hi Hb Hwf Ht Hheld. destruct (drain cfg t ticks w Ht Hb Hwf (or_intror Hheld)) as (w' & Hf & Hs & _ & Ho).
  exists w'. unfold run. rewrite Hi. split; [done|]. split; [done|]. intros i r Hr He.
  destruct (Ho i r Hr) as [Hi'|(_ & x & Hx)]; [|by exists x]. apply Hs in Hi'. congruence.
Qed.
End drains.

(** ** Witnesses *)

#[export] Instance fx_no_smtp : SmtpPkg := {| smtp_SendMail _ _ _ _ _ := Some (EText "no server") |}.

(** Three loops, one tick each: the unit whose hold has expired is on sale again. *)
Lemma worker_drains_backlog_witness : exists w' x,
  run (fx_settings (10 * Second)) [NotificationLoop; AdmissionLoop; SweepLoop] (fx_world fx_db) = (Ok tt, w') /\
  inventory (w_db w') !! 103%N =
    Some (set_hold InventoryStatusAvailable None None None x (fx_unit 103 InventoryStatusHeld (Some 501%N) (Some 12%N) (Some 900%Z))).
Proof.
  destruct (worker_drains_backlog (fx_settings (10 * Second)) 1000000 [NotificationLoop; AdmissionLoop; SweepLoop] (fx_world fx_db))
    as (w' & Hr & _ & Hx).
  - vm_compute. reflexivity.
  - simpl. lia.
  - exact fx_inventory_wf.
  - intros n. simpl. lia.
  - apply Nat.leb_le. vm_compute. reflexivity.
  - destruct (Hx 103%N (fx_unit 103 InventoryStatusHeld (Some 501%N) (Some 12%N) (Some 900%Z))) as (x & Hi); [reflexivity..|].
    exists w', x. split; [exact Hr|exact Hi].
Defined.

(** Settings that pass the validation and with which the worker dies at once. *)
Lemma zero_interval_panics : exists vars cfg,
  Load vars = Ok cfg /\ run cfg [] (fx_world fx_db) = (Err (EText "panic: non-positive interval for NewTicker"), fx_world fx_db).
Proof.
  exists (fun v => if String.eqb v "WORKER_SWEEP_INTERVAL" then Some "0s" else None), (fx_settings 0).
  split; [vm_compute; reflexivity|reflexivity].
Qed.
