(* ===== verification/PurchaseHandlers.v ===== *)
(** * The purchase endpoints ([src/internal/handler/http/inventory.go] and [order.go])

    Joining the waiting room, holding and releasing a unit, and turning holds
    into an order. Every handler turns the request into one call of the
    inventory or order service and its outcome into a status code. *)
From S2P Require Import Prelude GoJson Domain Schema Redis Runtime Ports Fixtures InventoryRepo RedisRepo InventoryService.
From S2P Require Import CheckoutRepos CatalogRepos PaymentGateways OrderService OrderCreate Http AuthService Requests.

(** ** inventory.go *)

Definition holdSeatRequest : list (Field string) := [str_field "event_id" (fun x _ => x)].
Definition releaseHoldRequest : list (Field string) := [str_field "hold_token" (fun x _ => x)].

Section inventory.
Context `{U : UuidPkg} `{E : Env}.
Context `{R : !InventoryRepository, L : !locker, W : !waitingRoom, RL : !rateLimiter} (cfg : Config).

Definition JoinQueue_handler : Handler := fun r =>
  match UserIDFromContext r with
  | None => Error 401 "missing-token" "not authenticated"
  | Some userID =>
      parse_uuid (rq_URLParam r "eventID") "invalid-event-id" "event id must be a valid UUID" (fun eventID =>
        position <- attempt (JoinQueue eventID userID);;
        match position with
        | Err _ => Error 500 "internal-error" "could not join queue"
        | Ok n => JSON 200 (JsObj [("position", JsInt n)])
        end)
  end.

Definition QueueStatus_handler : Handler := fun r =>
  match UserIDFromContext r with
  | None => Error 401 "missing-token" "not authenticated"
  | Some userID =>
      parse_uuid (rq_URLParam r "eventID") "invalid-event-id" "event id must be a valid UUID" (fun eventID =>
        status <- attempt (QueueStatus eventID userID);;
        match status with
        | Err e =>
            if errors_Is e (SRedis ErrNotQueued)
            then Error 404 "not-queued" "you have not joined the queue for this event"
            else Error 500 "internal-error" "could not check queue status"
        | Ok st => JSON 200 (JsObj [("admitted", JsBool (qs_Admitted st)); ("position", JsInt (qs_Position st))])
        end)
  end.

(** The switch of [Hold]. *)
Definition hold_reply (result : result HoldResult) : M Response :=
  match result with
  | Ok h => JSON 200 (JsObj [("hold_token", JsStr (uuid_String (hr_HoldToken h))); ("expires_at", JsTime (hr_ExpiresAt h))])
  | Err e =>
      if errors_Is e (SInventory ErrNotAdmitted)
      then Error 403 "not-admitted" "join the waiting room and wait to be admitted before holding a seat"
      else if errors_Is e (SInventory ErrRateLimited) then Error 429 "rate-limited" "too many hold attempts, slow down"
      else if errors_Is e (SInventory ErrLockContention) || errors_Is e (SDomain ErrUnavailable)
      then Error 409 "unavailable" "this seat is no longer available — try another"
      else Error 500 "internal-error" "could not hold seat"
  end.

Definition Hold_handler : Handler := fun r =>
  userAndTenant r (fun userID tenantID =>
    parse_uuid (rq_URLParam r "id") "invalid-inventory-id" "inventory id must be a valid UUID" (fun inventoryID =>
      decodeJSONBody holdSeatRequest "" r (fun req =>
        parse_uuid req "invalid-event-id" "event_id must be a valid UUID" (fun eventID =>
          result <- attempt (HoldSeat cfg tenantID eventID inventoryID userID);;
          hold_reply result)))).

Definition Release_handler : Handler := fun r =>
  userAndTenant r (fun _ tenantID =>
    parse_uuid (rq_URLParam r "id") "invalid-inventory-id" "inventory id must be a valid UUID" (fun inventoryID =>
      decodeJSONBody releaseHoldRequest "" r (fun req =>
        parse_uuid req "invalid-hold-token" "hold_token must be a valid UUID" (fun holdToken =>
          released <- attempt (ReleaseHold tenantID inventoryID holdToken);;
          match released with
          | Err e =>
              if errors_Is e (SDomain ErrExpired)
              then Error 409 "already-expired" "this hold has already expired or was already released"
              else Error 500 "internal-error" "could not release hold"
          | Ok _ => JSON 200 (JsObj [("status", JsStr "released")])
          end)))).

End inventory.

(** ** order.go *)

Record createOrderItemRequest := mkItemRequest { ir_InventoryID : string; ir_HoldToken : string }.
Record createOrderRequest := mkOrderRequest { or_IdempotencyKey : string; or_Items : Slice createOrderItemRequest }.

Definition item_request_fields : list (Field createOrderItemRequest) :=
  [str_field "inventory_id" (fun x i => mkItemRequest x (ir_HoldToken i));
   str_field "hold_token" (fun x i => mkItemRequest (ir_InventoryID i) x)].
Definition order_request_fields : list (Field createOrderRequest) :=
  [str_field "idempotency_key" (fun x o => mkOrderRequest x (or_Items o));
   slice_field "items" item_request_fields (mkItemRequest "" "") or_Items (fun l o => mkOrderRequest (or_IdempotencyKey o) l)].

Definition time_pointer (t : option Time) : Json := match t with Some t => JsTime t | None => JsNull end.

Section order.
Context `{U : UuidPkg} `{T : ErrorText} `{E : Env} `{G : !PaymentGateway}.

Definition orderResponse (o : Order) : Json :=
  JsObj [("id", JsStr (uuid_String (o_ID o))); ("status", JsStr (OrderStatus_String (o_Status o)));
    ("subtotal_cents", JsInt (Cents (o_Subtotal o))); ("fees_cents", JsInt (Cents (o_Fees o)));
    ("total_cents", JsInt (Cents (o_Total o))); ("currency", JsStr (Currency (o_Total o)));
    ("expires_at", time_pointer (o_ExpiresAt o)); ("created_at", JsTime (o_CreatedAt o))].

(** The loop over the items: the first that does not parse is reported. *)
Fixpoint held_items (items : list createOrderItemRequest) : (string * string) + list HeldItem :=
  match items with
  | [] => inr []
  | it :: rest =>
      match uuid_Parse (ir_InventoryID it) with
      | None => inl ("invalid-inventory-id", "each item's inventory_id must be a valid UUID")
      | Some invID =>
          match uuid_Parse (ir_HoldToken it) with
          | None => inl ("invalid-hold-token", "each item's hold_token must be a valid UUID")
          | Some token =>
              match held_items rest with
              | inl e => inl e
              | inr l => inr (mkHeldItem invID token :: l)
              end
          end
      end
  end.

Definition order_reply (result : result Order) : M Response :=
  match result with
  | Ok o => JSON 201 (orderResponse o)
  | Err e =>
      if errors_Is e (SDomain ErrExpired)
      then Error 409 "hold-invalid" "one or more holds are no longer valid — they may have expired"
      else if errors_Is e (SDomain ErrInvalidInput) then Error 400 "invalid-order" (error_Error e)
      else Error 500 "internal-error" "could not create order"
  end.

Definition Create_handler : Handler := fun r =>
  userAndTenant r (fun userID tenantID =>
    decodeJSONBody order_request_fields (mkOrderRequest "" nil_slice) r (fun req =>
      if String.eqb (or_IdempotencyKey req) "" || (sl_len (or_Items req) =? 0)%nat
      then Error 400 "invalid-request" "idempotency_key and at least one item are required"
      else
        match held_items (slice_elems (or_Items req)) with
        | inl (code, message) => Error 400 code message
        | inr items =>
            result <- attempt (CreateOrder tenantID userID (or_IdempotencyKey req) items);;
            order_reply result
        end)).

Definition Authorize_handler : Handler := fun r =>
  userAndTenant r (fun _ tenantID =>
    parse_uuid (rq_URLParam r "id") "invalid-order-id" "order id must be a valid UUID" (fun orderID =>
      secret <- attempt (AuthorizePayment tenantID orderID);;
      match secret with
      | Err e =>
          if errors_Is e (SDomain ErrInvalidInput)
          then Error 409 "wrong-order-status" "order is not in a payable state"
          else Error 500 "internal-error" "could not authorize payment"
      | Ok s => JSON 200 (JsObj [("client_secret", JsStr s)])
      end)).

Definition List_handler : Handler := fun r =>
  userAndTenant r (fun userID tenantID =>
    orders <- attempt (OrderRepo.ListByUser tenantID userID 50 0);;
    match orders with
    | Err _ => Error 500 "internal-error" "could not list orders"
    | Ok l => JSON 200 (JsArr (orderResponse <$> l))
    end).

Definition Get_handler : Handler := fun r =>
  userAndTenant r (fun _ tenantID =>
    parse_uuid (rq_URLParam r "id") "invalid-order-id" "order id must be a valid UUID" (fun orderID =>
      order <- attempt (OrderRepo.GetByID tenantID orderID);;
      match order with
      | Err _ => Error 404 "order-not-found" "order not found"
      | Ok o => JSON 200 (orderResponse o)
      end)).

End order.
