(* ===== verification/PurchaseReplies.v ===== *)
(** * What the replies of the purchase endpoints say

    In any environment a reply of [POST /inventory/{id}/hold] and of
    [POST /orders] is the truth about the database: success means the unit is
    held, respectively the order exists, for the authenticated fan in the
    requested club, and a refusal means that nothing was written. *)
From S2P Require Import Prelude GoJson Domain Schema Redis Runtime Ports Fixtures InventoryRepo RedisRepo InventoryService.
From S2P Require Import CheckoutRepos CatalogRepos PaymentGateways OrderService OrderCreate Http AuthService Requests PurchaseHandlers.

(** ** Failures that are no sentinel *)

(** A call whose failures are never one of the sentinels the handlers look for. *)
Definition plain `{E : Env} {A} (m : M A) : Prop :=
  forall w e w', m w = (Err e, w') -> forall s, errors_Is e s = false.

Class PlainErrors `{E : Env} (R : InventoryRepository) (L : locker) (W : waitingRoom) (RL : rateLimiter) : Prop := {
  Hold_plain : forall t i tok u exp, plain (ir_Hold t i tok u exp);
  Acquire_plain : forall k ttl, plain (lk_Acquire k ttl);
  IsAdmitted_plain : forall e u, plain (wr_IsAdmitted e u);
  Allow_plain : forall k n window, plain (rl_Allow k n window) }.

Section plain.
Context `{U : UuidPkg} `{E : Env}.

Lemma plain_ret {A} (a : A) : plain (ret a).
Proof. by intros w e w'. Qed.
Lemma plain_uuid : plain uuid_New.
Proof. by intros w e w'. Qed.
Lemma plain_bind {A B} (m : M A) (k : A -> M B) : plain m -> (forall a, plain (k a)) -> plain (bind m k).
Proof.
  intros Hm Hk w e w' [(a & w1 & _ & Hw)|(e' & Hw & [= ->])]%bind_inv; [by eapply Hk|by eapply Hm].
Qed.
Lemma plain_wrap {A} msg (m : M A) : plain m -> plain (wrap msg m).
Proof. intros Hm w e w' [(? & [=] & _)|(e' & [= ->] & Hw)]%wrap_inv s. exact (Hm _ _ _ Hw s). Qed.
Lemma plain_redis {A} (f : Time -> rstate -> option (A * rstate)) : plain (redis f).
Proof.
  intros w e w' Hw. unfold redis in Hw.
  repeat case_match; by simplify_eq.
Qed.
Lemma plain_exec {A} b (st : stmt A) :
  (forall now d e, st now d = Err e -> forall s, errors_Is e s = false) -> plain (exec b st).
Proof.
  intros Hst w e w' [(a & d & _ & _ & [[=]|[= ->]])|(e' & x & [= ->] & _ & [->|Hs])]%exec_inv s; [done|done|].
  by eapply Hst in Hs.
Qed.

#[export] Instance redis_layer_plain : PlainErrors InventoryRepo Locker WaitingRoom RateLimiter.
Proof.
  split; intros; simpl.
  - apply plain_bind; [|intros; apply plain_ret]. apply plain_wrap, plain_exec. unfold hold_stmt, update_inventory.
    intros now d e Hs s. repeat (break_match_hyp; simplify_eq/=; try done).
  - apply plain_bind; [apply plain_uuid|intros]. apply plain_bind; [apply plain_wrap, plain_redis|intros; apply plain_ret].
  - apply plain_bind; [apply plain_wrap, plain_redis|intros; apply plain_ret].
  - apply plain_bind; [apply plain_wrap, plain_redis|intros m].
    apply plain_bind; [destruct (m =? 1)%Z; [apply plain_wrap, plain_redis|apply plain_ret]|intros; apply plain_ret].
Qed.
End plain.

(** ** Hold *)

Section hold.
Context `{U : UuidPkg} `{E : Env}.
Context `{R : !InventoryRepository, L : !locker, W : !waitingRoom, RL : !rateLimiter} (cfg : Config).
Context `{!InventoryContract R, !LockerContract L, !WaitingRoomContract W, !RateLimiterContract RL, !PlainErrors R L W RL}.

(** The errors that [Hold] answers with something else than 500. *)
Definition refusal (e : GoError) : bool :=
  errors_Is e (SInventory ErrNotAdmitted) || errors_Is e (SInventory ErrRateLimited)
  || (errors_Is e (SInventory ErrLockContention) || errors_Is e (SDomain ErrUnavailable)).

Lemma plain_no_refusal {A} (m : M A) w e w' : plain m -> m w = (Err e, w') -> refusal e = false.
Proof. intros Hm Hw. unfold refusal. by rewrite !(Hm _ _ _ Hw). Qed.

(** A neutral step that is not refused leads to the next one. *)
Lemma refused_bind {A} msg (m : M A) (k : A -> M HoldResult) w e w' :
  db_neutral m -> plain m -> refusal e = true ->
  (forall a w1, k a w1 = (Err e, w') -> others (w_db w1) (w_db w')) ->
  bind (wrap msg m) k w = (Err e, w') -> others (w_db w) (w_db w').
Proof.
  intros Hn Hp He Hk [(a & w1 & Hw%wrap_Ok & H2)|(e' & Hw & [= <-])]%bind_inv.
  - etransitivity; [by eapply neutral_others|by eapply Hk].
  - apply (plain_no_refusal _ _ _ _ (plain_wrap msg m Hp)) in Hw. congruence.
Qed.

Lemma hold_row_refused t i u w e w' :
  hold_row cfg t i u w = (Err e, w') -> refusal e = true -> e = op_error "inventory.HoldSeat" ErrUnavailable.
Proof.
  intros Hw He. unfold hold_row in Hw.
  apply bind_inv in Hw as [(tok & w1 & _ & Hw)|(? & [=] & _)].
  apply bind_inv in Hw as [(now & w2 & _ & Hw)|(? & [=] & _)].
  apply bind_inv in Hw as [(ok & w3 & _ & Hw)|(e' & Hw & [= <-])].
  - destruct ok; by injection Hw.
  - apply (plain_no_refusal _ _ _ _ (plain_wrap _ _ (Hold_plain _ _ _ _ _))) in Hw. congruence.
Qed.

Lemma HoldSeat_refused t ev i u w e w' :
  HoldSeat cfg t ev i u w = (Err e, w') -> refusal e = true -> others (w_db w) (w_db w').
Proof.
  intros Hw He. revert Hw. unfold HoldSeat.
  apply refused_bind; [apply wr_IsAdmitted_neutral|apply IsAdmitted_plain|done|intros [] w1; simpl].
  2: { by intros [= _ <-]. }
  apply refused_bind; [apply rl_Allow_neutral|apply Allow_plain|done|intros [] w2; simpl].
  2: { by intros [= _ <-]. }
  apply refused_bind; [apply lk_Acquire_neutral|apply Acquire_plain|done|intros [tok []] w3; simpl].
  2: { by intros [= _ <-]. }
  unfold defer. destruct (hold_row cfg t i u w3) as [x w4] eqn:Hh.
  destruct (lk_Release _ _ w4) as [y w5] eqn:Hr. intros [= -> <-].
  pose proof (hold_row_outcome _ _ _ _ _ _ _ Hh) as (d1 & d2 & H1 & H2 & ->).
  apply hold_row_refused in Hh as Hx; [|done]. destruct H2 as [(_ & Hd & _)|[Hne _]]; [|done].
  rewrite <- Hd in H1. etransitivity; [exact H1|]. exact (neutral_others _ _ _ _ (lk_Release_neutral _ _) Hr).
Qed.

Definition hold_body (tok : UUID) (exp : Time) : Json :=
  JsObj [("hold_token", JsStr (uuid_String tok)); ("expires_at", JsTime exp)].

(** What a reply says about the move from [d1] to [d2]. *)
Definition hold_told (t i u : UUID) (rsp : Response) (d1 d2 : DB) : Prop :=
  (exists tok exp, placed t i u tok exp d1 d2 /\
     (rsp = mkResp 200 (EnvData (hold_body tok exp)) \/ rsp_Status rsp = 500%Z)) \/
  (d2 = d1 /\ rsp_Status rsp ∈ [403; 429; 409; 500]%Z).

Lemma hold_reply_err (e : GoError) w rep w' :
  hold_reply (Err e) w = (rep, w') ->
  w' = w /\ exists rsp, rep = Ok rsp /\
    (if refusal e then rsp_Status rsp ∈ [403; 429; 409]%Z else rsp_Status rsp = 500%Z).
Proof.
  unfold hold_reply, refusal. destruct (errors_Is e (SInventory ErrNotAdmitted)); simpl.
  { intros [= <- <-]. split; [done|]. eexists. split; [done|]. set_solver. }
  destruct (errors_Is e (SInventory ErrRateLimited)); simpl.
  { intros [= <- <-]. split; [done|]. eexists. split; [done|]. set_solver. }
  destruct (_ || _); intros [= <- <-]; (split; [done|]); eexists; split; set_solver.
Qed.

Lemma Hold_replies t ev i u w rep w' :
  (result <- attempt (HoldSeat cfg t ev i u);; hold_reply result) w = (rep, w') ->
  exists rsp d1 d2, rep = Ok rsp /\ others (w_db w) d1 /\ hold_told t i u rsp d1 d2 /\ others d2 (w_db w').
Proof.
  unfold bind, attempt. destruct (HoldSeat cfg t ev i u w) as [x w1] eqn:Hh.
  pose proof (HoldSeat_post cfg t ev i u w x w1 Hh) as (d1 & d2 & H1 & H2 & H3).
  destruct x as [res|e].
  - intros [= <- <-]. eexists _, d1, d2. split_and!; [done..| |done]. left. simpl in H2. eauto 6.
  - intros Hr. apply hold_reply_err in Hr as (-> & rsp & -> & Hs). destruct (refusal e) eqn:He.
    + exists rsp, (w_db w1), (w_db w1). split_and!; [done|by eapply HoldSeat_refused| |done].
      right. set_solver.
    + exists rsp, d1, d2. split_and!; [done..| |done].
      destruct H2 as [(-> & _)|(_ & [->|(tok & exp & Hp)])]; [done|right; set_solver|left; eauto 6].
Qed.

(** C11: the reply of [POST /inventory/{id}/hold] is the truth, whatever the
    network, Redis and the other sessions do. The handler always replies; a
    request without caller, club or well-formed identifiers is answered 400 or
    401 and touches nothing. Otherwise at most one unit changes: 200 means that
    the unit named in the URL, in the club of the header, went from available to
    held by the authenticated fan under the token shown, and 403, 409 and 429
    mean that nothing was written. Only 500 leaves it open. *)
Theorem Hold_reply_faithful r w rep w' :
  Hold_handler cfg r w = (rep, w') ->
  (w' = w /\ exists rsp, rep = Ok rsp /\ rsp_Status rsp ∈ [400; 401]%Z) \/
  exists rsp u t i d1 d2, rep = Ok rsp /\ UserIDFromContext r = Some u /\ ResolvedTenantIDFromContext r = Some t /\
    uuid_Parse (rq_URLParam r "id") = Some i /\
    others (w_db w) d1 /\ hold_told t i u rsp d1 d2 /\ others d2 (w_db w').
Proof.
  unfold Hold_handler, userAndTenant, parse_uuid, decodeJSONBody.
  destruct (UserIDFromContext r) as [u|]; [|apply gated; set_solver].
  destruct (ResolvedTenantIDFromContext r) as [t|]; [|apply gated; set_solver].
  destruct (uuid_Parse (rq_URLParam r "id")) as [i|]; [|apply gated; set_solver].
  destruct (decode_body holdSeatRequest "" r) as [req|]; [|apply gated; set_solver].
  destruct (uuid_Parse req) as [ev|]; [|apply gated; set_solver].
  intros (rsp & d1 & d2 & ? & ? & ? & ?)%Hold_replies. right. by exists rsp, u, t, i, d1, d2.
Qed.
End hold.

(** ** Create *)

Section create.
Context `{U : UuidPkg} `{T : ErrorText} `{E : Env} `{G : !PaymentGateway} `{!RandomUuids}.

(** What a reply says about the order of [items] under [key]. *)
Definition create_told (t u : UUID) (key : string) (items : list HeldItem) (rsp : Response) (w w' : World) : Prop :=
  (exists o, created t u key items w o w' /\ rsp = mkResp 201 (EnvData (orderResponse o))) \/
  (others (w_db w) (w_db w') /\ rsp_Status rsp ∈ [400; 409]%Z) \/
  rsp = mkResp 500 (EnvError "internal-error" "could not create order").

Lemma Create_replies t u key items w rep w' :
  w_tx w = None -> (result <- attempt (CreateOrder t u key items);; order_reply result) w = (rep, w') ->
  exists rsp, rep = Ok rsp /\ create_told t u key items rsp w w'.
Proof.
  unfold bind, attempt. destruct (CreateOrder t u key items w) as [[o|e] w1] eqn:Ho; intros Htx.
  - intros [= <- <-]. eexists. split; [done|]. left. exists o. split; [by apply CreateOrder_post|done].
  - unfold order_reply, create_told.
    destruct (errors_Is e (SDomain ErrExpired) || errors_Is e (SDomain ErrInvalidInput)) eqn:He.
    + assert (Hc : others (w_db w) (w_db w1)).
      { apply (CreateOrder_clean _ _ _ _ _ _ _ Ho Htx). by intros ->. }
      destruct (errors_Is e (SDomain ErrExpired)); simpl in *; [|rewrite He]; intros [= <- <-];
        (eexists; split; [done|]); right; left; (split; [done|set_solver]).
    + apply orb_false_iff in He as [-> ->]. intros [= <- <-]. eexists. split; [done|]. by do 2 right.
Qed.

(** C10: the reply of [POST /orders] is the truth in any environment. The handler
    always replies; a request it turns away itself (no caller, no club, an
    unreadable body, no idempotency key, no item, an identifier that is not a
    UUID) touches nothing. Otherwise 201 shows the order the requested club already
    had under the body's key, whoever placed it, and then nothing was written, or,
    when there was none, a new order of the authenticated fan from exactly the
    items of the body and under its key; 400 and 409 mean that the request wrote
    nothing; only 500 leaves it open. *)
Theorem Create_reply_faithful r w rep w' :
  Create_handler r w = (rep, w') -> w_tx w = None ->
  (w' = w /\ exists rsp, rep = Ok rsp /\ rsp_Status rsp ∈ [400; 401]%Z) \/
  exists rsp u t req items, rep = Ok rsp /\ UserIDFromContext r = Some u /\ ResolvedTenantIDFromContext r = Some t /\
    decode_body order_request_fields (mkOrderRequest "" nil_slice) r = Some req /\ or_IdempotencyKey req <> "" /\
    held_items (slice_elems (or_Items req)) = inr items /\ create_told t u (or_IdempotencyKey req) items rsp w w'.
Proof.
  unfold Create_handler, userAndTenant, decodeJSONBody. intros Hw Htx. revert Hw.
  destruct (UserIDFromContext r) as [u|]; [|apply gated; set_solver].
  destruct (ResolvedTenantIDFromContext r) as [t|]; [|apply gated; set_solver].
  destruct (decode_body _ _ r) as [req|]; [|apply gated; set_solver].
  destruct (String.eqb_spec (or_IdempotencyKey req) ""); simpl; [apply gated; set_solver|].
  destruct (sl_len (or_Items req) =? 0)%nat; [apply gated; set_solver|].
  destruct (held_items _) as [[code msg]|items] eqn:Hi; [apply gated; set_solver|].
  intros (rsp & -> & ?)%Create_replies; [|done]. right. by exists rsp, u, t, req, items.
Qed.
End create.

(** ** The cart on the wire *)

Section wire.
Context `{U : UuidPkg, !UuidLaws U} `{RedisServer}.

(** The body a client sends for a key and a cart. *)
Definition item_json (it : HeldItem) : JVal :=
  VObj [("inventory_id", VStr (uuid_String (hi_InventoryID it))); ("hold_token", VStr (uuid_String (hi_HoldToken it)))].
Definition order_json (key : string) (items : list HeldItem) : JVal :=
  VObj [("idempotency_key", VStr key); ("items", VArr (item_json <$> items))].

Definition item_text (it : HeldItem) : createOrderItemRequest :=
  mkItemRequest (uuid_String (hi_InventoryID it)) (uuid_String (hi_HoldToken it)).

Lemma decode_item it : decode_struct item_request_fields (item_json it) (mkItemRequest "" "") = Some (item_text it).
Proof. reflexivity. Qed.

Lemma decode_items items : decode_elems item_request_fields (mkItemRequest "" "") (item_json <$> items) [] = Some (item_text <$> items).
Proof. induction items as [|it items IH]; [done|]. cbn [fmap list_fmap decode_elems head tail default]. rewrite decode_item. simpl. by rewrite IH. Qed.

Lemma decode_order key it items :
  decode_struct order_request_fields (order_json key (it :: items)) (mkOrderRequest "" nil_slice) =
  (fun b => mkOrderRequest key (mkSlice b (length (item_json <$> it :: items)))) <$>
    decode_elems item_request_fields (mkItemRequest "" "") (item_json <$> it :: items) [].
Proof. reflexivity. Qed.

Lemma held_items_text items : held_items (item_text <$> items) = inr items.
Proof.
  induction items as [|[i t] items IH]; [done|].
  cbn [fmap list_fmap held_items item_text ir_InventoryID ir_HoldToken hi_InventoryID hi_HoldToken].
  rewrite !uuid_Parse_String. cbn [fmap list_fmap] in IH. by rewrite IH.
Qed.

Lemma order_json_document key items :
  valid_text key = true ->
  Forall (fun it => valid_text (uuid_String (hi_InventoryID it)) = true /\ valid_text (uuid_String (hi_HoldToken it)) = true) items ->
  document (order_json key items) = true /\ (height (order_json key items) <= max_depth)%N.
Proof.
  intros Hk Hi. split.
  - cbn [order_json document forallb fst snd]. rewrite Hk. cbn [andb]. rewrite !andb_true_r.
    change (valid_text "idempotency_key") with true. change (valid_text "items") with true. cbn [andb].
    apply forallb_forall. intros v Hv%list_elem_of_In. apply list_elem_of_fmap in Hv as (it & -> & Hit).
    rewrite Forall_forall in Hi. destruct (Hi it Hit) as [H1 H2]. cbn [item_json document forallb fst snd]. by rewrite H1, H2.
  - assert (Hh : (foldr N.max 0 (List.map height (item_json <$> items)) <= 1)%N).
    { clear Hi. induction items as [|it items IH]; [done|]. cbn [fmap list_fmap List.map foldr]. simpl (height (item_json it)). lia. }
    cbn [order_json height List.map foldr fst snd]. unfold max_depth. lia.
Qed.

(** C34: a cart survives the wire. The body that encodes an idempotency key and a
    cart is read by [POST /orders] as exactly that key and that cart, item by
    item and in order. *)
Theorem cart_roundtrip r key items :
  rq_Body r = Some (Marshal (order_json key items)) -> valid_text key = true ->
  Forall (fun it => valid_text (uuid_String (hi_InventoryID it)) = true /\ valid_text (uuid_String (hi_HoldToken it)) = true) items ->
  exists req, decode_body order_request_fields (mkOrderRequest "" nil_slice) r = Some req /\
    or_IdempotencyKey req = key /\ held_items (slice_elems (or_Items req)) = inr items.
Proof.
  intros Hb Hk Hi. destruct (order_json_document key items Hk Hi) as [Hd Hh].
  destruct (Unmarshal_Marshal _ Hd Hh) as [_ Hdec]. rewrite (decode_body_read _ _ _ _ _ Hb Hdec).
  pose proof (decode_items items) as Hits. rewrite <- (held_items_text items).
  destruct items as [|it items].
  - eexists. split; [reflexivity|done].
  - exists (mkOrderRequest key (mkSlice (item_text <$> (it :: items)) (length (it :: items)))). split.
    + rewrite decode_order, Hits. simpl. by rewrite length_fmap.
    + split; [done|]. unfold slice_elems. cbn [or_Items sl_len sl_backing]. by rewrite <- (length_fmap item_text), firstn_all.
Qed.
End wire.

(** ** Witnesses *)

Definition fx_claims : Claims := mkClaims (uuid_String 11) 0 0 "fan" "".
Definition fx_request (id body : string) : Request :=
  mkReq (fun _ => "") (fun p => if String.eqb p "id" then id else "") (Some body) "" (Some fx_claims) (Some 1%N).
Definition fx_hold_request : Request := fx_request (uuid_String 100) (Marshal (VObj [("event_id", VStr (uuid_String 20))])).
Definition fx_order_request : Request :=
  fx_request "" (Marshal (VObj [("idempotency_key", VStr "key-1");
    ("items", VArr [VObj [("inventory_id", VStr (uuid_String 101)); ("hold_token", VStr (uuid_String 500))]])])).

Lemma fx_hold_reply : fst (Hold_handler DefaultConfig fx_hold_request fx_hold_world)
  = Ok (mkResp 200 (EnvData (hold_body 1004 301005000))).
Proof. vm_compute. reflexivity. Qed.

Lemma fx_order_reply :
  fst (Create_handler fx_order_request (fx_world fx_db)) = Ok (mkResp 201 (EnvData (orderResponse fx_created_order))).
Proof. vm_compute. reflexivity. Qed.

(** A request that is answered with success was not turned away. *)
Lemma not_turned_away (rep : result Response) (w w' : World (H := ref_redis)) rsp :
  rep = Ok rsp -> (400 <=? rsp_Status rsp)%Z = false ->
  ~ (w' = w /\ exists rsp', rep = Ok rsp' /\ rsp_Status rsp' ∈ [400; 401]%Z).
Proof.
  intros -> Hs (_ & rsp' & [= <-] & Hin). apply Z.leb_gt in Hs.
  rewrite !elem_of_cons in Hin. by destruct Hin as [?|[?|[]%elem_of_nil]]; try lia.
Qed.

Lemma Hold_reply_faithful_witness : exists rsp d1 d2,
  rsp = mkResp 200 (EnvData (hold_body 1004 301005000)) /\ hold_told 1 100 11 rsp d1 d2.
Proof.
  destruct (Hold_reply_faithful DefaultConfig fx_hold_request fx_hold_world _ _ (surjective_pairing _))
    as [Ht|(rsp & u & t & i & d1 & d2 & Hr & Hu & Ht & Hi & _ & Hh & _)].
  - by apply (not_turned_away _ _ _ _ fx_hold_reply) in Ht.
  - rewrite fx_hold_reply in Hr. injection Hr as <-.
    assert (u = 11%N) as -> by (vm_compute in Hu; congruence).
    assert (t = 1%N) as -> by (vm_compute in Ht; congruence).
    assert (i = 100%N) as -> by (vm_compute in Hi; congruence). by eexists _, d1, d2.
Defined.

Lemma Create_reply_faithful_witness : exists rsp w',
  rsp = mkResp 201 (EnvData (orderResponse fx_created_order)) /\
  create_told 1 11 "key-1" [fx_item] rsp (fx_world fx_db) w'.
Proof.
  destruct (Create_reply_faithful fx_order_request (fx_world fx_db) _ _ (surjective_pairing _) eq_refl)
    as [Ht|(rsp & u & t & req & items & Hr & Hu & Ht & Hq & _ & Hi & Hc)].
  - by apply (not_turned_away _ _ _ _ fx_order_reply) in Ht.
  - rewrite fx_order_reply in Hr. injection Hr as <-.
    assert (u = 11%N) as -> by (vm_compute in Hu; congruence).
    assert (t = 1%N) as -> by (vm_compute in Ht; congruence).
    vm_compute in Hq. injection Hq as <-. vm_compute in Hi. injection Hi as <-. by eexists _, _.
Defined.

Lemma cart_roundtrip_witness : exists req,
  decode_body order_request_fields (mkOrderRequest "" nil_slice) (fx_request "" (Marshal (order_json "key-1" [fx_item]))) = Some req /\
  or_IdempotencyKey req = "key-1" /\ held_items (slice_elems (or_Items req)) = inr [fx_item].
Proof.
  apply (cart_roundtrip (fx_request "" (Marshal (order_json "key-1" [fx_item]))) "key-1" [fx_item]); [reflexivity|vm_compute; reflexivity|].
  repeat constructor; vm_compute; reflexivity.
Defined.
