(* ===== verification/CatalogHandlers.v ===== *)
(** * The catalogue endpoints ([event.go], [admin_event.go] and [admin_venue.go] of
    [src/internal/handler/http])

    The public listing of a club's events, and the back office of a club:
    venues, seat categories, events, ticket categories and the publication of
    general-admission inventory. *)
From S2P Require Import Prelude GoJson GoTime Domain Schema Redis Runtime Ports Fixtures InventoryRepo.
From S2P Require Import CheckoutRepos CatalogRepos Http AuthService Requests PurchaseHandlers.

Section json.
Context `{U : UuidPkg}.

Definition event_fields_json (e : Event) : list (string * Json) :=
  [("id", JsStr (uuid_String (e_ID e))); ("venue_id", JsStr (uuid_String (e_VenueID e))); ("name", JsStr (e_Name e));
   ("competition", JsStr (e_Competition e)); ("home_team", JsStr (e_HomeTeam e)); ("away_team", JsStr (e_AwayTeam e));
   ("starts_at", JsTime (e_StartsAt e)); ("sales_start_at", JsTime (e_SalesStartAt e));
   ("sales_end_at", JsTime (e_SalesEndAt e)); ("status", JsStr (EventStatus_String (e_Status e)))].
Definition eventResponse (e : Event) : Json := JsObj (event_fields_json e).

Definition category_json (counts : gmap UUID InventoryCounts) (c : EventTicketCategory) : Json :=
  JsObj [("id", JsStr (uuid_String (etc_ID c))); ("seat_category_id", JsStr (uuid_String (etc_SeatCategoryID c)));
    ("price_cents", JsInt (Cents (etc_Price c))); ("currency", JsStr (Currency (etc_Price c)));
    ("max_per_order", JsInt (etc_MaxPerOrder c));
    ("available", JsInt (c_Available (default (mkCounts 0 0 0 0) (counts !! etc_ID c))))].

Definition int_pointer (z : option Z) : Json := match z with Some z => JsInt z | None => JsNull end.
Definition venueResponse (v : Venue) : Json :=
  JsObj [("id", JsStr (uuid_String (v_ID v))); ("name", JsStr (v_Name v)); ("address", JsStr (v_Address v));
    ("city", JsStr (v_City v)); ("country", JsStr (v_Country v)); ("timezone", JsStr (v_Timezone v));
    ("capacity", int_pointer (v_Capacity v))].
End json.

(** ** event.go: public, per club *)

Section public.
Context `{U : UuidPkg} `{E : Env}.
Context `{R : !InventoryRepository}.

Definition EventList_handler : Handler := fun r =>
  match ResolvedTenantIDFromContext r with
  | None => Error 400 "missing-tenant" "X-Tenant-ID header is required"
  | Some tenantID =>
      events <- attempt (EventRepo.List (mkEventFilter tenantID (Some EventStatusOnSale) None None None) 50 0);;
      match events with
      | Err _ => Error 500 "internal-error" "could not list events"
      | Ok l => JSON 200 (JsArr (eventResponse <$> l))
      end
  end.

Definition EventGet_handler : Handler := fun r =>
  match ResolvedTenantIDFromContext r with
  | None => Error 400 "missing-tenant" "X-Tenant-ID header is required"
  | Some tenantID =>
      parse_uuid (rq_URLParam r "id") "invalid-event-id" "event id must be a valid UUID" (fun eventID =>
        event <- attempt (EventRepo.GetByID tenantID eventID);;
        match event with
        | Err _ => Error 404 "event-not-found" "event not found"
        | Ok event =>
            categories <- attempt (EventRepo.ListTicketCategories tenantID eventID);;
            match categories with
            | Err _ => Error 500 "internal-error" "could not load ticket categories"
            | Ok categories =>
                counts <- attempt (ir_CountByStatus tenantID eventID);;
                match counts with
                | Err _ => Error 500 "internal-error" "could not load availability"
                | Ok counts =>
                    JSON 200 (JsObj (event_fields_json event
                                       ++ [("ticket_categories", JsArr (category_json counts <$> categories))]))
                end
            end
        end)
  end.

End public.

(** ** Requests of the back office *)

Record createVenueRequest := mkVenueRequest {
  vr_Name : string; vr_Address : string; vr_City : string; vr_Country : string; vr_Timezone : string; vr_Capacity : option Z }.
Definition venue_request_fields : list (Field createVenueRequest) :=
  [str_field "name" (fun x v => mkVenueRequest x (vr_Address v) (vr_City v) (vr_Country v) (vr_Timezone v) (vr_Capacity v));
   str_field "address" (fun x v => mkVenueRequest (vr_Name v) x (vr_City v) (vr_Country v) (vr_Timezone v) (vr_Capacity v));
   str_field "city" (fun x v => mkVenueRequest (vr_Name v) (vr_Address v) x (vr_Country v) (vr_Timezone v) (vr_Capacity v));
   str_field "country" (fun x v => mkVenueRequest (vr_Name v) (vr_Address v) (vr_City v) x (vr_Timezone v) (vr_Capacity v));
   str_field "timezone" (fun x v => mkVenueRequest (vr_Name v) (vr_Address v) (vr_City v) (vr_Country v) x (vr_Capacity v));
   int_ptr_field "capacity" (fun x v => mkVenueRequest (vr_Name v) (vr_Address v) (vr_City v) (vr_Country v) (vr_Timezone v) x)].
Definition zero_venue_request : createVenueRequest := mkVenueRequest "" "" "" "" "" None.
Definition venue_tags (v : createVenueRequest) : list TaggedField := [("Name", "required", FString (vr_Name v))].

Record createSeatCategoryRequest := mkSeatCategoryRequest { scr_Name : string; scr_Color : string }.
Definition seat_category_fields : list (Field createSeatCategoryRequest) :=
  [str_field "name" (fun x c => mkSeatCategoryRequest x (scr_Color c));
   str_field "color" (fun x c => mkSeatCategoryRequest (scr_Name c) x)].
Definition seat_category_tags (c : createSeatCategoryRequest) : list TaggedField := [("Name", "required", FString (scr_Name c))].

Record createEventRequest := mkEventRequest {
  er_VenueID : string; er_Name : string; er_Competition : string; er_HomeTeam : string; er_AwayTeam : string;
  er_StartsAt : Time; er_DoorsOpenAt : option Time; er_SalesStartAt : Time; er_SalesEndAt : Time }.
Definition event_request_fields : list (Field createEventRequest) :=
  [str_field "venue_id" (fun x e => mkEventRequest x (er_Name e) (er_Competition e) (er_HomeTeam e) (er_AwayTeam e) (er_StartsAt e) (er_DoorsOpenAt e) (er_SalesStartAt e) (er_SalesEndAt e));
   str_field "name" (fun x e => mkEventRequest (er_VenueID e) x (er_Competition e) (er_HomeTeam e) (er_AwayTeam e) (er_StartsAt e) (er_DoorsOpenAt e) (er_SalesStartAt e) (er_SalesEndAt e));
   str_field "competition" (fun x e => mkEventRequest (er_VenueID e) (er_Name e) x (er_HomeTeam e) (er_AwayTeam e) (er_StartsAt e) (er_DoorsOpenAt e) (er_SalesStartAt e) (er_SalesEndAt e));
   str_field "home_team" (fun x e => mkEventRequest (er_VenueID e) (er_Name e) (er_Competition e) x (er_AwayTeam e) (er_StartsAt e) (er_DoorsOpenAt e) (er_SalesStartAt e) (er_SalesEndAt e));
   str_field "away_team" (fun x e => mkEventRequest (er_VenueID e) (er_Name e) (er_Competition e) (er_HomeTeam e) x (er_StartsAt e) (er_DoorsOpenAt e) (er_SalesStartAt e) (er_SalesEndAt e));
   time_field "starts_at" (fun x e => mkEventRequest (er_VenueID e) (er_Name e) (er_Competition e) (er_HomeTeam e) (er_AwayTeam e) x (er_DoorsOpenAt e) (er_SalesStartAt e) (er_SalesEndAt e));
   time_ptr_field "doors_open_at" (fun x e => mkEventRequest (er_VenueID e) (er_Name e) (er_Competition e) (er_HomeTeam e) (er_AwayTeam e) (er_StartsAt e) x (er_SalesStartAt e) (er_SalesEndAt e));
   time_field "sales_start_at" (fun x e => mkEventRequest (er_VenueID e) (er_Name e) (er_Competition e) (er_HomeTeam e) (er_AwayTeam e) (er_StartsAt e) (er_DoorsOpenAt e) x (er_SalesEndAt e));
   time_field "sales_end_at" (fun x e => mkEventRequest (er_VenueID e) (er_Name e) (er_Competition e) (er_HomeTeam e) (er_AwayTeam e) (er_StartsAt e) (er_DoorsOpenAt e) (er_SalesStartAt e) x)].
Definition zero_event_request : createEventRequest := mkEventRequest "" "" "" "" "" time_Zero None time_Zero time_Zero.
Definition event_tags (e : createEventRequest) : list TaggedField :=
  [("VenueID", "required,uuid", FString (er_VenueID e)); ("Name", "required", FString (er_Name e));
   ("StartsAt", "required", FTime (er_StartsAt e)); ("SalesStartAt", "required", FTime (er_SalesStartAt e));
   ("SalesEndAt", "required", FTime (er_SalesEndAt e))].

Record createTicketCategoryRequest := mkTicketCategoryRequest {
  tr_SeatCategoryID : string; tr_PriceCents : Z; tr_Currency : string; tr_MaxPerOrder : Z }.
Definition ticket_category_fields : list (Field createTicketCategoryRequest) :=
  [str_field "seat_category_id" (fun x t => mkTicketCategoryRequest x (tr_PriceCents t) (tr_Currency t) (tr_MaxPerOrder t));
   int_field "price_cents" (fun x t => mkTicketCategoryRequest (tr_SeatCategoryID t) x (tr_Currency t) (tr_MaxPerOrder t));
   str_field "currency" (fun x t => mkTicketCategoryRequest (tr_SeatCategoryID t) (tr_PriceCents t) x (tr_MaxPerOrder t));
   int_field "max_per_order" (fun x t => mkTicketCategoryRequest (tr_SeatCategoryID t) (tr_PriceCents t) (tr_Currency t) x)].
Definition zero_ticket_category : createTicketCategoryRequest := mkTicketCategoryRequest "" 0 "" 0.
Definition ticket_category_tags (t : createTicketCategoryRequest) : list TaggedField :=
  [("SeatCategoryID", "required,uuid", FString (tr_SeatCategoryID t)); ("PriceCents", "required,gte=0", FInt (tr_PriceCents t));
   ("Currency", "required,len=3", FString (tr_Currency t))].

Record publishEventRequest := mkPublishRequest { pr_Category : string; pr_Quantity : Z }.
Definition publish_fields : list (Field publishEventRequest) :=
  [str_field "event_ticket_category_id" (fun x p => mkPublishRequest x (pr_Quantity p));
   int_field "quantity" (fun x p => mkPublishRequest (pr_Category p) x)].
Definition zero_publish : publishEventRequest := mkPublishRequest "" 0.
Definition publish_tags (p : publishEventRequest) : list TaggedField :=
  [("EventTicketCategoryID", "required,uuid", FString (pr_Category p));
   ("Quantity", "required,gt=0,lte=100000", FInt (pr_Quantity p))].

(** ** admin_venue.go, admin_event.go *)

Section admin.
Context `{U : UuidPkg} `{V : ValidatorPkg} `{T : ErrorText} `{E : Env} `{C : Collation}.
Context `{R : !InventoryRepository}.

Definition VenueCreate_handler : Handler := fun r =>
  adminTenant r (fun tenantID =>
    decodeAndValidate venue_request_fields zero_venue_request venue_tags r (fun req =>
      venue <- attempt (VenueRepo.CreateVenue
        (mkVenue uuid_Nil tenantID (vr_Name req) (vr_Address req) (vr_City req) (vr_Country req) (vr_Timezone req)
           (vr_Capacity req) time_Zero time_Zero));;
      match venue with
      | Err _ => Error 500 "internal-error" "could not create venue"
      | Ok v => JSON 201 (venueResponse v)
      end)).

Definition VenueList_handler : Handler := fun r =>
  adminTenant r (fun tenantID =>
    venues <- attempt (VenueRepo.ListVenues tenantID 50 0);;
    match venues with
    | Err _ => Error 500 "internal-error" "could not list venues"
    | Ok l => JSON 200 (JsArr (venueResponse <$> l))
    end).

Definition CreateSeatCategory_handler : Handler := fun r =>
  adminTenant r (fun tenantID =>
    decodeAndValidate seat_category_fields (mkSeatCategoryRequest "" "") seat_category_tags r (fun req =>
      created <- attempt (SeatCategoryRepo.Create
        (mkSeatCategory uuid_Nil tenantID (scr_Name req) (scr_Color req) time_Zero time_Zero));;
      match created with
      | Err e =>
          if errors_Is e (SDomain ErrConflict)
          then Error 409 "name-taken" "a seat category with this name already exists"
          else Error 500 "internal-error" "could not create seat category"
      | Ok id =>
          JSON 201 (JsObj [("id", JsStr (uuid_String id)); ("name", JsStr (scr_Name req)); ("color", JsStr (scr_Color req))])
      end)).

Definition event_of_request (tenantID venueID : UUID) (req : createEventRequest) (id : UUID) : Event :=
  mkEvent id tenantID venueID (er_Name req) (er_Competition req) (er_HomeTeam req) (er_AwayTeam req)
    (er_StartsAt req) (er_DoorsOpenAt req) (er_SalesStartAt req) (er_SalesEndAt req) EventStatusDraft time_Zero time_Zero.

Definition CreateEvent_handler : Handler := fun r =>
  adminTenant r (fun tenantID =>
    decodeAndValidate event_request_fields zero_event_request event_tags r (fun req =>
      parse_uuid (er_VenueID req) "invalid-venue-id" "venue_id must be a valid UUID" (fun venueID =>
        created <- attempt (EventRepo.Create (event_of_request tenantID venueID req uuid_Nil));;
        match created with
        | Err _ => Error 500 "internal-error" "could not create event"
        | Ok id => JSON 201 (eventResponse (event_of_request tenantID venueID req id))
        end))).

Definition ticket_category_json (c : EventTicketCategory) : Json :=
  JsObj [("id", JsStr (uuid_String (etc_ID c))); ("event_id", JsStr (uuid_String (etc_EventID c)));
    ("seat_category_id", JsStr (uuid_String (etc_SeatCategoryID c))); ("price_cents", JsInt (Cents (etc_Price c)));
    ("currency", JsStr (Currency (etc_Price c))); ("max_per_order", JsInt (etc_MaxPerOrder c))].

Definition CreateTicketCategory_handler : Handler := fun r =>
  adminTenant r (fun tenantID =>
    parse_uuid (rq_URLParam r "eventID") "invalid-event-id" "event id must be a valid UUID" (fun eventID =>
      decodeAndValidate ticket_category_fields zero_ticket_category ticket_category_tags r (fun req =>
        parse_uuid (tr_SeatCategoryID req) "invalid-seat-category-id" "seat_category_id must be a valid UUID" (fun seatCategoryID =>
          match NewMoney (tr_PriceCents req) (tr_Currency req) with
          | Err e => Error 400 "invalid-price" (error_Error e)
          | Ok price =>
              created <- attempt (EventRepo.CreateTicketCategory
                (mkEventTicketCategory uuid_Nil tenantID eventID seatCategoryID price (tr_MaxPerOrder req) time_Zero time_Zero));;
              match created with
              | Err _ => Error 500 "internal-error" "could not create ticket category"
              | Ok c => JSON 201 (ticket_category_json c)
              end
          end)))).

(** The rows [PublishEvent] generates; each draws its own identifier. *)
Definition unit_row (tenantID eventID etcID id : UUID) : EventSeatInventory :=
  mkInventory id tenantID eventID etcID None InventoryStatusAvailable None None None time_Zero time_Zero.

Definition generate_rows (tenantID eventID etcID : UUID) (quantity : Z) : M (list EventSeatInventory) :=
  fold_loop (fun rows _ => id <- uuid_New;; ret (rows ++ [unit_row tenantID eventID etcID id])) []
    (seq 0 (Z.to_nat quantity)).

Definition with_event_status (s : EventStatus) (e : Event) : Event :=
  mkEvent (e_ID e) (e_TenantID e) (e_VenueID e) (e_Name e) (e_Competition e) (e_HomeTeam e) (e_AwayTeam e)
    (e_StartsAt e) (e_DoorsOpenAt e) (e_SalesStartAt e) (e_SalesEndAt e) s (e_CreatedAt e) (e_UpdatedAt e).

Definition publish_reply (rows : list EventSeatInventory) (event : Event) : M Response :=
  JSON 201 (JsObj [("generated", JsInt (Z.of_nat (length rows))); ("event_status", JsStr (EventStatus_String (e_Status event)))]).

(** What happens once the rows are there. *)
Definition put_on_sale (rows : list EventSeatInventory) (event : Event) : M Response :=
  if bool_decide (e_Status event = EventStatusDraft) || bool_decide (e_Status event = EventStatusScheduled)
  then
    let event := with_event_status EventStatusOnSale event in
    updated <- attempt (EventRepo.Update event);;
    match updated with
    | Err _ => Error 500 "internal-error" "inventory created but event status update failed"
    | Ok _ => publish_reply rows event
    end
  else publish_reply rows event.

Definition publish (tenantID eventID etcID : UUID) (quantity : Z) : M Response :=
  event <- attempt (EventRepo.GetByID tenantID eventID);;
  match event with
  | Err _ => Error 404 "event-not-found" "event not found"
  | Ok event =>
      rows <- generate_rows tenantID eventID etcID quantity;;
      created <- attempt (ir_BulkCreate rows);;
      match created with
      | Err _ => Error 500 "internal-error" "could not generate inventory"
      | Ok _ => put_on_sale rows event
      end
  end.

Definition PublishEvent_handler : Handler := fun r =>
  adminTenant r (fun tenantID =>
    parse_uuid (rq_URLParam r "eventID") "invalid-event-id" "event id must be a valid UUID" (fun eventID =>
      decodeAndValidate publish_fields zero_publish publish_tags r (fun req =>
        parse_uuid (pr_Category req) "invalid-ticket-category-id" "event_ticket_category_id must be a valid UUID" (fun etcID =>
          publish tenantID eventID etcID (pr_Quantity req))))).

End admin.
