(* ===== verification/CatalogReplies.v ===== *)
(** * What the catalogue endpoints guarantee

    An administrator's request moves only rows of the club in the
    administrator's token; publishing generates exactly the announced units;
    the public listing shows a club's events on sale and nothing else. *)
From S2P Require Import Prelude GoJson GoTime Domain Schema Redis Runtime Ports Fixtures InventoryRepo.
From S2P Require Import CheckoutRepos CatalogRepos Http AuthService Requests Walk PurchaseHandlers CatalogHandlers.

(** ** Writing within one club *)

(** Every row of a table that changed, or is new, is one of the club [t]; a row
    of another club is neither changed nor taken over. *)
Definition only_tenant {R} (tenant_of : R -> UUID) (t : UUID) (m m' : gmap UUID R) : Prop :=
  forall i, m' !! i = m !! i \/
    ((forall r, m !! i = Some r -> tenant_of r = t) /\ exists r', m' !! i = Some r' /\ tenant_of r' = t).

Record tenant_write (t : UUID) (d d' : DB) : Prop := {
  tw_venues : only_tenant v_TenantID t (venues d) (venues d');
  tw_seat_categories : only_tenant sc_TenantID t (seat_categories d) (seat_categories d');
  tw_events : only_tenant e_TenantID t (events d) (events d');
  tw_categories : only_tenant etc_TenantID t (event_ticket_categories d) (event_ticket_categories d');
  tw_inventory : only_tenant inv_TenantID t (inventory d) (inventory d');
  tw_audit : exists l, audit_log d' = audit_log d ++ l /\ Forall (fun a => a_TenantID a = t) l;
  tw_rest : tenants d' = tenants d /\ users d' = users d /\ refresh_tokens d' = refresh_tokens d /\
    venue_sections d' = venue_sections d /\ seats d' = seats d /\ orders d' = orders d /\
    order_items d' = order_items d /\ payments d' = payments d /\ notifications d' = notifications d }.

Section only_tenant.
Context {R : Type} (tenant_of : R -> UUID) (t : UUID).
Lemma only_tenant_refl m : only_tenant tenant_of t m m.
Proof. by left. Qed.
Lemma only_tenant_insert m i r :
  (forall r', m !! i = Some r' -> tenant_of r' = t) -> tenant_of r = t -> only_tenant tenant_of t m (<[i := r]> m).
Proof.
  intros Hold Hr j. destruct (decide (i = j)) as [<-|]; [|left; by rewrite lookup_insert_ne].
  right. split; [done|]. exists r. by rewrite lookup_insert_eq.
Qed.
Lemma only_tenant_trans m1 m2 m3 :
  only_tenant tenant_of t m1 m2 -> only_tenant tenant_of t m2 m3 -> only_tenant tenant_of t m1 m3.
Proof.
  intros H1 H2 i. destruct (H1 i) as [E1|(O1 & r1 & E1 & T1)], (H2 i) as [E2|(O2 & r2 & E2 & T2)].
  - left. congruence.
  - right. rewrite E1 in O2. eauto.
  - right. rewrite E1 in E2. eauto.
  - right. eauto.
Qed.
End only_tenant.
#[local] Hint Resolve only_tenant_refl : ticketing.

Lemma tenant_write_refl t d : tenant_write t d d.
Proof. split; auto with ticketing. { exists []. by rewrite app_nil_r. } by split_and!. Qed.

Lemma tenant_write_trans t d1 d2 d3 : tenant_write t d1 d2 -> tenant_write t d2 d3 -> tenant_write t d1 d3.
Proof.
  intros [A1 B1 C1 D1 E1 (l1 & L1 & F1) R1] [A2 B2 C2 D2 E2 (l2 & L2 & F2) R2].
  split; eauto using only_tenant_trans.
  - exists (l1 ++ l2). rewrite L2, L1, app_assoc. split; [done|by apply Forall_app].
  - destruct R2 as (-> & -> & -> & -> & -> & -> & -> & -> & ->). exact R1.
Qed.

Ltac one_table := split; simpl; auto with ticketing; [exists []; by rewrite app_nil_r|by split_and!].

(** ** The statements of the back office *)

Section statements.
Context (t : UUID).

Lemma insert_into_tenant {R} (tenant_of : R -> UUID) (tbl : DB -> gmap UUID R) put id r check clash fks now d u d' :
  insert_into tbl put id r check clash fks now d = Ok (u, d') -> tenant_of r = t ->
  (forall m, only_tenant tenant_of t (tbl d) m -> tenant_write t d (put m d)) -> tenant_write t d d'.
Proof. intros (Hn & _ & _ & -> & _)%insert_into_Ok Hr Hput. apply Hput, only_tenant_insert; [by rewrite Hn|done]. Qed.

Lemma insert_venue_tenant v now d u d' : v_TenantID v = t -> VenueRepo.insert_venue v now d = Ok (u, d') -> tenant_write t d d'.
Proof. intros Hv Hi%encoded_Ok. eapply (insert_into_tenant v_TenantID); [exact Hi|done|]. intros m Hm. one_table. Qed.

Lemma insert_seat_category_tenant c now d u d' :
  sc_TenantID c = t -> SeatCategoryRepo.insert_category c now d = Ok (u, d') -> tenant_write t d d'.
Proof. intros Hv Hi. eapply (insert_into_tenant sc_TenantID); [exact Hi|done|]. intros m Hm. one_table. Qed.

Lemma insert_event_tenant e now d u d' : e_TenantID e = t -> EventRepo.insert_event e now d = Ok (u, d') -> tenant_write t d d'.
Proof. intros Hv Hi. eapply (insert_into_tenant e_TenantID); [exact Hi|done|]. intros m Hm. one_table. Qed.

Lemma insert_category_tenant c now d u d' :
  etc_TenantID c = t -> EventRepo.insert_category c now d = Ok (u, d') -> tenant_write t d d'.
Proof. intros Hv Hi%encoded_Ok. eapply (insert_into_tenant etc_TenantID); [exact Hi|done|]. intros m Hm. one_table. Qed.

Lemma update_event_tenant e now d n d' : e_TenantID e = t -> EventRepo.update_event e now d = Ok (n, d') -> tenant_write t d d'.
Proof.
  intros He [(_ & -> & _)|(_ & r & Hr & Hc & ->)]%update_row_Ok; [apply tenant_write_refl|].
  apply N.eqb_eq in Hc. assert (Hrt : e_TenantID r = t) by congruence.
  assert (only_tenant e_TenantID t (events d) (<[e_ID e := EventRepo.overwrite e now r]> (events d))).
  { apply only_tenant_insert; [|done]. intros r'. rewrite Hr. by intros [= <-]. }
  one_table.
Qed.

Lemma bulk_stmt_tenant batch now d u d' :
  Forall (fun x => inv_TenantID x.2 = t) batch -> bulk_stmt batch now d = Ok (u, d') -> tenant_write t d d'.
Proof.
  revert d. induction batch as [|[id row] batch IH]; intros d Hb Hs; simpl in Hs; [simplify_eq; apply tenant_write_refl|].
  apply Forall_cons in Hb as [Hrow Hb]. simpl in Hrow.
  destruct (insert_inventory _ now d) as [[[] d1]|] eqn:Hi; [|done].
  eapply tenant_write_trans, IH; [|exact Hb|exact Hs].
  apply insert_inventory_inv in Hi as (Hn & _ & ->). split; simpl; auto with ticketing; [..|by split_and!].
  - apply only_tenant_insert; [|done]. simpl in Hn. by rewrite Hn.
  - eexists. split; [done|]. by constructor.
Qed.
End statements.

(** ** Requests *)

Section moves.
Context `{E : Env}.

(** What other sessions do, and writes within the club. *)
Definition club_moves (t : UUID) : DB -> DB -> Prop := moved_by (tenant_write t).

(** Giving rows their identifiers keeps the rows, and touches nothing. *)
Lemma assign_loop rows acc w r w' :
  fold_loop (fun acc row => x <- assign_id row;; ret (acc ++ [x])) acc rows w = (r, w') ->
  exists batch, r = Ok (acc ++ batch) /\ batch.*2 = rows /\ w_db w' = w_db w /\ same_session w w'.
Proof.
  revert acc w. induction rows as [|row rows IH]; intros acc w; simpl.
  - intros [= <- <-]. exists []. rewrite app_nil_r. split_and!; [done..|apply same_session_refl].
  - unfold bind at 1, assign_id, bind at 1, uuid_New, ret. intros Hw.
    destruct (inv_ID row =? uuid_Nil)%N; apply IH in Hw as (b & -> & <- & -> & Hs);
      (eexists (_ :: b); split; [by rewrite <- app_assoc|]; split; [done|]; split; [done|]); [|done].
    eapply same_session_trans; [|exact Hs]. split; simpl; [reflexivity|lia].
Qed.

(** Either the whole batch is inserted, or nothing is. *)
Lemma BulkCreate_inv rows w r w' :
  BulkCreate rows w = (r, w') -> rows <> [] ->
  tx_moves (w_tx w) (w_tx w') /\ exists d1 now batch, others (w_db w) d1 /\ batch.*2 = rows /\
    ((bulk_stmt batch now d1 = Ok (tt, w_db w')) \/ (w_db w' = d1 /\ is_ok r = false)).
Proof.
  intros Hw Hne. destruct rows as [|row rows]; [done|].
  apply bind_inv in Hw as [(batch & w1 & Ha & Hw)|(e & Ha & ->)]; apply assign_loop in Ha as (b & Hb & Hr & Hd & Hs); [|done].
  injection Hb as ->. simpl in Hw. pose proof (interact_others w1) as Ho. rewrite Hd in Ho.
  assert (Hx : exists x, sql (bulk_stmt b) w1 = (x, w') /\ is_ok x = is_ok r).
  { apply wrap_inv in Hw as [(a & -> & Hx)|(e & -> & Hx)]; by eexists. }
  destruct Hx as (x & Hx & <-). split; [etransitivity; [apply Hs|apply (exec_session _ _ _ _ _ Hx)]|].
  exists (w_db (interact w1)), (db_now w1), b. split; [done|]. split; [done|].
  apply exec_inv in Hx as [([] & d & Hst & -> & _)|(e & y & -> & -> & _)]; [by left|by right].
Qed.

Definition uuids (k : nat) (n : nat) : list UUID := (fun i => env_uuid (k + i)) <$> seq 0 n.

Lemma generate_loop t ev c l acc w :
  fold_loop (fun rows (_ : nat) => id <- uuid_New;; ret (rows ++ [unit_row t ev c id])) acc l w =
  (Ok (acc ++ (unit_row t ev c <$> uuids (w_tick w) (length l))), set_tick (w_tick w + length l) w).
Proof.
  revert acc w. induction l as [|x l IH]; intros acc w; simpl.
  - rewrite app_nil_r, Nat.add_0_r. by destruct w.
  - unfold bind at 1, bind at 1, uuid_New, ret. rewrite IH. simpl. f_equal.
    + f_equal. rewrite <- app_assoc. f_equal. unfold uuids. simpl. rewrite Nat.add_0_r. f_equal.
      rewrite <- !list_fmap_compose, <- fmap_S_seq, <- list_fmap_compose. apply list_fmap_ext.
      intros i y _. simpl. by rewrite Nat.add_succ_r.
    + by rewrite Nat.add_succ_r.
Qed.

Lemma generate_rows_run t ev c q w :
  generate_rows t ev c q w =
  (Ok (unit_row t ev c <$> uuids (w_tick w) (Z.to_nat q)), set_tick (w_tick w + Z.to_nat q) w).
Proof. unfold generate_rows. by rewrite generate_loop, length_seq. Qed.
End moves.

Definition admin_handlers `{U : UuidPkg} `{V : ValidatorPkg} `{T : ErrorText} `{E : Env} `{C : Collation} : list Handler :=
  [VenueCreate_handler; VenueList_handler; CreateSeatCategory_handler; CreateEvent_handler;
   CreateTicketCategory_handler; PublishEvent_handler].

Section isolation.
Context `{U : UuidPkg} `{V : ValidatorPkg} `{T : ErrorText} `{E : Env} `{C : Collation}.
Context (t : UUID).
#[local] Abbreviation moves := (upholds (moved_by (tenant_write t))).

Let rely := moved_rely (tenant_write t).

Lemma moves_BulkCreate rows : Forall (fun r => inv_TenantID r = t) rows -> moves (BulkCreate rows).
Proof.
  intros Hr w r w' Hw. destruct (decide (rows = [])) as [->|Hne]; [injection Hw as <- <-; split; reflexivity|].
  apply BulkCreate_inv in Hw as (Htx & d1 & now & batch & Ho & Hb & Hd); [|done]. split; [done|].
  etransitivity; [by apply moved_others|]. destruct Hd as [Hd|[-> _]]; [|reflexivity].
  eapply moved_write, bulk_stmt_tenant; [|exact Hd]. by rewrite <- Hb, Forall_fmap in Hr.
Qed.

Lemma GetByID_tenant ev w e w' : EventRepo.GetByID t ev w = (Ok e, w') -> e_TenantID e = t.
Proof.
  intros [Hq _]%one_row_Ok. unfold in_tenant in Hq. destruct (_ !! _) as [e'|]; [|done].
  destruct (N.eqb_spec (e_ID e') ev), (N.eqb_spec (e_TenantID e') t); simpl in Hq; congruence.
Qed.

Lemma moves_put_on_sale rows e : e_TenantID e = t -> moves (put_on_sale rows e).
Proof.
  intros He. unfold put_on_sale, publish_reply, JSON, Error, EventRepo.Update, must_affect. walk_steps.
  intros Hs. apply moved_write. by refine (update_event_tenant t _ _ _ _ _ _ Hs).
Qed.

Lemma moves_publish ev c q : moves (publish t ev c q).
Proof.
  apply (moved_bind_ok _ (fun e => e_TenantID e = t)); [|apply GetByID_tenant|intros; apply upholds_ret; apply _|].
  { unfold EventRepo.GetByID, one_row. walk_steps. }
  intros e He w r w'. unfold bind at 1. rewrite generate_rows_run. intros Hw.
  match type of Hw with ?f _ = _ => assert (Hm : moves f); [|by apply Hm in Hw] end.
  apply upholds_bind; [apply _|apply upholds_attempt, moves_BulkCreate; by apply Forall_fmap, Forall_true|].
  intros [[]|]; [by apply moves_put_on_sale|apply upholds_ret; apply _].
Qed.

(** A statement that writes a row of the club. *)
Ltac club_write :=
  let Hs := fresh in
  intros Hs; apply moved_write;
  first [by eapply insert_venue_tenant; [|exact Hs]|by eapply insert_seat_category_tenant; [|exact Hs]
        |by eapply insert_event_tenant; [|exact Hs]|by eapply insert_category_tenant; [|exact Hs]].

Lemma moves_handlers r : TenantIDFromContext r = Some t -> Forall (fun h => moves (h r)) admin_handlers.
Proof.
  unfold admin_handlers, VenueCreate_handler, VenueList_handler, CreateSeatCategory_handler, CreateEvent_handler,
    CreateTicketCategory_handler, PublishEvent_handler, adminTenant, VenueRepo.CreateVenue, VenueRepo.ListVenues,
    SeatCategoryRepo.Create, EventRepo.Create, EventRepo.CreateTicketCategory. intros Ht.
  repeat apply Forall_cons_2; [..|apply Forall_nil_2]; cbv beta; rewrite Ht.
  all: unfold JSON, Error; repeat first [apply moves_publish|walk_step]; club_write.
Qed.
End isolation.

(** The admin boundary, handler by handler. Whatever the URL, the headers (the club header
    included) and the body say, and whatever other sessions do meanwhile, a
    request to any back-office endpoint writes, updates or takes over rows of
    one club only: the one in the caller's access token. Without a club in the
    token it is refused with 403 and nothing happens. *)
Lemma admin_tenant_isolation `{U : UuidPkg} `{V : ValidatorPkg} `{T : ErrorText} `{E : Env} `{C : Collation} h r w rep w' :
  h ∈ admin_handlers -> h r w = (rep, w') ->
  match TenantIDFromContext r with
  | None => w' = w /\ rep = Ok (mkResp 403 (EnvError "no-tenant" "admin account has no associated tenant"))
  | Some t => club_moves t (w_db w) (w_db w')
  end.
Proof.
  intros Hh Hw. destruct (TenantIDFromContext r) as [t|] eqn:Ht.
  - pose proof (moves_handlers t r Ht) as Hm. rewrite Forall_forall in Hm. by apply (Hm h Hh _ _ _ Hw).
  - assert (Hn : Forall (fun h => forall w rep w', h r w = (rep, w') ->
      w' = w /\ rep = Ok (mkResp 403 (EnvError "no-tenant" "admin account has no associated tenant"))) admin_handlers).
    { unfold admin_handlers, VenueCreate_handler, VenueList_handler, CreateSeatCategory_handler, CreateEvent_handler,
        CreateTicketCategory_handler, PublishEvent_handler, adminTenant.
      repeat apply Forall_cons_2; [..|apply Forall_nil_2]; cbv beta; rewrite Ht; by intros ? ? ? [= <- <-]. }
    rewrite Forall_forall in Hn. exact (Hn h Hh _ _ _ Hw).
Qed.

(** ** Publishing *)

(** [n] new units of the category [c] of the event [ev], all available, and
    nothing else; the event and the category belong to the club. *)
Definition fresh_unit (now : Time) (t ev c id : UUID) : EventSeatInventory :=
  mkInventory id t ev c None InventoryStatusAvailable None None None now now.

Record units_added (now : Time) (t ev c : UUID) (ids : list UUID) (d d' : DB) : Prop := {
  ua_distinct : NoDup ids;
  ua_new : forall i, i ∈ ids -> inventory d !! i = None;
  ua_units : forall i, inventory d' !! i = if decide (i ∈ ids) then Some (fresh_unit now t ev c i) else inventory d !! i;
  ua_audit : audit_log d' = audit_log d ++ ((fun i => mkAudit t i None InventoryStatusAvailable None None now) <$> ids);
  ua_rest : d' = set_inventory (inventory d') (audit_log d') d;
  ua_event : ids <> [] -> fk_tenant e_TenantID (events d) ev t = true;
  ua_category : ids <> [] -> fk_tenant etc_TenantID (event_ticket_categories d) c t = true }.

Definition generated (t ev c : UUID) (n : nat) (d d' : DB) : Prop :=
  exists now ids, length ids = n /\ units_added now t ev c ids d d'.

Lemma insert_inventory_fks r now d d' u : insert_inventory r now d = Ok (u, d') -> inventory_fks r d = true.
Proof. unfold insert_inventory. intros. run_hyps. by apply negb_false_iff. Qed.

Lemma bulk_units t ev c ids batch now d u d' :
  batch.*2 = unit_row t ev c <$> ids -> bulk_stmt batch now d = Ok (u, d') -> units_added now t ev c batch.*1 d d'.
Proof.
  revert ids d. induction batch as [|[id row] batch IH]; intros ids d Hb Hs; simpl in Hs.
  { simplify_eq. split; try done; [constructor|set_solver|..].
    - by rewrite app_nil_r.
    - by destruct d'. }
  destruct ids as [|i0 ids]; [done|]. injection Hb as -> Hb.
  destruct (insert_inventory _ now d) as [[[] d1]|] eqn:Hi; [|done].
  pose proof (insert_inventory_fks _ _ _ _ _ Hi) as Hfk.
  apply insert_inventory_inv in Hi as (Hn & _ & ->). simpl in Hn.
  destruct (IH ids _ Hb Hs) as [Hnd Hfresh Hinv Haud Hrest _ _]. simpl in *.
  assert (Hid : id ∉ batch.*1) by (intros Hin; specialize (Hfresh _ Hin); by rewrite lookup_insert_eq in Hfresh).
  unfold inventory_fks in Hfk. simpl in Hfk. rewrite !andb_true_iff in Hfk. destruct Hfk as [[[Hev Hc] _] _].
  split; [by constructor| | |by rewrite Haud, <- app_assoc|exact Hrest|done..].
  - intros i [->|Hin]%elem_of_cons; [done|]. specialize (Hfresh _ Hin). by apply lookup_insert_None in Hfresh as [? _].
  - intros i. rewrite Hinv. destruct (decide (i = id)) as [->|Hne].
    + rewrite decide_False, lookup_insert_eq, decide_True by first [done|apply elem_of_cons; by left]. done.
    + rewrite lookup_insert_ne by done. destruct (decide (i ∈ batch.*1)).
      * rewrite decide_True; [done|]. apply elem_of_cons. by right.
      * rewrite decide_False; [done|]. by intros [?|?]%elem_of_cons.
Qed.

(** The UPDATE of an event: every column the statement lists is overwritten. *)
Definition event_written (e : Event) (d d' : DB) : Prop :=
  exists now row, events d !! e_ID e = Some row /\ e_TenantID row = e_TenantID e /\
    d' = set_events (<[e_ID e := EventRepo.overwrite e now row]> (events d)) d.

Definition unpublished (e : Event) : bool :=
  bool_decide (e_Status e = EventStatusDraft) || bool_decide (e_Status e = EventStatusScheduled).

Definition published (n : nat) (s : EventStatus) : Response :=
  mkResp 201 (EnvData (JsObj [("generated", JsInt (Z.of_nat n)); ("event_status", JsStr (EventStatus_String s))])).

Section publish.
Context `{U : UuidPkg} `{V : ValidatorPkg} `{T : ErrorText} `{E : Env} `{C : Collation}.

(** What the reply says once the units are there. *)
Definition on_sale_told (n : nat) (e : Event) (rsp : Response) (d d' : DB) : Prop :=
  if unpublished e
  then exists d1, others d d1 /\
    ((event_written (with_event_status EventStatusOnSale e) d1 d' /\
        (rsp = published n EventStatusOnSale \/ rsp_Status rsp = 500%Z)) \/
     (d' = d1 /\ rsp_Status rsp = 500%Z))
  else d' = d /\ rsp = published n (e_Status e).

Definition publish_told (t ev c : UUID) (n : nat) (rsp : Response) (d d' : DB) : Prop :=
  (rsp_Status rsp = 404%Z /\ others d d') \/
  exists e dx d1, others d dx /\ in_tenant e_ID e_TenantID (events dx) t ev = Some e /\ others dx d1 /\
    ((rsp_Status rsp = 500%Z /\ (d' = d1 \/ generated t ev c n d1 d')) \/
     exists d2, generated t ev c n d1 d2 /\ on_sale_told n e rsp d2 d').

Lemma Update_inv e w r w' :
  EventRepo.Update e w = (r, w') ->
  exists d1, others (w_db w) d1 /\ (event_written e d1 (w_db w') \/ (w_db w' = d1 /\ is_ok r = false)).
Proof.
  intros Hw. exists (w_db (interact w)). split; [apply interact_others|].
  assert (Hx : exists x, sql (EventRepo.update_event e) w = (x, w') /\ (is_ok r = true -> exists n, x = Ok n /\ n <> 0%Z)).
  { apply bind_inv in Hw as [(n & w1 & Hs%wrap_Ok & Hr)|(e' & Hs & ->)].
    - destruct (Z.eqb_spec n 0); injection Hr as <- <-; (eexists; split; [exact Hs|]); [done|eauto].
    - apply wrap_inv in Hs as [(? & [=] & _)|(e1 & _ & Hs)]. by eexists. }
  destruct Hx as (x & Hx & Hr). apply exec_inv in Hx as [(n & d & Hs & -> & Hn)|(e1 & y & -> & -> & _)].
  - apply update_row_Ok in Hs as [(-> & -> & _)|(-> & row & Hrow & Ht & ->)]; simpl.
    + right. split; [done|]. destruct (is_ok r); [|done]. destruct (Hr eq_refl) as (n & -> & Hnz).
      destruct Hn as [[= ->]|]; done.
    + left. apply N.eqb_eq in Ht. by eexists _, row.
  - right. split; [done|]. destruct (is_ok r); [|done]. by destruct (Hr eq_refl) as (n & ? & _).
Qed.

Lemma put_on_sale_told rows e w rep w' :
  put_on_sale rows e w = (rep, w') -> exists rsp, rep = Ok rsp /\ on_sale_told (length rows) e rsp (w_db w) (w_db w').
Proof.
  unfold put_on_sale, on_sale_told. fold (unpublished e). destruct (unpublished e); [|by intros [= <- <-]; eexists].
  rewrite bind_attempt. destruct (EventRepo.Update _ w) as [x w1] eqn:Hu.
  apply Update_inv in Hu as (d1 & Ho & Hd). destruct x; intros [= <- <-]; (eexists; split; [done|]); exists d1; (split; [done|]).
  - left. split; [|by left]. by destruct Hd as [|[_ ?]].
  - destruct Hd as [Hd|[Hd _]]; [left; by auto|right; by auto].
Qed.

Lemma publish_truth t ev c q w rep w' :
  (0 < q)%Z -> publish t ev c q w = (rep, w') ->
  exists rsp, rep = Ok rsp /\ publish_told t ev c (Z.to_nat q) rsp (w_db w) (w_db w').
Proof.
  intros Hq. unfold publish. rewrite bind_attempt. destruct (EventRepo.GetByID t ev w) as [x w1] eqn:Hg.
  apply one_row_inv in Hg as (Hd & _ & Hx). pose proof (interact_others w) as Ho. rewrite <- Hd in Ho.
  destruct x as [e|]; [|intros [= <- <-]; eexists; split; [done|by left]].
  unfold bind at 1. rewrite generate_rows_run, bind_attempt.
  set (w2 := set_tick _ w1). destruct (ir_BulkCreate _ w2) as [x w3] eqn:Hb.
  apply BulkCreate_inv in Hb as (_ & d1 & now & batch & Ho1 & Hrows & Hb).
  2: { intros Hn%(f_equal length). unfold uuids in Hn. rewrite !length_fmap, length_seq in Hn. simpl in Hn. lia. }
  assert (Hlen : length batch = Z.to_nat q).
  { rewrite <- (length_fmap snd), Hrows. unfold uuids. by rewrite !length_fmap, length_seq. }
  assert (Hgen : generated t ev c (Z.to_nat q) d1 (w_db w3) \/ (w_db w3 = d1 /\ is_ok x = false)).
  { destruct Hb as [Hb|Hb]; [left|by right]. exists now, batch.*1. rewrite length_fmap.
    split; [done|]. by eapply bulk_units. }
  destruct x as [[]|]; intros Hr.
  - destruct Hgen as [Hgen|[_ ?]]; [|done]. apply put_on_sale_told in Hr as (rsp & -> & Ht).
    exists rsp. split; [done|]. right. exists e, (w_db w1), d1. split_and!; [done..|]. right. exists (w_db w3). split; [done|].
    revert Ht. unfold uuids. by rewrite !length_fmap, length_seq.
  - injection Hr as <- <-. eexists. split; [done|]. right. exists e, (w_db w1), d1. split_and!; [done..|].
    left. split; [done|]. destruct Hgen as [?|[? _]]; auto.
Qed.

(** A ticket category cannot be free: [required] refuses the zero that [gte=0] allows. *)
Lemma free_category_refused `{!ValidatorLaws V} req :
  validate_Struct (ticket_category_tags req) = None -> (0 < tr_PriceCents req)%Z.
Proof.
  intros Hv.
  assert (Hr : validate_rule "required" (FInt (tr_PriceCents req)) = true) by (eapply validated; [exact Hv|right; by left|by left]).
  assert (Hg : validate_rule "gte=0" (FInt (tr_PriceCents req)) = true) by (eapply validated; [exact Hv|right; by left|right; by left]).
  rewrite validate_required in Hr. rewrite validate_gte in Hg. simpl in Hr. lia.
Qed.

(** C19: publishing creates exactly what it announces, in any environment. A
    request that is not turned away names between 1 and 100000 units; 201 means
    that exactly that many new units, all available, of the named event and
    category of the admin's club were inserted, and that the event was then put on
    sale if it was a draft or scheduled when it was read, and not written
    otherwise (a cancelled, completed or sold-out event gets its units and keeps
    its status, which the reply shows); 404 means that nothing was written; a 500
    leaves nothing, the complete batch, or the complete batch and the event put on
    sale by an update whose reply was lost. *)
Theorem PublishEvent_generates `{!ValidatorLaws V} r w rep w' :
  PublishEvent_handler r w = (rep, w') ->
  (w' = w /\ exists rsp, rep = Ok rsp /\ rsp_Status rsp ∈ [400; 403]%Z) \/
  exists rsp t ev c req, rep = Ok rsp /\ TenantIDFromContext r = Some t /\ uuid_Parse (rq_URLParam r "eventID") = Some ev /\
    decode_body publish_fields zero_publish r = Some req /\ uuid_Parse (pr_Category req) = Some c /\
    (1 <= pr_Quantity req <= 100000)%Z /\
    publish_told t ev c (Z.to_nat (pr_Quantity req)) rsp (w_db w) (w_db w').
Proof.
  unfold PublishEvent_handler, adminTenant, decodeAndValidate, parse_uuid.
  destruct (TenantIDFromContext r) as [t|]; [|apply gated; set_solver].
  destruct (uuid_Parse (rq_URLParam r "eventID")) as [ev|]; [|apply gated; set_solver].
  destruct (decode_body _ _ r) as [req|]; [|apply gated; set_solver].
  destruct (validate_Struct (publish_tags req)) as [msg|] eqn:Hv; [apply gated; set_solver|].
  destruct (uuid_Parse (pr_Category req)) as [c|] eqn:Hc; [|apply gated; set_solver].
  assert (Hgt : validate_rule "gt=0" (FInt (pr_Quantity req)) = true).
  { eapply validated; [exact Hv|right; by left|]. simpl. auto. }
  assert (Hle : validate_rule "lte=100000" (FInt (pr_Quantity req)) = true).
  { eapply validated; [exact Hv|right; by left|]. simpl. auto. }
  rewrite validate_gt in Hgt. rewrite validate_lte in Hle.
  intros (rsp & -> & Ht)%publish_truth; [|lia]. right. exists rsp, t, ev, c, req. split_and!; auto; lia.
Qed.
End publish.

(** ** The public pages *)

Section public.
Context `{U : UuidPkg} `{E : Env}.

(** The events a fan browsing the club [t] is shown, out of the database [d]. *)
Record browse (t : UUID) (d : DB) (l : list Event) : Prop := {
  br_sorted : StronglySorted (by_key e_StartsAt) l;
  br_bound : (length l <= 50)%nat;
  br_sound : forall e, e ∈ l -> e_TenantID e = t /\ e_Status e = EventStatusOnSale /\ exists i, events d !! i = Some e;
  br_complete : (length l < 50)%nat ->
    forall i e, events d !! i = Some e -> e_TenantID e = t -> e_Status e = EventStatusOnSale -> e ∈ l }.

Lemma StronglySorted_take {A} (R : A -> A -> Prop) n l : StronglySorted R l -> StronglySorted R (take n l).
Proof.
  intros Hs. revert n. induction Hs as [|x l Hs IH Hx]; intros [|n]; simpl; try by constructor.
  constructor; [apply IH|]. by apply Forall_take.
Qed.

Lemma list_rows_browse t d :
  browse t d (limit 50 (offset 0 (EventRepo.list_rows (mkEventFilter t (Some EventStatusOnSale) None None None) d))).
Proof.
  unfold EventRepo.list_rows, limit, offset. simpl. rewrite drop_0.
  set (P := EventRepo.matches _).
  assert (HP : forall e, P e = true <-> e_TenantID e = t /\ e_Status e = EventStatusOnSale).
  { intros e. unfold P, EventRepo.matches. simpl. rewrite !andb_true_r, andb_true_iff, N.eqb_eq, bool_decide_eq_true. done. }
  split.
  - apply StronglySorted_take, order_by_sorted.
  - rewrite length_take. lia.
  - intros e He%(elem_of_limit 50%Z). apply elem_of_order_by, elem_of_rows_where in He as [?%HP ?]. naive_solver.
  - intros Hlen i e He Ht Hs. rewrite length_take in Hlen. rewrite take_ge by lia.
    apply elem_of_order_by, elem_of_rows_where. split; [by apply HP|by exists i].
Qed.

(** C30: the public listing. For the club named in the header [GET /events]
    answers with exactly that club's events on sale, earliest first: never a
    draft or cancelled one, never another club's, at most fifty, and all of them
    when fewer than fifty are returned; it changes nothing. *)
Theorem EventList_public r w rep w' :
  EventList_handler r w = (rep, w') ->
  match ResolvedTenantIDFromContext r with
  | None => w' = w /\ rep = Ok (mkResp 400 (EnvError "missing-tenant" "X-Tenant-ID header is required"))
  | Some t => others (w_db w) (w_db w') /\ exists rsp, rep = Ok rsp /\
      (rsp_Status rsp = 500%Z \/
       exists l, rsp = mkResp 200 (EnvData (JsArr (eventResponse <$> l))) /\ browse t (w_db w') l)
  end.
Proof.
  unfold EventList_handler. destruct (ResolvedTenantIDFromContext r) as [t|]; [|by intros [= <- <-]].
  rewrite bind_attempt. destruct (EventRepo.List _ 50 0 w) as [x w1] eqn:Hl. intros Hr.
  assert (Hx : others (w_db w) (w_db w1) /\ (is_ok x = true ->
    x = Ok (limit 50 (offset 0 (EventRepo.list_rows (mkEventFilter t (Some EventStatusOnSale) None None None) (w_db w1)))))).
  { pose proof (interact_others w) as Ho.
    apply wrap_inv in Hl as [(a & -> & [(a' & d & [= <- <-] & -> & [[= ->]|])|(? & ? & [=] & _)]%exec_inv)
                            |(e & -> & [(a' & d & [= <- <-] & -> & _)|(? & ? & _ & -> & _)]%exec_inv)]; simpl; split; done. }
  destruct Hx as [Ho Hx]. destruct x as [l|]; injection Hr as <- <-; (split; [done|]); (eexists; split; [done|]); [right|by left].
  exists l. split; [done|]. injection (Hx eq_refl) as ->. apply list_rows_browse.
Qed.

(** A ticket category with the number of units on sale. *)
Definition category_shown (t ev : UUID) (d : DB) (c : EventTicketCategory) : Json :=
  JsObj [("id", JsStr (uuid_String (etc_ID c))); ("seat_category_id", JsStr (uuid_String (etc_SeatCategoryID c)));
    ("price_cents", JsInt (Cents (etc_Price c))); ("currency", JsStr (Currency (etc_Price c)));
    ("max_per_order", JsInt (etc_MaxPerOrder c));
    ("available", JsInt (count_of t ev (etc_ID c) InventoryStatusAvailable d))].

Lemma CountByStatus_quiet `{!Quiet} t ev w :
  CountByStatus t ev w = (Ok (foldl add_count ∅ (group_counts (count_rows t ev (w_db w)))), set_tick (S (w_tick w)) w).
Proof. unfold CountByStatus, bind, wrap, map_err. by rewrite query_quiet. Qed.

(** Undisturbed, [GET /events/{id}] shows any event of the club, whatever
    its status: a draft or a cancelled event too, which the documentation of
    this endpoint excludes. Each ticket category comes with the exact number of
    its units that are available. *)
Theorem EventGet_any_status `{!Quiet} r w t ev e :
  ResolvedTenantIDFromContext r = Some t -> uuid_Parse (rq_URLParam r "id") = Some ev ->
  in_tenant e_ID e_TenantID (events (w_db w)) t ev = Some e ->
  exists w', w_db w' = w_db w /\ EventGet_handler r w =
    (Ok (mkResp 200 (EnvData (JsObj (event_fields_json e
       ++ [("ticket_categories", JsArr (category_shown t ev (w_db w) <$> EventRepo.categories_of t ev (w_db w)))])))), w').
Proof.
  intros Ht Hev He. exists (set_tick (3 + w_tick w) w). split; [done|].
  unfold EventGet_handler, parse_uuid. rewrite Ht, Hev, bind_attempt. unfold EventRepo.GetByID.
  rewrite (one_row_quiet _ _ _ e) by done. rewrite bind_attempt.
  unfold EventRepo.ListTicketCategories, wrap, map_err. rewrite query_quiet, bind_attempt.
  cbn [ir_CountByStatus InventoryRepo]. rewrite CountByStatus_quiet. cbn [w_db set_tick w_tick].
  unfold JSON, ret. do 9 f_equal. apply list_fmap_ext. intros i c _. unfold category_json, category_shown.
  pose proof (count_field (count_rows t ev (w_db w)) (etc_ID c) InventoryStatusAvailable) as Hc. simpl in Hc.
  by rewrite Hc.
Qed.
End public.

(** ** Witnesses: the club's admin publishes two units of a draft event *)

Definition fx_draft : Event :=
  mkEvent 20 1 15 "Derby" "" "" "" 9000000 None 0 8000000 EventStatusDraft 0 0.
Definition fx_draft_db : DB := set_events {[20%N := fx_draft]} fx_db.
Definition fx_admin_request (param value body : string) : Request :=
  mkReq (fun _ => "") (fun p => if String.eqb p param then value else "") (Some body) ""
    (Some (mkClaims (uuid_String 10) 0 0 "admin" (uuid_String 1))) None.
Definition fx_publish_request : Request :=
  fx_admin_request "eventID" (uuid_String 20)
    (Marshal (VObj [("event_ticket_category_id", VStr (uuid_String 30)); ("quantity", VNum "2")])).

Lemma fx_publish_reply : fst (PublishEvent_handler fx_publish_request (fx_world fx_draft_db)) = Ok (published 2 EventStatusOnSale).
Proof. vm_compute. reflexivity. Qed.

Lemma PublishEvent_generates_witness : exists rsp d',
  rsp = published 2 EventStatusOnSale /\ publish_told 1 20 30 2 rsp fx_draft_db d'.
Proof.
  destruct (PublishEvent_generates fx_publish_request (fx_world fx_draft_db) _ _ (surjective_pairing _))
    as [(_ & rsp & Hr & Hin)|(rsp & t & ev & c & req & Hr & Ht & Hev & Hreq & Hc & _ & Hp)].
  - rewrite fx_publish_reply in Hr. injection Hr as <-. simpl in Hin. set_solver.
  - rewrite fx_publish_reply in Hr. injection Hr as <-. vm_compute in Hreq. injection Hreq as <-.
    assert (t = 1%N) as -> by (vm_compute in Ht; congruence).
    assert (ev = 20%N) as -> by (vm_compute in Hev; congruence).
    assert (c = 30%N) as -> by (vm_compute in Hc; congruence). by eexists _, _.
Defined.

Definition fx_browse_request : Request :=
  mkReq (fun _ => "") (fun p => if String.eqb p "id" then uuid_String 20 else "") None "" None (Some 1%N).

Lemma EventList_public_witness : exists rsp, fst (EventList_handler fx_browse_request (fx_world fx_db)) = Ok rsp /\
  rsp = mkResp 200 (EnvData (JsArr [eventResponse fx_event])).
Proof.
  destruct (EventList_public fx_browse_request (fx_world fx_db) _ _ (surjective_pairing _)) as (_ & rsp & Hr & _).
  exists rsp. split; [exact Hr|].
  assert (Hx : fst (EventList_handler fx_browse_request (fx_world fx_db)) = Ok (mkResp 200 (EnvData (JsArr [eventResponse fx_event]))))
    by (vm_compute; reflexivity).
  rewrite Hr in Hx. by injection Hx.
Defined.

Lemma EventGet_any_status_witness : exists w',
  EventGet_handler fx_browse_request (fx_world fx_draft_db) =
    (Ok (mkResp 200 (EnvData (JsObj (event_fields_json fx_draft
       ++ [("ticket_categories", JsArr [category_shown 1 20 fx_db fx_category])])))), w').
Proof.
  destruct (EventGet_any_status fx_browse_request (fx_world fx_draft_db) 1 20 fx_draft) as (w' & _ & Hg); [reflexivity..|].
  exists w'. rewrite Hg. apply (f_equal (fun x => (x, w'))). vm_compute. reflexivity.
Defined.
