(* ===== verification/AuthHandlers.v ===== *)
(** * The account endpoints ([src/internal/handler/http/auth.go])

    Registration, login, refresh and logout, the caller's own claims, and the
    creation of a club's first administrator behind a shared secret. *)
From S2P Require Import Prelude GoJson GoTime Crypto Domain Schema Redis Runtime Ports Fixtures CheckoutRepos CatalogRepos AccountRepos.
From S2P Require Import Http AuthService AuthTokens Requests Walk.

(** ** Requests *)

Record registerRequest := mkRegisterRequest { rr_Email : string; rr_Password : string; rr_FirstName : string; rr_LastName : string }.
Definition register_fields : list (Field registerRequest) :=
  [str_field "email" (fun x q => mkRegisterRequest x (rr_Password q) (rr_FirstName q) (rr_LastName q));
   str_field "password" (fun x q => mkRegisterRequest (rr_Email q) x (rr_FirstName q) (rr_LastName q));
   str_field "first_name" (fun x q => mkRegisterRequest (rr_Email q) (rr_Password q) x (rr_LastName q));
   str_field "last_name" (fun x q => mkRegisterRequest (rr_Email q) (rr_Password q) (rr_FirstName q) x)].
Definition register_tags (q : registerRequest) : list TaggedField :=
  [("Email", "required,email", FString (rr_Email q)); ("Password", "required,min=8", FString (rr_Password q));
   ("FirstName", "required", FString (rr_FirstName q)); ("LastName", "required", FString (rr_LastName q))].

Record loginRequest := mkLoginRequest { lr_Email : string; lr_Password : string }.
Definition login_fields : list (Field loginRequest) :=
  [str_field "email" (fun x q => mkLoginRequest x (lr_Password q)); str_field "password" (fun x q => mkLoginRequest (lr_Email q) x)].
Definition login_tags (q : loginRequest) : list TaggedField :=
  [("Email", "required,email", FString (lr_Email q)); ("Password", "required", FString (lr_Password q))].

Definition refresh_fields : list (Field string) := [str_field "refresh_token" (fun x _ => x)].
Definition refresh_tags (q : string) : list TaggedField := [("RefreshToken", "required", FString q)].

Record bootstrapAdminRequest := mkBootstrapRequest { br_TenantID : string; br_Account : registerRequest }.
Definition bootstrap_fields : list (Field bootstrapAdminRequest) :=
  str_field "tenant_id" (fun x q => mkBootstrapRequest x (br_Account q))
  :: ((fun f : Field registerRequest => (f.1, fun v q => (fun a => mkBootstrapRequest (br_TenantID q) a) <$> f.2 v (br_Account q))) <$> register_fields).
Definition bootstrap_tags (q : bootstrapAdminRequest) : list TaggedField :=
  ("TenantID", "required,uuid", FString (br_TenantID q)) :: register_tags (br_Account q).

(** ** Replies *)

Definition toUserResponse `{UuidPkg} (u : User) : Json :=
  JsStruct ([("id", JsStr (uuid_String (u_ID u))); ("email", JsStr (u_Email u)); ("role", JsStr (role_String (u_Role u)))]
         ++ match u_TenantID u with Some t => [("tenant_id", JsStr (uuid_String t))] | None => [] end).

Definition toTokenPairResponse `{LocalZone} (p : TokenPair) : Json :=
  JsStruct [("access_token", JsStr (tp_AccessToken p)); ("refresh_token", JsStr (tp_RefreshToken p));
    ("expires_at", JsStr (FormatHTTP (tp_AccessTokenExpiresAt p)))].

Section handlers.
Context `{U : UuidPkg, B : BcryptPkg, J : JwtPkg, R : RandPkg} `{V : ValidatorPkg} `{T : ErrorText} `{L : LocalZone}.
Context `{E : Env, I : !RefreshTokenRepo.InetCast} (jwtCfg : JWTConfig).

(** The common tail of [Register] and [BootstrapAdmin]. *)
Definition account_reply (failure : string) (result : result User) : M Response :=
  match result with
  | Ok user => JSON 201 (toUserResponse user)
  | Err e =>
      if errors_Is e (SAuth ErrWeakPassword) then Error 400 "weak-password" (error_Error e)
      else if errors_Is e (SDomain ErrConflict) then Error 409 "email-taken" "an account with this email already exists"
      else Error 500 "internal-error" failure
  end.

Definition Register_handler : Handler := fun r =>
  decodeAndValidate register_fields (mkRegisterRequest "" "" "" "") register_tags r (fun req =>
    user <- attempt (Register (rr_Email req) (rr_Password req) (rr_FirstName req) (rr_LastName req));;
    account_reply "could not register" user).

Definition login_reply (result : result TokenPair) : M Response :=
  match result with
  | Ok p => JSON 200 (toTokenPairResponse p)
  | Err e =>
      if errors_Is e (SAuth ErrInvalidCredentials) || errors_Is e (SAuth ErrAccountInactive)
      then Error 401 "invalid-credentials" "invalid email or password"
      else Error 500 "internal-error" "could not log in"
  end.

Definition Login_handler : Handler := fun r =>
  decodeAndValidate login_fields (mkLoginRequest "" "") login_tags r (fun req =>
    tokens <- attempt (Login jwtCfg (lr_Email req) (lr_Password req) (rq_Header r "User-Agent") (clientIP r));;
    login_reply tokens).

Definition refresh_reply (result : result TokenPair) : M Response :=
  match result with
  | Ok p => JSON 200 (toTokenPairResponse p)
  | Err e =>
      if errors_Is e (SAuth ErrInvalidCredentials) || errors_Is e (SAuth ErrRefreshExpired) || errors_Is e (SAuth ErrRefreshRevoked)
      then Error 401 "invalid-refresh-token" "refresh token is invalid, expired, or revoked"
      else if errors_Is e (SAuth ErrAccountInactive) then Error 403 "account-inactive" "account is not active"
      else Error 500 "internal-error" "could not refresh session"
  end.

Definition Refresh_handler : Handler := fun r =>
  decodeAndValidate refresh_fields "" refresh_tags r (fun req =>
    tokens <- attempt (RefreshAccessToken jwtCfg req (rq_Header r "User-Agent") (clientIP r));;
    refresh_reply tokens).

Definition Logout_handler : Handler := fun r =>
  decodeAndValidate refresh_fields "" refresh_tags r (fun req =>
    done <- attempt (Logout req);;
    match done with
    | Err _ => Error 500 "internal-error" "could not log out"
    | Ok _ => JSON 200 (JsObj [("status", JsStr "logged_out")])
    end).

Definition Me_handler : Handler := fun r =>
  match UserIDFromContext r with
  | None => Error 401 "missing-token" "not authenticated"
  | Some userID =>
      JSON 200 (JsObj ([("id", JsStr (uuid_String userID)); ("role", JsStr (default "" (RoleFromContext r)))]
                       ++ match TenantIDFromContext r with Some t => [("tenant_id", JsStr (uuid_String t))] | None => [] end))
  end.

Definition BootstrapAdmin_handler (secret : string) : Handler := fun r =>
  if String.eqb secret "" then Error 404 "not-found" "not found"
  else if negb (String.eqb (rq_Header r "X-Bootstrap-Secret") secret) then Error 401 "invalid-secret" "invalid bootstrap secret"
  else
    decodeAndValidate bootstrap_fields (mkBootstrapRequest "" (mkRegisterRequest "" "" "" "")) bootstrap_tags r (fun req =>
      parse_uuid (br_TenantID req) "invalid-tenant-id" "tenant_id must be a valid UUID" (fun tenantID =>
        let a := br_Account req in
        user <- attempt (RegisterAdmin tenantID (rr_Email a) (rr_Password a) (rr_FirstName a) (rr_LastName a));;
        account_reply "could not create admin" user)).

End handlers.

(** ** Who can create accounts *)

(** The table of accounts stays as it is, or gains one account satisfying [P]. *)
Definition accounts_grow (P : User -> Prop) (d d' : DB) : Prop :=
  users d' = users d \/
  exists u, users d !! u_ID u = None /\ P u /\ users d' = <[u_ID u := u]> (users d).

Section accounts.
Context `{U : UuidPkg, B : BcryptPkg, J : JwtPkg, R : RandPkg} `{V : ValidatorPkg} `{T : ErrorText} `{L : LocalZone}.
Context `{E : Env, I : !RefreshTokenRepo.InetCast} (jwtCfg : JWTConfig).
Context (P : User -> Prop).
#[local] Abbreviation grows := (upholds (moved_by (accounts_grow P))).

Let rely := moved_rely (accounts_grow P).

Lemma revoke_users id now d n d' : RefreshTokenRepo.revoke_stmt id now d = Ok (n, d') -> moved_by (accounts_grow P) d d'.
Proof. intros [(_ & -> & _)|(_ & r & _ & _ & ->)]%update_row_Ok; [done|]. apply moved_write. by left. Qed.
Lemma insert_token_users rt now d u d' : RefreshTokenRepo.insert_token rt now d = Ok (u, d') -> moved_by (accounts_grow P) d d'.
Proof.
  unfold RefreshTokenRepo.insert_token. destruct (RefreshTokenRepo.inet_column _); [|done]. intros (_ & _ & _ & -> & _)%insert_into_Ok.
  apply moved_write. by left.
Qed.

Lemma insert_user_grow u now d x d' :
  (forall u', u_ID u' = u_ID u -> u_Role u' = u_Role u -> u_TenantID u' = u_TenantID u -> u_Status u' = u_Status u -> P u') ->
  UserRepo.insert_user u now d = Ok (x, d') -> accounts_grow P d d'.
Proof.
  unfold UserRepo.insert_user. intros HP (Hn & _ & _ & -> & _)%insert_into_Ok. right.
  match goal with |- context [set_users (<[_ := ?row]> _)] => exists row end. split_and!; [exact Hn|by apply HP|done].
Qed.

Lemma grows_register role tenant msg email pw first last :
  (forall u, u_Role u = role -> u_TenantID u = tenant -> P u) -> grows (register role tenant msg email pw first last).
Proof.
  intros HP. apply walk_register; [apply _|exact rely|]. intros u now d x d' Hr Ht Hi.
  eapply moved_write, insert_user_grow, Hi. intros u' _ Hr' Ht' _. apply HP; congruence.
Qed.

Lemma grows_Login email pw ua ip : grows (Login jwtCfg email pw ua ip).
Proof. apply walk_Login; [apply _|exact rely|exact insert_token_users]. Qed.
Lemma grows_Refresh raw ua ip : grows (RefreshAccessToken jwtCfg raw ua ip).
Proof. apply walk_Refresh; [apply _|exact rely|exact insert_token_users|exact revoke_users]. Qed.
Lemma grows_Logout raw : grows (Logout raw).
Proof. apply walk_Logout; [apply _|exact rely|exact revoke_users]. Qed.

Lemma grows_decode {S} (fields : list (Field S)) zero tags r k :
  (forall req, decode_body fields zero r = Some req -> grows (k req)) -> grows (decodeAndValidate fields zero tags r k).
Proof.
  intros Hk. unfold decodeAndValidate, Error. destruct (decode_body _ _ _) as [req|]; [|apply upholds_ret; apply _].
  destruct (validate_Struct _); [apply upholds_ret; apply _|by apply Hk].
Qed.

Lemma grows_account_reply msg x : grows (account_reply msg x).
Proof. unfold account_reply, JSON, Error. walk_steps. Qed.
End accounts.

Section gate.
Context `{U : UuidPkg, B : BcryptPkg, J : JwtPkg, R : RandPkg} `{V : ValidatorPkg} `{T : ErrorText} `{L : LocalZone}.
Context `{E : Env, I : !RefreshTokenRepo.InetCast} (jwtCfg : JWTConfig).

Definition auth_handlers : list Handler :=
  [Register_handler; Login_handler jwtCfg; Refresh_handler jwtCfg; Logout_handler; Me_handler].

(** A new account that is an administrator of the club named in the body. *)
Definition admin_of_body (r : Request) (u : User) : Prop :=
  exists req t, decode_body bootstrap_fields (mkBootstrapRequest "" (mkRegisterRequest "" "" "" "")) r = Some req /\
    uuid_Parse (br_TenantID req) = Some t /\ u_Role u = UserRoleAdmin /\ u_TenantID u = Some t.

Lemma auth_handlers_grow r :
  Forall (fun h => upholds (moved_by (accounts_grow (fun u => u_Role u = UserRoleFan))) (h r)) auth_handlers.
Proof.
  unfold auth_handlers. repeat apply Forall_cons_2; [..|apply Forall_nil_2].
  - apply grows_decode. intros req _. apply upholds_bind; [apply _|apply upholds_attempt|intros; apply grows_account_reply].
    by apply grows_register.
  - apply grows_decode. intros req _. apply upholds_bind; [apply _|apply upholds_attempt, grows_Login|].
    intros. unfold login_reply, JSON, Error. upholds_steps.
  - apply grows_decode. intros req _. apply upholds_bind; [apply _|apply upholds_attempt, grows_Refresh|].
    intros. unfold refresh_reply, JSON, Error. upholds_steps.
  - apply grows_decode. intros req _. apply upholds_bind; [apply _|apply upholds_attempt, grows_Logout|].
    intros. unfold JSON, Error. upholds_steps.
  - unfold Me_handler, JSON, Error. upholds_steps.
Qed.

(** C18: nobody becomes an administrator without the bootstrap secret. Whatever a
    request to [/auth/*] or [/me] contains, the only account it can add is a
    fan's, and it changes no existing account. [/admin/bootstrap] does nothing
    at all while no secret is configured (404) or when the header does not carry
    it (401); otherwise the only account it can add is an administrator of the
    club named in the body. *)
Theorem account_creation_gated secret r w rep w' :
  (forall h, h ∈ auth_handlers -> h r w = (rep, w') ->
     moved_by (accounts_grow (fun u => u_Role u = UserRoleFan)) (w_db w) (w_db w')) /\
  (BootstrapAdmin_handler secret r w = (rep, w') ->
     if String.eqb secret "" then w' = w /\ rep = Ok (mkResp 404 (EnvError "not-found" "not found"))
     else if String.eqb (rq_Header r "X-Bootstrap-Secret") secret
     then moved_by (accounts_grow (admin_of_body r)) (w_db w) (w_db w')
     else w' = w /\ rep = Ok (mkResp 401 (EnvError "invalid-secret" "invalid bootstrap secret"))).
Proof.
  split.
  - intros h Hh Hw. pose proof (auth_handlers_grow r) as Hg. rewrite Forall_forall in Hg. by apply (Hg h Hh _ _ _ Hw).
  - unfold BootstrapAdmin_handler. destruct (String.eqb secret ""); [by intros [= <- <-]|].
    destruct (String.eqb (rq_Header r _) secret); simpl; [|by intros [= <- <-]]. intros Hw.
    enough (Hg : upholds (moved_by (accounts_grow (admin_of_body r)))
      (decodeAndValidate bootstrap_fields (mkBootstrapRequest "" (mkRegisterRequest "" "" "" "")) bootstrap_tags r (fun req =>
        parse_uuid (br_TenantID req) "invalid-tenant-id" "tenant_id must be a valid UUID" (fun tenantID =>
          user <- attempt (RegisterAdmin tenantID (rr_Email (br_Account req)) (rr_Password (br_Account req))
                    (rr_FirstName (br_Account req)) (rr_LastName (br_Account req)));;
          account_reply "could not create admin" user)))) by (by apply Hg in Hw as [_ ?]).
    apply grows_decode. intros req Hreq. unfold parse_uuid, Error.
    destruct (uuid_Parse (br_TenantID req)) as [t|] eqn:Ht; [|apply upholds_ret; apply _].
    apply upholds_bind; [apply _|apply upholds_attempt|intros; apply grows_account_reply].
    apply grows_register. intros u Hrole Htenant. exists req, t. by rewrite Hrole.
Qed.

(** The account behind an address, as the login sees it. *)
Definition may_log_in (email password : string) (d : DB) : bool :=
  match find_row (fun u => citext_eqb (u_Email u) (normalizeEmail email)) (users d) with
  | Some u => bool_decide (u_Status u = UserStatusActive) && bcrypt_Compare (u_PasswordHash u) password
  | None => false
  end.

(** C31: a refused login does not tell why. Undisturbed, an address without an
    account, a wrong password and an account that is not active are answered by
    one and the same reply, and nothing is written. *)
Theorem Login_refusals_alike `{!Quiet} r w req :
  decode_body login_fields (mkLoginRequest "" "") r = Some req -> validate_Struct (login_tags req) = None ->
  may_log_in (lr_Email req) (lr_Password req) (w_db w) = false ->
  exists w', w_db w' = w_db w /\
    Login_handler jwtCfg r w = (Ok (mkResp 401 (EnvError "invalid-credentials" "invalid email or password")), w').
Proof.
  intros Hreq Hv Hno. exists (set_tick (S (w_tick w)) w). split; [done|].
  unfold Login_handler, decodeAndValidate. rewrite Hreq, Hv, bind_attempt. unfold Login. rewrite bind_attempt.
  unfold may_log_in in Hno. unfold UserRepo.GetByEmail, one_row, bind, wrap, map_err. rewrite query_quiet.
  destruct (find_row _ (users (w_db w))) as [u|]; [|done]. unfold ret at 1.
  destruct (bool_decide _); [|done]. simpl in Hno |- *. by rewrite Hno.
Qed.
End gate.

(** ** Witnesses *)

#[export] Instance fx_zone : LocalZone := {| zone_offset _ := 10800%Z |}.

Definition fx_body_request (header value body : string) : Request :=
  mkReq (fun h => if String.eqb h header then value else "") (fun _ => "") (Some body) "10.0.0.1:4000" None None.
Definition fx_login_body (password : string) : string :=
  Marshal (VObj [("email", VStr "fan@mail.ke"); ("password", VStr password)]).

Lemma Login_refusals_alike_witness : exists w',
  Login_handler fx_jwt_config (fx_body_request "" "" (fx_login_body "wrong")) (fx_world fx_db) =
    (Ok (mkResp 401 (EnvError "invalid-credentials" "invalid email or password")), w').
Proof.
  destruct (Login_refusals_alike fx_jwt_config (fx_body_request "" "" (fx_login_body "wrong")) (fx_world fx_db)
              (mkLoginRequest "fan@mail.ke" "wrong")) as (w' & _ & Hl); [vm_compute; reflexivity..|]. by exists w'.
Defined.

(** The right password is let in. *)
Example fx_login_accepted :
  rsp_Status <$> match fst (Login_handler fx_jwt_config (fx_body_request "" "" (fx_login_body "fan")) (fx_world fx_db)) with
                 | Ok rsp => Some rsp | Err _ => None end = Some 200%Z.
Proof. vm_compute. reflexivity. Qed.

Definition fx_bootstrap_request : Request :=
  fx_body_request "X-Bootstrap-Secret" "let me in"
    (Marshal (VObj [("tenant_id", VStr (uuid_String 1)); ("email", VStr "boss@club.ke"); ("password", VStr "long enough");
                    ("first_name", VStr "Big"); ("last_name", VStr "Boss")])).

Lemma account_creation_gated_witness :
  BootstrapAdmin_handler "" fx_bootstrap_request (fx_world fx_db) = (Ok (mkResp 404 (EnvError "not-found" "not found")), fx_world fx_db) /\
  moved_by (accounts_grow (admin_of_body fx_bootstrap_request)) fx_db
    (w_db (snd (BootstrapAdmin_handler "let me in" fx_bootstrap_request (fx_world fx_db)))).
Proof.
  split; [reflexivity|].
  exact (proj2 (account_creation_gated fx_jwt_config "let me in" fx_bootstrap_request (fx_world fx_db) _ _ ) (surjective_pairing _)).
Defined.
