(* ===== verification/Router.v ===== *)
(** * The API process ([src/cmd/api/main.go], [src/internal/handler/http/router.go],
    [health.go], [src/internal/handler/middleware/requestid.go] and [recovery.go])

    Which handler answers which route behind which guards, the middleware every
    request passes, and the wiring of the process. *)
From Stdlib Require Import Ascii.
From S2P Require Import Prelude GoJson GoTime Crypto Domain Schema Redis Runtime Ports Fixtures InventoryRepo RedisRepo InventoryService.
From S2P Require Import CheckoutRepos CatalogRepos AccountRepos PaymentGateways OrderService Http Webhook AuthService AuthTokens.
From S2P Require Import Requests Config PurchaseHandlers CatalogHandlers CatalogReplies AuthHandlers.

(** ** health.go *)

Section health.
Context `{T : ErrorText} `{E : Env}.

Definition Live : Handler := fun _ => JSON 200 (JsObj [("status", JsStr "ok")]).

(** [Ping]: a statement, respectively a command, without effect. *)
Definition postgres_Ping : M unit := select (query (fun _ => tt)).
Definition redis_Ping : M unit := redis (fun _ s => Some (tt, s)).
Definition check_text (r : result unit) : string := match r with Ok _ => "ok" | Err e => error_Error e end.

Definition Ready : Handler := fun _ =>
  pg <- attempt postgres_Ping;;
  rd <- attempt redis_Ping;;
  JSON (if is_ok pg && is_ok rd then 200 else 503)
    (JsObj [("postgres", JsStr (check_text pg)); ("redis", JsStr (check_text rd))]).

End health.

(** ** Third-party middleware and routing

    [chi_find] is the routing of go-chi: the index of the route a method and a
    path lead to, with the URL parameters. [RealIP] replaces the remote address;
    [cors] answers preflight requests itself. *)
Inductive ChiMatch := ChiFound (route : nat) (params : string -> string) | ChiNotFound | ChiMethodNotAllowed.
Class HttpStack := {
  chi_find : list (string * string) -> string -> string -> ChiMatch;
  real_ip : Request -> string;
  cors_preflight : string -> Request -> bool }.

(** A reply in the JSON envelope, or a plain status of the third-party code. *)
Inductive Reply := RJson (rsp : Response) | RPlain (status : Z).
Record Served := mkServed { sv_RequestID : string; sv_Reply : Reply }.

(** ** The routes *)

Record Route `{RedisServer} := mkRoute { ro_Method : string; ro_Pattern : string; ro_Handler : Handler }.
Arguments mkRoute {_} _ _ _.

Section api.
Context `{U : UuidPkg, B : BcryptPkg, J : JwtPkg, Rn : RandPkg} `{V : ValidatorPkg} `{T : ErrorText} `{L : LocalZone}.
Context `{C : Collation} `{E : Env, I : !RefreshTokenRepo.InetCast} (cfg : Settings).

(** The gateway of the process: Stripe when a key is configured, the in-memory
    mock otherwise. *)
Definition payment_gateway : PaymentGateway :=
  if String.eqb (stripe_SecretKey (cf_Stripe cfg)) "" then MockGateway.gateway (stripe_WebhookSecret (cf_Stripe cfg))
  else StripeGateway.gateway (stripe_WebhookSecret (cf_Stripe cfg)).
#[local] Existing Instance payment_gateway.

Lemma payment_gateway_contract : GatewayContract payment_gateway.
Proof. unfold payment_gateway. destruct (String.eqb _ _); apply _. Qed.

Definition authenticated (h : Handler) : Handler := RequireAuth (ParseAccessToken (cf_JWT cfg)) h.
Definition admin (h : Handler) : Handler := authenticated (RequireAdmin h).
Definition purchase (h : Handler) : Handler := authenticated (RequireTenantHeader h).

Definition scaffold : Handler := fun _ =>
  JSON 200 (JsObj [("service", JsStr "ticketing-backend"); ("status", JsStr "scaffold")]).

Definition routes : list Route :=
  [mkRoute "GET" "/healthz" Live;
   mkRoute "GET" "/readyz" Ready;
   mkRoute "POST" "/webhooks/stripe" Stripe;
   mkRoute "GET" "/api/v1/" scaffold;
   mkRoute "POST" "/api/v1/auth/register" Register_handler;
   mkRoute "POST" "/api/v1/auth/login" (Login_handler (cf_JWT cfg));
   mkRoute "POST" "/api/v1/auth/refresh" (Refresh_handler (cf_JWT cfg));
   mkRoute "POST" "/api/v1/auth/logout" Logout_handler;
   mkRoute "GET" "/api/v1/me" (authenticated Me_handler);
   mkRoute "POST" "/api/v1/admin/bootstrap" (BootstrapAdmin_handler (bs_Secret (cf_Bootstrap cfg)));
   mkRoute "POST" "/api/v1/admin/venues" (admin VenueCreate_handler);
   mkRoute "GET" "/api/v1/admin/venues" (admin VenueList_handler);
   mkRoute "POST" "/api/v1/admin/seat-categories" (admin CreateSeatCategory_handler);
   mkRoute "POST" "/api/v1/admin/events" (admin CreateEvent_handler);
   mkRoute "POST" "/api/v1/admin/events/{eventID}/ticket-categories" (admin CreateTicketCategory_handler);
   mkRoute "POST" "/api/v1/admin/events/{eventID}/publish" (admin PublishEvent_handler);
   mkRoute "GET" "/api/v1/events" (RequireTenantHeader EventList_handler);
   mkRoute "GET" "/api/v1/events/{id}" (RequireTenantHeader EventGet_handler);
   mkRoute "POST" "/api/v1/events/{eventID}/queue" (purchase JoinQueue_handler);
   mkRoute "GET" "/api/v1/events/{eventID}/queue" (purchase QueueStatus_handler);
   mkRoute "POST" "/api/v1/inventory/{id}/hold" (purchase (Hold_handler DefaultConfig));
   mkRoute "POST" "/api/v1/inventory/{id}/release" (purchase Release_handler);
   mkRoute "POST" "/api/v1/orders" (purchase Create_handler);
   mkRoute "POST" "/api/v1/orders/{id}/authorize" (purchase Authorize_handler);
   mkRoute "GET" "/api/v1/orders" (purchase List_handler);
   mkRoute "GET" "/api/v1/orders/{id}" (purchase Get_handler)].

(** A failure inside a handler stands for a panic here. *)
Definition Recovery (next : M Reply) : M Reply :=
  r <- attempt next;;
  match r with
  | Ok reply => ret reply
  | Err _ => ret (RJson (mkResp 500 (EnvError "internal-error" "something went wrong")))
  end.

Definition with_params (params : string -> string) (r : Request) : Request :=
  mkReq (rq_Header r) params (rq_Body r) (rq_RemoteAddr r) (rq_Claims r) (rq_Tenant r).
Definition with_remote (addr : string) (r : Request) : Request :=
  mkReq (rq_Header r) (rq_URLParam r) (rq_Body r) addr (rq_Claims r) (rq_Tenant r).

(** The mux behind the global middleware. *)
Definition dispatch `{HttpStack} (method path : string) (r : Request) : M Reply :=
  match chi_find ((fun ro => (ro_Method ro, ro_Pattern ro)) <$> routes) method path with
  | ChiNotFound => ret (RPlain 404)
  | ChiMethodNotAllowed => ret (RPlain 405)
  | ChiFound i params =>
      match routes !! i with
      | None => ret (RPlain 404)
      | Some ro => rsp <- ro_Handler ro (with_params params r);; ret (RJson rsp)
      end
  end.

(** [RequestID], [RealIP], [Recovery], logging and timeout, [cors], the mux. A
    request arrives with nothing in its context. *)
Definition ServeHTTP `{HttpStack} (method path : string) (headers : string -> string) (body : option string) (remote : string) : M Served :=
  let r := mkReq headers (fun _ => "") body remote None None in
  id <- (if String.eqb (headers "X-Request-ID") "" then (u <- uuid_New;; ret (uuid_String u)) else ret (headers "X-Request-ID"));;
  reply <- Recovery (if cors_preflight method r then ret (RPlain 200) else dispatch method path (with_remote (real_ip r) r));;
  ret (mkServed id reply).

End api.

(** ** Who may reach which route *)

(** The access policy of the API, by path alone. *)
Inductive Access := Public | ClubOnly | Authenticated | Buyer | AdminOnly.
#[global] Instance Access_dec : EqDecision Access. Proof. solve_decision. Defined.

Definition access (pattern : string) : Access :=
  if String.eqb pattern "/api/v1/admin/bootstrap" then Public
  else if String.prefix "/api/v1/admin/" pattern then AdminOnly
  else if String.eqb pattern "/api/v1/me" then Authenticated
  else if String.prefix "/api/v1/inventory/" pattern || String.prefix "/api/v1/orders" pattern
          || String.eqb pattern "/api/v1/events/{eventID}/queue" then Buyer
  else if String.prefix "/api/v1/events" pattern then ClubOnly
  else Public.

Section policy.
Context `{U : UuidPkg, B : BcryptPkg, J : JwtPkg, Rn : RandPkg} `{V : ValidatorPkg} `{T : ErrorText} `{L : LocalZone}.
Context `{C : Collation} `{E : Env, I : !RefreshTokenRepo.InetCast} (cfg : Settings).

(** The claims of the bearer token, if it is valid at [now]. *)
Definition credentials (now : Time) (headers : string -> string) : option Claims :=
  match strings_CutPrefix (headers "Authorization") "Bearer " with
  | None => None
  | Some token =>
      if String.eqb token "" then None
      else match jwt_Parse (jc_Secret (cf_JWT cfg)) now token with Ok c => Some c | Err _ => None end
  end.

Definition club_header (headers : string -> string) : option UUID :=
  if String.eqb (headers "X-Tenant-ID") "" then None else uuid_Parse (headers "X-Tenant-ID").

(** The status a request is turned away with, or [None]. *)
Definition refused (a : Access) (now : Time) (headers : string -> string) : option Z :=
  let known := credentials now headers in
  match a with
  | Public => None
  | ClubOnly => match club_header headers with None => Some 400%Z | Some _ => None end
  | Authenticated => match known with None => Some 401%Z | Some _ => None end
  | Buyer => match known, club_header headers with None, _ => Some 401%Z | Some _, None => Some 400%Z | _, _ => None end
  | AdminOnly =>
      match known with
      | None => Some 401%Z
      | Some c => if String.eqb (cl_Role c) "admin" then None else Some 403%Z
      end
  end.

(** A reply with status [st] and nothing else. *)
Definition turned_away (st : Z) (w : World) (p : result Response * World) : Prop :=
  exists rsp, fst p = Ok rsp /\ rsp_Status rsp = st /\ w_db (snd p) = w_db w /\ w_redis (snd p) = w_redis w.

Lemma turned_away_now st code msg w : turned_away st w (Error st code msg w).
Proof. by eexists. Qed.

Lemma RequireAuth_run next r w :
  match credentials (env_clock (w_tick w)) (rq_Header r) with
  | Some c => authenticated cfg next r w = next (with_claims c r) (set_tick (S (w_tick w)) w)
  | None => turned_away 401 w (authenticated cfg next r w)
  end.
Proof.
  unfold credentials, authenticated, RequireAuth. destruct (strings_CutPrefix _ _) as [token|]; [|apply turned_away_now].
  destruct (String.eqb token ""); [apply turned_away_now|].
  rewrite bind_attempt. unfold ParseAccessToken, bind, time_Now, wrap, map_err, of_result.
  destruct (jwt_Parse _ _ token); [done|]. by eexists.
Qed.

Lemma RequireTenant_run next r w :
  match club_header (rq_Header r) with
  | Some t => RequireTenantHeader next r w = next (with_tenant t r) w
  | None => turned_away 400 w (RequireTenantHeader next r w)
  end.
Proof.
  unfold club_header, RequireTenantHeader. destruct (String.eqb _ ""); [apply turned_away_now|].
  destruct (uuid_Parse _); [done|apply turned_away_now].
Qed.

(** How each route is built. *)
Lemma routes_guarded ro :
  ro ∈ routes cfg ->
  match access (ro_Pattern ro) with
  | Public => True
  | ClubOnly => exists h, ro_Handler ro = RequireTenantHeader h
  | Authenticated => exists h, ro_Handler ro = authenticated cfg h
  | Buyer => exists h, ro_Handler ro = purchase cfg h
  | AdminOnly => exists h, h ∈ admin_handlers /\ ro_Handler ro = admin cfg h
  end.
Proof.
  revert ro. apply Forall_forall. unfold routes. repeat apply Forall_cons_2; [..|apply Forall_nil_2];
    simpl; try done; try by eexists.
  all: eexists; split; [|reflexivity]; unfold admin_handlers; rewrite !elem_of_cons; tauto.
Qed.

Lemma refusal_stands ro r w st :
  ro ∈ routes cfg -> refused (access (ro_Pattern ro)) (env_clock (w_tick w)) (rq_Header r) = Some st ->
  turned_away st w (ro_Handler ro r w).
Proof.
  intros Hro%routes_guarded. unfold refused. destruct (access _); [done|..].
  - destruct Hro as [h ->]. pose proof (RequireTenant_run h r w) as Hr. destruct (club_header _); by intros [= <-].
  - destruct Hro as [h ->]. pose proof (RequireAuth_run h r w) as Hr. destruct (credentials _ _); by intros [= <-].
  - destruct Hro as [h ->]. unfold purchase. pose proof (RequireAuth_run (RequireTenantHeader h) r w) as Hr.
    destruct (credentials _ _) as [c|]; [|by intros [= <-]]. rewrite Hr.
    pose proof (RequireTenant_run h (with_claims c r) (set_tick (S (w_tick w)) w)) as Hr2.
    cbn [rq_Header with_claims] in Hr2. destruct (club_header _); by intros [= <-].
  - destruct Hro as (h & _ & ->). unfold admin. pose proof (RequireAuth_run (RequireAdmin h) r w) as Hr.
    destruct (credentials _ _) as [c|]; [|by intros [= <-]]. rewrite Hr. unfold RequireAdmin, RoleFromContext. simpl.
    destruct (String.eqb (cl_Role c) "admin"); intros [= <-]. by eexists.
Qed.

(** Numbering the request takes one tick unless the caller brings a number. *)
Definition entered (headers : string -> string) (w : World) : World :=
  if String.eqb (headers "X-Request-ID") "" then set_tick (S (w_tick w)) w else w.

Context `{HS : HttpStack}.

Definition incoming (headers : string -> string) (params : string -> string) (body : option string) (remote : string) : Request :=
  let r := mkReq headers (fun _ => "") body remote None None in with_params params (with_remote (real_ip r) r).

(** What the process answers to a request that the mux leads to the route [ro]. *)
Lemma ServeHTTP_route method path headers body remote w i params ro :
  cors_preflight method (mkReq headers (fun _ => "") body remote None None) = false ->
  chi_find ((fun ro => (ro_Method ro, ro_Pattern ro)) <$> routes cfg) method path = ChiFound i params ->
  routes cfg !! i = Some ro ->
  let '(r, w') := ro_Handler ro (incoming headers params body remote) (entered headers w) in
  exists id, ServeHTTP cfg method path headers body remote w =
    (Ok (mkServed id (RJson (match r with Ok rsp => rsp | Err _ => mkResp 500 (EnvError "internal-error" "something went wrong") end))), w').
Proof.
  intros Hcors Hfind Hro. unfold incoming, entered. set (r0 := mkReq headers _ body remote None None) in *.
  destruct (ro_Handler ro _ _) as [x w'] eqn:Hh. unfold ServeHTTP, Recovery, dispatch. fold r0. rewrite Hcors, Hfind, Hro.
  destruct (String.eqb (headers "X-Request-ID") ""); unfold bind, attempt, uuid_New, ret; rewrite Hh;
    destruct x; by eexists.
Qed.

(** C17: the guards of the router implement the access policy. Whatever the
    request, if the mux leads it to a route whose path the policy protects and
    the policy refuses it (no valid bearer token on [/me], the purchase path and
    the back office; no administrator's token on the back office; no club header
    on the club's pages), it is answered 401, 403 or 400 accordingly, and neither
    the database nor Redis is touched. *)
Theorem router_access_control method path headers body remote w i params ro st :
  cors_preflight method (mkReq headers (fun _ => "") body remote None None) = false ->
  chi_find ((fun ro => (ro_Method ro, ro_Pattern ro)) <$> routes cfg) method path = ChiFound i params ->
  routes cfg !! i = Some ro ->
  refused (access (ro_Pattern ro)) (env_clock (w_tick (entered headers w))) headers = Some st ->
  exists id rsp w', ServeHTTP cfg method path headers body remote w = (Ok (mkServed id (RJson rsp)), w') /\
    rsp_Status rsp = st /\ w_db w' = w_db w /\ w_redis w' = w_redis w.
Proof.
  intros Hcors Hfind Hro Href. pose proof (ServeHTTP_route _ _ _ _ _ w _ _ _ Hcors Hfind Hro) as Hs.
  destruct (refusal_stands ro (incoming headers params body remote) (entered headers w) st) as (rsp & Hr & Hst & Hd & Hrd);
    [by eapply list_elem_of_lookup_2|exact Href|].
  destruct (ro_Handler ro _ _) as [x w']. simpl in Hr, Hd, Hrd. subst x. destruct Hs as [id Hs].
  exists id, rsp, w'. split; [exact Hs|]. split; [done|]. rewrite Hd, Hrd. unfold entered. by destruct (String.eqb _ _).
Qed.

(** The club an administrator's valid token names. *)
Definition admin_club (now : Time) (headers : string -> string) : option UUID :=
  c ← credentials now headers;
  if String.eqb (cl_Role c) "admin" then TenantIDFromContext (with_claims c (mkReq headers (fun _ => "") None "" None None)) else None.

(** C12: the administration boundary of the whole process. Whatever the method,
    URL, headers and body of a request that reaches a back-office route, and
    whatever other sessions do meanwhile, it writes, updates or takes over rows
    of one club only: the one in a valid, unexpired administrator's token. The
    club header plays no part, and without such a token nothing is written. *)
Theorem admin_boundary method path headers body remote w i params ro rep w' :
  cors_preflight method (mkReq headers (fun _ => "") body remote None None) = false ->
  chi_find ((fun ro => (ro_Method ro, ro_Pattern ro)) <$> routes cfg) method path = ChiFound i params ->
  routes cfg !! i = Some ro -> access (ro_Pattern ro) = AdminOnly ->
  ServeHTTP cfg method path headers body remote w = (rep, w') ->
  match admin_club (env_clock (w_tick (entered headers w))) headers with
  | None => w_db w' = w_db w
  | Some t => club_moves t (w_db w) (w_db w')
  end.
Proof.
  intros Hcors Hfind Hro Hacc Hw. pose proof (ServeHTTP_route _ _ _ _ _ w _ _ _ Hcors Hfind Hro) as Hs.
  pose proof (routes_guarded ro ltac:(by eapply list_elem_of_lookup_2)) as Hg. rewrite Hacc in Hg. destruct Hg as (h & Hh & Hadm).
  rewrite Hadm in Hs. set (r := incoming headers params body remote) in *.
  assert (Hdb : w_db (entered headers w) = w_db w) by (unfold entered; by destruct (String.eqb _ _)).
  pose proof (RequireAuth_run (RequireAdmin h) r (entered headers w)) as Hrun. unfold admin in Hs. unfold admin_club.
  change (rq_Header r) with headers in Hrun.
  destruct (credentials _ headers) as [c|] eqn:Hc; simpl.
  2: { destruct Hrun as (rsp & Hr & _ & Hd & _). destruct (authenticated _ _ _ _) as [x w1]. simpl in *.
       destruct Hs as [id Hs]. rewrite Hs in Hw. injection Hw as _ <-. congruence. }
  rewrite Hrun in Hs. unfold RequireAdmin, RoleFromContext in Hs. simpl in Hs.
  destruct (String.eqb (cl_Role c) "admin").
  2: { cbn in Hs. destruct Hs as [id Hs]. rewrite Hs in Hw. injection Hw as _ <-. exact Hdb. }
  destruct (h (with_claims c r) _) as [x w1] eqn:Hrunh. destruct Hs as [id Hs]. rewrite Hs in Hw. injection Hw as _ <-.
  apply admin_tenant_isolation in Hrunh; [|done]. revert Hrunh. unfold TenantIDFromContext. simpl.
  destruct (String.eqb (cl_TenantID c) ""); [intros [-> _]; exact Hdb|]. destruct (uuid_Parse _); [|intros [-> _]; exact Hdb].
  unfold club_moves. simpl. by rewrite Hdb.
Qed.
End policy.

(** ** Witnesses *)

(** A mux that compares paths segment by segment. *)
Fixpoint fx_segments (pattern path : list string) : option (list (string * string)) :=
  match pattern, path with
  | [], [] => Some []
  | p :: ps, s :: ss =>
      if String.prefix "{" p then cons (p, s) <$> fx_segments ps ss
      else if String.eqb p s then fx_segments ps ss else None
  | _, _ => None
  end.
Definition fx_param (l : list (string * string)) (name : string) : string :=
  default "" (snd <$> find (fun kv => String.eqb kv.1 ("{" +:+ name +:+ "}")) l).
Fixpoint fx_find (i : nat) (l : list (string * string)) (method path : string) : ChiMatch :=
  match l with
  | [] => ChiNotFound
  | (m, p) :: l' =>
      match (if String.eqb m method then fx_segments (strings_Split "/"%char p) (strings_Split "/"%char path) else None) with
      | Some params => ChiFound i (fx_param params)
      | None => fx_find (S i) l' method path
      end
  end.
#[export] Instance fx_stack : HttpStack := {|
  chi_find := fx_find 0; real_ip := rq_RemoteAddr; cors_preflight method _ := String.eqb method "OPTIONS" |}.

Definition fx_api : Settings := fx_settings (10 * Second).

Lemma router_access_control_witness : exists id rsp w',
  ServeHTTP fx_api "GET" "/api/v1/orders" (fun _ => "") None "" (fx_world fx_db) = (Ok (mkServed id (RJson rsp)), w') /\
  rsp_Status rsp = 401%Z.
Proof.
  destruct (router_access_control fx_api "GET" "/api/v1/orders" (fun _ => "") None "" (fx_world fx_db) 24 (fx_param [])
              (mkRoute "GET" "/api/v1/orders" (purchase fx_api List_handler)) 401)
    as (id & rsp & w' & Hs & Hst & _); [reflexivity|vm_compute; reflexivity|reflexivity|vm_compute; reflexivity|].
  exists id, rsp, w'. split; [exact Hs|exact Hst].
Defined.

(** The administrator of club 1 publishes through the front door. *)
Definition fx_admin_token : string :=
  match jwt_Sign (jc_Secret (cf_JWT fx_api)) (mkClaims (uuid_String 10) 0 (2 * Hour) "admin" (uuid_String 1)) with
  | Ok token => token | Err _ => "" end.
Definition fx_admin_headers (h : string) : string :=
  if String.eqb h "Authorization" then "Bearer " +:+ fx_admin_token else if String.eqb h "X-Tenant-ID" then uuid_String 2 else "".
Definition fx_publish_path : string := "/api/v1/admin/events/20/publish".

Lemma fx_admin_club : admin_club fx_api (env_clock (w_tick (entered fx_admin_headers (fx_world fx_draft_db)))) fx_admin_headers = Some 1%N.
Proof. vm_compute. reflexivity. Qed.

Lemma admin_boundary_witness : exists rep w',
  ServeHTTP fx_api "POST" fx_publish_path fx_admin_headers (rq_Body fx_publish_request) "" (fx_world fx_draft_db) = (rep, w') /\
  club_moves 1 fx_draft_db (w_db w').
Proof.
  destruct (ServeHTTP fx_api "POST" fx_publish_path fx_admin_headers (rq_Body fx_publish_request) "" (fx_world fx_draft_db))
    as [rep w'] eqn:Hs. exists rep, w'. split; [reflexivity|].
  pose proof (admin_boundary fx_api "POST" fx_publish_path fx_admin_headers (rq_Body fx_publish_request) "" (fx_world fx_draft_db) 15
    (fx_param [("{eventID}", "20")]) (mkRoute "POST" "/api/v1/admin/events/{eventID}/publish" (admin fx_api PublishEvent_handler))
    rep w') as HH.
  rewrite fx_admin_club in HH. apply HH; [reflexivity|vm_compute; reflexivity|reflexivity|reflexivity|exact Hs].
Defined.

(** And the request is accepted. *)
Example fx_published :
  sv_Reply <$> match fst (ServeHTTP fx_api "POST" fx_publish_path fx_admin_headers (rq_Body fx_publish_request) "" (fx_world fx_draft_db)) with
               | Ok s => Some s | Err _ => None end = Some (RJson (published 2 EventStatusOnSale)).
Proof. vm_compute. reflexivity. Qed.
