(* ===== verification/Boundary.v ===== *)
(** * What a buyer's request can write

    The purchase counterpart of the administration boundary in [Router]: a
    request to a purchase endpoint, whatever it contains, takes only the steps of
    [buyer_write], on the rows of one club and in the name of one account. *)
From S2P Require Import Prelude GoJson GoTime Crypto Domain Schema Redis Runtime Ports Fixtures InventoryRepo RedisRepo InventoryService.
From S2P Require Import CheckoutRepos CatalogRepos AccountRepos PaymentGateways OrderService OrderCreate Http AuthService AuthTokens.
From S2P Require Import Requests Walk Config PurchaseHandlers PurchaseReplies CatalogHandlers CatalogReplies AuthHandlers Router.

(** ** The writes *)

(** Every write a buyer [u] in the club [t] can cause; there is no other. *)
Inductive buyer_write (t u : UUID) (d : DB) : DB -> Prop :=
| bw_hold i tok e d' :
    swapped t i is_available InventoryStatusHeld (Some tok) (Some u) (Some e) d d' -> buyer_write t u d d'
| bw_release i tok d' :
    swapped t i (is_held_by tok) InventoryStatusAvailable None None None d d' -> buyer_write t u d d'
| bw_order key l o its ids now :
    order_from t u key l o its -> orders d !! o_ID o = None -> length ids = length its -> fresh_ids d ids ->
    buyer_write t u d (set_order_items (add_items now t (o_ID o) (zip ids its) (order_items d))
                         (set_orders (<[o_ID o := OrderRepo.stored now o]> (orders d)) d))
| bw_payment k p :
    payments d !! k = None -> p_TenantID p = t -> p_Status p = PaymentStatusPending ->
    fk_tenant o_TenantID (orders d) (p_OrderID p) t = true ->
    buyer_write t u d (set_payments (<[k := p]> (payments d)) d)
| bw_authorize i o now :
    orders d !! i = Some o -> o_TenantID o = t ->
    buyer_write t u d (set_orders (<[i := OrderRepo.set_status OrderStatusAwaitingPayment now o]> (orders d)) d).

(** What the purchase routes lead to. *)
Definition buyer_handlers `{U : UuidPkg} `{T : ErrorText} `{E : Env} `{G : !PaymentGateway} (cfg : Config) : list Handler :=
  [JoinQueue_handler; QueueStatus_handler; Hold_handler cfg; Release_handler; Create_handler; Authorize_handler; List_handler;
   Get_handler].

Section walk.
Context `{U : UuidPkg} `{V : ValidatorPkg} `{T : ErrorText} `{E : Env} (t u : UUID).
#[local] Abbreviation wrote := (moved_by (buyer_write t u)).
#[local] Abbreviation keeps := (upholds wrote).
Let rely := moved_rely (buyer_write t u).

Lemma wrote_payment p now d x d' : p_TenantID p = t -> p_Status p = PaymentStatusPending ->
  PaymentRepo.insert_payment p now d = Ok (x, d') -> wrote d d'.
Proof.
  intros Ht Hs Hi. unfold PaymentRepo.insert_payment in Hi. apply insert_into_Ok in Hi as (Hn & _ & Hfk & -> & _).
  rewrite Ht in Hfk. by apply moved_write, bw_payment.
Qed.

Lemma wrote_authorize oid now d n d' :
  OrderRepo.update_status_stmt t oid OrderStatusAwaitingPayment now d = Ok (n, d') -> wrote d d'.
Proof. intros [(_ & -> & _)|(_ & o & Ho & Ht%N.eqb_eq & ->)]%update_row_Ok; [done|]. by apply moved_write, bw_authorize. Qed.

(** ** The services *)

Lemma wrote_create_tx `{!RandomUuids} key items : keeps (WithTx (create_order_tx t u key items)).
Proof.
  intros w r w' Hw. apply WithTx_inv in Hw as [Hm Hw]; [|apply create_order_tx_upholds]. split; [done|].
  destruct Hw as [(e & _ & Ho)|(o & w1 & Hf & -> & _)]; [by apply moved_others|].
  apply create_order_tx_Ok in Hf as (d & l & its & Ho & _ & Hof & _ & Hn & _ & ids & Hlen & Hfr & ->); [|done].
  etransitivity; [apply moved_others; etransitivity; [apply interact_others|exact Ho]|]. by eapply moved_write, bw_order.
Qed.

Lemma wrote_CreateOrder `{!RandomUuids} key items : keeps (CreateOrder t u key items).
Proof.
  unfold CreateOrder, OrderRepo.GetByIdempotencyKey, one_row. repeat first [apply wrote_create_tx|walk_step].
Qed.

Lemma wrote_HoldSeat cfg ev i : keeps (HoldSeat cfg t ev i u).
Proof.
  unfold HoldSeat, hold_row. repeat first [walk_neutral_call|walk_step].
  eapply cas_upholds; [apply _|exact rely| |apply ir_Hold_cas]. intros d d' Hs. by eapply moved_write, bw_hold.
Qed.

Lemma wrote_ReleaseHold i tok : keeps (ReleaseHold t i tok).
Proof.
  unfold ReleaseHold. walk_steps.
  eapply cas_upholds; [apply _|exact rely| |apply ir_Release_cas]. intros d d' Hs. by eapply moved_write, bw_release.
Qed.

Lemma wrote_AuthorizePayment `{G : !PaymentGateway, !GatewayContract G} oid : keeps (AuthorizePayment t oid).
Proof.
  unfold AuthorizePayment, OrderRepo.GetByID, one_row, PaymentRepo.Create, OrderRepo.UpdateStatus, must_affect.
  repeat first [walk_neutral_call|walk_step]; [by apply wrote_payment|apply wrote_authorize].
Qed.

(** ** The handlers *)

Lemma wrote_user r k : UserIDFromContext r = Some u -> ResolvedTenantIDFromContext r = Some t -> keeps (k u t) -> keeps (userAndTenant r k).
Proof. unfold userAndTenant. by intros -> ->. Qed.

Lemma wrote_handlers `{!RandomUuids} `{G : !PaymentGateway, !GatewayContract G} cfg r :
  UserIDFromContext r = Some u -> ResolvedTenantIDFromContext r = Some t ->
  Forall (fun h : Handler => keeps (h r)) (buyer_handlers cfg).
Proof.
  intros Hu Ht. unfold buyer_handlers, JoinQueue_handler, QueueStatus_handler, Hold_handler, Release_handler, Create_handler,
    Authorize_handler, List_handler, Get_handler, JoinQueue, QueueStatus, hold_reply, order_reply, OrderRepo.GetByID, one_row, JSON.
  repeat apply Forall_cons_2; [..|apply Forall_nil_2]; cbv beta;
    repeat first [apply wrote_HoldSeat|apply wrote_ReleaseHold|apply wrote_CreateOrder|apply wrote_AuthorizePayment
                 |apply wrote_user; [exact Hu|exact Ht|]|walk_neutral_call|walk_step].
Qed.
End walk.

(** ** The boundary *)

Section boundary.
Context `{U : UuidPkg, B : BcryptPkg, J : JwtPkg, Rn : RandPkg} `{V : ValidatorPkg} `{T : ErrorText} `{L : LocalZone}.
Context `{C : Collation} `{E : Env, I : !RefreshTokenRepo.InetCast, !RandomUuids} `{HS : HttpStack} (cfg : Settings).

Lemma buyer_routes ro : ro ∈ routes cfg -> access (ro_Pattern ro) = Buyer ->
  exists h, h ∈ buyer_handlers (G := payment_gateway cfg) DefaultConfig /\ ro_Handler ro = purchase cfg h.
Proof.
  cut (Forall (fun ro => access (ro_Pattern ro) = Buyer ->
    exists h, h ∈ buyer_handlers (G := payment_gateway cfg) DefaultConfig /\ ro_Handler ro = purchase cfg h) (routes cfg)).
  { rewrite Forall_forall. auto. }
  unfold routes. repeat apply Forall_cons_2; [..|apply Forall_nil_2]; cbn [ro_Handler]; try done.
  all: intros _; eexists; split; [|reflexivity]; unfold buyer_handlers; rewrite !elem_of_cons; tauto.
Qed.

(** The club and the account a request buys for: the club in its club header and
    the account of its bearer token. *)
Definition buyer (now : Time) (headers : string -> string) : option (UUID * UUID) :=
  c ← credentials cfg now headers; t ← club_header headers; u ← uuid_Parse (cl_Subject c); Some (t, u).

(** A handler without an account refuses the request. *)
Lemma no_account h r w : h ∈ buyer_handlers (G := payment_gateway cfg) DefaultConfig -> UserIDFromContext r = None ->
  (h r w).2 = w.
Proof.
  intros Hh Hu. revert h Hh. apply Forall_forall. unfold buyer_handlers, JoinQueue_handler, QueueStatus_handler, Hold_handler,
    Release_handler, Create_handler, Authorize_handler, List_handler, Get_handler, userAndTenant.
  repeat apply Forall_cons_2; [..|apply Forall_nil_2]; cbv beta; by rewrite Hu.
Qed.

(** C13: the purchase boundary of the whole process. Whatever the method, URL,
    headers and body of a request that reaches a purchase route, whatever its
    statements and calls meet and whatever other sessions do meanwhile, it writes
    on the tables of one club only, the one of its club header, and only this: it
    puts free units on hold in the name of its bearer token's account, gives up
    holds by their token, adds a pending order of that account with its items,
    records a pending payment of an order of the club and marks an order of the
    club as awaiting payment. In particular no buyer can sell a unit, mark an
    order paid or a payment captured, queue a mail, or touch the catalogue and
    the accounts. Without a valid token, an account in it and a club header
    nothing is written. *)
Theorem purchase_boundary method path headers body remote w i params ro rep w' :
  cors_preflight method (mkReq headers (fun _ => "") body remote None None) = false ->
  chi_find ((fun ro => (ro_Method ro, ro_Pattern ro)) <$> routes cfg) method path = ChiFound i params ->
  routes cfg !! i = Some ro -> access (ro_Pattern ro) = Buyer ->
  ServeHTTP cfg method path headers body remote w = (rep, w') ->
  match buyer (env_clock (w_tick (entered headers w))) headers with
  | None => w_db w' = w_db w
  | Some (t, u) => moved_by (buyer_write t u) (w_db w) (w_db w')
  end.
Proof.
  intros Hcors Hfind Hro Hacc Hw. pose proof (ServeHTTP_route cfg _ _ _ _ _ w _ _ _ Hcors Hfind Hro) as Hs.
  destruct (buyer_routes ro ltac:(by eapply list_elem_of_lookup_2) Hacc) as (h & Hh & Hbuy). rewrite Hbuy in Hs.
  assert (Hdb : w_db (entered headers w) = w_db w) by (unfold entered; by destruct (String.eqb _ _)). rewrite <- Hdb.
  set (r := incoming headers params body remote) in *. set (w0 := entered headers w) in *.
  destruct (purchase cfg h r w0) as [x w1] eqn:Hrun. destruct Hs as [id Hs]. rewrite Hs in Hw. injection Hw as _ <-.
  revert Hrun. unfold purchase, buyer. pose proof (RequireAuth_run cfg (RequireTenantHeader h) r w0) as Ha.
  change (rq_Header r) with headers in Ha. destruct (credentials _ _ headers) as [c|]; simpl.
  2: { destruct Ha as (rsp & _ & _ & Hd & _). intros Hrun. by rewrite Hrun in Hd. }
  rewrite Ha. pose proof (RequireTenant_run h (with_claims c r) (set_tick (S (w_tick w0)) w0)) as Ht.
  change (rq_Header (with_claims c r)) with headers in Ht. destruct (club_header headers) as [t|]; simpl.
  2: { destruct Ht as (rsp & _ & _ & Hd & _). intros Hrun. by rewrite Hrun in Hd. }
  rewrite Ht. set (r2 := with_tenant t (with_claims c r)). intros Hrun.
  destruct (uuid_Parse (cl_Subject c)) as [u|] eqn:Hu; simpl.
  2: { apply (f_equal snd) in Hrun. rewrite no_account in Hrun by done. simpl in Hrun. by rewrite <- Hrun. }
  pose proof (payment_gateway_contract cfg) as HG. pose proof (wrote_handlers (G := payment_gateway cfg) t u DefaultConfig r2 Hu eq_refl) as Hk.
  rewrite Forall_forall in Hk. destruct (Hk h Hh _ _ _ Hrun) as [_ Hm]. exact Hm.
Qed.
End boundary.

(** ** Witness *)

(** The fan's token and club. *)
Definition fan_token : string :=
  match jwt_Sign (jc_Secret (cf_JWT fx_api)) (mkClaims (uuid_String 11) 0 (2 * Hour) "fan" "") with Ok token => token | Err _ => "" end.
Definition fan_headers (h : string) : string :=
  if String.eqb h "Authorization" then "Bearer " +:+ fan_token else if String.eqb h "X-Tenant-ID" then uuid_String 1 else "".
(** He orders the unit he holds. *)
Definition fx_order_body : option string := rq_Body fx_order_request.

Lemma fx_buyer : buyer fx_api (env_clock (w_tick (entered fan_headers (fx_world fx_db)))) fan_headers = Some (1%N, 11%N).
Proof. vm_compute. reflexivity. Qed.

Lemma purchase_boundary_witness : exists rep w',
  ServeHTTP fx_api "POST" "/api/v1/orders" fan_headers fx_order_body "" (fx_world fx_db) = (rep, w') /\
  moved_by (buyer_write 1 11) fx_db (w_db w').
Proof.
  destruct (ServeHTTP fx_api "POST" "/api/v1/orders" fan_headers fx_order_body "" (fx_world fx_db)) as [rep w'] eqn:Hs.
  exists rep, w'. split; [reflexivity|].
  pose proof (purchase_boundary fx_api "POST" "/api/v1/orders" fan_headers fx_order_body "" (fx_world fx_db) 22
    (fx_param []) (mkRoute "POST" "/api/v1/orders" (purchase fx_api Create_handler)) rep w') as HH.
  rewrite fx_buyer in HH. apply HH; [reflexivity|vm_compute; reflexivity|reflexivity|reflexivity|exact Hs].
Defined.

(** And the request is accepted. *)
Example fx_ordered :
  (fun s => match sv_Reply s with RJson rsp => rsp_Status rsp | RPlain st => st end) <$>
    match fst (ServeHTTP fx_api "POST" "/api/v1/orders" fan_headers fx_order_body "" (fx_world fx_db)) with
    | Ok s => Some s | Err _ => None end = Some 201%Z.
Proof. vm_compute. reflexivity. Qed.
