(* ===== verification/Wire.v ===== *)
(** * What goes over the wire ([src/internal/pkg/response/response.go],
    [src/internal/handler/middleware/logging.go])

    The bytes of a JSON reply and the log line of a request. A client that
    parses the body reads what the handler meant: the same numbers and texts,
    and the same instants whatever zone they were printed in. *)
From S2P Require Import Prelude Crypto GoJson GoDecimal GoTime Domain Schema Redis Runtime Ports Fixtures InventoryRepo RedisRepo.
From S2P Require Import InventoryService CheckoutRepos CatalogRepos AccountRepos PaymentGateways OrderService OrderCreate Http AuthService.
From S2P Require Import AuthTokens Requests Config PurchaseHandlers PurchaseReplies CatalogHandlers CatalogReplies AuthHandlers Router Boundary.

(** ** Encoding *)

(** The elements of a slice and the members of a map or struct, each at its place
    of the document: the path to it, innermost step first. *)
Definition encode_elements (enc : list string -> Json -> option JVal) (p : list string) : nat -> list Json -> option (list JVal) :=
  fix go i l := match l with
                | [] => Some []
                | x :: l' => v ← enc (FormatInt (Z.of_nat i) :: p) x; vs ← go (S i) l'; Some (v :: vs)
                end.
Definition encode_members (enc : list string -> Json -> option JVal) (p : list string) :
    list (string * Json) -> option (list (string * JVal)) :=
  fix go l := match l with
              | [] => Some []
              | kx :: l' => v ← enc (kx.1 :: p) kx.2; vs ← go l'; Some ((kx.1, v) :: vs)
              end.

Section encode.
(** The offset from UTC, in seconds, that the time at a place carries. *)
Context (carried : list string -> Z).

(** [json.Marshal]; [None] when a time cannot be printed. *)
Fixpoint encode (p : list string) (j : Json) : option JVal :=
  match j with
  | JsNull => Some VNull
  | JsBool b => Some (VBool b)
  | JsInt z => Some (VNum (FormatInt z))
  | JsStr s => Some (VStr s)
  | JsTime t => VStr <$> FormatRFC3339 (carried p) t
  | JsArr l => VArr <$> encode_elements encode p O l
  | JsObj fields => (fun l => VObj (merge_sort by_name l)) <$> encode_members encode p fields
  | JsStruct fields => VObj <$> encode_members encode p fields
  end.

(** [response.Envelope]: a nil member is left out. *)
Record WireEnvelope := mkWire { we_Data : option Json; we_Meta : option Json; we_Error : option (string * string) }.

Definition member_of (name : string) (x : option Json) : option (list (string * JVal)) :=
  match x with
  | None | Some JsNull => Some []
  | Some j => v ← encode [name] j; Some [(name, v)]
  end.
Definition error_body (e : string * string) : JVal := VObj [("code", VStr e.1); ("message", VStr e.2)].
Definition envelope_document (env : WireEnvelope) : option JVal :=
  data ← member_of "data" (we_Data env); meta ← member_of "meta" (we_Meta env);
  Some (VObj (data ++ meta ++ match we_Error env with Some e => [("error", error_body e)] | None => [] end)).

(** What is sent. An envelope that cannot be encoded leaves the body empty. *)
Record HttpReply := mkReply { hr_Status : Z; hr_ContentType : string; hr_Body : string }.

Definition write (status : Z) (env : WireEnvelope) : HttpReply :=
  mkReply status "application/json; charset=utf-8"
    match envelope_document env with Some doc => Marshal doc +:+ chr 10 | None => EmptyString end.

Definition JSONWithMeta (status : Z) (data meta : Json) : HttpReply := write status (mkWire (Some data) (Some meta) None).

(** The envelopes of [JSON] and [Error]. *)
Definition wire_envelope (e : Envelope) : WireEnvelope :=
  match e with
  | EnvData data => mkWire (Some data) None None
  | EnvError code message => mkWire None None (Some (code, message))
  end.
Definition send (rsp : Response) : HttpReply := write (rsp_Status rsp) (wire_envelope (rsp_Envelope rsp)).
End encode.

(** ** What a client reads *)

(** A document shows the data: integers and texts as they are, times as the same
    instant, maps in any order. *)
Inductive shows : JVal -> Json -> Prop :=
| shows_null : shows VNull JsNull
| shows_bool b : shows (VBool b) (JsBool b)
| shows_int l z : ParseInt l = Some z -> shows (VNum l) (JsInt z)
| shows_str s : shows (VStr s) (JsStr s)
| shows_time s t : ParseRFC3339 s = Some t -> shows (VStr s) (JsTime t)
| shows_arr vs l : Forall2 shows vs l -> shows (VArr vs) (JsArr l)
| shows_obj vs vs' l : vs ≡ₚ vs' -> Forall2 (fun v x => v.1 = x.1 /\ shows v.2 x.2) vs' l -> shows (VObj vs) (JsObj l)
| shows_struct vs l : Forall2 (fun v x => v.1 = x.1 /\ shows v.2 x.2) vs l -> shows (VObj vs) (JsStruct l).

(** Integers are int64 and texts are UTF-8, as Go and Postgres have them. *)
Fixpoint plain (j : Json) : bool :=
  match j with
  | JsInt z => bool_decide (in_int64 z)
  | JsStr s => valid_text s
  | JsArr l => forallb plain l
  | JsObj fields | JsStruct fields => forallb (fun kv => valid_text kv.1 && plain kv.2) fields
  | _ => true
  end.
Definition plain_envelope (e : WireEnvelope) : bool :=
  match we_Data e with Some d => plain d | None => true end && match we_Meta e with Some m => plain m | None => true end
  && match we_Error e with Some (c, m) => valid_text c && valid_text m | None => true end.

(** The members of an envelope as they are read. *)
Definition member_shown (name : string) (x : option Json) (l : list (string * JVal)) : Prop :=
  match x with
  | None | Some JsNull => l = []
  | Some j => exists v, l = [(name, v)] /\ shows v j
  end.
Definition envelope_shown (doc : JVal) (e : WireEnvelope) : Prop :=
  exists data meta, doc = VObj (data ++ meta ++ match we_Error e with
                                                | Some (c, m) => [("error", VObj [("code", VStr c); ("message", VStr m)])]
                                                | None => []
                                                end) /\
    member_shown "data" (we_Data e) data /\ member_shown "meta" (we_Meta e) meta.

(** Induction over data, with the hypothesis for every member. *)
Section induction.
Context (P : Json -> Prop) (Hnull : P JsNull) (Hbool : forall b, P (JsBool b)) (Hint : forall z, P (JsInt z))
  (Hstr : forall s, P (JsStr s)) (Htime : forall t, P (JsTime t)) (Harr : forall l, Forall P l -> P (JsArr l))
  (Hobj : forall l, Forall (fun kv => P kv.2) l -> P (JsObj l)) (Hstruct : forall l, Forall (fun kv => P kv.2) l -> P (JsStruct l)).
Fixpoint Json_nested_ind (j : Json) : P j :=
  let members := fix go (l : list (string * Json)) : Forall (fun kv => P kv.2) l :=
    match l with [] => Forall_nil_2 _ | kv :: l' => Forall_cons_2 _ _ _ (Json_nested_ind kv.2) (go l') end in
  match j with
  | JsNull => Hnull | JsBool b => Hbool b | JsInt z => Hint z | JsStr s => Hstr s | JsTime t => Htime t
  | JsArr l => Harr l ((fix go (l : list Json) : Forall P l :=
      match l with [] => Forall_nil_2 _ | x :: l' => Forall_cons_2 _ _ _ (Json_nested_ind x) (go l') end) l)
  | JsObj l => Hobj l (members l)
  | JsStruct l => Hstruct l (members l)
  end.
End induction.

Section roundtrip.
Context (carried : list string -> Z) (Hzones : forall p, (carried p mod 60 = 0)%Z).

(** What [encode] gives is a document and shows what it was given. *)
Definition faithful (j : Json) : Prop :=
  forall p v, encode carried p j = Some v -> plain j = true -> document v = true /\ shows v j.

Lemma elements_faithful p i l vs : Forall faithful l -> encode_elements (encode carried) p i l = Some vs ->
  forallb plain l = true -> forallb document vs = true /\ Forall2 shows vs l.
Proof.
  intros Hl. revert i vs. induction Hl as [|x l Hx _ IH]; intros i vs; [intros [= <-] _; by split; [|constructor]|].
  cbn [encode_elements forallb]. intros (v & Hv & (vs' & Hvs & [= <-])%bind_Some)%bind_Some [Hp Hps]%andb_true_iff.
  destruct (Hx _ _ Hv Hp) as [Hd Hs]. destruct (IH _ _ Hvs Hps) as [Hds Hss].
  split; [by apply andb_true_iff|by constructor].
Qed.

Lemma members_faithful p l vs : Forall (fun kv => faithful kv.2) l -> encode_members (encode carried) p l = Some vs ->
  forallb (fun kv => valid_text kv.1 && plain kv.2) l = true ->
  forallb (fun kv => valid_text kv.1 && document kv.2) vs = true /\ Forall2 (fun v x => v.1 = x.1 /\ shows v.2 x.2) vs l.
Proof.
  intros Hl. revert vs. induction Hl as [|[k x] l Hx _ IH]; intros vs; [intros [= <-] _; by split; [|constructor]|].
  cbn [encode_members forallb fst snd].
  intros (v & Hv & (vs' & Hvs & [= <-])%bind_Some)%bind_Some [[Hk Hp]%andb_true_iff Hps]%andb_true_iff.
  destruct (Hx _ _ Hv Hp) as [Hd Hs]. destruct (IH _ Hvs Hps) as [Hds Hss].
  split; [cbn [forallb fst snd]; by rewrite Hk, Hd, Hds|by constructor].
Qed.

Lemma encode_faithful j : faithful j.
Proof.
  induction j as [|b|z|s|t|l Hl|l Hl|l Hl] using Json_nested_ind; intros p v; cbn [encode plain].
  - intros [= <-] _. by split; [|constructor].
  - intros [= <-] _. by split; [|constructor].
  - intros [= <-] Hz%bool_decide_eq_true. split; [apply valid_FormatInt|]. by constructor; apply ParseInt_FormatInt.
  - intros [= <-] Hs. by split; [|constructor].
  - intros (s & Hs & ->)%fmap_Some _. split; [by eapply FormatRFC3339_text|]. constructor. by eapply ParseRFC3339_FormatRFC3339.
  - intros (vs & Hvs & ->)%fmap_Some Hp. destruct (elements_faithful _ _ _ _ Hl Hvs Hp) as [Hd Hs]. by split; [|constructor].
  - intros (vs & Hvs & ->)%fmap_Some Hp. destruct (members_faithful _ _ _ Hl Hvs Hp) as [Hd Hs].
    split; [|by eapply shows_obj; [apply merge_sort_Permutation|]]. cbn [document].
    by rewrite (forallb_Permutation _ _ _ (merge_sort_Permutation by_name vs)).
  - intros (vs & Hvs & ->)%fmap_Some Hp. destruct (members_faithful _ _ _ Hl Hvs Hp) as [Hd Hs]. by split; [|constructor].
Qed.

Lemma member_faithful name x l : member_of carried name x = Some l -> valid_text name = true ->
  match x with Some j => plain j | None => true end = true ->
  forallb (fun kv => valid_text kv.1 && document kv.2) l = true /\ member_shown name x l.
Proof.
  intros Hl Hn Hp. destruct x as [j|]; [|by injection Hl as <-].
  assert (Hj : j = JsNull /\ l = [] \/ (forall A (a b : A), match j with JsNull => a | _ => b end = b) /\
    exists v, encode carried [name] j = Some v /\ l = [(name, v)]).
  { destruct j; try (right; split; [done|]; by apply bind_Some in Hl as (v & Hv & [= <-]); exists v). left. by injection Hl as <-. }
  destruct Hj as [[-> ->]|[Hj (v & Hv & ->)]]; [done|]. destruct (encode_faithful j _ _ Hv Hp) as [Hd Hs].
  split; [cbn [forallb fst snd]; by rewrite Hn, Hd|]. unfold member_shown. rewrite Hj. by exists v.
Qed.

(** C35: what the API answers is what a client reads. For every reply in the
    envelope of the service, data with or without meta, or an error: whatever
    whole-minute offsets its times are shown in, if they can be shown at all (years 0
    to 9999), the body is one JSON document, followed by a line end, that parses
    to the envelope itself: members only for what is there, the code and message
    of an error, every integer and text as it was, every time at the same
    instant, every list in order, every map with exactly its members. *)
Theorem reply_reads_back status env doc :
  plain_envelope env = true -> envelope_document carried env = Some doc -> (height doc <= max_depth)%N ->
  Unmarshal (hr_Body (write carried status env)) = Some doc /\ envelope_shown doc env.
Proof.
  unfold plain_envelope, write, envelope_document. intros [[Hd Hm]%andb_true_iff He]%andb_true_iff.
  intros (data & Hdata & (meta & Hmeta & [= <-])%bind_Some)%bind_Some Hh. rewrite Hdata, Hmeta.
  destruct (member_faithful _ _ _ Hdata eq_refl Hd) as [D1 S1]. destruct (member_faithful _ _ _ Hmeta eq_refl Hm) as [D2 S2].
  split; [|exists data, meta; split; [by destruct (we_Error env) as [[]|]|done]]. apply Unmarshal_printed; [cbn; tauto|done| |done].
  cbn [document]. rewrite !forallb_app, D1, D2. destruct (we_Error env) as [[c m]|]; [|done].
  apply andb_true_iff in He as [Hc Hm']. unfold error_body. cbn [forallb document fst snd]. by rewrite Hc, Hm'.
Qed.
End roundtrip.

(** ** logging.go *)

(** A line of the access log. *)
Record LogLine := mkLine {
  ll_RequestID : string; ll_Method : string; ll_Path : string; ll_Status : Z; ll_Bytes : Z; ll_Duration : Duration;
  ll_RemoteAddr : string }.

(** The context value [RequestID] sets, if it did. *)
Definition RequestIDFromContext (id : option string) : string := default "" id.

Section logging.
Context `{U : UuidPkg, B : BcryptPkg, J : JwtPkg, Rn : RandPkg} `{V : ValidatorPkg} `{T : ErrorText} `{L : LocalZone}.
Context `{C : Collation} `{E : Env, I : !RefreshTokenRepo.InetCast} `{HS : HttpStack} (cfg : Settings).
(** The zone every time of a reply is shown in, and the bodies of the plain
    replies of the third-party code. *)
Context (carried : list string -> Z) (plain_body : Z -> string).

Definition reply_status (r : Reply) : Z := match r with RJson rsp => rsp_Status rsp | RPlain st => st end.
Definition reply_bytes (r : Reply) : Z :=
  Z.of_nat (String.length match r with RJson rsp => hr_Body (send carried rsp) | RPlain st => plain_body st end).

(** The clock is read before and after. A panic of [next] passes through, and
    nothing is logged. *)
Definition Logging (id : option string) (method path remote : string) (next : M Reply) : M (Reply * LogLine) := fun w =>
  match next w with
  | (Err e, w') => (Err e, w')
  | (Ok r, w') =>
      (Ok (r, mkLine (RequestIDFromContext id) method path (reply_status r) (reply_bytes r)
                (env_clock (w_tick w') - env_clock (w_tick w)) remote), w')
  end.

(** [ServeHTTP] of [Router] with its log: [Recovery] is mounted outside of
    [Logging]. *)
Definition ServeLogged (method path : string) (headers : string -> string) (body : option string) (remote : string)
    : M (Served * list LogLine) :=
  let r := mkReq headers (fun _ => "") body remote None None in
  id <- (if String.eqb (headers "X-Request-ID") "" then (u <- uuid_New;; ret (uuid_String u)) else ret (headers "X-Request-ID"));;
  logged <- attempt (Logging (Some id) method path (real_ip r)
              (if cors_preflight method r then ret (RPlain 200) else dispatch cfg method path (with_remote (real_ip r) r)));;
  match logged with
  | Ok (reply, line) => ret (mkServed id reply, [line])
  | Err _ => ret (mkServed id (RJson (mkResp 500 (EnvError "internal-error" "something went wrong"))), [])
  end.

(** Logging changes nothing: with the log left out this is [ServeHTTP]. *)
Lemma ServeLogged_erases method path headers body remote w :
  ServeHTTP cfg method path headers body remote w =
  (let '(r, w') := ServeLogged method path headers body remote w in
   (match r with Ok (served, _) => Ok served | Err e => Err e end, w')).
Proof.
  unfold ServeHTTP, ServeLogged, Recovery, Logging. destruct (String.eqb (headers "X-Request-ID") ""), (cors_preflight _ _);
    unfold bind, attempt, uuid_New, ret; try done; by destruct (dispatch _ _ _ _ _) as [[]].
Qed.

(** What is logged of a request: one line, with the status, the size and the
    request id of the very reply, or none at all if its handler panicked. *)
Lemma log_line_exact method path headers body remote w served lines w' :
  ServeLogged method path headers body remote w = (Ok (served, lines), w') ->
  (exists d addr, lines = [mkLine (sv_RequestID served) method path (reply_status (sv_Reply served)) (reply_bytes (sv_Reply served)) d addr]) \/
  (lines = [] /\ sv_Reply served = RJson (mkResp 500 (EnvError "internal-error" "something went wrong"))).
Proof.
  unfold ServeLogged. intros (id & w1 & _ & Hw)%bind_Ok. rewrite bind_attempt in Hw. unfold Logging in Hw.
  destruct (if cors_preflight _ _ then _ else _) as [[r|e] w2]; injection Hw as <- <- _; [left|by right]. by eexists _, _.
Qed.

(** A panic is answered with 500 and leaves no line in the access log, although
    the comment on the middleware chain says that it does. *)
Lemma panic_is_not_logged method path headers body remote w e w1 :
  let r := mkReq headers (fun _ => "") body remote None None in
  cors_preflight method r = false -> dispatch cfg method path (with_remote (real_ip r) r) (entered headers w) = (Err e, w1) ->
  exists id, ServeLogged method path headers body remote w =
    (Ok (mkServed id (RJson (mkResp 500 (EnvError "internal-error" "something went wrong"))), []), w1).
Proof.
  cbv zeta. unfold entered, ServeLogged, Logging. intros Hc Hd. rewrite Hc.
  destruct (String.eqb (headers "X-Request-ID") ""); unfold bind, attempt, uuid_New, ret; rewrite Hd; by eexists.
Qed.
End logging.

(** ** Witness *)

(** The reply to the order of [PurchaseReplies], its times in the zone of Nairobi
    but for the zero time, which is in UTC. *)
Definition fx_offsets (p : list string) : Z := if bool_decide (head p = Some "created_at") then 0%Z else 10800%Z.
Definition fx_order_reply_body : string := hr_Body (send fx_offsets (mkResp 201 (EnvData (orderResponse fx_created_order)))).

(** Byte for byte. *)
Example fx_order_reply_bytes : fx_order_reply_body =
  Marshal (VObj [("data", VObj [("created_at", VStr "0001-01-01T00:00:00Z"); ("currency", VStr "KES");
    ("expires_at", VStr "1970-01-01T03:00:05+03:00"); ("fees_cents", VNum "0"); ("id", VStr "1006"); ("status", VStr "pending");
    ("subtotal_cents", VNum "150000"); ("total_cents", VNum "150000")])]) +:+ chr 10.
Proof. vm_compute. reflexivity. Qed.

Lemma reply_reads_back_witness : exists doc,
  Unmarshal fx_order_reply_body = Some doc /\ envelope_shown doc (mkWire (Some (orderResponse fx_created_order)) None None).
Proof.
  destruct (envelope_document fx_offsets (mkWire (Some (orderResponse fx_created_order)) None None)) as [doc|] eqn:Hdoc;
    [|vm_compute in Hdoc; discriminate Hdoc].
  exists doc. apply (reply_reads_back fx_offsets) with (status := 201%Z); [|vm_compute; reflexivity|exact Hdoc|].
  - intros p. unfold fx_offsets. case_bool_decide; reflexivity.
  - vm_compute in Hdoc. injection Hdoc as <-. vm_compute. discriminate.
Defined.
