(* ===== verification/SalesSafety.v ===== *)
(** * The shop keeps its books in order

    Every request the API can be sent and every tick of the worker moves the
    database by the steps of [Sales] only, so that the books, once in order, stay
    in order while any number of API and worker processes run at the same time. *)
From S2P Require Import Prelude GoJson GoTime Crypto Domain Schema Redis Runtime Ports Fixtures InventoryRepo RedisRepo InventoryService.
From S2P Require Import CheckoutRepos CatalogRepos AccountRepos PaymentGateways OrderService OrderCreate OrderConfirm Sales Http Webhook.
From S2P Require Import NotificationService AuthService AuthTokens AdmissionService Requests Walk Config Worker PurchaseHandlers CatalogHandlers.
From S2P Require Import CatalogReplies AuthHandlers Router.

Section walk.
Context `{U : UuidPkg, B : BcryptPkg, J : JwtPkg, Rn : RandPkg} `{V : ValidatorPkg} `{T : ErrorText} `{L : LocalZone}.
Context `{C : Collation, Smtp : SmtpPkg} `{E : Env, I : !RefreshTokenRepo.InetCast, !RandomUuids}.
Context (rely : forall n d, sales_step d (env_others n d)).
#[local] Abbreviation keeps := (upholds sales_step).
#[local] Hint Extern 1 (forall _ _, sales_step _ (env_others _ _)) => exact rely : core.

(** ** Building blocks *)

Lemma keeps_neutral {A} (m : M A) : db_neutral m -> keeps m.
Proof. apply walk_neutral; [apply _|exact rely]. Qed.

(** An insertion into, or an update of, a table outside the books. *)
Lemma insert_elsewhere {R} (tbl : DB -> gmap UUID R) put id r check clash fks now d u d' :
  (forall m d, same_books d (put m d)) -> insert_into tbl put id r check clash fks now d = Ok (u, d') -> sales_step d d'.
Proof. intros Hput (_ & _ & _ & -> & _)%insert_into_Ok. by apply step_same. Qed.
Lemma update_elsewhere {R} (tbl : DB -> gmap UUID R) put id cond upd check clash now d n d' :
  (forall m d, same_books d (put m d)) -> update_row tbl put id cond upd check clash now d = Ok (n, d') -> sales_step d d'.
Proof. intros Hput [(_ & -> & _)|(_ & r & _ & _ & ->)]%update_row_Ok; [done|]. by apply step_same. Qed.

Ltac elsewhere := first [eapply insert_elsewhere; [|eassumption]; done|eapply update_elsewhere; [|eassumption]; done].

(** ** Accounts *)

Lemma insert_token_step rt now d u d' : RefreshTokenRepo.insert_token rt now d = Ok (u, d') -> sales_step d d'.
Proof. unfold RefreshTokenRepo.insert_token. destruct (RefreshTokenRepo.inet_column _); [|done]. intros. elsewhere. Qed.

Lemma revoke_step id now d n d' : RefreshTokenRepo.revoke_stmt id now d = Ok (n, d') -> sales_step d d'.
Proof. unfold RefreshTokenRepo.revoke_stmt. intros. elsewhere. Qed.
Lemma insert_user_step u now d x d' : UserRepo.insert_user u now d = Ok (x, d') -> sales_step d d'.
Proof.
  unfold UserRepo.insert_user. intros (_ & _ & _ & -> & _)%insert_into_Ok. apply step_same. split_and!; try done.
  intros i Hi. apply lookup_insert_is_Some'. by right.
Qed.
#[local] Hint Resolve insert_token_step revoke_step insert_user_step : core.

Lemma keeps_account_handlers cfg secret r :
  Forall (fun h : Handler => keeps (h r))
    [Register_handler; Login_handler cfg; Refresh_handler cfg; Logout_handler; Me_handler; BootstrapAdmin_handler secret].
Proof.
  unfold Register_handler, Login_handler, Refresh_handler, Logout_handler, Me_handler, BootstrapAdmin_handler, Register,
    RegisterAdmin, account_reply, login_reply, refresh_reply, JSON, Error.
  repeat apply Forall_cons_2; [..|apply Forall_nil_2]; cbv beta;
    repeat first [apply walk_register; [apply _|eauto..]|apply walk_Login; [apply _|eauto..]|apply walk_Refresh; [apply _|eauto..]
                 |apply walk_Logout; [apply _|eauto..]|walk_step].
Qed.

(** ** The catalogue *)

Lemma keeps_BulkCreate rows : keeps (BulkCreate rows).
Proof.
  unfold BulkCreate, assign_id. destruct rows as [|row rows]; [apply upholds_ret; apply _|].
  walk_steps. intros Hs. by eapply step_bulk.
Qed.

Lemma keeps_put_on_sale rows e : keeps (put_on_sale rows e).
Proof.
  unfold put_on_sale, publish_reply, JSON, Error, EventRepo.Update, must_affect. walk_steps. intros.
  unfold EventRepo.update_event in *. elsewhere.
Qed.

Lemma keeps_publish t ev c q : keeps (publish t ev c q).
Proof.
  unfold publish, EventRepo.GetByID, one_row, generate_rows, Error.
  repeat first [apply keeps_BulkCreate|apply keeps_put_on_sale|walk_step].
Qed.

Lemma keeps_admin_handlers r : Forall (fun h => keeps (h r)) admin_handlers.
Proof.
  unfold admin_handlers, VenueCreate_handler, VenueList_handler, CreateSeatCategory_handler, CreateEvent_handler,
    CreateTicketCategory_handler, PublishEvent_handler, VenueRepo.CreateVenue, VenueRepo.ListVenues, SeatCategoryRepo.Create,
    EventRepo.Create, EventRepo.CreateTicketCategory, fresh_if_nil, JSON, Error.
  repeat apply Forall_cons_2; [..|apply Forall_nil_2]; cbv beta; repeat first [apply keeps_publish|walk_step];
    intros; repeat match goal with H : _ = Ok _ |- _ => apply encoded_Ok in H end;
    unfold VenueRepo.insert_venue, SeatCategoryRepo.insert_category, EventRepo.insert_event, EventRepo.insert_category in *;
    elsewhere.
Qed.

Lemma keeps_public r : Forall (fun h : Handler => keeps (h r)) [EventList_handler; EventGet_handler].
Proof.
  unfold EventList_handler, EventGet_handler, EventRepo.List, EventRepo.GetByID, EventRepo.ListTicketCategories, one_row, JSON, Error.
  cbn [ir_CountByStatus InventoryRepo]. unfold CountByStatus.
  repeat apply Forall_cons_2; [..|apply Forall_nil_2]; cbv beta; walk_steps.
Qed.

(** ** The purchase path *)

Lemma keeps_HoldSeat cfg t ev i u : keeps (HoldSeat cfg t ev i u).
Proof.
  unfold HoldSeat, hold_row.
  repeat first [walk_neutral_call|walk_step].
  eapply cas_upholds; [apply _|exact rely| |apply ir_Hold_cas]. intros d d' Hs.
  eapply step_swapped; [exact Hs|intros r ->; done|intros r ->; done|done].
Qed.

Lemma keeps_Release t i tok : keeps (ir_Release t i tok).
Proof.
  eapply cas_upholds; [apply _|exact rely| |apply ir_Release_cas]. intros d d' Hs.
  eapply step_swapped; [exact Hs|intros r [-> _]; done|intros r [-> _]; done|done].
Qed.

Lemma keeps_inventory_handlers cfg r :
  Forall (fun h : Handler => keeps (h r)) [JoinQueue_handler; QueueStatus_handler; Hold_handler cfg; Release_handler].
Proof.
  unfold JoinQueue_handler, QueueStatus_handler, Hold_handler, Release_handler, JoinQueue, QueueStatus, ReleaseHold, hold_reply, JSON, Error.
  repeat apply Forall_cons_2; [..|apply Forall_nil_2]; cbv beta;
    repeat first [apply keeps_HoldSeat|apply keeps_Release|walk_neutral_call|walk_step].
Qed.

Section gateway.
Context `{G : !PaymentGateway, !GatewayContract G}.

Lemma keeps_order_handlers r :
  Forall (fun h : Handler => keeps (h r)) [Create_handler; Authorize_handler; List_handler; Get_handler].
Proof.
  unfold Create_handler, Authorize_handler, List_handler, Get_handler, order_reply, OrderRepo.ListByUser, OrderRepo.GetByID, one_row, JSON, Error.
  repeat apply Forall_cons_2; [..|apply Forall_nil_2]; cbv beta;
    repeat first [by apply sales_CreateOrder|by apply sales_AuthorizePayment|walk_step].
  all: destruct (page _ _ _); [|done]; by intros [= _ <-].
Qed.

Lemma keeps_Stripe r : keeps (Stripe r).
Proof.
  unfold Stripe, confirm_event, OrderRepo.GetByID, PaymentRepo.GetByIdempotencyKey, one_row, JSON, Error.
  repeat first [by apply sales_ConfirmPayment|walk_step].
Qed.
End gateway.

(** ** Every request *)

Context (cfg : Settings).

Lemma keeps_authenticated h r : (forall r, keeps (h r)) -> keeps (authenticated cfg h r).
Proof.
  intros Hh. unfold authenticated, RequireAuth, ParseAccessToken, Error. walk_steps. apply Hh.
Qed.
Lemma keeps_admin_only h r : (forall r, keeps (h r)) -> keeps (admin cfg h r).
Proof.
  intros Hh. apply keeps_authenticated. intros r'. unfold RequireAdmin. repeat case_match; auto using walk_reply with typeclass_instances.
Qed.
Lemma keeps_club h r : (forall r, keeps (h r)) -> keeps (RequireTenantHeader h r).
Proof. intros Hh. unfold RequireTenantHeader. cbv zeta. repeat case_match; auto using walk_reply with typeclass_instances. Qed.
Lemma keeps_purchase h r : (forall r, keeps (h r)) -> keeps (purchase cfg h r).
Proof. intros Hh. apply keeps_authenticated. intros r'. by apply keeps_club. Qed.

Lemma handler_of (hs : list Handler) h : (forall r, Forall (fun h => keeps (h r)) hs) -> h ∈ hs -> forall r, keeps (h r).
Proof. intros Hf Hin r. specialize (Hf r). rewrite Forall_forall in Hf. by apply Hf. Qed.

Ltac listed :=
  lazymatch goal with
  | |- ?h ∈ ?h :: _ => apply list_elem_of_here
  | |- _ ∈ _ :: _ => apply list_elem_of_further; listed
  end.

Lemma keeps_routes r : Forall (fun ro => keeps (ro_Handler ro r)) (routes cfg).
Proof.
  pose proof (payment_gateway_contract cfg) as HG.
  assert (Hacc := fun h => handler_of _ h (keeps_account_handlers (cf_JWT cfg) (bs_Secret (cf_Bootstrap cfg)))).
  assert (Hadm := fun h => handler_of _ h keeps_admin_handlers). unfold admin_handlers in Hadm.
  assert (Hpub := fun h => handler_of _ h keeps_public).
  assert (Hinv := fun h => handler_of _ h (keeps_inventory_handlers DefaultConfig)).
  assert (Hord := fun h => handler_of _ h (keeps_order_handlers (G := payment_gateway cfg))).
  unfold routes. repeat apply Forall_cons_2; [..|apply Forall_nil_2]; cbn [ro_Handler];
    repeat first [apply keeps_admin_only; intros ?|apply keeps_purchase; intros ?|apply keeps_club; intros ?|apply keeps_authenticated; intros ?].
  all: try match goal with |- keeps (?h ?r) =>
    first [refine (Hacc h _ r); listed|refine (Hadm h _ r); listed|refine (Hpub h _ r); listed|refine (Hinv h _ r); listed|refine (Hord h _ r); listed]
  end.
  - apply upholds_ret; apply _.
  - unfold Ready, postgres_Ping, redis_Ping, JSON. walk_steps.
  - apply (keeps_Stripe (G := payment_gateway cfg)).
  - apply upholds_ret; apply _.
Qed.

Context `{HS : HttpStack}.

Lemma keeps_ServeHTTP method path headers body remote : keeps (ServeHTTP cfg method path headers body remote).
Proof.
  assert (Hd : forall r, keeps (dispatch cfg method path r)).
  { intros r. unfold dispatch. destruct (chi_find _ _ _) as [i params| |]; [|apply upholds_ret; apply _..].
    destruct (routes cfg !! i) as [ro|] eqn:Hro; [|apply upholds_ret; apply _].
    apply upholds_bind; [apply _| |intros; apply upholds_ret; apply _].
    pose proof (keeps_routes (with_params params r)) as Hr. rewrite Forall_lookup in Hr. exact (Hr _ _ Hro). }
  unfold ServeHTTP, Recovery. repeat first [apply Hd|walk_step].
Qed.

(** ** Every tick *)

Lemma keeps_Sweep n : keeps (SweepExpiredHolds n).
Proof.
  unfold SweepExpiredHolds, sweep_row. repeat first [apply keeps_Release|walk_step].
  intros w r w' (Htx & Hd & _)%ir_ListExpiredHolds_sound. split; [done|]. rewrite Hd. exact (interact_upholds sales_step rely w).
Qed.

Lemma keeps_tick_of l : keeps (tick cfg l).
Proof.
  unfold tick. destruct l; (apply upholds_bind; [apply _|apply upholds_attempt|intros; apply upholds_ret; apply _]).
  - apply keeps_Sweep.
  - apply admission_neutral; [apply _|exact rely].
  - apply notification_upholds; [apply _|exact rely|]. intros id upd now d m d' Hupd. apply step_mark.
    intros t x. destruct Hupd as [->|[e ->]]; done.
Qed.

(** ** A process *)

(** What an API replica or a worker is made to do. *)
Inductive Action :=
| DoRequest (method path : string) (headers : string -> string) (body : option string) (remote : string)
| DoTick (l : Loop).

Definition perform (a : Action) : M unit :=
  match a with
  | DoRequest method path headers body remote => attempt (ServeHTTP cfg method path headers body remote);;; ret tt
  | DoTick l => tick cfg l
  end.

Lemma keeps_perform acts : keeps (fold_loop (fun _ => perform) tt acts).
Proof.
  apply upholds_fold; [apply _|]. intros [] a _. destruct a; [|apply keeps_tick_of].
  apply upholds_bind; [apply _|apply upholds_attempt, keeps_ServeHTTP|intros; apply upholds_ret; apply _].
Qed.
End walk.

(** C2: the books of the shop stay in order. Take any API replica or worker and
    let it do anything it can be made to do: serve any requests, good or
    malicious, and tick its loops, in any order, with any statement, Redis
    command or provider call failing or losing its reply. As long as what the
    other processes commit meanwhile are the same kind of steps, the database
    moves by such steps: no order, item, payment or notification disappears, items come
    only with their order, a sold unit stays sold. And books that were in order
    stay in order: every order costs the sum of its items, every payment is for
    the whole total of an order of its club, every paid order has a payment and
    its confirmation, every mail has a recipient, every unit of a paid order is sold, no unit is in two paid
    orders (or twice in one), every sold unit was ordered, every unit satisfies
    its constraint and the audit log accounts for its state. *)
Theorem books_stay_in_order
    `{U : UuidPkg, B : BcryptPkg, J : JwtPkg, Rn : RandPkg} `{V : ValidatorPkg} `{T : ErrorText} `{L : LocalZone}
    `{C : Collation, Smtp : SmtpPkg} `{E : Env, I : !RefreshTokenRepo.InetCast, !RandomUuids} `{HS : HttpStack} cfg acts w r w' :
  (forall n d, sales_step d (env_others n d)) ->
  fold_loop (fun _ => perform cfg) tt acts w = (r, w') ->
  sales_step (w_db w) (w_db w') /\ (books (w_db w) -> books (w_db w')).
Proof. intros rely Hw. apply keeps_perform in Hw as [_ Hs]; [|done]. split; [exact Hs|apply Hs]. Qed.

(** ** Witness *)

(** Before every interaction of this process somebody else holds unit 100. *)
Definition fx_rival (d : DB) : DB :=
  match hold_stmt 1 100 777 12 9000000%Z 0%Z d with Ok (_, d') => d' | Err _ => d end.

Lemma fx_rival_step d : sales_step d (fx_rival d).
Proof.
  unfold fx_rival. destruct (hold_stmt _ _ _ _ _ _ d) as [[n d']|] eqn:Hh; [|done].
  apply update_inventory_inv in Hh as [[_ ->]|(_ & r & Hr & [_ Hs%bool_decide_eq_true]%andb_true_iff & Hc & ->)]; [done|].
  apply step_unit; try done; by rewrite Hs.
Qed.

#[local] Instance fx_busy : Env (H := ref_redis) := {|
  env_uuid := env_uuid (Env := fx_env); env_clock := env_clock (Env := fx_env); env_outcome := env_outcome (Env := fx_env);
  env_others _ := fx_rival; env_redis_others := env_redis_others (Env := fx_env); env_http := env_http (Env := fx_env) |}.
#[local] Instance fx_busy_uuids : RandomUuids (E := fx_busy).
Proof. exact fx_uuids. Qed.

(** The small database without its sold unit, which nobody ordered. *)
Definition fx_shop : DB :=
  set_inventory (delete 102%N fx_inventory) (filter (fun a => a_InventoryID a <> 102%N) fx_audit) fx_db.

Lemma fx_shop_units i r : inventory fx_shop !! i = Some r -> i <> 102%N /\ inventory fx_db !! i = Some r.
Proof. unfold fx_shop. cbn [inventory set_inventory fx_db]. intros [Hne Hr]%lookup_delete_Some. by split. Qed.

Lemma fx_shop_audit i : audit_explains fx_shop i.
Proof.
  destruct (decide (i = 102%N)) as [->|Hi]; [vm_compute; reflexivity|].
  pose proof (fx_audit_explains i) as Ha. unfold audit_explains, status_of, fx_shop in *. cbn [inventory set_inventory audit_log].
  rewrite lookup_delete_ne by done. cbn [inventory audit_log fx_db] in Ha. rewrite <- Ha. f_equal. unfold audit_of. rewrite list_filter_filter.
  apply list_filter_iff. intros a. split; [tauto|]. intros <-. by split.
Qed.

Lemma fx_shop_books : books fx_shop.
Proof.
  split; try done; [|by intros i (o & ? & _)|..].
  - unfold status_of. intros i Hi. destruct (inventory fx_shop !! i) as [r|] eqn:Hr; [|done].
    apply fx_shop_units in Hr as [Hne Hr]. cbn in Hr. unfold fx_inventory in Hr.
    repeat (apply lookup_insert_Some in Hr as [[<- <-]|[_ Hr]]; [by destruct Hne || done|]). done.
  - intros i r [_ Hr]%fx_shop_units. by apply fx_inventory_wf.
  - apply fx_shop_audit.
Qed.

Definition fx_actions : list Action :=
  [DoRequest "POST" "/api/v1/orders" (fun _ => "") None ""; DoTick SweepLoop; DoTick NotificationLoop].

Lemma books_stay_in_order_witness :
  let w' := snd (fold_loop (fun _ => perform (E := fx_busy) fx_api) tt fx_actions (fx_world fx_shop)) in
  sales_step fx_shop (w_db w') /\ books (w_db w').
Proof.
  destruct (books_stay_in_order (E := fx_busy) fx_api fx_actions (fx_world fx_shop) _ _ (fun _ => fx_rival_step)
              (surjective_pairing (fold_loop (fun _ => perform (E := fx_busy) fx_api) tt fx_actions (fx_world fx_shop))))
    as [Hs Hb].
  split; [exact Hs|exact (Hb fx_shop_books)].
Defined.
