(* ===== verification/Journey.v ===== *)
(** * A purchase from the queue to the mail

    A concrete run of the whole program on the database of [Fixtures]: a fan
    joins the queue of a match, the worker admits him, he holds a unit, orders it,
    starts the payment, the provider reports the capture, and the worker mails the
    confirmation. Every request goes through the router and carries only what
    the fan knows: his access token, and what earlier replies told him. *)
From S2P Require Import Prelude GoJson GoTime Crypto Domain Schema Redis Runtime Ports Fixtures InventoryRepo RedisRepo InventoryService.
From S2P Require Import CheckoutRepos CatalogRepos AccountRepos PaymentGateways OrderService Sales Http Webhook.
From S2P Require Import NotificationService AuthService AuthTokens AdmissionService Requests Config Worker PurchaseHandlers CatalogHandlers.
From S2P Require Import CatalogReplies AuthHandlers Router Boundary SalesSafety.

(** The headers of the payment provider, which signs what it sends. *)
Definition provider_headers (body h : string) : string :=
  if String.eqb h "Stripe-Signature" then signature "whsec" body else "".

(** A text member of the data of a reply. *)
Definition data_text (name : string) (rsp : option Response) : string :=
  match rsp with
  | Some (mkResp _ (EnvData (JsObj l))) =>
      match find (fun kv => String.eqb kv.1 name) l with Some (_, JsStr s) => s | _ => "" end
  | _ => ""
  end.

(** What the next action is, given the replies so far, last first. *)
Definition Script : Type := list (list (option Response) -> Action).
Definition fan (method path : string) (body : option string) : Action := DoRequest method path fan_headers body "10.0.0.7:5000".

Definition reply_of (p : result Served * World (H := ref_redis)) : option Response :=
  match fst p with Ok (mkServed _ (RJson rsp)) => Some rsp | _ => None end.

Fixpoint play (script : Script) (replies : list (option Response)) (w : World (H := ref_redis)) : list (option Response) * World (H := ref_redis) :=
  match script with
  | [] => (rev replies, w)
  | next :: script =>
      match next replies with
      | DoRequest method path headers body remote =>
          let p := ServeHTTP fx_api method path headers body remote w in play script (reply_of p :: replies) (snd p)
      | DoTick l => play script (None :: replies) (snd (tick fx_api l w))
      end
  end.

Definition at_ (k : nat) (replies : list (option Response)) : option Response := default None (replies !! k).

Definition purchase_script : Script :=
  [(fun _ => fan "POST" "/api/v1/events/20/queue" None);
   (fun _ => DoTick AdmissionLoop);
   (fun _ => fan "POST" "/api/v1/inventory/100/hold" (Some (Marshal (VObj [("event_id", VStr (uuid_String 20))]))));
   (fun replies => fan "POST" "/api/v1/orders" (Some (Marshal (VObj [("idempotency_key", VStr "basket-1");
      ("items", VArr [VObj [("inventory_id", VStr "100"); ("hold_token", VStr (data_text "hold_token" (at_ 0 replies)))]])]))));
   (fun replies => fan "POST" ("/api/v1/orders/" +:+ data_text "id" (at_ 0 replies) +:+ "/authorize") None);
   (fun replies =>
      let body := capture_body "1" (data_text "id" (at_ 1 replies)) "pi" in
      DoRequest "POST" "/webhooks/stripe" (provider_headers body) (Some body) "");
   (fun _ => DoTick NotificationLoop)].

(** What an observer sees of a run: the statuses of the replies, the orders and
    payments, one unit, and the mails. *)
Definition statuses (replies : list (option Response)) : list (option Z) := List.map (option_map rsp_Status) replies.
Definition order_views (d : DB) : list (OrderStatus * Z) :=
  (fun kv => (o_Status kv.2, Cents (o_Total kv.2))) <$> map_to_list (orders d).
Definition payment_views (d : DB) : list (PaymentStatus * Z) :=
  (fun kv => (p_Status kv.2, Cents (p_Amount kv.2))) <$> map_to_list (payments d).
Definition view (unit : UUID) (p : list (option Response) * World (H := ref_redis)) :=
  let d := w_db (snd p) in
  (statuses (fst p), order_views d, payment_views d, status_of d unit, (fun m => (em_To m, em_Subject m)) <$> w_mail (snd p)).

Definition run_of (script : Script) := play script [] (fx_world fx_db).
Definition mail : string * string := ("fan@mail.ke", "Your order is confirmed").

(** The purchase goes through: every request is accepted, and at the end the
    order is paid, the payment captured, the unit sold and the mail sent. *)
Theorem purchase_goes_through :
  view 100 (run_of purchase_script) =
    ([Some 200; None; Some 200; Some 201; Some 200; Some 200; None]%Z,
     [(OrderStatusPaid, 150000%Z)], [(PaymentStatusCaptured, 150000%Z)], Some InventoryStatusSold, [mail]).
Proof. vm_compute. reflexivity. Qed.

(** Who is not admitted yet cannot hold a unit; the rest of the script then has
    nothing to refer to and is refused as well. *)
Lemma not_before_admission :
  view 100 (run_of (match purchase_script with join :: _ :: rest => join :: (fun _ => DoTick SweepLoop) :: rest | l => l end)) =
    ([Some 200; None; Some 403; Some 400; Some 400; Some 400; None]%Z, [], [], Some InventoryStatusAvailable, []).
Proof. vm_compute. reflexivity. Qed.

(** A webhook the provider repeats, and another tick of the dispatcher, change
    nothing: one sale, one mail. *)
Definition redelivery : Script :=
  [(fun replies =>
      let body := capture_body "1" (data_text "id" (at_ 3 replies)) "pi" in
      DoRequest "POST" "/webhooks/stripe" (provider_headers body) (Some body) "");
   (fun _ => DoTick NotificationLoop)].
Lemma redelivery_is_harmless :
  view 100 (run_of (purchase_script ++ redelivery)) =
    ([Some 200; None; Some 200; Some 201; Some 200; Some 200; None; Some 200; None]%Z,
     [(OrderStatusPaid, 150000%Z)], [(PaymentStatusCaptured, 150000%Z)], Some InventoryStatusSold, [mail]).
Proof. vm_compute. reflexivity. Qed.

(** A forged report of the payment, signed with another secret, sells nothing. *)
Definition forged (body h : string) : string := if String.eqb h "Stripe-Signature" then signature "guess" body else "".
Lemma forgery_sells_nothing :
  view 100 (run_of (take 5 purchase_script ++
    [fun replies => let body := capture_body "1" (data_text "id" (at_ 1 replies)) "pi" in
                    DoRequest "POST" "/webhooks/stripe" (forged body) (Some body) ""])) =
    ([Some 200; None; Some 200; Some 201; Some 200; Some 400]%Z,
     [(OrderStatusAwaitingPayment, 150000%Z)], [(PaymentStatusPending, 150000%Z)], Some InventoryStatusHeld, []).
Proof. vm_compute. reflexivity. Qed.

(** A run is a sequence of actions, so it keeps the books. *)
Lemma play_keeps script replies w : sales_step (w_db w) (w_db (snd (play script replies w))).
Proof.
  assert (rely : forall n d, sales_step d (env_others n d)) by (intros; reflexivity).
  revert replies w. induction script as [|next script IH]; intros replies w; [reflexivity|]. cbn [play].
  destruct (next replies) as [method path headers body remote|l].
  - etransitivity; [|apply IH].
    pose proof (keeps_ServeHTTP rely fx_api method path headers body remote w _ _ (surjective_pairing _)) as [_ Hs]. exact Hs.
  - etransitivity; [|apply IH]. pose proof (keeps_tick_of rely fx_api l w _ _ (surjective_pairing _)) as [_ Hs]. exact Hs.
Qed.
