(* ===== verification/Outbox.v ===== *)
(** * Whoever pays gets the mail

    The notification loop of the worker empties the outbox, however its ticks
    interleave with those of the other loops; with the books of [Sales] in order
    this reaches the confirmation of every paid order. *)
From S2P Require Import Prelude GoJson Crypto Domain Schema Redis Runtime Ports Fixtures InventoryRepo RedisRepo InventoryService.
From S2P Require Import CheckoutRepos CatalogRepos AccountRepos OrderService OrderConfirm Sales NotificationService AuthService AdmissionService.
From S2P Require Import Requests Config Worker Router SalesSafety Journey.

(** The rows still to be sent, and the ticks that send. *)
Definition pending_map (d : DB) : gmap UUID Notification :=
  filter (fun kv => NotificationRepo.is_pending kv.2 = true) (notifications d).
Definition dispatches (ticks : list Loop) : nat := length (filter (fun l => l = NotificationLoop) ticks).
Definition ids_ok (d : DB) : Prop := forall i n, notifications d !! i = Some n -> n_ID n = i.

(** What the other two loops leave alone. *)
Definition same_outbox (d d' : DB) : Prop := notifications d' = notifications d /\ users d' = users d.
#[global] Instance same_outbox_preorder : PreOrder same_outbox.
Proof. unfold same_outbox. split; [done|intros d1 d2 d3 [H1 H2] [H3 H4]; split; congruence]. Qed.

Section outbox.
Context `{U : UuidPkg, C : Collation, T : ErrorText, Smtp : SmtpPkg} `{E : Env} `{!Quiet}.
Context (cfg : Settings) (accepts : EmailMessage -> bool) (Htr : transport (Mailer := sender cfg) accepts).

Lemma same_outbox_rely n d : same_outbox d (env_others n d).
Proof. by rewrite quiet_others. Qed.

Lemma release_keeps_outbox t i tok : upholds same_outbox (Release t i tok).
Proof.
  change (Release t i tok) with (ir_Release t i tok).
  eapply cas_upholds; [apply _|apply same_outbox_rely| |apply ir_Release_cas]. intros d d' (r & now & _ & _ & _ & _ & ->). done.
Qed.

Lemma sweep_keeps_outbox n : upholds same_outbox (SweepExpiredHolds n).
Proof.
  pose proof same_outbox_rely as rely. unfold SweepExpiredHolds, sweep_row. cbn [ir_ListExpiredHolds InventoryRepo].
  unfold ListExpiredHolds. upholds_steps.
  - intros Hs. unfold list_expired_stmt in Hs. destruct (_ <? _)%Z; [done|]. by injection Hs as _ <-.
  - apply release_keeps_outbox.
Qed.

Lemma other_tick_keeps l : l <> NotificationLoop -> upholds same_outbox (tick cfg l).
Proof.
  intros Hl. pose proof same_outbox_rely as rely. destruct l; [| |done]; cbn [tick];
    (apply upholds_bind; [apply _| |intros; apply upholds_ret; apply _]); apply upholds_attempt;
    [apply sweep_keeps_outbox|apply admission_neutral; [apply _|exact rely]].
Qed.

Lemma tick_Ok l w : exists w', tick cfg l w = (Ok tt, w').
Proof.
  destruct l; cbn [tick]; rewrite bind_attempt.
  - destruct (SweepExpiredHolds _ w) as [? w']. by exists w'.
  - destruct (RunOnce _ _ w) as [? w']. by exists w'.
  - destruct (ProcessPending _ w) as [? w']. by exists w'.
Qed.

(** ** One run of the dispatcher *)

(** A row that was pending may be settled; every other row stays. *)
Definition row_moved (d d' : DB) (i : UUID) (n : Notification) : Prop :=
  notifications d' !! i = Some n \/
  (NotificationRepo.is_pending n = true /\ settled (accepted accepts d n) n (notifications d' !! i)).
Definition outbox_moved (d d' : DB) : Prop :=
  users d' = users d /\ forall i n, notifications d !! i = Some n -> row_moved d d' i n.

Lemma settled_not_pending acc n o : settled acc n o -> exists n', o = Some n' /\ NotificationRepo.is_pending n' = false /\ n_ID n' = n_ID n.
Proof. intros [now Ho]. destruct acc; [destruct Ho as [txt ->]|subst o]; by eexists. Qed.

Lemma outbox_moved_refl d : outbox_moved d d.
Proof. split; [done|]. by left. Qed.
Lemma outbox_moved_trans d1 d2 d3 : outbox_moved d1 d2 -> outbox_moved d2 d3 -> outbox_moved d1 d3.
Proof.
  intros [Hu1 H1] [Hu2 H2]. split; [congruence|]. intros i n Hn.
  assert (Hacc : accepted accepts d2 n = accepted accepts d1 n) by (unfold accepted, mail_of; by rewrite Hu1).
  destruct (H1 i n Hn) as [Hi|[Hp Hs]].
  - destruct (H2 i n Hi) as [|[Hp Hs]]; [by left|right]. by rewrite <- Hacc.
  - right. split; [done|]. destruct (settled_not_pending _ _ _ Hs) as (n' & Hi & Hnp & _).
    destruct (H2 i n' Hi) as [Hi'|[Hp' _]]; [by rewrite Hi', <- Hi|congruence].
Qed.

Lemma dispatch_once w :
  ids_ok (w_db w) -> (1 <= wk_NotificationBatchSize (cf_Worker cfg))%Z ->
  exists w', tick cfg NotificationLoop w = (Ok tt, w') /\ ids_ok (w_db w') /\ outbox_moved (w_db w) (w_db w') /\
    (pending_map (w_db w') = ∅ \/
     (size (pending_map (w_db w')) + Z.to_nat (wk_NotificationBatchSize (cf_Worker cfg)) = size (pending_map (w_db w)))%nat).
Proof.
  intros Hid Hb. set (b := wk_NotificationBatchSize (cf_Worker cfg)) in *.
  destruct (ProcessPending_post (Mailer := sender cfg) accepts Htr b w Hid ltac:(lia)) as (w' & Hp & _ & Hset & Hrest & Hd).
  cbv zeta in Hp, Hset, Hrest. set (batch := batch_of b (w_db w)) in *.
  assert (Hrow : forall n, n ∈ batch -> notifications (w_db w) !! n_ID n = Some n /\ NotificationRepo.is_pending n = true).
  { intros n Hn%elem_of_limit. rewrite elem_of_order_by in Hn. apply elem_of_rows_where in Hn as (Hpn & i & Hi).
    by rewrite (Hid _ _ Hi). }
  assert (Hin : forall i, i ∈ n_ID <$> batch -> exists n n', n ∈ batch /\ n_ID n = i /\ notifications (w_db w') !! i = Some n' /\
     NotificationRepo.is_pending n' = false /\ n_ID n' = i).
  { intros i (n & -> & Hn)%list_elem_of_fmap. destruct (settled_not_pending _ _ _ (Hset n Hn)) as (n' & Hn' & Hnp & He). eauto 9. }
  exists w'. cbn [tick]. rewrite bind_attempt. fold b. rewrite Hp. split; [done|]. split_and!.
  - intros i n Hi. destruct (decide (i ∈ n_ID <$> batch)) as [Hi'|Hi'].
    + destruct (Hin i Hi') as (n0 & n' & _ & _ & Hn' & _ & He). congruence.
    + rewrite Hrest in Hi by done. by apply Hid.
  - split; [by rewrite Hd|]. intros i n Hi. destruct (decide (i ∈ n_ID <$> batch)) as [Hi'|Hi'].
    + apply list_elem_of_fmap in Hi' as (n0 & -> & Hn0). destruct (Hrow n0 Hn0) as [Hr0 Hp0].
      rewrite Hr0 in Hi. injection Hi as <-. right. split; [done|]. by apply Hset.
    + left. by rewrite Hrest.
  - assert (Hpend : forall i, pending_map (w_db w') !! i = if decide (i ∈ n_ID <$> batch) then None else pending_map (w_db w) !! i).
    { intros i. unfold pending_map. case_decide as Hi.
      - destruct (Hin i Hi) as (n0 & n' & _ & _ & Hn' & Hnp & _). apply map_lookup_filter_None. right.
        intros x Hx. rewrite Hn' in Hx. injection Hx as <-. simpl. congruence.
      - apply option_eq. intros n. rewrite !map_lookup_filter_Some, Hrest by done. done. }
    assert (Hsize : (size (pending_map (w_db w')) + length (n_ID <$> batch) = size (pending_map (w_db w)))%nat).
    { apply size_removed; [by apply batch_ids| |done]. intros i (n & -> & Hn)%list_elem_of_fmap.
      exists n. apply map_lookup_filter_Some. by apply Hrow. }
    rewrite length_fmap in Hsize. destruct (decide (length batch < Z.to_nat b)%nat) as [Hlt|Hge].
    + left. apply map_empty. intros i. rewrite Hpend. case_decide as Hi; [done|]. unfold pending_map. apply map_lookup_filter_None.
      right. intros n Hn Hp'. apply Hi. rewrite <- (Hid _ _ Hn). apply list_elem_of_fmap_2. by eapply short_batch.
    + right. assert (length batch <= Z.to_nat b)%nat by (unfold batch, batch_of, limit; rewrite length_take; lia). lia.
Qed.

(** ** All runs together *)

Lemma drain_outbox ticks w :
  (1 <= wk_NotificationBatchSize (cf_Worker cfg))%Z -> ids_ok (w_db w) ->
  (size (pending_map (w_db w)) <= dispatches ticks * Z.to_nat (wk_NotificationBatchSize (cf_Worker cfg)))%nat ->
  exists w', fold_loop (fun _ => tick cfg) tt ticks w = (Ok tt, w') /\ outbox_moved (w_db w) (w_db w') /\ pending_map (w_db w') = ∅.
Proof.
  intros Hb. set (b := Z.to_nat (wk_NotificationBatchSize (cf_Worker cfg))).
  revert w. induction ticks as [|l ticks IH]; intros w Hid Hn.
  { exists w. split; [done|]. split; [apply outbox_moved_refl|]. apply map_size_empty_inv. unfold dispatches in Hn. simpl in Hn. lia. }
  cbn [fold_loop]. unfold bind at 1. unfold dispatches in Hn. rewrite filter_cons in Hn.
  destruct (decide (l = NotificationLoop)) as [->|Hl].
  - destruct (dispatch_once w Hid Hb) as (w1 & -> & Hid1 & Hm1 & Hs1).
    destruct (IH w1 Hid1) as (w' & Hf & Hm & He).
    { destruct Hs1 as [->|Hs1]; [rewrite map_size_empty; lia|]. simpl in Hn. fold b in Hs1. unfold dispatches. lia. }
    exists w'. split; [done|]. split; [by eapply outbox_moved_trans|done].
  - destruct (tick_Ok l w) as [w1 Hw1]. rewrite Hw1. apply (other_tick_keeps l Hl) in Hw1 as [_ [Hn1 Hu1]].
    assert (Hpm : pending_map (w_db w1) = pending_map (w_db w)) by (unfold pending_map; by rewrite Hn1).
    destruct (IH w1) as (w' & Hf & Hm & He); [unfold ids_ok; by rewrite Hn1|by rewrite Hpm|].
    exists w'. split; [done|]. split; [|done]. eapply outbox_moved_trans; [|exact Hm]. split; [done|].
    intros i n Hi. left. by rewrite Hn1.
Qed.

(** The mail of a confirmation: somebody is there to get it, and it can be rendered. *)
Lemma confirmation_mail d k n oid o : books d -> notifications d !! k = Some n -> confirms oid o n ->
  exists u msg, users d !! o_UserID o = Some u /\ mail_of d n = Some msg /\ em_To msg = u_Email u.
Proof.
  intros Hb Hn (Hty & _ & Hu & _). destruct (books_recipient _ Hb k n Hn) as [u Hr]. unfold mail_of, render.
  rewrite Hr, Hty. rewrite Hu in Hr. by eexists u, _.
Qed.

(** C20: whoever pays gets the mail. Let the books be in order and the three loops
    of a worker tick in any interleaving, nobody else writing. Once the
    dispatcher has ticked often enough for the rows that were pending, none is
    left: each was handed to the transport and is sent, or failed exactly when
    its recipient is unknown or the transport refused it, and rows that were
    settled before are as they were. In particular every paid order of the shop
    has a confirmation, whose recipient is known and whose mail can be rendered
    and goes to the buyer's address: if it was still pending it has been sent
    when the transport accepts that mail, and has failed otherwise. *)
Theorem paid_orders_are_mailed ticks w :
  existsb (NewTicker_panics cfg) [SweepLoop; AdmissionLoop; NotificationLoop] = false ->
  (1 <= wk_NotificationBatchSize (cf_Worker cfg))%Z -> books (w_db w) ->
  (size (pending_map (w_db w)) <= dispatches ticks * Z.to_nat (wk_NotificationBatchSize (cf_Worker cfg)))%nat ->
  exists w', run cfg ticks w = (Ok tt, w') /\
    (forall i n, notifications (w_db w) !! i = Some n ->
       if NotificationRepo.is_pending n then settled (accepted accepts (w_db w) n) n (notifications (w_db w') !! i)
       else notifications (w_db w') !! i = Some n) /\
    forall oid o, orders (w_db w) !! oid = Some o -> o_Status o = OrderStatusPaid ->
      exists k n n' u msg, notifications (w_db w) !! k = Some n /\ confirms oid o n /\
        users (w_db w) !! o_UserID o = Some u /\ mail_of (w_db w) n = Some msg /\ em_To msg = u_Email u /\
        notifications (w_db w') !! k = Some n' /\
        if NotificationRepo.is_pending n
        then n_Status n' = (if accepts msg then NotificationStatusSent else NotificationStatusFailed) else n' = n.
Proof.
  intros Hi Hb Hbooks Hn. destruct (drain_outbox ticks w Hb (books_mail_id _ Hbooks) Hn) as (w' & Hf & [_ Hm] & He).
  exists w'. unfold run. rewrite Hi. split; [done|].
  assert (Hrows : forall i n, notifications (w_db w) !! i = Some n ->
    if NotificationRepo.is_pending n then settled (accepted accepts (w_db w) n) n (notifications (w_db w') !! i)
    else notifications (w_db w') !! i = Some n).
  { intros i n Hin. destruct (Hm i n Hin) as [Hi'|[-> Hs]]; [|done]. destruct (NotificationRepo.is_pending n) eqn:Hp; [|done].
    assert (Hin' : pending_map (w_db w') !! i = Some n) by by apply map_lookup_filter_Some.
    by rewrite He in Hin'. }
  split; [exact Hrows|]. intros oid o Ho Hp. destruct (books_paid_confirmed _ Hbooks oid o Ho Hp) as (k & n & Hk & Hc).
  destruct (confirmation_mail _ _ _ _ _ Hbooks Hk Hc) as (u & msg & Hu & Hmail & Hto).
  specialize (Hrows k n Hk). unfold accepted in Hrows. rewrite Hmail in Hrows.
  destruct (NotificationRepo.is_pending n) eqn:Hpn; [|by exists k, n, n, u, msg; rewrite Hpn].
  destruct Hrows as [now Hrow]. destruct (accepts msg) eqn:Ha; [|destruct Hrow as [txt Hrow]];
    (eexists k, n, _, u, msg; rewrite Hpn, Ha; by split_and!).
Qed.
End outbox.

(** ** Witness *)

(** The purchase of [Journey], up to the report of the payment. *)
Definition fx_paid_shop : World (H := ref_redis) := snd (play (take 6 purchase_script) [] (fx_world fx_shop)).

Lemma fx_paid_shop_books : books (w_db fx_paid_shop).
Proof. apply (sl_books _ _ (play_keeps (take 6 purchase_script) [] (fx_world fx_shop))), fx_shop_books. Qed.

Lemma paid_orders_are_mailed_witness :
  order_views (w_db fx_paid_shop) = [(OrderStatusPaid, 150000%Z)] /\
  exists w', run fx_api [SweepLoop; AdmissionLoop; NotificationLoop] fx_paid_shop = (Ok tt, w') /\
    forall oid o, orders (w_db fx_paid_shop) !! oid = Some o -> o_Status o = OrderStatusPaid ->
      exists k n n', notifications (w_db fx_paid_shop) !! k = Some n /\ notifications (w_db w') !! k = Some n' /\
        if NotificationRepo.is_pending n then n_Status n' = NotificationStatusSent else n' = n.
Proof.
  split; [vm_compute; reflexivity|].
  destruct (paid_orders_are_mailed fx_api (fun _ => true) fx_console_transport [SweepLoop; AdmissionLoop; NotificationLoop] fx_paid_shop)
    as (w' & Hr & _ & Hm).
  - vm_compute. reflexivity.
  - vm_compute. discriminate.
  - exact fx_paid_shop_books.
  - apply Nat.leb_le. vm_compute. reflexivity.
  - exists w'. split; [exact Hr|]. intros oid o Ho Hp. destruct (Hm oid o Ho Hp) as (k & n & n' & u & msg & Hk & _ & _ & _ & _ & Hn' & Hs).
    exists k, n, n'. split; [exact Hk|split; [exact Hn'|exact Hs]].
Defined.
