(* ===== verification/Platform.v ===== *)
(** * Code no process runs ([src/internal/platform/kafka.go], [storage.go],
    [Money.String] of [src/internal/domain/money.go], [membership.go])

    An event bus over Kafka, an in-memory object store, the debugging text of an
    amount and the entity of memberships. No process of the repository reaches
    them; they are modelled as the library code they are. *)
From S2P Require Import Prelude GoJson GoFloat Domain.

(** ** money.go *)

(** [%02d]: a sign counts for the width. *)
Definition pad2 (z : Z) : string := if (0 <=? z)%Z then two_digits z else FormatInt z.

(** Go's division truncates. *)
Definition MoneyString (m : Money) : string :=
  FormatInt (Z.quot (Cents m) 100) +:+ "." +:+ pad2 (Z.rem (Cents m) 100) +:+ " " +:+ Currency m.

(** On the amounts [NewMoney] makes, the text is the exact decimal amount. *)
Lemma MoneyString_decimal cents currency m :
  NewMoney cents currency = Ok m -> MoneyString m = decimal2 cents +:+ " " +:+ currency.
Proof.
  unfold NewMoney. destruct (Z.ltb_spec cents 0) as [|Hc]; [done|]. destruct (negb _); [done|]. intros [= <-].
  unfold MoneyString, decimal2, pad2. simpl. rewrite Z.quot_div_nonneg, Z.rem_mod_nonneg by lia.
  pose proof (Z.mod_pos_bound cents 100 ltac:(lia)). rewrite (proj2 (Z.leb_le _ _)) by lia. by rewrite !string_app_assoc.
Qed.

(** A negative one prints with two signs. *)
Lemma MoneyString_negative : MoneyString (mkMoney (-150) "KES") = "-1.-50 KES".
Proof. reflexivity. Qed.

(** ** membership.go *)

Inductive MembershipStatus := MembershipStatusActive | MembershipStatusExpired | MembershipStatusCancelled.
Record Membership := mkMembership {
  m_ID : UUID; m_TenantID : UUID; m_UserID : UUID; m_Tier : string; m_Season : string; m_Status : MembershipStatus;
  m_StartsAt : Time; m_EndsAt : Time; m_CreatedAt : Time; m_UpdatedAt : Time }.

(** ** kafka.go *)

Module Kafka.

(** [Data] is any Go value: here the JSON document it encodes to, or nothing when
    it cannot be encoded. *)
Record Event := mkEvent { ev_ID : string; ev_Type : string; ev_OccurredAt : string; ev_Data : option JVal }.
Record Message := mkMessage { msg_Topic : string; msg_Key : string; msg_Value : string }.

Definition encode (e : Event) : result string :=
  match ev_Data e with
  | None => Err (EText "json: unsupported value")
  | Some data =>
      Ok (Marshal (VObj [("id", VStr (ev_ID e)); ("type", VStr (ev_Type e)); ("occurred_at", VStr (ev_OccurredAt e)); ("data", data)]))
  end.

Definition event_fields : list (Field Event) :=
  [str_field "id" (fun x e => mkEvent x (ev_Type e) (ev_OccurredAt e) (ev_Data e));
   str_field "type" (fun x e => mkEvent (ev_ID e) x (ev_OccurredAt e) (ev_Data e));
   str_field "occurred_at" (fun x e => mkEvent (ev_ID e) (ev_Type e) x (ev_Data e));
   ("data", fun v e => Some (mkEvent (ev_ID e) (ev_Type e) (ev_OccurredAt e) (Some v)))].
(** The zero [Event]; its nil [Data] encodes to null. *)
Definition decode (value : string) : result Event :=
  match v ← Unmarshal value; decode_struct event_fields v (mkEvent "" "" "" (Some VNull)) with
  | Some e => Ok e
  | None => Err (EText "json")
  end.

(** The client library kafka-go: a writer, and the reader of a consumer group. *)
Class KafkaPkg (S : Type) := {
  WriteMessages : Message -> S -> result unit * S;
  FetchMessage : S -> result Message * S;
  CommitMessages : Message -> S -> result unit * S }.

Section bus.
Context {S : Type} `{K : !KafkaPkg S}.

Definition Publish (topic key : string) (e : Event) (s : S) : result unit * S :=
  match encode e with
  | Err err => (Err err, s)
  | Ok b => WriteMessages (mkMessage topic key b) s
  end.

Context (Handler : Event -> S -> result unit * S).

(** The handling of one message. *)
Definition handle (m : Message) (s : S) : result unit * S :=
  match decode (msg_Value m) with
  | Ok ev => Handler ev s
  | Err e => (Err e, s)
  end.

(** [Consumer.Run], for at most [n] rounds: the error it returns with. *)
Fixpoint Run (n : nat) (s : S) : option (GoError * S) :=
  match n with
  | O => None
  | Datatypes.S n =>
      match FetchMessage s with
      | (Err e, s) => Some (e, s)
      | (Ok m, s) =>
          match handle m s with
          | (Err _, s) => Run n s
          | (Ok _, s) =>
              match CommitMessages m s with
              | (Err e, s) => Some (e, s)
              | (Ok _, s) => Run n s
              end
          end
      end
  end.
End bus.

(** What the consumer relies on: the reader hands out the messages of its
    partition one after the other, and committing one notes it. *)
Class KafkaLaws (S : Type) `{K : !KafkaPkg S} := {
  pending : S -> list Message;
  committed : S -> list Message;
  fetch_next s m s' : FetchMessage s = (Ok m, s') -> pending s = m :: pending s' /\ committed s' = committed s;
  fetch_fails s e s' : FetchMessage s = (Err e, s') -> pending s' = pending s /\ committed s' = committed s;
  fetch_empty s : pending s = [] -> exists e s', FetchMessage s = (Err e, s');
  commit_noted s m s' : CommitMessages m s = (Ok tt, s') -> pending s' = pending s /\ committed s' = committed s ++ [m];
  commit_fails s m e s' : CommitMessages m s = (Err e, s') -> pending s' = pending s /\ committed s' = committed s }.

Section consumer.
Context {S : Type} `{L : KafkaLaws S} (Handler : Event -> S -> result unit * S).

(** A handler does its own business. *)
Hypothesis handler_neutral : forall ev s r s', Handler ev s = (r, s') -> pending s' = pending s /\ committed s' = committed s.

Lemma handle_neutral m s r s' : handle Handler m s = (r, s') -> pending s' = pending s /\ committed s' = committed s.
Proof. unfold handle. destruct (decode _); [apply handler_neutral|by intros [= _ <-]]. Qed.

(** The consumer passes over the messages once, in order, and commits exactly
    those it could decode and handle (but for one whose commit failed, with which
    it stops); one that failed is left behind uncommitted and never tried again. *)
Lemma Run_once n s e s' :
  Run Handler n s = Some (e, s') ->
  exists seen : list (Message * bool),
    pending s = (fst <$> seen) ++ pending s' /\
    committed s' = committed s ++ (fst <$> filter (fun p => p.2 = true) seen) /\
    forall m, (m, true) ∈ seen -> exists ev, decode (msg_Value m) = Ok ev.
Proof.
  revert s. induction n as [|n IH]; intros s; simpl; [done|]. destruct (FetchMessage s) as [[m|e1] s1] eqn:Hf.
  2: { intros [= <- <-]. apply fetch_fails in Hf as [-> ->]. exists []. simpl. rewrite app_nil_r. split_and!; [done..|]. by intros ? ?%elem_of_nil. }
  apply fetch_next in Hf as [Hp1 Hc1]. destruct (handle Handler m s1) as [[[]|e2] s2] eqn:Hh.
  - apply handle_neutral in Hh as Hn. destruct Hn as [Hp2 Hc2].
    assert (Hd : exists ev, decode (msg_Value m) = Ok ev) by (unfold handle in Hh; destruct (decode _); [eauto|done]).
    destruct (CommitMessages m s2) as [[[]|e3] s3] eqn:Hm.
    + apply commit_noted in Hm as [Hp3 Hc3]. intros (seen & Hp & Hc & Hs)%IH. exists ((m, true) :: seen).
      rewrite filter_cons_True by done. split_and!.
      * by rewrite Hp1, <- Hp2, <- Hp3, Hp.
      * rewrite Hc, Hc3, Hc2, Hc1. by rewrite <- app_assoc.
      * by intros m' [[= ->]|Hin]%elem_of_cons; [|apply Hs].
    + apply commit_fails in Hm as [Hp3 Hc3]. intros [= <- <-]. exists [(m, false)]. simpl. rewrite app_nil_r.
      split_and!; [congruence..|]. by intros m' [[=]|[]%elem_of_nil]%elem_of_cons.
  - apply handle_neutral in Hh as [Hp2 Hc2]. intros (seen & Hp & Hc & Hs)%IH. exists ((m, false) :: seen).
    rewrite filter_cons_False by done. split_and!; [by rewrite Hp1, <- Hp2, Hp|congruence|].
    by intros m' [[=]|Hin]%elem_of_cons; apply Hs.
Qed.

(** When no more messages come, the loop ends. *)
Lemma Run_ends s : exists e s', Run Handler (Datatypes.S (length (pending s))) s = Some (e, s').
Proof.
  remember (length (pending s)) as k eqn:Hk. revert s Hk. induction k as [|k IH]; intros s Hk.
  - symmetry in Hk. apply length_zero_iff_nil, fetch_empty in Hk as (e & s' & He). simpl. rewrite He. eauto.
  - cbn [Run]. destruct (FetchMessage s) as [[m|e1] s1] eqn:Hf; [|eauto].
    apply fetch_next in Hf as [Hp1 _]. rewrite Hp1 in Hk. injection Hk as Hk.
    destruct (handle Handler m s1) as [[[]|e2] s2] eqn:Hh; apply handle_neutral in Hh as [Hp2 _];
      [destruct (CommitMessages m s2) as [[[]|e3] s3] eqn:Hm; [apply commit_noted in Hm as [Hp3 _]|eauto]|]; apply IH; congruence.
Qed.
End consumer.

(** What is published is what is consumed, for events of valid text. *)
Definition wellformed (e : Event) : Prop :=
  valid_text (ev_ID e) = true /\ valid_text (ev_Type e) = true /\ valid_text (ev_OccurredAt e) = true /\
  exists data, ev_Data e = Some data /\ document data = true /\ (height data < max_depth)%N.

Lemma decode_encode e : wellformed e -> exists b, encode e = Ok b /\ decode b = Ok e.
Proof.
  destruct e as [id type at_ data]. intros (Hi & Ht & Ha & d & Hd & Hdoc & Hh). simpl in *. subst data.
  unfold encode. cbn [ev_Data ev_ID ev_Type ev_OccurredAt]. set (doc := VObj _). exists (Marshal doc). split; [done|].
  unfold decode. destruct (Unmarshal_Marshal doc) as [-> _]; [| |reflexivity].
  - unfold doc. cbn [document forallb fst snd]. rewrite Hi, Ht, Ha, Hdoc. reflexivity.
  - unfold doc. cbn [height List.map foldr snd]. lia.
Qed.

(** A topic in memory, and a consumer that fails at one message: the message is
    passed over, and the next one is committed past it. *)
Section example.
Record Topic := mkTopic { to_pending : list Message; to_committed : list Message }.

#[local] Instance fx_topic : KafkaPkg Topic := {|
  WriteMessages m s := (Ok tt, mkTopic (to_pending s ++ [m]) (to_committed s));
  FetchMessage s := match to_pending s with
                    | [] => (Err (EText "context canceled"), s)
                    | m :: l => (Ok m, mkTopic l (to_committed s))
                    end;
  CommitMessages m s := (Ok tt, mkTopic (to_pending s) (to_committed s ++ [m])) |}.
#[local] Instance fx_topic_laws : KafkaLaws Topic.
Proof.
  refine {| pending := to_pending; committed := to_committed |}; simpl.
  - intros [[|m' l] c] m s' [=]; by subst.
  - intros [[|m' l] c] e s' [=]; by subst.
  - intros s ->. eauto.
  - by intros s m s' [= <-].
  - by intros s m e s' [=].
Qed.

Definition fx_handler (ev : Event) (s : Topic) : result unit * Topic :=
  (if String.eqb (ev_Type ev) "poison" then Err (EText "unavailable") else Ok tt, s).
Definition fx_message (type : string) : Message :=
  mkMessage "orders" "1" (match encode (mkEvent "1" type "" (Some VNull)) with Ok b => b | Err _ => "" end).

Lemma failed_message_is_left_behind :
  Run fx_handler 9 (mkTopic [fx_message "poison"; fx_message "paid"] []) =
    Some (EText "context canceled", mkTopic [] [fx_message "paid"]).
Proof. vm_compute. reflexivity. Qed.
End example.
End Kafka.

(** ** storage.go *)

Module Storage.

Record Object := mkObject { ob_Key : string; ob_ContentType : string; ob_Size : Z; ob_Checksum : string }.
Abbreviation MemoryStore := (gmap string string).
Definition NewMemoryStore : MemoryStore := ∅.

(** [r] is what [io.ReadAll] gets out of the reader. *)
Definition Put (key contentType : string) (r : result string) (m : MemoryStore) : result Object * MemoryStore :=
  match r with
  | Err e => (Err e, m)
  | Ok b => (Ok (mkObject key contentType (Z.of_nat (String.length b)) ""), <[key := b]> m)
  end.

(** [byteReader]: what is left to read. *)
Definition bytesReader (b : string) : string := b.
Definition Get (key : string) (m : MemoryStore) : result (string * string) :=
  match m !! key with
  | None => Err (EText "object not found")
  | Some b => Ok (bytesReader b, "application/pdf")
  end.
Definition Delete (key : string) (m : MemoryStore) : result unit * MemoryStore := (Ok tt, delete key m).

(** [Read] into a buffer of [n] bytes: the bytes copied, or [io.EOF]. *)
Definition Read (n : nat) (r : string) : option string * string :=
  if String.eqb r "" then (None, r)
  else (Some (String.substring 0 n r), String.substring n (String.length r - n) r).

(** A caller reading to the end, the i-th time with a buffer of [size i] bytes. *)
Fixpoint ReadAll (fuel : nat) (size : nat -> nat) (r : string) : option string :=
  match fuel with
  | O => None
  | S fuel =>
      match Read (size O) r with
      | (None, _) => Some ""
      | (Some b, r) => (fun rest => b +:+ rest) <$> ReadAll fuel (fun i => size (S i)) r
      end
  end.

Lemma substring_all r : String.substring 0 (String.length r) r = r.
Proof. induction r as [|c r IH]; simpl; [done|by rewrite IH]. Qed.

Lemma substring_split n r : String.substring 0 n r +:+ String.substring n (String.length r - n) r = r.
Proof.
  revert n. induction r as [|c r IH]; intros [|n]; simpl; [done..| |].
  - by rewrite substring_all.
  - change (String c (String.substring 0 n r +:+ String.substring n (String.length r - n) r) = String c r). by rewrite IH.
Qed.

Lemma substring_rest_length n r : (String.length (String.substring n (String.length r - n) r) <= String.length r - n)%nat.
Proof.
  revert n. induction r as [|c r IH]; intros [|n]; simpl; [lia..| |].
  - rewrite substring_all. lia.
  - apply IH.
Qed.

(** Whatever the buffers, reading ends, and gives the bytes of the object. *)
Lemma ReadAll_exact size r : (forall i, 0 < size i)%nat -> ReadAll (S (String.length r)) size r = Some r.
Proof.
  intros Hs. enough (Hall : forall k size r, (forall i, 0 < size i)%nat -> (String.length r <= k)%nat -> ReadAll (S k) size r = Some r) by by apply Hall.
  clear. intros k. induction k as [|k IH]; intros size r Hs Hk; cbn [ReadAll]; unfold Read; destruct (String.eqb_spec r "") as [->|Hr]; try done.
  - destruct r; simpl in Hk; [done|lia].
  - change (option_map (fun rest => String.substring 0 (size 0%nat) r +:+ rest)
      (ReadAll (S k) (fun i => size (S i)) (String.substring (size 0%nat) (String.length r - size 0%nat) r)) = Some r).
    rewrite IH; [|by intros i|].
    + cbn [option_map]. f_equal. apply substring_split.
    + pose proof (substring_rest_length (size 0%nat) r). specialize (Hs 0%nat). lia.
Qed.

(** What was put is what is got; whatever content type was put, it is reported
    as a PDF. *)
Lemma Put_Get key contentType b m size :
  (forall i, 0 < size i)%nat ->
  exists o m' r, Put key contentType (Ok b) m = (Ok o, m') /\ Get key m' = Ok (r, "application/pdf") /\
    ReadAll (S (Z.to_nat (ob_Size o))) size r = Some b /\
    forall k, k <> key -> Get k m' = Get k m.
Proof.
  intros Hs. eexists _, _, _. split; [reflexivity|]. unfold Get. rewrite lookup_insert_eq. split; [reflexivity|]. simpl.
  rewrite Nat2Z.id. split; [by apply ReadAll_exact|]. intros k Hk. by rewrite lookup_insert_ne.
Qed.

Lemma Delete_Get key m : Get key (snd (Delete key m)) = Err (EText "object not found").
Proof. unfold Get, Delete. simpl. by rewrite lookup_delete_eq. Qed.
End Storage.
