(* ===== verification/Processes.v ===== *)
(** * The processes ([src/cmd/api], [src/cmd/worker], [src/cmd/migrate])

    Start-up, shutdown and exit codes, with the clients of
    [src/internal/platform/database], [src/internal/platform/redis] and the
    logger of [src/internal/pkg/logger]. What a process does to the resources it
    opens is recorded in a trace; what the libraries, the network and the
    operator answer is a parameter. *)
From S2P Require Import Prelude GoJson Domain Schema Redis Runtime Ports Fixtures Http AuthService NotificationService Requests Config Worker.

(** ** Traces of a process *)

Inductive Resource := SignalHandler | LoggerBuffer | PostgresPool | RedisClient | Migrator.
#[global] Instance Resource_dec : EqDecision Resource. Proof. solve_decision. Defined.

(** The commands of golang-migrate. *)
Inductive Migration := MigrateUp | MigrateDown | MigrateSteps (n : Z) | MigrateForce (version : Z).
#[global] Instance Migration_dec : EqDecision Migration. Proof. solve_decision. Defined.

(** Opening and closing a resource, and the work that needs open ones: serving
    requests, a tick of a worker loop, a migration. [Drained] is the return of a
    [Shutdown] that has waited for every request; [Handling] is a step of a
    request's own goroutine. *)
Inductive Act :=
| Acquire (r : Resource)
| Release (r : Resource)
| Serving (addr : string)
| Draining (timeout : Duration)
| Drained
| Handling
| Ticking (l : Loop)
| Migrating (m : Migration).

(** How a function of a process ends: it returns, or the process dies of a panic
    in some goroutine, which runs no deferred call of the others. *)
Inductive Exit (A : Type) := Returned (r : result A) | Died (reason : string).
Arguments Returned {A} r.
Arguments Died {A} reason.

Definition Proc (A : Type) : Type := list Act * Exit A.

Definition done {A} (r : result A) : Proc A := ([], Returned r).
Definition act (a : Act) : Proc unit := ([a], Returned (Ok tt)).
Definition after {A B} (p : Proc A) (f : A -> Proc B) : Proc B :=
  match p.2 with
  | Returned (Ok a) => (p.1 ++ (f a).1, (f a).2)
  | Returned (Err e) => (p.1, Returned (Err e))
  | Died why => (p.1, Died why)
  end.

(** [defer f()]: whatever the rest returns. *)
Definition deferred {A} (a : Act) (p : Proc A) : Proc A :=
  (match p.2 with Returned _ => p.1 ++ [a] | Died _ => p.1 end, p.2).

Definition wrap_err {A} (msg : string) (r : result A) : result A :=
  match r with Ok a => Ok a | Err e => Err (EWrap msg e) end.
(** [return fmt.Errorf(msg + ": %w", err)]. *)
Definition wrapped {A} (msg : string) (p : Proc A) : Proc A :=
  (p.1, match p.2 with Returned r => Returned (wrap_err msg r) | Died why => Died why end).

Notation "'let*' x ':=' p 'in' q" := (after p (fun x => q)) (at level 10, x name, q at level 200) : go_scope.
#[local] Open Scope go_scope.

(** ** Replaying a trace

    The open resources are a stack, the order of Go's deferred calls. A release
    closes the resource opened last; work needs its connections to be open. *)
Definition required (a : Act) : list Resource :=
  match a with
  | Serving _ | Draining _ | Handling | Ticking _ => [PostgresPool; RedisClient]
  | Migrating _ => [Migrator]
  | Acquire _ | Release _ | Drained => []
  end.

Definition replay1 (st : list Resource) (a : Act) : option (list Resource) :=
  match a, st with
  | Acquire r, _ => if bool_decide (r ∈ st) then None else Some (r :: st)
  | Release r, r' :: st' => if bool_decide (r = r') then Some st' else None
  | Release _, [] => None
  | _, _ => if forallb (fun r => bool_decide (r ∈ st)) (required a) then Some st else None
  end.

Fixpoint replay (st : list Resource) (t : list Act) : option (list Resource) :=
  match t with
  | [] => Some st
  | a :: t => match replay1 st a with Some st' => replay st' t | None => None end
  end.

Lemma replay_trace_app st t1 t2 :
  replay st (t1 ++ t2) = match replay st t1 with Some st' => replay st' t2 | None => None end.
Proof. revert st. induction t1 as [|a t1 IH]; intros st; simpl; [done|]. destruct (replay1 st a); [apply IH|done]. Qed.

(** ** Requests run in goroutines of their own

    The trace of [run] is interleaved with the steps of the handlers. They start
    when the server listens and are over when [Shutdown] has drained them; when
    it has not, they go on for as long as the process lives. *)
Definition serving_after (serving : bool) (a : Act) : bool :=
  match a with Serving _ => true | Drained => false | _ => serving end.

Inductive handled : bool -> list Act -> list Act -> Prop :=
| handled_end serving : handled serving [] []
| handled_request t t' : handled true t t' -> handled true t (Handling :: t')
| handled_main serving a t t' : handled (serving_after serving a) t t' -> handled serving (a :: t) (a :: t').

(** What the handlers need is open whenever they can run. *)
Definition can_handle (st : list Resource) : bool := forallb (fun r => bool_decide (r ∈ st)) (required Handling).
Fixpoint covered (serving : bool) (st : list Resource) (t : list Act) : bool :=
  (negb serving || can_handle st) &&
  match t with
  | [] => true
  | a :: t => match replay1 st a with Some st' => covered (serving_after serving a) st' t | None => false end
  end.

Lemma replay_handled serving t t' st : handled serving t t' -> covered serving st t = true -> replay st t' = replay st t.
Proof.
  intros Hh. revert st. induction Hh as [serving|t t' Hh IH|serving a t t' Hh IH]; intros st Hc; [done| |].
  - assert (Hst : can_handle st = true) by (destruct t; simpl in Hc; by apply andb_true_iff in Hc as [? _]).
    simpl. unfold can_handle in Hst. simpl in Hst. rewrite Hst. by apply IH.
  - cbn [covered] in Hc. apply andb_true_iff in Hc as [_ Hc]. cbn [replay]. destruct (replay1 st a); [by apply IH|done].
Qed.

(** ** The libraries, the network and the operator *)

(** [pgxpool.Config], [redis.Options]: the settings the program fills in. *)
Record PoolConfig (DSN : Type) := mkPoolConfig {
  pc_ConnConfig : DSN; pc_MaxConns : Z; pc_MinConns : Z; pc_MaxConnLifetime : Duration; pc_MaxConnIdleTime : Duration;
  pc_HealthCheckPeriod : Duration }.
Arguments mkPoolConfig {DSN}.
Record Options := mkOptions {
  opt_Addr : string; opt_Password : string; opt_DB : Z; opt_PoolSize : Z; opt_DialTimeout : Duration;
  opt_ReadTimeout : Duration; opt_WriteTimeout : Duration }.
(** The zap configuration: the base and its encoders. *)
Inductive zap_Config := ProductionISO8601 | DevelopmentCapitalColor.

(** How serving ends: [ListenAndServe] returns (never without an error), or a
    signal arrives and [Shutdown] drains the connections or times out. *)
Inductive Fate := ServeReturned (e : GoError) | SignalReceived (shutdown : option GoError).

Class Machine := {
  pgx_DSN : Type;
  pgxpool_ParseConfig : string -> result pgx_DSN;
  pgxpool_NewWithConfig : PoolConfig pgx_DSN -> result unit;
  pgxpool_Ping : result unit;
  redis_Ping : Options -> result unit;
  zap_Level : Type;
  zap_ParseLevel : string -> result zap_Level;
  zap_Build : zap_Config -> zap_Level -> result unit;
  migrate_New : string -> string -> result unit;
  migrate_Run : Migration -> option GoError;
  is_ErrServerClosed : GoError -> bool;
  is_ErrNoChange : GoError -> bool
}.

(** zap knows the names of its levels, among them those the settings allow. *)
Class ZapLaws (P : Machine) : Prop :=
  zap_levels : forall s, s ∈ ["debug"; "info"; "warn"; "error"] -> is_ok (zap_ParseLevel s) = true.

(** ** The clients *)

Section processes.
Context `{P : Machine} `{V : ValidatorPkg} `{EP : EnvPkg}.

(** [logger.New]. *)
Definition logger_config (appEnv : string) : zap_Config :=
  if String.eqb appEnv "production" || String.eqb appEnv "staging" then ProductionISO8601 else DevelopmentCapitalColor.

Definition logger_New (appEnv level : string) : Proc unit :=
  match zap_ParseLevel level with
  | Err e => done (Err (EWrap "logger: invalid log level" e))
  | Ok lvl => done (wrap_err "logger: build" (zap_Build (logger_config appEnv) lvl))
  end.

(** [database.NewPool]. *)
Definition pool_config (cfg : PostgresConfig) (dsn : pgx_DSN) : PoolConfig pgx_DSN :=
  mkPoolConfig dsn (pg_MaxOpenConns cfg) (pg_MaxIdleConns cfg) (pg_ConnMaxLifetime cfg) (5 * Minute) (30 * Second).

Definition NewPool (cfg : PostgresConfig) : Proc unit :=
  match pgxpool_ParseConfig (pg_DSN cfg) with
  | Err e => done (Err (EWrap "database: parse dsn" e))
  | Ok dsn =>
      match pgxpool_NewWithConfig (pool_config cfg dsn) with
      | Err e => done (Err (EWrap "database: create pool" e))
      | Ok _ =>
          let* _ := act (Acquire PostgresPool) in
          match pgxpool_Ping with
          | Err e => let* _ := act (Release PostgresPool) in done (Err (EWrap "database: ping" e))
          | Ok _ => done (Ok tt)
          end
      end
  end.

(** [redis.NewClient]. *)
Definition redis_options (cfg : RedisConfig) : Options :=
  mkOptions (red_Addr cfg) (red_Password cfg) (red_DB cfg) (red_PoolSize cfg) (5 * Second) (2 * Second) (2 * Second).

Definition NewClient (cfg : RedisConfig) : Proc unit :=
  let* _ := act (Acquire RedisClient) in
  match redis_Ping (redis_options cfg) with
  | Err e => let* _ := act (Release RedisClient) in done (Err (EWrap "redis: ping" e))
  | Ok _ => done (Ok tt)
  end.

(** ** [run] of the API and of the worker *)

(** The opening both share: signals, settings, logger, database, Redis, each
    with its deferred cleanup; then the body. *)
Definition connected (vars : Environment) (body : Settings -> Proc unit) : Proc unit :=
  let* _ := act (Acquire SignalHandler) in
  deferred (Release SignalHandler) (
  let* cfg := done (wrap_err "load config" (Load vars)) in
  let* _ := wrapped "build logger" (logger_New (app_Env (cf_App cfg)) (app_LogLevel (cf_App cfg))) in
  let* _ := act (Acquire LoggerBuffer) in
  deferred (Release LoggerBuffer) (
  let* _ := wrapped "connect postgres" (NewPool (cf_Postgres cfg)) in
  deferred (Release PostgresPool) (
  let* _ := wrapped "connect redis" (NewClient (cf_Redis cfg)) in
  deferred (Release RedisClient) (body cfg)))).

(** [http.Server]. *)
Record Server := mkServer { srv_Addr : string; srv_ReadTimeout : Duration; srv_WriteTimeout : Duration; srv_IdleTimeout : Duration }.
Definition http_server (cfg : HTTPConfig) : Server :=
  mkServer (":" +:+ FormatInt (http_Port cfg)) (http_ReadTimeout cfg) (http_WriteTimeout cfg) (http_IdleTimeout cfg).

Definition serve (fate : Fate) (cfg : Settings) : Proc unit :=
  let* _ := act (Serving (srv_Addr (http_server (cf_HTTP cfg)))) in
  match fate with
  | ServeReturned e => done (if is_ErrServerClosed e then Ok tt else Err (EWrap "http server" e))
  | SignalReceived shutdown =>
      let* _ := act (Draining (http_ShutdownTimeout (cf_HTTP cfg))) in
      match shutdown with
      | Some e => done (Err (EWrap "graceful shutdown" e))
      | None => act Drained
      end
  end.

Definition api_run (fate : Fate) (vars : Environment) : Proc unit := connected vars (serve fate).

(** The three loops until a signal; the process then waits for the ticks under
    way. A ticker that cannot be made kills the process ([Worker.run]); the other
    loops may have ticked before. *)
Definition loops (ticks : list Loop) (cfg : Settings) : Proc unit :=
  if existsb (NewTicker_panics cfg) [SweepLoop; AdmissionLoop; NotificationLoop]
  then (Ticking <$> filter (fun l => NewTicker_panics cfg l = false) ticks, Died "panic: non-positive interval for NewTicker")
  else (Ticking <$> ticks, Returned (Ok tt)).

Definition worker_run (ticks : list Loop) (vars : Environment) : Proc unit := connected vars (loops ticks).

(** ** [run] of the migration command *)

(** The flags, with the defaults [flag.Parse] gives them. *)
Record Flags := mkFlags { fl_direction : string; fl_steps : Z; fl_version : Z; fl_path : string }.
Definition default_flags : Flags := mkFlags "up" 0 0 "migrations".

(** Negation of a Go [int]. *)
Definition neg64 (z : Z) : Z := wrap64 (- z).

Definition command (f : Flags) : option Migration :=
  if String.eqb (fl_direction f) "up" then Some MigrateUp
  else if String.eqb (fl_direction f) "down" then
    Some (if (0 <? fl_steps f)%Z then MigrateSteps (neg64 (fl_steps f)) else MigrateDown)
  else if String.eqb (fl_direction f) "force" then Some (MigrateForce (fl_version f))
  else None.

Definition migrate (f : Flags) : Proc unit :=
  match command f with
  | None => done (Err (EText "unknown -direction (want up|down|force)"))
  | Some c =>
      let* _ := act (Migrating c) in
      done match migrate_Run c with
           | Some e => if is_ErrNoChange e then Ok tt else Err (EWrap "run migration" e)
           | None => Ok tt
           end
  end.

Definition migrate_run (f : Flags) (vars : Environment) : Proc unit :=
  let* cfg := done (wrap_err "load config" (Load vars)) in
  let* _ := done (wrap_err "init migrator" (migrate_New ("file://" +:+ fl_path f) (pg_DSN (cf_Postgres cfg)))) in
  let* _ := act (Acquire Migrator) in
  deferred (Release Migrator) (migrate f).

(** [main]: the exit code. Go exits with 2 after a panic. *)
Definition main {A} (run : Proc A) : Z :=
  match run.2 with Returned (Ok _) => 0 | Returned (Err _) => 1 | Died _ => 2 end.
End processes.

(** ** Every path closes what it opened *)

(** A piece of a process keeps to the stack: from [st] it ends in [st'] when it
    succeeds and is back at [st0] when it fails; a death leaves everything open
    but nothing misused. *)
Definition keeps_to {A} (p : Proc A) (st st' st0 : list Resource) : Prop :=
  match p.2 with
  | Returned (Ok _) => replay st p.1 = Some st'
  | Returned (Err _) => replay st p.1 = Some st0
  | Died _ => is_Some (replay st p.1)
  end.

Lemma keeps_done {A} (r : result A) st : keeps_to (done r) st st st.
Proof. by destruct r. Qed.

Lemma keeps_act a st st' st0 : replay1 st a = Some st' -> keeps_to (act a) st st' st0.
Proof. unfold keeps_to. simpl. by intros ->. Qed.

Lemma keeps_wrapped {A} msg (p : Proc A) st st' st0 : keeps_to p st st' st0 -> keeps_to (wrapped msg p) st st' st0.
Proof. unfold keeps_to, wrapped. destruct p as [t [[]|]]; done. Qed.

Lemma keeps_after {A B} (p : Proc A) (f : A -> Proc B) st st1 st2 st0 :
  keeps_to p st st1 st0 -> (forall a, keeps_to (f a) st1 st2 st0) -> keeps_to (after p f) st st2 st0.
Proof.
  unfold keeps_to, after. destruct p as [t [[a|e]|why]]; simpl; [|done..].
  intros Ht Hf. specialize (Hf a). destruct (f a) as [t' [[]|]]; simpl in *; by rewrite replay_trace_app, Ht.
Qed.

Lemma keeps_deferred {A} (p : Proc A) r st : keeps_to p (r :: st) (r :: st) (r :: st) -> keeps_to (deferred (Release r) p) (r :: st) st st.
Proof.
  unfold keeps_to, deferred. destruct p as [t [[]|]]; simpl; [..|done]; intros Ht;
    rewrite replay_trace_app, Ht; simpl; by rewrite bool_decide_true.
Qed.

Section lifecycle.
Context `{P : Machine} `{V : ValidatorPkg} `{EP : EnvPkg}.

Definition opened : list Resource := [RedisClient; PostgresPool; LoggerBuffer; SignalHandler].

Lemma keeps_logger e l st : keeps_to (logger_New e l) st st st.
Proof. unfold logger_New. destruct (zap_ParseLevel l); apply keeps_done. Qed.

(** Opening a client whose first ping may fail. *)
Lemma keeps_pinged (r : Resource) (ping : result unit) msg st : r ∉ st ->
  keeps_to (let* _ := act (Acquire r) in
    match ping with Err e => let* _ := act (Release r) in done (Err (EWrap msg e)) | Ok _ => done (Ok tt) end) st (r :: st) st.
Proof.
  intros Hr. apply keeps_after with (st1 := r :: st); [apply keeps_act; simpl; by rewrite bool_decide_false|].
  intros _. destruct ping as [|e]; [by unfold keeps_to|]. unfold keeps_to. simpl. by rewrite bool_decide_true.
Qed.

Lemma keeps_pool cfg st : PostgresPool ∉ st -> keeps_to (NewPool cfg) st (PostgresPool :: st) st.
Proof.
  intros Hr. unfold NewPool. destruct (pgxpool_ParseConfig _); [|done]. destruct (pgxpool_NewWithConfig _); [|done].
  by apply keeps_pinged.
Qed.

Lemma keeps_client cfg st : RedisClient ∉ st -> keeps_to (NewClient cfg) st (RedisClient :: st) st.
Proof. by apply keeps_pinged. Qed.

Lemma keeps_connected vars body :
  (forall cfg, keeps_to (body cfg) opened opened opened) -> keeps_to (connected vars body) [] [] [].
Proof.
  intros Hb. unfold connected.
  eapply keeps_after; [by apply keeps_act|]. intros _. apply keeps_deferred.
  eapply keeps_after; [apply keeps_done|]. intros cfg.
  eapply keeps_after; [apply keeps_wrapped, keeps_logger|]. intros _.
  eapply keeps_after; [by apply keeps_act|]. intros _. apply keeps_deferred.
  eapply keeps_after; [apply keeps_wrapped, keeps_pool; set_solver|]. intros _. apply keeps_deferred.
  eapply keeps_after; [apply keeps_wrapped, keeps_client; set_solver|]. intros _. by apply keeps_deferred.
Qed.

Lemma keeps_serve fate cfg : keeps_to (serve fate cfg) opened opened opened.
Proof.
  eapply keeps_after; [by apply keeps_act|]. intros _. destruct fate as [e|s]; [apply keeps_done|].
  eapply keeps_after; [by apply keeps_act|]. intros _. destruct s; [apply keeps_done|by apply keeps_act].
Qed.

Lemma replay_ticks ticks : replay opened (Ticking <$> ticks) = Some opened.
Proof. induction ticks as [|l ticks IH]; [done|exact IH]. Qed.

Lemma keeps_loops ticks cfg : keeps_to (loops ticks cfg) opened opened opened.
Proof. unfold loops. destruct (existsb _ _); [|apply replay_ticks]. eexists. apply replay_ticks. Qed.

Lemma keeps_migrate f : keeps_to (migrate f) [Migrator] [Migrator] [Migrator].
Proof.
  unfold migrate. destruct (command f); [|apply keeps_done].
  eapply keeps_after; [by apply keeps_act|]. intros _. apply keeps_done.
Qed.

Lemma keeps_migrate_run f vars : keeps_to (migrate_run f vars) [] [] [].
Proof.
  unfold migrate_run. eapply keeps_after; [apply keeps_done|]. intros cfg. eapply keeps_after; [apply keeps_done|].
  intros _. eapply keeps_after; [by apply keeps_act|]. intros _. apply keeps_deferred, keeps_migrate.
Qed.

(** Returning, as opposed to dying. *)
Definition returns {A} (p : Proc A) : Prop := match p.2 with Returned _ => True | Died _ => False end.

Lemma returns_after {A B} (p : Proc A) (f : A -> Proc B) : returns p -> (forall a, returns (f a)) -> returns (after p f).
Proof. unfold returns, after. destruct p as [t [[a|]|]]; simpl; [|done..]. intros _ Hf. apply Hf. Qed.
Lemma returns_deferred {A} a (p : Proc A) : returns p -> returns (deferred a p).
Proof. unfold returns, deferred. by destruct p. Qed.
Lemma returns_wrapped {A} msg (p : Proc A) : returns p -> returns (wrapped msg p).
Proof. unfold returns, wrapped. by destruct p as [t []]. Qed.

Lemma keeps_returned {A} (p : Proc A) : keeps_to p [] [] [] -> returns p -> replay [] p.1 = Some [].
Proof. unfold keeps_to, returns. by destruct p.2 as [[]|]. Qed.

Lemma returns_connected vars body :
  (forall cfg, returns (body cfg)) -> returns (connected vars body).
Proof.
  intros Hb. unfold connected. apply returns_after; [done|intros _]. apply returns_deferred.
  apply returns_after; [done|intros cfg]. apply returns_after; [|intros _].
  { apply returns_wrapped. unfold logger_New. by destruct (zap_ParseLevel _). }
  apply returns_after; [done|intros _]. apply returns_deferred. apply returns_after; [|intros _].
  { apply returns_wrapped. unfold NewPool. destruct (pgxpool_ParseConfig _); [|done].
    destruct (pgxpool_NewWithConfig _); [|done]. by destruct pgxpool_Ping. }
  apply returns_deferred. apply returns_after; [|intros _; apply returns_deferred, Hb].
  apply returns_wrapped. unfold NewClient. simpl. by destruct (redis_Ping _).
Qed.

Lemma api_returns fate vars : returns (api_run fate vars).
Proof. apply returns_connected. intros cfg. by destruct fate as [|[]]. Qed.

(** When [Shutdown] drains, the handlers have what they need. *)
Lemma api_covered vars : covered false [] (api_run (SignalReceived None) vars).1 = true.
Proof.
  unfold api_run, connected, logger_New, NewPool, NewClient, after, deferred, wrapped, done, act. simpl.
  destruct (Load vars) as [cfg|]; [|done]. simpl. destruct (zap_ParseLevel _); [|done]. simpl. destruct (zap_Build _ _); [|done]. simpl.
  destruct (pgxpool_ParseConfig _); [|done]. destruct (pgxpool_NewWithConfig _); [|done]. simpl.
  destruct pgxpool_Ping; [|done]. simpl. by destruct (redis_Ping _).
Qed.

Lemma migrate_returns f vars : returns (migrate_run f vars).
Proof.
  unfold migrate_run. apply returns_after; [done|intros cfg]. apply returns_after; [done|intros _].
  apply returns_after; [done|intros _]. apply returns_deferred. unfold migrate. by destruct (command f).
Qed.

(** C32: no process leaks: whatever the settings, the libraries, the network and the
    operator do, an API, a worker or a migration that returns has closed every
    resource it opened, once, in the opposite order; the server is started and
    shut down, the loops tick and migrations run only while what they need is
    open. The API and the migration always return; a worker that dies has misused
    nothing. When the API is signalled and its [Shutdown] returns without an
    error, the handlers of the requests, however their steps interleave with the
    main goroutine, run only while Postgres and Redis are open. (After a
    [Shutdown] that fails this is not so: [timed_out_shutdown_race].) *)
Theorem processes_close_what_they_open fate ticks f vars :
  replay [] (api_run fate vars).1 = Some [] /\ replay [] (migrate_run f vars).1 = Some [] /\
  (forall t, handled false (api_run (SignalReceived None) vars).1 t -> replay [] t = Some []) /\
  match (worker_run ticks vars).2 with
  | Returned _ => replay [] (worker_run ticks vars).1 = Some []
  | Died _ => is_Some (replay [] (worker_run ticks vars).1)
  end.
Proof.
  split_and!.
  - eapply keeps_returned; [apply keeps_connected, keeps_serve|apply api_returns].
  - eapply keeps_returned; [apply keeps_migrate_run|apply migrate_returns].
  - intros t Ht. rewrite (replay_handled _ _ _ _ Ht (api_covered vars)).
    eapply keeps_returned; [apply keeps_connected, keeps_serve|apply api_returns].
  - pose proof (keeps_connected vars (loops ticks) (keeps_loops ticks)) as Hk. unfold keeps_to in Hk. fold (worker_run ticks vars) in Hk.
    by destruct (worker_run ticks vars).2 as [[]|].
Qed.

(** ** Exit codes *)

(** What it takes to start: the specification of [connected]. *)
Record starts (vars : Environment) (cfg : Settings) : Prop := {
  st_load : Load vars = Ok cfg;
  st_logger : exists lvl, zap_ParseLevel (app_LogLevel (cf_App cfg)) = Ok lvl /\
    is_ok (zap_Build (logger_config (app_Env (cf_App cfg))) lvl) = true;
  st_pool : exists dsn, pgxpool_ParseConfig (pg_DSN (cf_Postgres cfg)) = Ok dsn /\
    is_ok (pgxpool_NewWithConfig (pool_config (cf_Postgres cfg) dsn)) = true;
  st_postgres : is_ok pgxpool_Ping = true;
  st_redis : is_ok (redis_Ping (redis_options (cf_Redis cfg))) = true }.

(** The work in a trace. *)
Definition works (t : list Act) : list Act := filter (fun a => required a <> []) t.

Lemma works_acquire r t : works (Acquire r :: t) = works t.
Proof. done. Qed.
Lemma works_release r t : works (t ++ [Release r]) = works t.
Proof. unfold works. rewrite filter_app. apply app_nil_r. Qed.

Lemma connected_starts vars cfg body : starts vars cfg ->
  main (connected vars body) = main (body cfg) /\ works (connected vars body).1 = works (body cfg).1.
Proof.
  intros [Hl (lvl & Hlvl & Hbuild) (dsn & Hdsn & Hnew) Hping Hredis].
  unfold connected, logger_New, NewPool, NewClient, after, deferred, wrapped, done, act. simpl. rewrite Hl. simpl. rewrite Hlvl. simpl.
  destruct (zap_Build _ _); [|done]. rewrite Hdsn. destruct (pgxpool_NewWithConfig _); [|done]. simpl.
  destruct pgxpool_Ping; [|done]. simpl. destruct (redis_Ping _); [|done]. simpl.
  destruct (body cfg) as [t [[]|]]; (split; [done|]); simpl;
    by rewrite ?works_acquire, ?works_release.
Qed.

Lemma connected_refuses vars body : (forall cfg, ~ starts vars cfg) ->
  main (connected vars body) = 1%Z /\ works (connected vars body).1 = [].
Proof.
  intros Hn. unfold connected, logger_New, NewPool, NewClient, after, deferred, wrapped, done, act. simpl.
  destruct (Load vars) as [cfg|] eqn:Hl; [|done]. simpl.
  destruct (zap_ParseLevel _) as [lvl|] eqn:Hlvl; [|done]. simpl. destruct (zap_Build _ _) eqn:Hb; [|done]. simpl.
  destruct (pgxpool_ParseConfig _) as [dsn|] eqn:Hdsn; [|done]. destruct (pgxpool_NewWithConfig _) eqn:Hnew; [|done]. simpl.
  destruct pgxpool_Ping eqn:Hping; [|done]. simpl. destruct (redis_Ping _) eqn:Hr; [|done].
  destruct (Hn cfg). split; [done|exists lvl; by rewrite Hb|exists dsn; by rewrite Hnew|by rewrite Hping|by rewrite Hr].
Qed.

Lemma starts_dec vars : (exists cfg, starts vars cfg) \/ forall cfg, ~ starts vars cfg.
Proof.
  destruct (Load vars) as [cfg|] eqn:Hl; [|right; intros cfg []; congruence].
  destruct (zap_ParseLevel (app_LogLevel (cf_App cfg))) as [lvl|] eqn:Hlvl;
    [|right; intros cfg' [? (? & ? & _) _ _ _]; simplify_eq; congruence].
  destruct (pgxpool_ParseConfig (pg_DSN (cf_Postgres cfg))) as [dsn|] eqn:Hdsn;
    [|right; intros cfg' [? _ (? & ? & _) _ _]; simplify_eq; congruence].
  destruct (is_ok (zap_Build (logger_config (app_Env (cf_App cfg))) lvl)) eqn:Hb;
    [|right; intros cfg' [? (? & ? & ?) _ _ _]; simplify_eq; congruence].
  destruct (is_ok (pgxpool_NewWithConfig (pool_config (cf_Postgres cfg) dsn))) eqn:Hnew;
    [|right; intros cfg' [? _ (? & ? & ?) _ _]; simplify_eq; congruence].
  destruct (is_ok pgxpool_Ping) eqn:Hping; [|right; intros cfg' []; congruence].
  destruct (is_ok (redis_Ping (redis_options (cf_Redis cfg)))) eqn:Hr; [|right; intros cfg' []; simplify_eq; congruence].
  left. exists cfg. split; eauto.
Qed.

(** With zap's level names, settings that load never fail on the level. *)
Lemma loaded_level_parses `{!ValidatorLaws V, !ZapLaws P} vars cfg :
  Load vars = Ok cfg -> is_ok (zap_ParseLevel (app_LogLevel (cf_App cfg))) = true.
Proof.
  unfold Load. destruct (env_Parse _) as [c|]; [|done]. destruct (validate_Struct _) eqn:Hv; [done|]. intros [= ->].
  apply zap_levels. pose proof (settings_rule cfg 1 0 _ _ _ _ Hv eq_refl eq_refl) as Hl%(validate_oneof "debug info warn error").
  by apply list_elem_of_In.
Qed.

Definition graceful (fate : Fate) : bool :=
  match fate with ServeReturned e => is_ErrServerClosed e | SignalReceived shutdown => negb (bool_decide (is_Some shutdown)) end.

(** The API serves exactly when everything it needs answers, drains exactly when
    it was signalled, and exits with 0 exactly when it then stopped gracefully. *)
Theorem api_exit fate vars :
  (exists cfg, starts vars cfg /\ main (api_run fate vars) = (if graceful fate then 0 else 1)%Z /\
     works (api_run fate vars).1 = Serving (":" +:+ FormatInt (http_Port (cf_HTTP cfg))) ::
       match fate with SignalReceived _ => [Draining (http_ShutdownTimeout (cf_HTTP cfg))] | ServeReturned _ => [] end) \/
  ((forall cfg, ~ starts vars cfg) /\ main (api_run fate vars) = 1%Z /\ works (api_run fate vars).1 = []).
Proof.
  destruct (starts_dec vars) as [[cfg Hs]|Hn]; [left; exists cfg|right]; (split; [done|]).
  - unfold api_run. destruct (connected_starts vars cfg (serve fate) Hs) as [-> ->].
    destruct fate as [e|[]]; [|done..]. split; [|done]. unfold main. simpl. by destruct (is_ErrServerClosed e).
  - by apply connected_refuses.
Qed.

(** The worker ticks exactly when everything answers and its intervals are
    positive; otherwise it exits with 1, or dies of a ticker, at most the loops
    whose own interval is positive having ticked. *)
Theorem worker_exit ticks vars :
  (exists cfg, starts vars cfg /\
     let bad := existsb (NewTicker_panics cfg) [SweepLoop; AdmissionLoop; NotificationLoop] in
     main (worker_run ticks vars) = (if bad then 2 else 0)%Z /\
     works (worker_run ticks vars).1 =
       Ticking <$> (if bad then filter (fun l => NewTicker_panics cfg l = false) ticks else ticks)) \/
  ((forall cfg, ~ starts vars cfg) /\ main (worker_run ticks vars) = 1%Z /\ works (worker_run ticks vars).1 = []).
Proof.
  destruct (starts_dec vars) as [[cfg Hs]|Hn]; [left; exists cfg|right]; (split; [done|]).
  - unfold worker_run. cbv zeta. destruct (connected_starts vars cfg (loops ticks) Hs) as [-> ->].
    assert (Hticks : forall l, works (Ticking <$> l) = Ticking <$> l).
    { induction l as [|x l IH]; [done|]. unfold works. rewrite fmap_cons, filter_cons, decide_True by done. f_equal. exact IH. }
    unfold loops. destruct (existsb _ _); (split; [done|apply Hticks]).
  - by apply connected_refuses.
Qed.

(** The migration command runs one command and exits with 0 exactly when the
    settings load, the migrator opens, the direction is known, and the command
    succeeds or had nothing to do. *)
Theorem migrate_exit f vars :
  main (migrate_run f vars) = 0%Z <->
  exists cfg c, Load vars = Ok cfg /\ is_ok (migrate_New ("file://" +:+ fl_path f) (pg_DSN (cf_Postgres cfg))) = true /\
    command f = Some c /\ match migrate_Run c with None => True | Some e => is_ErrNoChange e = true end.
Proof.
  unfold migrate_run, migrate, after, deferred, done, act, main. simpl.
  destruct (Load vars) as [cfg|] eqn:Hl; simpl; [|split; [done|intros (? & ? & [=] & _)]].
  destruct (migrate_New _ _) eqn:Hnew; simpl; [|split; [done|intros (? & ? & [= <-] & H & _); by rewrite Hnew in H]].
  destruct (command f) as [c|] eqn:Hc; simpl; [|split; [done|intros (? & ? & _ & _ & [=] & _)]].
  destruct (migrate_Run c) as [e|] eqn:Hr; [destruct (is_ErrNoChange e) eqn:He; simpl|simpl].
  - split; [intros _|done]. exists cfg, c. by rewrite Hnew, Hr.
  - split; [done|]. intros (? & ? & _ & _ & [= <-] & H). by rewrite Hr, He in H.
  - split; [intros _|done]. exists cfg, c. by rewrite Hnew, Hr.
Qed.

(** A positive number of steps is passed on negated, never wrapped around. *)
Lemma down_steps f : fl_direction f = "down" -> in_int64 (fl_steps f) -> (0 < fl_steps f)%Z ->
  command f = Some (MigrateSteps (- fl_steps f)).
Proof.
  unfold in_int64, int64_min, int64_max. intros Hd Hr Hp. unfold command, neg64, wrap64. rewrite Hd. simpl. rewrite (proj2 (Z.ltb_lt _ _) Hp).
  do 2 f_equal. rewrite Z.mod_small by lia. lia.
Qed.

(** Only [0] is documented to mean all, but a negative number of steps rolls
    back every migration as well. *)
Lemma negative_steps_roll_back_all f : fl_direction f = "down" -> (fl_steps f < 0)%Z -> command f = Some MigrateDown.
Proof. intros Hd Hn. unfold command. rewrite Hd. simpl. by rewrite (proj2 (Z.ltb_ge _ _)) by lia. Qed.
End lifecycle.

(** ** A concrete machine *)

(** A machine on which everything answers, but Redis as told. *)
Definition fx_machine (redis_up : bool) : Machine := {|
  pgx_DSN := string;
  pgxpool_ParseConfig := Ok;
  pgxpool_NewWithConfig _ := Ok tt;
  pgxpool_Ping := Ok tt;
  redis_Ping _ := if redis_up then Ok tt else Err (EText "connection refused");
  zap_Level := string;
  zap_ParseLevel s := if bool_decide (s ∈ ["debug"; "info"; "warn"; "error"]) then Ok s else Err (EText "unrecognized level");
  zap_Build _ _ := Ok tt;
  migrate_New _ _ := Ok tt;
  migrate_Run c := match c with MigrateUp => Some (EText "no change") | _ => None end;
  is_ErrServerClosed _ := false;
  is_ErrNoChange e := bool_decide (e = EText "no change") |}.

#[export] Instance fx_zap_laws b : ZapLaws (fx_machine b).
Proof. intros s Hs. simpl. by rewrite bool_decide_true. Qed.

(** A graceful shutdown, a start without Redis, and a migration with nothing to do. *)
Example fx_shutdown :
  api_run (P := fx_machine true) (SignalReceived None) (fun _ => None) =
  ([Acquire SignalHandler; Acquire LoggerBuffer; Acquire PostgresPool; Acquire RedisClient; Serving ":8080";
    Draining (15 * Second); Drained; Release RedisClient; Release PostgresPool; Release LoggerBuffer; Release SignalHandler],
   Returned (Ok tt)).
Proof. vm_compute. reflexivity. Qed.

(** When the requests are not over within the timeout, [run] returns and its
    deferred calls close Redis while they are still handled. *)
Example timed_out_shutdown_race : exists t,
  handled false (api_run (P := fx_machine true) (SignalReceived (Some (EText "context deadline exceeded"))) (fun _ => None)).1 t /\
  replay [] t = None.
Proof.
  exists [Acquire SignalHandler; Acquire LoggerBuffer; Acquire PostgresPool; Acquire RedisClient; Serving ":8080"; Draining (15 * Second);
    Release RedisClient; Handling; Release PostgresPool; Release LoggerBuffer; Release SignalHandler].
  split; [|vm_compute; reflexivity].
  match goal with |- handled _ ?t _ => let t' := eval vm_compute in t in change t with t' end.
  repeat (apply handled_main; cbn [serving_after]). apply handled_request. repeat (apply handled_main; cbn [serving_after]). constructor.
Qed.

Example fx_no_redis :
  api_run (P := fx_machine false) (SignalReceived None) (fun _ => None) =
  ([Acquire SignalHandler; Acquire LoggerBuffer; Acquire PostgresPool; Acquire RedisClient; Release RedisClient;
    Release PostgresPool; Release LoggerBuffer; Release SignalHandler],
   Returned (Err (EWrap "connect redis" (EWrap "redis: ping" (EText "connection refused"))))).
Proof. vm_compute. reflexivity. Qed.

Example fx_up_to_date : main (migrate_run (P := fx_machine true) default_flags (fun _ => None)) = 0%Z.
Proof. vm_compute. reflexivity. Qed.
